(** * R-App reporting dashboard: the client-side controller

    A shallow embedding of the reporting frontend's controller script
    (fetch retries, data-source cache, filter payload and batch
    processing, result classification, lazy table rendering, filter
    timers) together with the properties its specification states.

    JavaScript values are modelled as the script uses them: counts and
    indices as [nat], millisecond delays as [Z], names and messages as
    [string], the text typed into an input as a list of UTF-16 code
    units, the cache object as a [gmap] keyed by source name. *)

From Stdlib Require Import ZArith Lia.
From stdpp Require Import base gmap strings list pretty.


(** ** Strings *)

Module JsString.

(** [String.prototype.includes] on messages. *)
Fixpoint includes (needle hay : string) : bool :=
  String.prefix needle hay ||
  match hay with
  | EmptyString => false
  | String _ rest => includes needle rest
  end.

(** A JS string is truthy when it is not empty. *)
Definition truthy (s : string) : bool :=
  match s with EmptyString => false | _ => true end.

End JsString.

(** ** fetchWithRetry *)

Module FetchRetry.
Import JsString.

(** An exception object, as the handlers look at it. *)
Record JsError := { err_name : string; err_message : string }.

(** [new Error(msg)] *)
Definition mkError (msg : string) : JsError :=
  {| err_name := "Error"; err_message := msg |}.

(** What the platform's [fetch] does with one call: it resolves with a
    response, rejects by itself (a network failure is a [TypeError]),
    or stays pending until somebody aborts its signal. *)
Inductive FetchBehaviour :=
| Responds (status : nat) (statusText : string)
| Rejects (e : JsError)
| StaysPending.

(** [response.ok] *)
Definition response_ok (status : nat) : bool :=
  (200 <=? status) && (status <=? 299).

(** The number [timeoutMs/1000] as the template literal prints it, for
    a whole number of milliseconds. *)
Fixpoint strip_zeros (ds : list N) : list N :=
  match ds with
  | [] => []
  | d :: rest =>
      match strip_zeros rest with
      | [] => if (d =? 0)%N then [] else [d]
      | rest' => d :: rest'
      end
  end.

Definition fraction_digits (r : N) : string :=
  match strip_zeros [r / 100; (r / 10) mod 10; r mod 10]%N with
  | [] => ""
  | ds => "." +:+ foldr (fun d s => pretty d +:+ s) "" ds
  end.

Definition seconds_string (timeoutMs : N) : string :=
  pretty (timeoutMs / 1000)%N +:+ fraction_digits (timeoutMs mod 1000)%N.

(** The reason handed to [controller.abort] by the timeout timer. *)
Definition timeout_reason (timeoutMs : N) : JsError :=
  mkError ("Request timeout after " +:+ seconds_string timeoutMs +:+ "s").

(** The outcome of one pass through the [try] block. *)
Inductive Attempt :=
| Got (status : nat) (statusText : string)
| Threw (e : JsError)
| NeverSettles.

(** The body of the [try]: the request carries the signal of a fresh
    controller (the caller's [options.signal] is overwritten), so the
    only abort is the one of the timeout timer, armed when
    [options.timeout] is a positive number; an aborted [fetch] rejects
    with the reason given to [abort]. *)
Definition try_block (timeout : option N) (b : FetchBehaviour) : Attempt :=
  match b with
  | Responds status statusText =>
      if response_ok status then Got status statusText
      else Threw (mkError ("HTTP " +:+ pretty status +:+ ": " +:+ statusText))
  | Rejects e => Threw e
  | StaysPending =>
      match timeout with
      | Some timeoutMs =>
          if (0 <? timeoutMs)%N then Threw (timeout_reason timeoutMs) else NeverSettles
      | None => NeverSettles
      end
  end.

(** The error thrown by the attempt numbered [n], if it throws. *)
Definition failure_of (timeout : option N) (network : nat -> FetchBehaviour)
    (n : nat) : option JsError :=
  match try_block timeout (network n) with
  | Threw e => Some e
  | _ => None
  end.

Definition isRetryableError (error : JsError) : bool :=
  String.eqb (err_name error) "TypeError"
  || (String.eqb (err_name error) "AbortError"
      && truthy (err_message error) && includes "timeout" (err_message error))
  || (truthy (err_message error) && includes "ERR_CONNECTION" (err_message error))
  || (truthy (err_message error) && includes "HTTP 5" (err_message error)).

(** What the function does that can be seen from outside. *)
Inductive Event :=
| EvFetch (attempt : nat)
| EvDiagnostics (attempt : nat)
| EvSleep (attempt : nat) (delay : Z).

Inductive Outcome :=
| Returned (status : nat) (statusText : string)
| Thrown (lastError : option JsError)
| Pending
| OutOfFuel.

Section Loop.
(** [options.timeout], [maxRetries], [initialDelay], and the
    behaviour of the network at the n-th call of [fetch].  Every call
    site passes a literal count (0, 2 or 3) for [maxRetries]. *)
Variable timeout : option N.
Variable maxRetries : nat.
Variable initialDelay : Z.
Variable network : nat -> FetchBehaviour.

(** for (let attempt = 0; attempt <= maxRetries; attempt++) *)
Fixpoint retry_loop (fuel attempt : nat) (lastError : option JsError)
  : Outcome * list Event :=
  match fuel with
  | 0 => (OutOfFuel, [])
  | S fuel' =>
      if attempt <=? maxRetries then
        match try_block timeout (network attempt) with
        | Got status statusText => (Returned status statusText, [EvFetch attempt])
        | NeverSettles => (Pending, [EvFetch attempt])
        | Threw error =>
            if attempt =? maxRetries then (Thrown (Some error), [EvFetch attempt])
            else if negb (isRetryableError error)
            then (Thrown (Some error), [EvFetch attempt])
            else
              let delay := (initialDelay * 2 ^ Z.of_nat attempt)%Z in
              let diag :=
                if S attempt =? maxRetries then [EvDiagnostics attempt] else [] in
              let '(out, evs) := retry_loop fuel' (S attempt) (Some error) in
              (out, EvFetch attempt :: diag ++ EvSleep attempt delay :: evs)
        end
      else (Thrown lastError, [])
  end.

Definition fetchWithRetry : Outcome * list Event :=
  retry_loop (S (S maxRetries)) 0 None.
End Loop.

Definition is_fetch (e : Event) : bool :=
  match e with EvFetch _ => true | _ => false end.

Definition is_diagnostics (e : Event) : bool :=
  match e with EvDiagnostics _ => true | _ => false end.

(** The attempts and the pauses of a run, without the diagnostics. *)
Definition schedule (evs : list Event) : list Event :=
  List.filter (fun e => negb (is_diagnostics e)) evs.

(** Attempts [from .. from+n-1], each followed by its pause. *)
Fixpoint retried (initialDelay : Z) (from n : nat) : list Event :=
  match n with
  | 0 => []
  | S n' =>
      EvFetch from :: EvSleep from (initialDelay * 2 ^ Z.of_nat from)%Z
        :: retried initialDelay (S from) n'
  end.

End FetchRetry.

(** ** Text typed into the filter inputs *)

Module JsText.

(** The content of an input, as UTF-16 code units. *)
Definition text : Type := list N.

(** The code units of an ASCII literal. *)
Definition of_string (s : string) : text :=
  List.map (fun c => N.of_nat (Ascii.nat_of_ascii c)) (String.list_ascii_of_string s).

(** White space and line terminators: what [\s] matches and what
    [String.prototype.trim] removes. *)
Definition is_white_space (c : N) : bool :=
  ((9 <=? c) && (c <=? 13) || (c =? 32) || (c =? 160) || (c =? 5760)
   || (8192 <=? c) && (c <=? 8202) || (c =? 8232) || (c =? 8233)
   || (c =? 8239) || (c =? 8287) || (c =? 12288) || (c =? 65279))%N.

(** The character class of the regular expression /[,;\s]+/. *)
Definition is_separator (c : N) : bool :=
  ((c =? 44) || (c =? 59))%N || is_white_space c.

Fixpoint trim_start (s : text) : text :=
  match s with
  | c :: rest => if is_white_space c then trim_start rest else s
  | [] => []
  end.

Definition trim (s : text) : text :=
  rev (trim_start (rev (trim_start s))).

(** [s.split(/[,;\s]+/)] on a non-empty string: the pieces between the
    maximal runs of separators, an empty piece in front of a leading
    run and after a trailing one.  [piece] holds the current piece in
    reverse, [in_run] says that the last unit read was a separator. *)
Fixpoint split_go (in_run : bool) (piece : text) (s : text) : list text :=
  match s with
  | [] => [rev piece]
  | c :: rest =>
      if is_separator c then
        if in_run then split_go true piece rest
        else rev piece :: split_go true [] rest
      else split_go false (c :: piece) rest
  end.

Definition split_separators (s : text) : list text := split_go false [] s.

(** The tokens of a text, following the description of the manual
    lists: the maximal runs of units that are neither a comma, a
    semicolon nor white space, in the order of the text. *)
Definition flush (word : text) : list text :=
  match word with [] => [] | _ => [word] end.

Fixpoint tokens_go (word : text) (s : text) : list text :=
  match s with
  | [] => flush word
  | c :: rest =>
      if is_separator c then flush word ++ tokens_go [] rest
      else tokens_go (word ++ [c]) rest
  end.

Definition tokens (s : text) : list text := tokens_go [] s.

(** A text without separators. *)
Definition plain (t : text) : Prop := Forall (fun c => is_separator c = false) t.

(** [Boolean] on a string. *)
Definition non_empty (s : text) : bool :=
  match s with [] => false | _ => true end.

(** [array.slice(from, to)] for indices that are not negative. *)
Definition slice {A} (from to : nat) (l : list A) : list A :=
  take (to - from) (drop from l).

End JsText.

(** ** The data table and its progressive rendering *)

Module LazyTable.
Import JsText.

Definition LAZY_LOAD_CHUNK_SIZE : nat := 50.
Definition LAZY_LOAD_INITIAL_SIZE : nat := 100.

(** A row of a result: column name and value. *)
Definition Row : Type := list (string * string).

(** What the trigger row shows. *)
Inductive TriggerContent := TriggerIdle | TriggerLoading | TriggerFailed.

(** The rows of the table body: a data row with its [data-row-index],
    the notice shown for an empty result, and the trigger row of class
    [load-more-trigger-row] with its [style.display]. *)
Inductive BodyRow :=
| DataRow (index : nat) (row : Row)
| NoDataNotice
| TriggerRow (displayed : bool) (content : TriggerContent).

Definition is_trigger (r : BodyRow) : bool :=
  match r with TriggerRow _ _ => true | _ => false end.

(** rowsData.forEach((row, index) => ... dataTableBody.appendChild(tr)) *)
Definition renderTableRows (rowsData : list Row) (startIndex : nat)
    (body : list BodyRow) : list BodyRow :=
  body ++ imap (fun index row => DataRow (startIndex + index) row) rowsData.

(** Appends the trigger row; the observer created just before watches it. *)
Definition setupLazyLoadTrigger (body : list BodyRow) : list BodyRow :=
  body ++ [TriggerRow true TriggerIdle].

Definition renderDataTable (data : list Row) : list BodyRow :=
  if length data =? 0 then [NoDataNotice]
  else if LAZY_LOAD_INITIAL_SIZE <? length data then
    setupLazyLoadTrigger
      (renderTableRows (slice 0 LAZY_LOAD_INITIAL_SIZE data) 0 [])
  else renderTableRows data 0 [].

(** What the filter request of a chunk load brings back. *)
Inductive ChunkReply :=
| ChunkData (totalData : list Row)
| ChunkFailure.

(** document.querySelectorAll('#data-table tbody tr:not(.load-more-trigger-row)').length *)
Definition currentRowCount (body : list BodyRow) : nat :=
  length (List.filter (fun r => negb (is_trigger r)) body).

(** [style.display = 'none'] on the trigger row. *)
Definition hide_trigger (body : list BodyRow) : list BodyRow :=
  List.map (fun r => match r with
                     | TriggerRow _ c => TriggerRow false c
                     | _ => r
                     end) body.

(** [innerHTML = ...] on the trigger row. *)
Definition set_trigger_content (c : TriggerContent) (body : list BodyRow)
    : list BodyRow :=
  List.map (fun r => match r with
                     | TriggerRow d _ => TriggerRow d c
                     | _ => r
                     end) body.

(** [dataTableBody.insertBefore(tr, loadMoreElement)] for each new row;
    [None] when the trigger row is not a child of the body, where the
    DOM call throws. *)
Fixpoint insert_before_trigger (rows : list BodyRow) (body : list BodyRow)
    : option (list BodyRow) :=
  match body with
  | [] => None
  | r :: rest =>
      if is_trigger r then Some (rows ++ r :: rest)
      else option_map (cons r) (insert_before_trigger rows rest)
  end.

Definition loadMoreChunk (reply : ChunkReply) (body : list BodyRow)
    : list BodyRow :=
  match reply with
  | ChunkFailure => set_trigger_content TriggerFailed body
  | ChunkData totalData =>
      let current := currentRowCount body in
      if length totalData <=? current then hide_trigger body
      else
        let body1 := set_trigger_content TriggerLoading body in
        let endIndex := Nat.min (current + LAZY_LOAD_CHUNK_SIZE) (length totalData) in
        let newRows := slice current endIndex totalData in
        let trs := imap (fun index rowData => DataRow (current + index) rowData) newRows in
        match insert_before_trigger trs body1 with
        | None => set_trigger_content TriggerFailed body1
        | Some body2 =>
            if length totalData <=? endIndex then hide_trigger body2
            else set_trigger_content TriggerIdle body2
        end
  end.

(** The observer reports an intersection only for a trigger row that
    is laid out: one in the body whose display is not [none]. *)
Definition trigger_can_intersect (body : list BodyRow) : bool :=
  existsb (fun r => match r with TriggerRow true _ => true | _ => false end) body.

(** The observer's callback when the user scrolls to the end of the
    table: [None] when no load is started. *)
Definition on_scroll_to_end (reply : ChunkReply) (body : list BodyRow)
    : option (list BodyRow) :=
  if trigger_can_intersect body then Some (loadMoreChunk reply body) else None.

(** Data rows numbered from [start]. *)
Definition numbered (start : nat) (rows : list Row) : list BodyRow :=
  imap (fun index row => DataRow (start + index) row) rows.

(** Rows among which there is no trigger row. *)
Definition plain_rows (rows : list BodyRow) : Prop :=
  Forall (fun r => is_trigger r = false) rows.

(** The data rows of a body, in order. *)
Definition data_rows (body : list BodyRow) : list Row :=
  omap (fun r => match r with DataRow _ row => Some row | _ => None end) body.

(** Scrolling to the end [n] times, the backend answering [data] each time. *)
Fixpoint scroll_times (n : nat) (data : list Row) (body : list BodyRow)
    : list BodyRow :=
  match n with
  | 0 => body
  | S n' =>
      match on_scroll_to_end (ChunkData data) body with
      | Some body' => scroll_times n' data body'
      | None => body
      end
  end.

End LazyTable.

(** ** The filter pipeline: payload, batches, classification *)

Module Filters.
Import JsText LazyTable.

(** *** The state the functions share *)

(** The controls of the filter panel. *)
Record Inputs := {
  skuHijoInput : text;
  skuPadreInput : text;
  ticketFilterInput : text;
  lineamientoFilterInput : text;
  batchProcessHijoCheckbox : bool;
  batchProcessPadreCheckbox : bool;
  extendSkuHijoCheckbox : bool;
  priorityColoringToggle : bool;
  (** the inputs of class [custom-text-filter-input]: column and value *)
  customTextFilterInputs : list (string * text);
  (** the selects of class [filter-select]: column and selected options *)
  filterSelects : list (string * list string)
}.

Record FileInfo := {
  displayName : option string;
  fileName : option string;
  columns : list string;
  rowCount : Z;
  cache_ttl_seconds : Z
}.

(** The [priority_info] of a query result; [{}] has none of the fields. *)
Record PriorityInfo := {
  info_has_priority_column : option bool;
  column_name : option string;
  priority_counts : option (gmap string nat);
  row_priorities : option (gmap nat string)
}.

Definition no_priority_info : PriorityInfo :=
  {| info_has_priority_column := None; column_name := None;
     priority_counts := None; row_priorities := None |}.

(** An entry of [dataSourceCache]. *)
Record CacheEntry := {
  fileInfo : FileInfo;
  filterOptions : gmap string (list string);
  filterConfig : list string;
  ttl : Z;
  displayData : list Row;
  filteredRowCount : nat;
  valueFilters : gmap string (list string);
  selectedColumns : list string;
  entryPage : nat;
  hasPriorityColumn : bool;
  priorityInfo : PriorityInfo
}.

(** The lists of values not found, gathered over the batches of a run. *)
Record NotFoundSkus := { hijo : list text; padre : list text }.

Record App := {
  currentBlobDisplayName : option string;
  currentBlobFilename : option string;
  skuHijoFileLoaded : bool;
  skuPadreFileLoaded : bool;
  currentSelectedDisplayColumns : list string;
  (** the field [hiddenColumnsConfig] of the store *)
  hiddenColumnsConfig : list string;
  dataSourceCache : gmap string CacheEntry;
  inputs : Inputs;
  currentPage : nat;
  batchProcessCancelled : bool;
  allBatchNotFoundSkus : NotFoundSkus;
  skusNoEncontrados : list text;
  tableBody : list BodyRow
}.

Definition with_cache (c : gmap string CacheEntry) (a : App) : App :=
  {| currentBlobDisplayName := currentBlobDisplayName a;
     currentBlobFilename := currentBlobFilename a;
     skuHijoFileLoaded := skuHijoFileLoaded a;
     skuPadreFileLoaded := skuPadreFileLoaded a;
     currentSelectedDisplayColumns := currentSelectedDisplayColumns a;
     hiddenColumnsConfig := hiddenColumnsConfig a;
     dataSourceCache := c;
     inputs := inputs a;
     currentPage := currentPage a;
     batchProcessCancelled := batchProcessCancelled a;
     allBatchNotFoundSkus := allBatchNotFoundSkus a;
     skusNoEncontrados := skusNoEncontrados a;
     tableBody := tableBody a |}.

Definition with_inputs (i : Inputs) (a : App) : App :=
  {| currentBlobDisplayName := currentBlobDisplayName a;
     currentBlobFilename := currentBlobFilename a;
     skuHijoFileLoaded := skuHijoFileLoaded a;
     skuPadreFileLoaded := skuPadreFileLoaded a;
     currentSelectedDisplayColumns := currentSelectedDisplayColumns a;
     hiddenColumnsConfig := hiddenColumnsConfig a;
     dataSourceCache := dataSourceCache a;
     inputs := i;
     currentPage := currentPage a;
     batchProcessCancelled := batchProcessCancelled a;
     allBatchNotFoundSkus := allBatchNotFoundSkus a;
     skusNoEncontrados := skusNoEncontrados a;
     tableBody := tableBody a |}.

Definition with_page (p : nat) (a : App) : App :=
  {| currentBlobDisplayName := currentBlobDisplayName a;
     currentBlobFilename := currentBlobFilename a;
     skuHijoFileLoaded := skuHijoFileLoaded a;
     skuPadreFileLoaded := skuPadreFileLoaded a;
     currentSelectedDisplayColumns := currentSelectedDisplayColumns a;
     hiddenColumnsConfig := hiddenColumnsConfig a;
     dataSourceCache := dataSourceCache a;
     inputs := inputs a;
     currentPage := p;
     batchProcessCancelled := batchProcessCancelled a;
     allBatchNotFoundSkus := allBatchNotFoundSkus a;
     skusNoEncontrados := skusNoEncontrados a;
     tableBody := tableBody a |}.

Definition with_batch (cancelled : bool) (nf : NotFoundSkus) (a : App) : App :=
  {| currentBlobDisplayName := currentBlobDisplayName a;
     currentBlobFilename := currentBlobFilename a;
     skuHijoFileLoaded := skuHijoFileLoaded a;
     skuPadreFileLoaded := skuPadreFileLoaded a;
     currentSelectedDisplayColumns := currentSelectedDisplayColumns a;
     hiddenColumnsConfig := hiddenColumnsConfig a;
     dataSourceCache := dataSourceCache a;
     inputs := inputs a;
     currentPage := currentPage a;
     batchProcessCancelled := cancelled;
     allBatchNotFoundSkus := nf;
     skusNoEncontrados := skusNoEncontrados a;
     tableBody := tableBody a |}.

Definition with_result (nf : list text) (body : list BodyRow) (a : App) : App :=
  {| currentBlobDisplayName := currentBlobDisplayName a;
     currentBlobFilename := currentBlobFilename a;
     skuHijoFileLoaded := skuHijoFileLoaded a;
     skuPadreFileLoaded := skuPadreFileLoaded a;
     currentSelectedDisplayColumns := currentSelectedDisplayColumns a;
     hiddenColumnsConfig := hiddenColumnsConfig a;
     dataSourceCache := dataSourceCache a;
     inputs := inputs a;
     currentPage := currentPage a;
     batchProcessCancelled := batchProcessCancelled a;
     allBatchNotFoundSkus := allBatchNotFoundSkus a;
     skusNoEncontrados := nf;
     tableBody := body |}.

Definition with_columns (cols : list string) (a : App) : App :=
  {| currentBlobDisplayName := currentBlobDisplayName a;
     currentBlobFilename := currentBlobFilename a;
     skuHijoFileLoaded := skuHijoFileLoaded a;
     skuPadreFileLoaded := skuPadreFileLoaded a;
     currentSelectedDisplayColumns := cols;
     hiddenColumnsConfig := hiddenColumnsConfig a;
     dataSourceCache := dataSourceCache a;
     inputs := inputs a;
     currentPage := currentPage a;
     batchProcessCancelled := batchProcessCancelled a;
     allBatchNotFoundSkus := allBatchNotFoundSkus a;
     skusNoEncontrados := skusNoEncontrados a;
     tableBody := tableBody a |}.

Definition with_hidden (hidden : list string) (a : App) : App :=
  {| currentBlobDisplayName := currentBlobDisplayName a;
     currentBlobFilename := currentBlobFilename a;
     skuHijoFileLoaded := skuHijoFileLoaded a;
     skuPadreFileLoaded := skuPadreFileLoaded a;
     currentSelectedDisplayColumns := currentSelectedDisplayColumns a;
     hiddenColumnsConfig := hidden;
     dataSourceCache := dataSourceCache a;
     inputs := inputs a;
     currentPage := currentPage a;
     batchProcessCancelled := batchProcessCancelled a;
     allBatchNotFoundSkus := allBatchNotFoundSkus a;
     skusNoEncontrados := skusNoEncontrados a;
     tableBody := tableBody a |}.

(** *** getFilterPayload *)

Definition PAGE_SIZE : nat := 100.

(** What the functions throw. *)
Inductive Failure :=
(** Error(`Te excediste de 500 SKU!, el límite son 500. Se detectaron
    ${originalCount} valores. Para procesar más de 500, activa la
    opción ...`) *)
| LimitExceeded (originalCount : nat)
(** Error(`HTTP ${status}: ...`) or Error(`HTTP error ${status}`) *)
| HttpFailure (status : nat)
(** what a rejected [fetch] throws *)
| NetworkFailure (message : string).

Inductive Try (A : Type) :=
| Ok (a : A)
| Raise (e : Failure).
Arguments Ok {A} a.
Arguments Raise {A} e.

Definition bind {A B} (m : Try A) (k : A -> Try B) : Try B :=
  match m with
  | Ok a => k a
  | Raise e => Raise e
  end.

#[global] Instance Try_bind : MBind Try := fun A B k m => bind m k.

Definition getListFromInput (value : text) (allowBatching : bool)
    : Try (option (list text)) :=
  let text := trim value in
  if negb (non_empty text) then Ok None
  else
    let values := List.filter non_empty (List.map trim (split_separators text)) in
    if (500 <? length values) && negb allowBatching
    then Raise (LimitExceeded (length values))
    else Ok (if 0 <? length values then Some values else None).

(** The loop over the custom text inputs. *)
Fixpoint collect_custom (ins : list (string * text))
    (acc : gmap string (list text)) : Try (gmap string (list text)) :=
  match ins with
  | [] => Ok acc
  | (columnName, value) :: rest =>
      values ← getListFromInput value false;
      match values with
      | Some vs => collect_custom rest (<[columnName := vs]> acc)
      | None => collect_custom rest acc
      end
  end.

(** The loop over the selects. *)
Definition collect_selects (sels : list (string * list string))
    : gmap string (list string) :=
  foldl (fun acc '(colName, selectedOptions) =>
           if 0 <? length selectedOptions
           then <[colName := selectedOptions]> acc else acc) ∅ sels.

Record FilterPayload := {
  blob_filename : option string;
  value_filters : gmap string (list string);
  use_sku_hijo_file : bool;
  extend_sku_hijo : bool;
  sku_hijo_manual_list : option (list text);
  use_sku_padre_file : bool;
  sku_padre_manual_list : option (list text);
  ticket_manual_list : option (list text);
  lineamiento_manual_list : option (list text);
  selected_display_columns : list string;
  enable_priority_coloring : bool;
  page : nat;
  page_size : nat;
  custom_text_filters : option (gmap string (list text))
}.

Definition getFilterPayload (a : App) : Try FilterPayload :=
  let i := inputs a in
  let valueFiltersPayload := collect_selects (filterSelects i) in
  customTextFilters ← collect_custom (customTextFilterInputs i) ∅;
  hijoList ← getListFromInput (skuHijoInput i) (batchProcessHijoCheckbox i);
  padreList ← getListFromInput (skuPadreInput i) (batchProcessPadreCheckbox i);
  ticketList ← getListFromInput (ticketFilterInput i) false;
  lineamientoList ← getListFromInput (lineamientoFilterInput i) false;
  Ok {| blob_filename := currentBlobFilename a;
        value_filters := valueFiltersPayload;
        use_sku_hijo_file := skuHijoFileLoaded a;
        extend_sku_hijo := extendSkuHijoCheckbox i;
        sku_hijo_manual_list := hijoList;
        use_sku_padre_file := skuPadreFileLoaded a;
        sku_padre_manual_list := padreList;
        ticket_manual_list := ticketList;
        lineamiento_manual_list := lineamientoList;
        selected_display_columns := currentSelectedDisplayColumns a;
        enable_priority_coloring := priorityColoringToggle i;
        page := currentPage a;
        page_size := PAGE_SIZE;
        custom_text_filters :=
          if 0 <? size customTextFilters then Some customTextFilters else None |}.

(** basePayload.sku_hijo_manual_list = batch *)
Definition set_hijo_list (batch : list text) (p : FilterPayload) : FilterPayload :=
  {| blob_filename := blob_filename p; value_filters := value_filters p;
     use_sku_hijo_file := use_sku_hijo_file p; extend_sku_hijo := extend_sku_hijo p;
     sku_hijo_manual_list := Some batch;
     use_sku_padre_file := use_sku_padre_file p;
     sku_padre_manual_list := sku_padre_manual_list p;
     ticket_manual_list := ticket_manual_list p;
     lineamiento_manual_list := lineamiento_manual_list p;
     selected_display_columns := selected_display_columns p;
     enable_priority_coloring := enable_priority_coloring p;
     page := page p; page_size := page_size p;
     custom_text_filters := custom_text_filters p |}.

(** basePayload.sku_padre_manual_list = batch *)
Definition set_padre_list (batch : list text) (p : FilterPayload) : FilterPayload :=
  {| blob_filename := blob_filename p; value_filters := value_filters p;
     use_sku_hijo_file := use_sku_hijo_file p; extend_sku_hijo := extend_sku_hijo p;
     sku_hijo_manual_list := sku_hijo_manual_list p;
     use_sku_padre_file := use_sku_padre_file p;
     sku_padre_manual_list := Some batch;
     ticket_manual_list := ticket_manual_list p;
     lineamiento_manual_list := lineamiento_manual_list p;
     selected_display_columns := selected_display_columns p;
     enable_priority_coloring := enable_priority_coloring p;
     page := page p; page_size := page_size p;
     custom_text_filters := custom_text_filters p |}.

(** *** validateBatchFilters *)

Inductive BatchType := BatchHijo | BatchPadre.

(** The object the validation returns.  The early return [{ valid:
    true }] leaves the other fields undefined; its callers read them
    as "no batching". *)
Inductive Validation :=
(** valid: false, with the message that both filters cannot be
    processed in batches at once *)
| Conflict
| Valid (needsBatching : bool) (batchType : option BatchType)
        (batchValues : list text) (totalBatches : nat).

(** Math.ceil(n / 500) *)
Definition ceil_div (n d : nat) : nat :=
  n / d + (if n mod d =? 0 then 0 else 1).

Definition validateBatchFilters (i : Inputs) : Validation :=
  let hijoText := trim (skuHijoInput i) in
  let padreText := trim (skuPadreInput i) in
  if negb (non_empty hijoText) && negb (non_empty padreText)
  then Valid false None [] 0
  else
    let hijoValues :=
      if non_empty hijoText
      then List.filter non_empty (split_separators hijoText) else [] in
    let padreValues :=
      if non_empty padreText
      then List.filter non_empty (split_separators padreText) else [] in
    let hijoBatchEnabled := batchProcessHijoCheckbox i in
    let padreBatchEnabled := batchProcessPadreCheckbox i in
    let hijoExceeds500 := 500 <? length hijoValues in
    let padreExceeds500 := 500 <? length padreValues in
    if hijoBatchEnabled && padreBatchEnabled && hijoExceeds500 && padreExceeds500
    then Conflict
    else
      let '(batchType, batchValues) :=
        if hijoBatchEnabled && hijoExceeds500 then (Some BatchHijo, hijoValues)
        else if padreBatchEnabled && padreExceeds500 then (Some BatchPadre, padreValues)
        else (None, []) in
      Valid (match batchType with Some _ => true | None => false end)
            batchType batchValues
            (if 0 <? length batchValues then ceil_div (length batchValues) 500 else 0).

(** *** Batches *)

(** for (let i = 0; i < batchValues.length; i += 500)
      batches.push(batchValues.slice(i, i + 500)) *)
Fixpoint batches_from {A} (fuel i : nat) (batchValues : list A) : list (list A) :=
  match fuel with
  | 0 => []
  | S fuel' =>
      if i <? length batchValues
      then slice i (i + 500) batchValues :: batches_from fuel' (i + 500) batchValues
      else []
  end.

Definition make_batches {A} (batchValues : list A) : list (list A) :=
  batches_from (length batchValues) 0 batchValues.

(** *** What the backend answers *)

(** The JSON of /api/data/filter; [None] is a field that is absent. *)
Record FilterResult := {
  data : option (list Row);
  columns_in_data : option (list string);
  row_count_filtered : option nat;
  skus_no_encontrados_hijo : option (list text);
  skus_no_encontrados_padre : option (list text);
  tickets_no_encontrados : option (list text);
  lineamientos_no_encontrados : option (list text);
  has_priority_column : option bool;
  priority_info : option PriorityInfo
}.

(** A request is answered with a status and a body, or [fetch] rejects. *)
Inductive Reply (A : Type) :=
| Answered (status : nat) (body : A)
| Unreachable (message : string).
Arguments Answered {A} status body.
Arguments Unreachable {A} message.

Inductive Request :=
| GetFilterVisibility (source : string)
| PostFilter (p : FilterPayload)
| PostExport (p : FilterPayload).

Record Detalle := {
  skusHijo : list text;
  skusPadre : list text;
  tickets : list text;
  lineamientos : list text
}.

Inductive AlertText :=
(** the message of the validation: both filters cannot be processed in
    batches at the same time, one of the two checkboxes must be cleared *)
| AlertConflict
(** `Error en procesamiento por lotes: ${error.message}` *)
| AlertBatchError (f : Failure).

Inductive UiEvent :=
| EvRequest (r : Request)
| EvAlert (a : AlertText)
| EvEmptyResultsModal (totalBuscados : nat) (detalle : Detalle)
| EvPartialResultsModal (totalBuscados totalEncontrados totalNoEncontrados : nat)
                        (detalle : Detalle)
| EvDownloadBatch (batchNumber : nat)
| EvPause (ms : nat)
| EvBatchCompleted (totalBatches notFoundCount : nat)
| EvBatchModalHidden
(** statusMessage: `Error al aplicar filtros: ${error.message}` *)
| EvStatusError (f : Failure).

Definition is_request (e : UiEvent) : bool :=
  match e with EvRequest _ => true | _ => false end.

Inductive Completion := Completed | NeverCompletes.

(** *** exportBatch *)

(** What happens around one batch: the two answers of the backend, and
    whether the user clicks the download button and the cancel button
    while the batch is shown. *)
Record BatchWorld := {
  filter_answer : Reply FilterResult;
  export_answer : Reply string;
  download_clicked : bool;
  cancel_clicked : bool
}.

(** found.forEach(sku => { if (!list.includes(sku)) list.push(sku) }) *)
Definition add_not_found (listed found : list text) : list text :=
  foldl (fun l sku => if bool_decide (sku ∈ l) then l else l ++ [sku]) listed found.

Definition accumulate (acc : NotFoundSkus) (r : FilterResult) : NotFoundSkus :=
  {| hijo := add_not_found (hijo acc) (default [] (skus_no_encontrados_hijo r));
     padre := add_not_found (padre acc) (default [] (skus_no_encontrados_padre r)) |}.

Inductive Settled := Resolved | Rejected (f : Failure) | StaysUnsettled.

Definition exportBatch (w : BatchWorld) (batchPayload : FilterPayload)
    (batchNumber : nat) (acc : NotFoundSkus)
    : NotFoundSkus * list UiEvent * Settled :=
  match filter_answer w with
  | Unreachable msg =>
      (acc, [EvRequest (PostFilter batchPayload)], Rejected (NetworkFailure msg))
  | Answered status filterResult =>
      let acc1 :=
        if FetchRetry.response_ok status then accumulate acc filterResult else acc in
      let sent := [EvRequest (PostFilter batchPayload); EvRequest (PostExport batchPayload)] in
      match export_answer w with
      | Unreachable msg => (acc1, sent, Rejected (NetworkFailure msg))
      | Answered status' _ =>
          if negb (FetchRetry.response_ok status')
          then (acc1, sent, Rejected (HttpFailure status'))
          else if download_clicked w
          then (acc1, sent ++ [EvDownloadBatch batchNumber], Resolved)
          else (acc1, sent, StaysUnsettled)
      end
  end.

(** *** handleBatchProcessing *)

(** The payload of a batch: the base payload with the list of the
    field that is processed in batches replaced by the batch. *)
Definition batch_payload (batchType : option BatchType) (batch : list text)
    (basePayload : FilterPayload) : FilterPayload :=
  match batchType with
  | Some BatchHijo => set_hijo_list batch basePayload
  | Some BatchPadre => set_padre_list batch basePayload
  | None => basePayload
  end.

Inductive LoopEnd := LoopDone | LoopThrew (f : Failure) | LoopUnsettled.

(** The loop over the batches.  [n] is [batches.length], [i] the index
    of the head of [batches]; the inputs are not edited while the run
    lasts (the batch modal covers them). *)
Fixpoint batch_loop (world : nat -> BatchWorld) (a : App)
    (batchType : option BatchType) (n i : nat) (batches : list (list text))
    (cancelled : bool) (acc : NotFoundSkus)
    : bool * NotFoundSkus * list UiEvent * LoopEnd :=
  match batches with
  | [] => (cancelled, acc, [], LoopDone)
  | batch :: rest =>
      if cancelled then (cancelled, acc, [], LoopDone)
      else
        match getFilterPayload a with
        | Raise e => (cancelled, acc, [], LoopThrew e)
        | Ok basePayload =>
            let payload := batch_payload batchType batch basePayload in
            let '(acc1, evs, settled) := exportBatch (world i) payload (i + 1) acc in
            match settled with
            | Rejected f => (cancelled, acc1, evs, LoopThrew f)
            | StaysUnsettled => (cancelled, acc1, evs, LoopUnsettled)
            | Resolved =>
                let cancelled1 := cancel_clicked (world i) in
                let pause :=
                  if (S i <? n) && negb cancelled1 then [EvPause 500] else [] in
                let '(c, acc2, evs2, e) :=
                  batch_loop world a batchType n (S i) rest cancelled1 acc1 in
                (c, acc2, evs ++ pause ++ evs2, e)
            end
        end
  end.

Definition handleBatchProcessing (world : nat -> BatchWorld) (a : App)
    (batchType : option BatchType) (batchValues : list text) (totalBatches : nat)
    : App * list UiEvent * Completion :=
  let fresh := {| hijo := []; padre := [] |} in
  let batches := make_batches batchValues in
  let '(c, acc, evs, e) :=
    batch_loop world a batchType (length batches) 0 batches false fresh in
  let a' := with_batch c acc a in
  match e with
  | LoopDone =>
      if negb c
      then (a', evs ++ [EvBatchCompleted totalBatches
                          (length (hijo acc) + length (padre acc))], Completed)
      else (a', evs ++ [EvBatchModalHidden], Completed)
  | LoopThrew f => (a', evs ++ [EvBatchModalHidden; EvAlert (AlertBatchError f)], Completed)
  | LoopUnsettled => (a', evs, NeverCompletes)
  end.

(** The lines of the report of values not found, between its header and
    its footer: a title line for each list that is not empty (rendered
    here as [None]) followed by one line for each value. *)
Definition report_section (skus : list text) : list (option text) :=
  if 0 <? length skus then None :: List.map Some skus else [].

Definition generateNotFoundTxt (acc : NotFoundSkus) : option (list (option text)) :=
  if length (hijo acc) + length (padre acc) =? 0 then None
  else Some (report_section (hijo acc) ++ report_section (padre acc)).

(** *** handleApplyFilters *)

(** The block that shows a modal for the values not found. *)
Definition not_found_modals (result : FilterResult) : list UiEvent :=
  let noEncontradosHijo := default [] (skus_no_encontrados_hijo result) in
  let noEncontradosPadre := default [] (skus_no_encontrados_padre result) in
  let ticketsNoEncontrados := default [] (tickets_no_encontrados result) in
  let lineamientosNoEncontrados := default [] (lineamientos_no_encontrados result) in
  let totalNoEncontrados :=
    length (noEncontradosHijo ++ noEncontradosPadre)
    + length ticketsNoEncontrados + length lineamientosNoEncontrados in
  if 0 <? totalNoEncontrados then
    let totalEncontrados := default 0 (row_count_filtered result) in
    let totalBuscados := totalNoEncontrados + totalEncontrados in
    let detalleNoEncontrados :=
      {| skusHijo := noEncontradosHijo; skusPadre := noEncontradosPadre;
         tickets := ticketsNoEncontrados; lineamientos := lineamientosNoEncontrados |} in
    if totalEncontrados =? 0
    then [EvEmptyResultsModal totalBuscados detalleNoEncontrados]
    else [EvPartialResultsModal totalBuscados totalEncontrados totalNoEncontrados
            detalleNoEncontrados]
  else [].

(** What the initial load does to the controls: the selects are built
    anew from the options of the entry, the custom text inputs from the
    visibility configuration when that request succeeds. *)
Definition reset_controls (visibility : option (list string)) (e : CacheEntry)
    (i : Inputs) : Inputs :=
  {| skuHijoInput := skuHijoInput i;
     skuPadreInput := skuPadreInput i;
     ticketFilterInput := ticketFilterInput i;
     lineamientoFilterInput := lineamientoFilterInput i;
     batchProcessHijoCheckbox := batchProcessHijoCheckbox i;
     batchProcessPadreCheckbox := batchProcessPadreCheckbox i;
     extendSkuHijoCheckbox := extendSkuHijoCheckbox i;
     priorityColoringToggle := priorityColoringToggle i;
     customTextFilterInputs :=
       match visibility with
       | Some cols => List.map (fun c => (c, [])) cols
       | None => customTextFilterInputs i
       end;
     filterSelects := List.map (fun kv => (fst kv, [])) (map_to_list (filterOptions e)) |}.

(** populateColumnsListbox(allCols, hiddenCols): the new value of
    [currentSelectedDisplayColumns], the columns that are not hidden,
    each with its checkbox checked. *)
Definition populateColumnsListbox (allCols hiddenCols : list string) : list string :=
  List.filter (fun col => negb (bool_decide (col ∈ hiddenCols))) allCols.

(** The end of a successful query: without a priority column in the
    result the toggle of the colouring is disabled and unchecked. *)
Definition settle_priority_toggle (result : FilterResult) (i : Inputs) : Inputs :=
  {| skuHijoInput := skuHijoInput i;
     skuPadreInput := skuPadreInput i;
     ticketFilterInput := ticketFilterInput i;
     lineamientoFilterInput := lineamientoFilterInput i;
     batchProcessHijoCheckbox := batchProcessHijoCheckbox i;
     batchProcessPadreCheckbox := batchProcessPadreCheckbox i;
     extendSkuHijoCheckbox := extendSkuHijoCheckbox i;
     priorityColoringToggle :=
       if default false (has_priority_column result)
       then priorityColoringToggle i else false;
     customTextFilterInputs := customTextFilterInputs i;
     filterSelects := filterSelects i |}.

(** The fields of the entry that a successful query overwrites. *)
Definition store_result (result : FilterResult) (payload : FilterPayload)
    (page : nat) (e : CacheEntry) : CacheEntry :=
  {| fileInfo := fileInfo e;
     filterOptions := filterOptions e;
     filterConfig := filterConfig e;
     ttl := ttl e;
     displayData := default [] (data result);
     filteredRowCount := default 0 (row_count_filtered result);
     valueFilters := value_filters payload;
     selectedColumns := selected_display_columns payload;
     entryPage := page;
     hasPriorityColumn := default false (has_priority_column result);
     priorityInfo := default no_priority_info (priority_info result) |}.

(** The answers a call of [handleApplyFilters] meets. *)
Record World := {
  visibility_answer : option (list string);
  query_answer : Reply FilterResult;
  batch_world : nat -> BatchWorld
}.

(** The step of the call that ends a load: the selects and the list
    of columns are built anew from the entry, then the visibility of
    the filters is asked for. *)
Definition initial_controls (w : World) (cachedData : CacheEntry) (a : App) : App :=
  with_columns
    (populateColumnsListbox (columns (fileInfo cachedData)) (hiddenColumnsConfig a))
    (with_inputs (reset_controls (visibility_answer w) cachedData (inputs a)) a).

Definition handleApplyFilters (w : World) (page : nat) (isInitialLoad : bool)
    (a : App) : App * list UiEvent * Completion :=
  match currentBlobDisplayName a with
  | None => (a, [], Completed)
  | Some sourceName =>
      if negb (JsString.truthy sourceName) then (a, [], Completed)
      else
        match dataSourceCache a !! sourceName with
        | None => (a, [], Completed)
        | Some cachedData =>
            let '(a1, evs1) :=
              if isInitialLoad
              then (initial_controls w cachedData a,
                    [EvRequest (GetFilterVisibility sourceName)])
              else (a, []) in
            let a2 := with_page page a1 in
            match validateBatchFilters (inputs a2) with
            | Conflict => (a2, evs1 ++ [EvAlert AlertConflict], Completed)
            | Valid true batchType batchValues totalBatches =>
                let '(a3, evs, c) :=
                  handleBatchProcessing (batch_world w) a2 batchType batchValues
                    totalBatches in
                (a3, evs1 ++ evs, c)
            | Valid false _ _ _ =>
                match getFilterPayload a2 with
                | Raise e => (a2, evs1 ++ [EvStatusError e], Completed)
                | Ok payload =>
                    let sent := evs1 ++ [EvRequest (PostFilter payload)] in
                    match query_answer w with
                    | Unreachable msg =>
                        (a2, sent ++ [EvStatusError (NetworkFailure msg)], Completed)
                    | Answered status result =>
                        if negb (FetchRetry.response_ok status)
                        then (a2, sent ++ [EvStatusError (HttpFailure status)], Completed)
                        else
                          let cache' :=
                            alter (store_result result payload page) sourceName
                              (dataSourceCache a2) in
                          let a3 :=
                            with_result
                              (default [] (skus_no_encontrados_hijo result)
                               ++ default [] (skus_no_encontrados_padre result))
                              (renderDataTable (default [] (data result)))
                              (with_cache cache' a2) in
                          (with_inputs (settle_priority_toggle result (inputs a3)) a3,
                           sent ++ not_found_modals result, Completed)
                    end
                end
            end
        end
  end.

(** *** Reading a run *)

(** The requests among the events, in order. *)
Definition requests_of (evs : list UiEvent) : list Request :=
  omap (fun e => match e with EvRequest r => Some r | _ => None end) evs.

Definition is_modal (e : UiEvent) : bool :=
  match e with
  | EvEmptyResultsModal _ _ | EvPartialResultsModal _ _ _ _ => true
  | _ => false
  end.

(** Does the validation send the call to the batch processing? *)
Definition needs_batching (i : Inputs) : bool :=
  match validateBatchFilters i with
  | Valid true _ _ _ => true
  | _ => false
  end.

(** [values.length > 0 ? values : null] *)
Definition list_or_null (values : list text) : option (list text) :=
  match values with [] => None | _ => Some values end.

(** The number of values a result reports as not found. *)
Definition not_found_count (result : FilterResult) : nat :=
  length (default [] (skus_no_encontrados_hijo result))
  + length (default [] (skus_no_encontrados_padre result))
  + length (default [] (tickets_no_encontrados result))
  + length (default [] (lineamientos_no_encontrados result)).

Definition detalle_of (result : FilterResult) : Detalle :=
  {| skusHijo := default [] (skus_no_encontrados_hijo result);
     skusPadre := default [] (skus_no_encontrados_padre result);
     tickets := default [] (tickets_no_encontrados result);
     lineamientos := default [] (lineamientos_no_encontrados result) |}.

(** A run of batches in which the backend answers every request, the
    export succeeds, and the user downloads each file without cancelling. *)
Definition cooperative (world : nat -> BatchWorld) (n : nat) : Prop :=
  forall i, i < n ->
    (exists status result, filter_answer (world i) = Answered status result)
    /\ (exists status body, export_answer (world i) = Answered status body
                            /\ FetchRetry.response_ok status = true)
    /\ download_clicked (world i) = true
    /\ cancel_clicked (world i) = false.

(** The two lists without repetition. *)
Definition tidy (acc : NotFoundSkus) : Prop := NoDup (hijo acc) /\ NoDup (padre acc).

(** Every value of the lists was reported by one of the batches
    [from .. upto-1] of the run. *)
Definition reported (world : nat -> BatchWorld) (from upto : nat) (acc : NotFoundSkus)
    : Prop :=
  (forall sku, sku ∈ hijo acc ->
     exists i status r, from <= i < upto
       /\ filter_answer (world i) = Answered status r
       /\ sku ∈ default [] (skus_no_encontrados_hijo r))
  /\ (forall sku, sku ∈ padre acc ->
        exists i status r, from <= i < upto
          /\ filter_answer (world i) = Answered status r
          /\ sku ∈ default [] (skus_no_encontrados_padre r)).

(** How many lines of a report carry a given value. *)
Definition occurrences (sku : text) (lines : list (option text)) : nat :=
  length (List.filter (fun ln => bool_decide (ln = Some sku)) lines).

(** *** Sample states *)

Definition blank_inputs : Inputs :=
  {| skuHijoInput := []; skuPadreInput := []; ticketFilterInput := [];
     lineamientoFilterInput := [];
     batchProcessHijoCheckbox := false; batchProcessPadreCheckbox := false;
     extendSkuHijoCheckbox := false; priorityColoringToggle := false;
     customTextFilterInputs := []; filterSelects := [] |}.

Definition sample_entry : CacheEntry :=
  {| fileInfo := {| displayName := Some "UNIVERSO PERU";
                    fileName := Some "universo_peru.parquet";
                    columns := ["sku_hijo"; "sku_padre"]; rowCount := 3;
                    cache_ttl_seconds := 300 |};
     filterOptions := ∅; filterConfig := []; ttl := 300;
     displayData := []; filteredRowCount := 0; valueFilters := ∅;
     selectedColumns := []; entryPage := 1;
     hasPriorityColumn := false; priorityInfo := no_priority_info |}.

(** A session with the source "UNIVERSO PERU" loaded and the given
    controls. *)
Definition sample_app (i : Inputs) : App :=
  {| currentBlobDisplayName := Some "UNIVERSO PERU";
     currentBlobFilename := Some "universo_peru.parquet";
     skuHijoFileLoaded := false; skuPadreFileLoaded := false;
     currentSelectedDisplayColumns := [];
     hiddenColumnsConfig := [];
     dataSourceCache := {[ "UNIVERSO PERU" := sample_entry ]};
     inputs := i; currentPage := 1;
     batchProcessCancelled := false;
     allBatchNotFoundSkus := {| hijo := []; padre := [] |};
     skusNoEncontrados := []; tableBody := [] |}.

(** A backend that cannot be reached. *)
Definition offline_batch : BatchWorld :=
  {| filter_answer := Unreachable "Failed to fetch";
     export_answer := Unreachable "Failed to fetch";
     download_clicked := false; cancel_clicked := false |}.

Definition offline : World :=
  {| visibility_answer := None;
     query_answer := Unreachable "Failed to fetch";
     batch_world := fun _ => offline_batch |}.

(** The scenario of the specification: of the identifiers 1001, 1002
    and 9999 the source holds the first two. *)
Definition scenario_result : FilterResult :=
  {| data := Some [[("sku_hijo", "1001")]; [("sku_hijo", "1002")]];
     columns_in_data := Some ["sku_hijo"];
     row_count_filtered := Some 2;
     skus_no_encontrados_hijo := Some [of_string "9999"];
     skus_no_encontrados_padre := None;
     tickets_no_encontrados := None;
     lineamientos_no_encontrados := None;
     has_priority_column := None; priority_info := None |}.

Definition scenario_world : World :=
  {| visibility_answer := None;
     query_answer := Answered 200 scenario_result;
     batch_world := fun _ => offline_batch |}.

(** Two batches that report values not found, 9999 both times; the
    user downloads each file. *)
Definition reporting_batch (i : nat) : BatchWorld :=
  {| filter_answer :=
       Answered 200
         {| data := None; columns_in_data := None; row_count_filtered := Some 0;
            skus_no_encontrados_hijo :=
              Some (if i =? 0 then [of_string "9999"; of_string "8888"]
                    else [of_string "9999"; of_string "7777"]);
            skus_no_encontrados_padre := None;
            tickets_no_encontrados := None;
            lineamientos_no_encontrados := None;
            has_priority_column := None; priority_info := None |};
     export_answer := Answered 200 "";
     download_clicked := true; cancel_clicked := false |}.

(** The same run, reached by applying the filters. *)
Definition batching_world : World :=
  {| visibility_answer := None;
     query_answer := Unreachable "Failed to fetch";
     batch_world := reporting_batch |}.

(** The text of [n] identifiers 7, each followed by a comma. *)
Definition sevens (n : nat) : text := concat (repeat (of_string "7,") n).

Definition with_skus (hijoText padreText : text) (batchHijo batchPadre : bool)
    : Inputs :=
  {| skuHijoInput := hijoText; skuPadreInput := padreText;
     ticketFilterInput := []; lineamientoFilterInput := [];
     batchProcessHijoCheckbox := batchHijo; batchProcessPadreCheckbox := batchPadre;
     extendSkuHijoCheckbox := false; priorityColoringToggle := false;
     customTextFilterInputs := []; filterSelects := [] |}.

End Filters.

(** ** Loading a data source into the cache *)

Module DataLoad.
Import JsText LazyTable Filters.
Export FetchRetry.

(** The JSON of /api/config/settings/{source}. *)
Record Settings := {
  hide_columns : option (list string);
  filter_columns : option (list string)
}.

(** The JSON of /api/data/load/{source}; [payload_columns] is [None]
    when the field is missing or is not an array. *)
Record DataPayload := {
  payload_columns : option (list string);
  row_count_original : option Z;
  payload_cache_ttl_seconds : option Z;
  filter_options : option (gmap string (list string))
}.

(** A saved view: the fields of the store ([appState]), the values of
    the four text inputs ([filterStates]) and the table it brings
    back. *)
Record ViewSnapshot := {
  snap_displayName : option string;
  snap_filename : option string;
  snap_hijoLoaded : bool;
  snap_padreLoaded : bool;
  snap_hidden : list string;
  snap_skuHijo : text;
  snap_skuPadre : text;
  snap_ticket : text;
  snap_lineamiento : text;
  snap_table : list BodyRow
}.

(** The timers that [handleDataLoad] sets: the one that saves the view
    of the source loaded, 500 ms after a load completes, and the one
    that puts the saved values back into the four text inputs, 10 ms
    after a view is restored. *)
Inductive Timer :=
| SaveViewTimer (blobName : string)
| RestoreInputsTimer (skuHijo skuPadre ticket lineamiento : text).

(** The application together with the source selector, the cache of
    views and the timers that are set and have not fired, oldest
    first. *)
Record Session := {
  app : App;
  blobSelect : option string;
  viewStateCache : gmap string ViewSnapshot;
  pendingTimers : list Timer
}.

(** What a call of [handleDataLoad] meets: whether the containers of
    the view are in the document, the network and the JSON bodies of
    the two requests, and the answers to the initial query. *)
Record LoadWorld := {
  dom_ready : bool;
  settings_network : nat -> FetchBehaviour;
  settings_json : option Settings;
  load_network : nat -> FetchBehaviour;
  load_json : option DataPayload;
  apply_world : World
}.

Inductive LoadResult :=
| NoSourceSelected
| ViewRestored
| LoadCompleted
| LoadCancelled
| LoadFailed (error : JsError)
| LoadUnfinished.

(** A value used as a condition: [null] and the empty string are falsy. *)
Definition truthy_name (o : option string) : bool :=
  match o with Some s => JsString.truthy s | None => false end.

(** A value used as a property key or in a template literal. *)
Definition key_of (o : option string) : string := default "null" o.

(** [x || d] on a number. *)
Definition number_or (x : option Z) (d : Z) : Z :=
  match x with
  | Some v => if (v =? 0)%Z then d else v
  | None => d
  end.

Section Load.
(** [String.prototype.toLowerCase] *)
Variable toLowerCase : string -> string.

(** The entry written after a successful load. *)
Definition new_entry (a : App) (blobSettings : Settings) (dataPayload : DataPayload)
    (cols : list string) : CacheEntry :=
  {| fileInfo :=
       {| displayName := currentBlobDisplayName a;
          fileName := currentBlobFilename a;
          columns := List.map toLowerCase cols;
          rowCount := number_or (row_count_original dataPayload) 0;
          cache_ttl_seconds := number_or (payload_cache_ttl_seconds dataPayload) 300 |};
     filterOptions := default ∅ (filter_options dataPayload);
     filterConfig :=
       match filter_columns blobSettings with
       | Some cs => List.map toLowerCase cs
       | None => []
       end;
     ttl := number_or (payload_cache_ttl_seconds dataPayload) 300;
     displayData := [];
     filteredRowCount := 0;
     valueFilters := ∅;
     selectedColumns := [];
     entryPage := 1;
     hasPriorityColumn := false;
     priorityInfo := no_priority_info |}.

(** How the [try] block of the load ends. *)
Inductive TryEnd :=
| TryDone
| TryThrew (error : JsError)
| TryUnfinished.

(** [await fetchWithRetry(...)] followed by [await response.json()]. *)
Definition fetch_json {A} (timeout : option N) (maxRetries : nat) (initialDelay : Z)
    (network : nat -> FetchBehaviour) (json : option A) (missing : string)
    : TryEnd + A :=
  match fst (fetchWithRetry timeout maxRetries initialDelay network) with
  | Returned _ _ =>
      match json with
      | Some v => inr v
      | None => inl (TryThrew (mkError missing))
      end
  | Thrown (Some e) => inl (TryThrew e)
  | Thrown None => inl TryUnfinished
  | Pending => inl TryUnfinished
  | OutOfFuel => inl TryUnfinished
  end.

(** The value given to [hiddenColumnsConfig] once the settings are
    there. *)
Definition hidden_columns (blobSettings : Settings) : list string :=
  match hide_columns blobSettings with
  | Some cs => List.map toLowerCase cs
  | None => []
  end.

(** The [try] block: settings, data, the new entry, the initial query. *)
Definition load_try (w : LoadWorld) (a : App) : App * TryEnd :=
  let name := key_of (currentBlobDisplayName a) in
  match fetch_json (Some 60000%N) 2 1500 (settings_network w) (settings_json w)
          "No se pudo obtener la configuración del servidor" with
  | inl stop => (a, stop)
  | inr blobSettings =>
      let a := with_hidden (hidden_columns blobSettings) a in
      match fetch_json None 0 1000 (load_network w) (load_json w)
              "No se recibieron datos del servidor" with
      | inl stop => (a, stop)
      | inr dataPayload =>
          match payload_columns dataPayload with
          | None =>
              (a, TryThrew (mkError "El formato de datos recibido es inválido (columns)"))
          | Some cols =>
              let a1 :=
                with_cache (<[name := new_entry a blobSettings dataPayload cols]>
                              (dataSourceCache a)) a in
              match handleApplyFilters (apply_world w) 1 true a1 with
              | (a2, _, Completed) => (a2, TryDone)
              | (a2, _, NeverCompletes) => (a2, TryUnfinished)
              end
          end
      end
  end.

(** clearManualFilterInputs() *)
Definition clearManualFilterInputs (i : Inputs) : Inputs :=
  {| skuHijoInput := [];
     skuPadreInput := [];
     ticketFilterInput := [];
     lineamientoFilterInput := [];
     batchProcessHijoCheckbox := batchProcessHijoCheckbox i;
     batchProcessPadreCheckbox := batchProcessPadreCheckbox i;
     extendSkuHijoCheckbox := false;
     priorityColoringToggle := priorityColoringToggle i;
     customTextFilterInputs := customTextFilterInputs i;
     filterSelects := filterSelects i |}.

(** The load proper, after the shortcut through the cache of views:
    the panel and the table are cleared, the [try] block runs, and its
    [catch] removes the entry unless the error is an [AbortError]. *)
Definition load_source (w : LoadWorld) (a : App) : App * LoadResult :=
  let name := key_of (currentBlobDisplayName a) in
  let a0 :=
    with_result (skusNoEncontrados a) []
      (with_inputs (clearManualFilterInputs (inputs a)) a) in
  match load_try w a0 with
  | (a1, TryDone) => (a1, LoadCompleted)
  | (a1, TryUnfinished) => (a1, LoadUnfinished)
  | (a1, TryThrew error) =>
      if String.eqb (err_name error) "AbortError" then (a1, LoadCancelled)
      else (with_cache (delete name (dataSourceCache a1)) a1, LoadFailed error)
  end.

(** The view kept for a source. *)
Definition snapshot_of (a : App) : ViewSnapshot :=
  {| snap_displayName := currentBlobDisplayName a;
     snap_filename := currentBlobFilename a;
     snap_hijoLoaded := skuHijoFileLoaded a;
     snap_padreLoaded := skuPadreFileLoaded a;
     snap_hidden := hiddenColumnsConfig a;
     snap_skuHijo := skuHijoInput (inputs a);
     snap_skuPadre := skuPadreInput (inputs a);
     snap_ticket := ticketFilterInput (inputs a);
     snap_lineamiento := lineamientoFilterInput (inputs a);
     snap_table := tableBody a |}.

(** saveViewState(blobName) *)
Definition saveViewState (w : LoadWorld) (blobName : string) (s : Session)
    : gmap string ViewSnapshot :=
  if dom_ready w then <[blobName := snapshot_of (app s)]> (viewStateCache s)
  else viewStateCache s.

(** What restoreViewState puts back at once: the table and the fields
    of the store.  The markup of the filter container is replaced too,
    but the script goes on reading the four text inputs, the checkboxes
    and the selects through the elements it found when it started, and
    these keep their values; the four text inputs get the saved ones
    from the timer that the function sets.  The custom text inputs are
    looked up in the document at each use; whether they lie inside the
    container is decided by the markup of the page, which the script
    does not show, and they are left as they are here. *)
Definition restored (v : ViewSnapshot) (a : App) : App :=
  {| currentBlobDisplayName := snap_displayName v;
     currentBlobFilename := snap_filename v;
     skuHijoFileLoaded := snap_hijoLoaded v;
     skuPadreFileLoaded := snap_padreLoaded v;
     currentSelectedDisplayColumns := currentSelectedDisplayColumns a;
     hiddenColumnsConfig := snap_hidden v;
     dataSourceCache := dataSourceCache a;
     inputs := inputs a;
     currentPage := currentPage a;
     batchProcessCancelled := batchProcessCancelled a;
     allBatchNotFoundSkus := allBatchNotFoundSkus a;
     skusNoEncontrados := skusNoEncontrados a;
     tableBody := snap_table v |}.

(** The timer of a restored view when it fires. *)
Definition restore_inputs (skuHijo skuPadre ticket lineamiento : text) (i : Inputs)
    : Inputs :=
  {| skuHijoInput := skuHijo;
     skuPadreInput := skuPadre;
     ticketFilterInput := ticket;
     lineamientoFilterInput := lineamiento;
     batchProcessHijoCheckbox := batchProcessHijoCheckbox i;
     batchProcessPadreCheckbox := batchProcessPadreCheckbox i;
     extendSkuHijoCheckbox := extendSkuHijoCheckbox i;
     priorityColoringToggle := priorityColoringToggle i;
     customTextFilterInputs := customTextFilterInputs i;
     filterSelects := filterSelects i |}.

Definition handleDataLoad (w : LoadWorld) (s : Session) : Session * LoadResult :=
  let a := app s in
  let current := currentBlobDisplayName a in
  let selectedBlobName :=
    match blobSelect s with Some v => Some v | None => current end in
  if negb (truthy_name current) && negb (truthy_name selectedBlobName)
  then (s, NoSourceSelected)
  else
    let targetBlobName :=
      key_of (if truthy_name selectedBlobName then selectedBlobName else current) in
    let snapshot :=
      match dataSourceCache a !! targetBlobName with
      | Some _ => viewStateCache s !! targetBlobName
      | None => None
      end in
    match snapshot, dom_ready w with
    | Some v, true =>
        ({| app := restored v a; blobSelect := blobSelect s;
            viewStateCache := viewStateCache s;
            pendingTimers :=
              pendingTimers s
              ++ [RestoreInputsTimer (snap_skuHijo v) (snap_skuPadre v)
                    (snap_ticket v) (snap_lineamiento v)] |}, ViewRestored)
    | _, _ =>
        let views1 :=
          match snapshot with
          | Some _ => delete targetBlobName (viewStateCache s)
          | None => viewStateCache s
          end in
        let s1 := {| app := a; blobSelect := blobSelect s; viewStateCache := views1;
                     pendingTimers := pendingTimers s |} in
        let views2 :=
          if truthy_name current && negb (String.eqb (key_of current) targetBlobName)
          then saveViewState w (key_of current) s1 else views1 in
        let '(a', r) := load_source w a in
        ({| app := a'; blobSelect := blobSelect s; viewStateCache := views2;
            pendingTimers :=
              match r with
              | LoadCompleted => pendingTimers s ++ [SaveViewTimer targetBlobName]
              | _ => pendingTimers s
              end |}, r)
    end.

(** A timer fires, between two calls. *)
Definition fire_timer (w : LoadWorld) (t : Timer) (s : Session) : Session :=
  match t with
  | SaveViewTimer blobName =>
      {| app := app s; blobSelect := blobSelect s;
         viewStateCache := saveViewState w blobName s;
         pendingTimers := pendingTimers s |}
  | RestoreInputsTimer skuHijo skuPadre ticket lineamiento =>
      {| app := with_inputs
                  (restore_inputs skuHijo skuPadre ticket lineamiento (inputs (app s)))
                  (app s);
         blobSelect := blobSelect s;
         viewStateCache := viewStateCache s;
         pendingTimers := pendingTimers s |}
  end.

(** The timers that are pending fire, in the order they were set. *)
Definition timers_fire (w : LoadWorld) (s : Session) : Session :=
  let s0 := {| app := app s; blobSelect := blobSelect s;
               viewStateCache := viewStateCache s; pendingTimers := [] |} in
  foldl (fun s t => fire_timer w t s) s0 (pendingTimers s).

End Load.

(** An entry that holds the data of one load and nothing else, for a
    source of the given names: every field is read off the answers to
    the two requests of the load and to its initial query.  The rows,
    their count and the selected columns are those of the initial
    query when it is answered, and empty otherwise. *)
Definition loaded_entry (toLowerCase : string -> string) (w : LoadWorld)
    (sourceName sourceFile : option string) (e : CacheEntry) : Prop :=
  exists settings payload cols,
    settings_json w = Some settings
    /\ load_json w = Some payload
    /\ payload_columns payload = Some cols
    /\ fileInfo e
       = {| displayName := sourceName;
            fileName := sourceFile;
            columns := List.map toLowerCase cols;
            rowCount := number_or (row_count_original payload) 0;
            cache_ttl_seconds := number_or (payload_cache_ttl_seconds payload) 300 |}
    /\ filterOptions e = default ∅ (filter_options payload)
    /\ filterConfig e
       = match filter_columns settings with
         | Some cs => List.map toLowerCase cs
         | None => []
         end
    /\ ttl e = number_or (payload_cache_ttl_seconds payload) 300
    /\ valueFilters e = ∅
    /\ entryPage e = 1
    /\ ((displayData e = [] /\ filteredRowCount e = 0 /\ selectedColumns e = []
         /\ hasPriorityColumn e = false /\ priorityInfo e = no_priority_info)
        \/ exists status result,
             query_answer (apply_world w) = Answered status result
             /\ response_ok status = true
             /\ displayData e = default [] (data result)
             /\ filteredRowCount e = default 0 (row_count_filtered result)
             /\ hasPriorityColumn e = default false (has_priority_column result)
             /\ priorityInfo e = default no_priority_info (priority_info result)
             /\ selectedColumns e
                = List.filter
                    (fun col =>
                       negb (bool_decide
                               (col ∈ match hide_columns settings with
                                      | Some cs => List.map toLowerCase cs
                                      | None => []
                                      end)))
                    (List.map toLowerCase cols)).

(** The source that a call is to load: the one of the selector, or
    the current one. *)
Definition target_of (s : Session) : string :=
  let current := currentBlobDisplayName (app s) in
  let selected := match blobSelect s with Some v => Some v | None => current end in
  key_of (if truthy_name selected then selected else current).

(** The request for the settings is answered at once, with a body. *)
Definition settings_arrive (w : LoadWorld) : Prop :=
  exists status statusText settings,
    settings_network w 0 = Responds status statusText
    /\ response_ok status = true
    /\ settings_json w = Some settings.

(** The request for the data is answered, with the given body. *)
Definition data_arrives (w : LoadWorld) (dataPayload : DataPayload) : Prop :=
  exists status statusText,
    load_network w 0 = Responds status statusText
    /\ response_ok status = true
    /\ load_json w = Some dataPayload.

(** The network failure of [fetch]. *)
Definition network_error (message : string) : JsError :=
  {| err_name := "TypeError"; err_message := message |}.

(** *** Sample states *)

(** [toLowerCase] on the letters A to Z. *)
Definition lower_ascii (c : Ascii.ascii) : Ascii.ascii :=
  let n := Ascii.nat_of_ascii c in
  if (65 <=? n) && (n <=? 90) then Ascii.ascii_of_nat (n + 32) else c.

Fixpoint to_lower (s : string) : string :=
  match s with
  | EmptyString => EmptyString
  | String c rest => String (lower_ascii c) (to_lower rest)
  end.

(** The source "UNIVERSO PERU" is selected and was loaded before. *)
Definition sample_session : Session :=
  {| app := sample_app blank_inputs;
     blobSelect := Some "UNIVERSO PERU";
     viewStateCache := ∅;
     pendingTimers := [] |}.

(** Both requests of the load are answered; the data now has 5 rows. *)
Definition sample_load : LoadWorld :=
  {| dom_ready := true;
     settings_network := fun _ => Responds 200 "OK";
     settings_json := Some {| hide_columns := None;
                              filter_columns := Some ["SKU_HIJO"] |};
     load_network := fun _ => Responds 200 "OK";
     load_json := Some {| payload_columns := Some ["SKU_HIJO"; "SKU_PADRE"];
                          row_count_original := Some 5%Z;
                          payload_cache_ttl_seconds := None;
                          filter_options := None |};
     apply_world := scenario_world |}.

(** The same requests answered later, when the data has 9 rows. *)
Definition later_load : LoadWorld :=
  {| dom_ready := true;
     settings_network := fun _ => Responds 200 "OK";
     settings_json := Some {| hide_columns := None;
                              filter_columns := Some ["SKU_HIJO"] |};
     load_network := fun _ => Responds 200 "OK";
     load_json := Some {| payload_columns := Some ["SKU_HIJO"; "SKU_PADRE"];
                          row_count_original := Some 9%Z;
                          payload_cache_ttl_seconds := None;
                          filter_options := None |};
     apply_world := scenario_world |}.

(** The number of entries of the cache stored under a name. *)
Definition entries_for (name : string) (cache : gmap string CacheEntry) : nat :=
  length (List.filter (fun kv => String.eqb (fst kv) name) (map_to_list cache)).

End DataLoad.

(** ** Timers and listeners of the text filters *)

Module FilterTimers.
Import JsText.

Definition DEBOUNCE_DELAY : nat := 300.

Inductive Field := SkuHijo | SkuPadre | Ticket | Lineamiento.

(** The name under which a listener reports its field. *)
Definition filterType (f : Field) : string :=
  match f with
  | SkuHijo => "sku-hijo"
  | SkuPadre => "sku-padre"
  | Ticket => "ticket"
  | Lineamiento => "lineamiento"
  end.

(** The values of the four inputs. *)
Record Values := {
  v_hijo : text;
  v_padre : text;
  v_ticket : text;
  v_lineamiento : text
}.

Definition set_value (f : Field) (v : text) (vs : Values) : Values :=
  match f with
  | SkuHijo => {| v_hijo := v; v_padre := v_padre vs;
                  v_ticket := v_ticket vs; v_lineamiento := v_lineamiento vs |}
  | SkuPadre => {| v_hijo := v_hijo vs; v_padre := v;
                   v_ticket := v_ticket vs; v_lineamiento := v_lineamiento vs |}
  | Ticket => {| v_hijo := v_hijo vs; v_padre := v_padre vs;
                 v_ticket := v; v_lineamiento := v_lineamiento vs |}
  | Lineamiento => {| v_hijo := v_hijo vs; v_padre := v_padre vs;
                      v_ticket := v_ticket vs; v_lineamiento := v |}
  end.

(** The functions handed to [setTimeout]. *)
Inductive Callback :=
| CbDebouncedApply
| CbShowPending (f : Field).

Record Timer := { timer_id : nat; due : nat; callback : Callback }.

(** A call of [handleApplyFilters(page, isInitialLoad)], with the
    values the inputs hold when it is made. *)
Record ApplyCall := {
  call_time : nat;
  call_page : nat;
  call_initial : bool;
  call_values : Values
}.

Record Ui := {
  now : nat;
  next_id : nat;
  timers : list Timer;
  filterDebounceTimer : option nat;
  pendingFilterUpdates : gset string;
  values : Values;
  applied : list ApplyCall
}.

(** The page as the script leaves it once loaded: timer ids start at 1. *)
Definition initial : Ui :=
  {| now := 0; next_id := 1; timers := []; filterDebounceTimer := None;
     pendingFilterUpdates := ∅;
     values := {| v_hijo := []; v_padre := []; v_ticket := []; v_lineamiento := [] |};
     applied := [] |}.

Definition setTimeout (cb : Callback) (delay : nat) (u : Ui) : Ui * nat :=
  ({| now := now u; next_id := S (next_id u);
      timers := timers u ++ [{| timer_id := next_id u; due := now u + delay;
                                callback := cb |}];
      filterDebounceTimer := filterDebounceTimer u;
      pendingFilterUpdates := pendingFilterUpdates u;
      values := values u; applied := applied u |}, next_id u).

Definition clearTimeout (id : nat) (u : Ui) : Ui :=
  {| now := now u; next_id := next_id u;
     timers := List.filter (fun t => negb (timer_id t =? id)) (timers u);
     filterDebounceTimer := filterDebounceTimer u;
     pendingFilterUpdates := pendingFilterUpdates u;
     values := values u; applied := applied u |}.

Definition set_pending (p : gset string) (u : Ui) : Ui :=
  {| now := now u; next_id := next_id u; timers := timers u;
     filterDebounceTimer := filterDebounceTimer u;
     pendingFilterUpdates := p;
     values := values u; applied := applied u |}.

Definition set_debounce_timer (id : option nat) (u : Ui) : Ui :=
  {| now := now u; next_id := next_id u; timers := timers u;
     filterDebounceTimer := id;
     pendingFilterUpdates := pendingFilterUpdates u;
     values := values u; applied := applied u |}.

(** The call is recorded; what it does is [Filters.handleApplyFilters]. *)
Definition call_handleApplyFilters (page : nat) (isInitialLoad : bool) (u : Ui) : Ui :=
  {| now := now u; next_id := next_id u; timers := timers u;
     filterDebounceTimer := filterDebounceTimer u;
     pendingFilterUpdates := pendingFilterUpdates u;
     values := values u;
     applied := applied u ++ [{| call_time := now u; call_page := page;
                                 call_initial := isInitialLoad;
                                 call_values := values u |}] |}.

Definition debounceFilterUpdate (ft : string) (delay : nat) (u : Ui) : Ui :=
  let u1 :=
    match filterDebounceTimer u with
    | Some id => if 0 <? id then clearTimeout id u else u
    | None => u
    end in
  let u2 := set_pending ({[ ft ]} ∪ pendingFilterUpdates u1) u1 in
  let '(u3, id) := setTimeout CbDebouncedApply delay u2 in
  set_debounce_timer (Some id) u3.

Definition showFilterInputPending (f : Field) (u : Ui) : Ui :=
  set_pending ({[ filterType f ]} ∪ pendingFilterUpdates u) u.

(** Running the function of a timer. *)
Definition fire (u : Ui) (t : Timer) : Ui :=
  match callback t with
  | CbDebouncedApply => call_handleApplyFilters 1 false (set_pending ∅ u)
  | CbShowPending f => showFilterInputPending f u
  end.

(** One millisecond passes: the timers that are due run in the order
    in which they were set. *)
Definition tick (u : Ui) : Ui :=
  let now' := S (now u) in
  let ready := List.filter (fun t => due t <=? now') (timers u) in
  let waiting := List.filter (fun t => negb (due t <=? now')) (timers u) in
  foldl fire
    {| now := now'; next_id := next_id u; timers := waiting;
       filterDebounceTimer := filterDebounceTimer u;
       pendingFilterUpdates := pendingFilterUpdates u;
       values := values u; applied := applied u |} ready.

Fixpoint wait (ms : nat) (u : Ui) : Ui :=
  match ms with
  | 0 => u
  | S ms' => wait ms' (tick u)
  end.

Definition set_values (vs : Values) (u : Ui) : Ui :=
  {| now := now u; next_id := next_id u; timers := timers u;
     filterDebounceTimer := filterDebounceTimer u;
     pendingFilterUpdates := pendingFilterUpdates u;
     values := vs; applied := applied u |}.

(** What the user does, and a direct call of the debounce function. *)
Inductive Action :=
| Type_ (f : Field) (v : text)
| Paste (f : Field) (v : text)
| PressEnter (f : Field)
| ClickApply
| Wait (ms : nat)
| CallDebounce (ft : string) (delay : nat).

(** The listeners of the four inputs and of the Apply button. *)
Definition step (u : Ui) (act : Action) : Ui :=
  match act with
  | Type_ f v => showFilterInputPending f (set_values (set_value f v (values u)) u)
  | Paste f v =>
      let '(u1, _) := setTimeout (CbShowPending f) 10 u in
      showFilterInputPending f (set_values (set_value f v (values u1)) u1)
  | PressEnter _ => call_handleApplyFilters 1 false u
  | ClickApply => call_handleApplyFilters 1 false u
  | Wait ms => wait ms u
  | CallDebounce ft delay => debounceFilterUpdate ft delay u
  end.

Definition run (acts : list Action) (u : Ui) : Ui := foldl step u acts.

Definition is_edit (act : Action) : bool :=
  match act with
  | Type_ _ _ | Paste _ _ | Wait _ => true
  | _ => false
  end.

Definition is_debounce (t : Timer) : bool :=
  match callback t with CbDebouncedApply => true | _ => false end.

(** The timers of the debounce function that have not run yet. *)
Definition debounce_pending (u : Ui) : list Timer :=
  List.filter is_debounce (timers u).

(** The call [handleApplyFilters(1, false)] made at a time with the
    inputs holding given values. *)
Definition apply_call (time : nat) (vs : Values) : ApplyCall :=
  {| call_time := time; call_page := 1; call_initial := false; call_values := vs |}.

(** Edits that each call the debounce function for their field, each
    followed by a pause: the wiring the debounce function is written for. *)
Definition burst (delay : nat) (edits : list (Field * text * nat)) : list Action :=
  flat_map (fun e => [Type_ (fst (fst e)) (snd (fst e));
                      CallDebounce (filterType (fst (fst e))) delay;
                      Wait (snd e)]) edits.

Definition get_value (f : Field) (vs : Values) : text :=
  match f with
  | SkuHijo => v_hijo vs
  | SkuPadre => v_padre vs
  | Ticket => v_ticket vs
  | Lineamiento => v_lineamiento vs
  end.

(** No timer of the debounce function is pending, or only the one the
    script remembers. *)
Definition at_most_remembered (u : Ui) : Prop :=
  debounce_pending u = []
  \/ exists t, debounce_pending u = [t]
       /\ filterDebounceTimer u = Some (timer_id t)
       /\ 0 < timer_id t.

(** One timer of the debounce function is pending, the one the script
    remembers, and it runs within [delay]. *)
Definition armed (delay : nat) (u : Ui) : Prop :=
  exists t, debounce_pending u = [t]
    /\ filterDebounceTimer u = Some (timer_id t)
    /\ 0 < timer_id t
    /\ now u < due t <= now u + delay.

End FilterTimers.

(** ** Reading a run of fetchWithRetry *)

Module RetryRuns.
Import FetchRetry.

(** The milliseconds a run spends in its pauses. *)
Definition total_sleep (evs : list Event) : Z :=
  foldr (fun e acc => match e with EvSleep _ delay => (delay + acc)%Z | _ => acc end) 0%Z evs.

(** The outcome of an attempt that ends the run. *)
Definition outcome_of (a : Attempt) : Outcome :=
  match a with
  | Got status statusText => Returned status statusText
  | Threw e => Thrown (Some e)
  | NeverSettles => Pending
  end.

End RetryRuns.

(** ** Requests within the limit *)

Module RequestLimits.
Import JsText Filters.

(** A list of a payload that holds at most 500 values. *)
Definition within_limit (o : option (list text)) : Prop :=
  match o with Some l => length l <= 500 | None => True end.

Definition payload_within_limit (p : FilterPayload) : Prop :=
  within_limit (sku_hijo_manual_list p)
  /\ within_limit (sku_padre_manual_list p)
  /\ within_limit (ticket_manual_list p)
  /\ within_limit (lineamiento_manual_list p)
  /\ match custom_text_filters p with
     | Some m => map_Forall (fun _ l => length l <= 500) m
     | None => True
     end.

Definition request_within_limit (r : Request) : Prop :=
  match r with
  | GetFilterVisibility _ => True
  | PostFilter p => payload_within_limit p
  | PostExport p => payload_within_limit p
  end.

End RequestLimits.

(** ** Reading a run of batches *)

Module BatchRuns.
Import JsText Filters.



End BatchRuns.

(** ** Sample tables and sessions *)

Module LoadSamples.
Import JsText LazyTable Filters DataLoad.

(** A result of 230 rows. *)
Definition long_result : list Row := repeat [("sku_hijo", "1001")] 230.

(** The first hundred rows of a result of 230, with the trigger row. *)
Definition first_hundred : list BodyRow := renderDataTable long_result.

(** A session in which a second source was loaded before. *)
Definition two_sources : Session :=
  {| app := with_cache (<["UNIVERSO CHILE" := sample_entry]>
                          (dataSourceCache (sample_app blank_inputs)))
              (sample_app blank_inputs);
     blobSelect := Some "UNIVERSO PERU";
     viewStateCache := ∅;
     pendingTimers := [] |}.

End LoadSamples.

(** ** renderPagination and changePage *)

Module Pagination.
Import JsText Filters.

(** The bar that [renderPagination] builds: the two buttons and the
    caption `Página ${currentPage} de ${totalPages}`. *)
Record PageBar := {
  prev_disabled : bool;
  next_disabled : bool;
  caption_page : nat;
  caption_total : nat
}.

(** renderPagination(totalRows); [None] is the container left empty. *)
Definition renderPagination (currentPage totalRows : nat) : option PageBar :=
  let totalPages := ceil_div totalRows PAGE_SIZE in
  if totalPages <=? 1 then None
  else Some {| prev_disabled := currentPage =? 1;
               next_disabled := currentPage =? totalPages;
               caption_page := currentPage;
               caption_total := totalPages |}.

(** changePage(newPage), with [filtered] the store's
    [rowCount.filtered]; [None] when the call does nothing. *)
Definition changePage (w : World) (filtered : nat) (newPage : Z) (a : App)
    : option (App * list UiEvent * Completion) :=
  let totalPages := ceil_div filtered PAGE_SIZE in
  if (1 <=? newPage)%Z && (newPage <=? Z.of_nat totalPages)%Z
  then Some (handleApplyFilters w (Z.to_nat newPage) false
               (with_page (Z.to_nat newPage) a))
  else None.

(** The listeners of the two buttons read [currentPage] when clicked. *)
Definition click_prev (w : World) (filtered : nat) (a : App) :=
  changePage w filtered (Z.of_nat (currentPage a) - 1) a.

Definition click_next (w : World) (filtered : nat) (a : App) :=
  changePage w filtered (Z.of_nat (currentPage a) + 1) a.

(** The query of a call is not answered with a result. *)
Definition query_fails (w : World) : Prop :=
  match query_answer w with
  | Unreachable _ => True
  | Answered status _ => FetchRetry.response_ok status = false
  end.

(** A result of 450 rows is shown, page 2 of 5. *)
Definition paged_app : App := with_page 2 (sample_app blank_inputs).

(** The backend answers with status 500. *)
Definition failing : World :=
  {| visibility_answer := None;
     query_answer := Answered 500 scenario_result;
     batch_world := fun _ => offline_batch |}.

End Pagination.

(** ** The error notice of handleDataLoad *)

Module LoadErrors.
Import JsString FetchRetry DataLoad.

(** What the [catch] of the load tells the user: the title, the
    detail, and the kind of connectivity warning it shows. *)
Record ErrorNotice := {
  userMessage : string;
  detailedMessage : string;
  connectivityWarning : option string
}.

(** error.message && error.message.includes(needle) *)
Definition mentions (needle : string) (error : JsError) : bool :=
  truthy (err_message error) && includes needle (err_message error).

Definition describe_load_error (error : JsError) : ErrorNotice :=
  if mentions "ERR_CONNECTION_RESET" error then
    {| userMessage := "Conexión Interrumpida";
       detailedMessage := "El servidor cerró la conexión durante la operación. Intenta recargar la página.";
       connectivityWarning := Some "connection_reset" |}
  else if mentions "ERR_CONNECTION_REFUSED" error then
    {| userMessage := "Servidor No Disponible";
       detailedMessage := "El servidor de la aplicación no está corriendo. Verifica que el lanzador esté activo.";
       connectivityWarning := Some "server_unavailable" |}
  else if mentions "Failed to fetch" error then
    {| userMessage := "Conexión Bloqueada";
       detailedMessage := "Posible bloqueo por firewall o antivirus. Verifica la configuración de seguridad.";
       connectivityWarning := Some "firewall_blocked" |}
  else if mentions "HTTP 503" error then
    {| userMessage := "Servicio No Disponible";
       detailedMessage := "El servidor está temporalmente no disponible. Intenta nuevamente en unos momentos.";
       connectivityWarning := Some "server_unavailable" |}
  else if mentions "HTTP 50" error then
    {| userMessage := "Error del Servidor";
       detailedMessage := "Error interno del servidor. Contacta soporte técnico con detalles del error.";
       connectivityWarning := Some "server_error" |}
  else
    {| userMessage := "Error al cargar datos";
       detailedMessage := err_message error;
       connectivityWarning := None |}.

(** statusMessage: `${userMessage}: ${detailedMessage}` *)
Definition status_line (n : ErrorNotice) : string :=
  userMessage n +:+ ": " +:+ detailedMessage n.

(** The notice of a load, shown when its [catch] runs for an error
    that is not a cancellation. *)
Definition load_notice (r : LoadResult) : option ErrorNotice :=
  match r with
  | LoadFailed error => Some (describe_load_error error)
  | _ => None
  end.

(** Looking for a text in the known head of a message: whether
    [needle] is a prefix of [s] followed by anything, when [s] alone
    decides it. *)
Fixpoint decided_prefix (needle s : string) : option bool :=
  match needle with
  | EmptyString => Some true
  | String a needle' =>
      match s with
      | EmptyString => None
      | String b s' =>
          if Ascii.ascii_dec a b then decided_prefix needle' s' else Some false
      end
  end.

(** Whether [needle] starts at a position of [head], when [head] alone
    decides it for each of its positions. *)
Fixpoint includes_head (needle head : string) : option bool :=
  match head with
  | EmptyString => Some false
  | String _ rest =>
      match decided_prefix needle head, includes_head needle rest with
      | Some b1, Some b2 => Some (b1 || b2)
      | _, _ => None
      end
  end.

(** A status text that holds none of the texts the [catch] looks for. *)
Definition plain_status_text (statusText : string) : Prop :=
  Forall (fun needle => includes needle statusText = false)
    ["ERR_CONNECTION_RESET"; "ERR_CONNECTION_REFUSED"; "Failed to fetch";
     "HTTP 503"; "HTTP 50"].

End LoadErrors.

(** ** The stack of event cards *)

Module EventCards.
Import JsString.

(** The class of a card beside [event-card]. *)
Inductive CardClass := CardCurrent | CardCompleted | CardError.

Record Card := {
  card_class : CardClass;
  card_icon : string;
  card_message : string
}.

(** STAGE_MESSAGES, for the stages the backend names; a stage that is
    not among them gets the fallback. *)
Definition STAGE_MESSAGES : list (string * (string * string)) :=
  [("init", ("🚀", "Iniciando carga de datos..."));
   ("verifying", ("🔍", "Verificando actualizaciones disponibles..."));
   ("cache", ("⚡", "Cargando desde caché local..."));
   ("download", ("📥", "Descargando desde el servidor..."));
   ("processing", ("⚙️", "Procesando información..."));
   ("filtering", ("🔍", "Aplicando filtros y validaciones..."));
   ("enrichment", ("✨", "Enriqueciendo datos..."));
   ("finalizing", ("🎯", "Preparando visualización..."));
   ("caching", ("💾", "Guardando en caché..."));
   ("complete", ("✅", "Carga completada exitosamente!"));
   ("error", ("❌", "Error en la carga"))].

Fixpoint stage_lookup (stage : string) (table : list (string * (string * string)))
    : option (string * string) :=
  match table with
  | [] => None
  | (name, config) :: rest =>
      if String.eqb name stage then Some config else stage_lookup stage rest
  end.

(** x || d on a string that may be missing *)
Definition string_or (x : option string) (d : string) : string :=
  match x with
  | Some s => if truthy s then s else d
  | None => d
  end.

(** The first card of class [current] becomes [completed]. *)
Fixpoint complete_first_current (cards : list Card) : list Card :=
  match cards with
  | [] => []
  | card :: rest =>
      match card_class card with
      | CardCurrent =>
          {| card_class := CardCompleted; card_icon := card_icon card;
             card_message := card_message card |} :: rest
      | _ => card :: complete_first_current rest
      end
  end.

Definition addEventCard (stage : string) (customMessage : option string)
    (cards : list Card) : list Card :=
  let stageConfig := default ("📌", "Procesando...") (stage_lookup stage STAGE_MESSAGES) in
  complete_first_current cards
  ++ [{| card_class := if String.eqb stage "error" then CardError else CardCurrent;
         card_icon := fst stageConfig;
         card_message := string_or customMessage (snd stageConfig) |}].

Definition clearEventCards (cards : list Card) : list Card := [].

Definition markCurrentAsCompleted (cards : list Card) : list Card :=
  complete_first_current cards.

(** A message of the progress stream, parsed. *)
Record ProgressData := {
  progress_type : string;
  progress_stage : option string;
  progress_message : option string
}.

(** handleProgressEvent(progressData): the cards, and whether the
    timer that completes the current card a second later is set. *)
Definition handleProgressEvent (progressData : ProgressData) (cards : list Card)
    : list Card * bool :=
  if String.eqb (progress_type progressData) "progress" then
    (addEventCard (string_or (progress_stage progressData) "processing")
       (Some (string_or (progress_message progressData) "Procesando...")) cards, false)
  else if String.eqb (progress_type progressData) "complete" then
    (addEventCard "complete"
       (Some (string_or (progress_message progressData) "Carga completada exitosamente!"))
       cards, true)
  else if String.eqb (progress_type progressData) "error" then
    (addEventCard "error"
       (Some (string_or (progress_message progressData) "Error en la carga")) cards, false)
  else (cards, false).

(** What happens to the stack of cards in the course of a load. *)
Inductive CardOp :=
| OpProgress (progressData : ProgressData)
| OpAdd (stage : string) (customMessage : option string)
| OpMarkTimer
| OpClear.

Definition card_step (cards : list Card) (op : CardOp) : list Card :=
  match op with
  | OpProgress progressData => fst (handleProgressEvent progressData cards)
  | OpAdd stage customMessage => addEventCard stage customMessage cards
  | OpMarkTimer => markCurrentAsCompleted cards
  | OpClear => clearEventCards cards
  end.

Definition is_current (card : Card) : bool :=
  match card_class card with CardCurrent => true | _ => false end.

(** No card is current but, possibly, the last one. *)
Definition only_last_current (cards : list Card) : Prop :=
  forall i card, cards !! i = Some card -> is_current card = true ->
    S i = length cards.

End EventCards.

(** ** connectToLogStream *)

Module LogStream.

Definition MAX_LOG_STREAM_RETRIES : nat := 3.
Definition LOG_STREAM_RETRY_DELAY : N := 2000.

(** The counter of the script and whether [logEventSource] holds an
    open source. *)
Record Stream := {
  logStreamRetryCount : nat;
  source_open : bool
}.

(** What happens to the stream: the open source delivers a message or
    reports an error, and [connectToLogStream] is called, by the timer
    of a retry or by the handler of the [online] event. *)
Inductive StreamEvent := StreamMessage | StreamError | Connect.

Inductive StreamOutput :=
(** setTimeout(() => connectToLogStream(), delay) *)
| RetryIn (delay : N)
(** the message that the connection failed after several attempts *)
| GaveUp.

Definition stream_step (s : Stream) (e : StreamEvent) : Stream * list StreamOutput :=
  match e with
  | Connect => ({| logStreamRetryCount := logStreamRetryCount s; source_open := true |}, [])
  | StreamMessage =>
      if source_open s
      then ({| logStreamRetryCount := 0; source_open := true |}, [])
      else (s, [])
  | StreamError =>
      if source_open s then
        if logStreamRetryCount s <? MAX_LOG_STREAM_RETRIES then
          ({| logStreamRetryCount := S (logStreamRetryCount s); source_open := false |},
           [RetryIn (LOG_STREAM_RETRY_DELAY * N.of_nat (S (logStreamRetryCount s)))])
        else
          ({| logStreamRetryCount := logStreamRetryCount s; source_open := false |},
           [GaveUp])
      else (s, [])
  end.

Fixpoint stream_run (s : Stream) (evs : list StreamEvent) : Stream * list StreamOutput :=
  match evs with
  | [] => (s, [])
  | e :: rest =>
      let '(s1, out1) := stream_step s e in
      let '(s2, out2) := stream_run s1 rest in
      (s2, out1 ++ out2)
  end.

(** The delays of the retries that a run schedules. *)
Definition retry_delays (outs : list StreamOutput) : list N :=
  omap (fun o => match o with RetryIn d => Some d | GaveUp => None end) outs.

Definition is_message (e : StreamEvent) : bool :=
  match e with StreamMessage => true | _ => false end.

End LogStream.

(** ** The last state used *)

Module LastState.
Import JsString DataLoad.

(** 24 * 60 * 60 * 1000 *)
Definition LAST_STATE_MAX_AGE : Z := 24 * 60 * 60 * 1000.

(** The object kept in [localStorage] under [reportes_last_state];
    [JSON.parse] gives back what [JSON.stringify] was given, three
    strings and a whole number. *)
Record SavedState := {
  country : string;
  source : string;
  sourceDisplayName : string;
  timestamp : Z
}.

(** saveLastUsedState(), at the time [now], with the value of the
    country selector and the text of the selected option of the source
    selector, if there is one. *)
Definition saveLastUsedState (now : Z) (currentBlobDisplayName : option string)
    (countryValue : string) (selectedText : option string)
    (storage : option SavedState) : option SavedState :=
  match currentBlobDisplayName with
  | Some name =>
      if truthy name then
        Some {| country := countryValue;
                source := name;
                sourceDisplayName :=
                  match selectedText with
                  | Some t => if truthy t then t else ""
                  | None => ""
                  end;
                timestamp := now |}
      else storage
  | None => storage
  end.

(** `hace ${hoursAgo}h` or `hace ${minutesAgo}min` *)
Definition time_ago (age : Z) : string :=
  let hoursAgo := (age / (60 * 60 * 1000))%Z in
  let minutesAgo := (Z.rem age (60 * 60 * 1000) / (60 * 1000))%Z in
  if (0 <? hoursAgo)%Z then "hace " +:+ pretty hoursAgo +:+ "h"
  else "hace " +:+ pretty minutesAgo +:+ "min".

(** The notice with the button that loads the source again. *)
Record Offer := {
  offer_message : string;
  offer_country : string;
  offer_source_text : string
}.

(** restoreLastState(), at the time [now]: what is left in the storage
    and the notice shown, if any. *)
Definition restoreLastState (now : Z) (storage : option SavedState)
    : option SavedState * option Offer :=
  match storage with
  | None => (None, None)
  | Some lastState =>
      let age := (now - timestamp lastState)%Z in
      if (LAST_STATE_MAX_AGE <? age)%Z then (None, None)
      else
        (storage,
         Some {| offer_message :=
                   "Última consulta: " +:+ sourceDisplayName lastState
                   +:+ " (" +:+ time_ago age +:+ ")";
                 offer_country := country lastState;
                 offer_source_text := sourceDisplayName lastState |})
  end.

End LastState.

(** ** cancelPendingFilterUpdates *)

Module PendingFilters.
Import JsText FilterTimers.

(** cancelPendingFilterUpdates() *)
Definition cancelPendingFilterUpdates (u : Ui) : Ui :=
  let u1 :=
    match filterDebounceTimer u with
    | Some id => if 0 <? id then set_debounce_timer None (clearTimeout id u) else u
    | None => u
    end in
  set_pending ∅ u1.

End PendingFilters.

(** ** handleExport *)

Module Exporting.
Import JsString JsText Filters.

(** What the request of an export meets: an answer, the rejection of a
    request aborted by the cancel button, a network failure, or no
    answer at all. *)
Inductive ExportAnswer :=
| ExportAnswered (status : nat) (statusText : string)
| ExportAborted
| ExportUnreachable (message : string)
| ExportPending.

(** The flag [isExporting], the buttons, and [isLoading] of the store. *)
Record ExportControls := {
  isExporting : bool;
  cancelButtonShown : bool;
  exportButtonsShown : bool;
  isLoading : bool
}.

(** The status message the function ends on. *)
Inductive ExportStatus :=
(** `Exportación a ${friendlyName} completada.` *)
| ExportCompleted (friendlyName : string)
(** 'Exportación cancelada.' *)
| ExportCancelled
(** `Error en exportación: ${error.message}`, for the error of
    [getFilterPayload] *)
| ExportPayloadError (f : Failure)
(** the same for "Exportación cancelada por el usuario.", thrown on status 499 *)
| ExportCancelledByServer
(** the same for `Error del servidor: ${response.statusText}` *)
| ExportServerError (statusText : string)
(** the same for the message of a rejected [fetch] *)
| ExportNetworkError (message : string).

Inductive ExportEvent :=
(** alert('No hay datos para exportar.') *)
| EvNoDataAlert
| EvExportRequest (endpoint : string) (body : FilterPayload)
| EvFileSaved (fileExtension : string).

Record ExportRun := {
  controls : ExportControls;
  events : list ExportEvent;
  status : option ExportStatus;
  completion : Completion
}.

Definition exporting : ExportControls :=
  {| isExporting := true; cancelButtonShown := true; exportButtonsShown := false;
     isLoading := true |}.

(** The controls as the [finally] block leaves them. *)
Definition idle : ExportControls :=
  {| isExporting := false; cancelButtonShown := false; exportButtonsShown := true;
     isLoading := false |}.

Definition handleExport (format : string) (answer : ExportAnswer) (a : App)
    (c : ExportControls) : ExportRun :=
  if negb (DataLoad.truthy_name (currentBlobDisplayName a)) then
    {| controls := c; events := [EvNoDataAlert]; status := None; completion := Completed |}
  else
    let endpoint :=
      if String.eqb format "excel" then "/api/data/export" else "/api/data/export-csv" in
    let fileExtension := if String.eqb format "excel" then "xlsx" else "csv" in
    let friendlyName := if String.eqb format "excel" then "Excel" else "CSV" in
    match getFilterPayload a with
    | Raise f =>
        {| controls := idle; events := []; status := Some (ExportPayloadError f);
           completion := Completed |}
    | Ok requestBody =>
        let sent := [EvExportRequest endpoint requestBody] in
        match answer with
        | ExportPending =>
            {| controls := exporting; events := sent; status := None;
               completion := NeverCompletes |}
        | ExportAborted =>
            {| controls := idle; events := sent; status := Some ExportCancelled;
               completion := Completed |}
        | ExportUnreachable message =>
            {| controls := idle; events := sent;
               status := Some (ExportNetworkError message); completion := Completed |}
        | ExportAnswered st statusText =>
            if negb (FetchRetry.response_ok st) then
              {| controls := idle; events := sent;
                 status := Some (if st =? 499 then ExportCancelledByServer
                                 else ExportServerError statusText);
                 completion := Completed |}
            else
              {| controls := idle; events := sent ++ [EvFileSaved fileExtension];
                 status := Some (ExportCompleted friendlyName);
                 completion := Completed |}
        end
    end.

Definition is_export_request (e : ExportEvent) : bool :=
  match e with EvExportRequest _ _ => true | _ => false end.

End Exporting.

(** ** The reports of values not found *)

Module Reports.
Import JsText Filters.

(** values.join('\n') *)
Fixpoint join_lines (values : list text) : text :=
  match values with
  | [] => []
  | [value] => value
  | value :: rest => value ++ 10%N :: join_lines rest
  end.

(** values.forEach(sku => { content += `${sku}\n` }), the lines of the
    values in the report of a run of batches *)
Definition value_lines (values : list text) : text :=
  concat (List.map (fun sku => sku ++ [10%N]) values).

End Reports.

(** ** The manual inputs *)

Module ManualInputs.
Import JsText Filters.

(** The four text inputs of the manual lists are empty and the
    checkbox that extends the search is off. *)
Definition manual_inputs_empty (i : Inputs) : Prop :=
  skuHijoInput i = [] /\ skuPadreInput i = [] /\ ticketFilterInput i = []
  /\ lineamientoFilterInput i = [] /\ extendSkuHijoCheckbox i = false.

(** A session that shows "UNIVERSO CHILE" and switches to "UNIVERSO
    PERU", loaded before, with a list typed into the first input. *)
Definition switching : DataLoad.Session :=
  {| DataLoad.app :=
       sample_app (with_skus (of_string "1001,1002") [] false false);
     DataLoad.blobSelect := Some "UNIVERSO PERU";
     DataLoad.viewStateCache := ∅;
     DataLoad.pendingTimers := [] |}.

(** A session whose view of "UNIVERSO PERU" was saved. *)
Definition with_saved_view : DataLoad.Session :=
  {| DataLoad.app := sample_app blank_inputs;
     DataLoad.blobSelect := Some "UNIVERSO PERU";
     DataLoad.viewStateCache :=
       {[ "UNIVERSO PERU" :=
            {| DataLoad.snap_displayName := Some "UNIVERSO PERU";
               DataLoad.snap_filename := Some "universo_peru.parquet";
               DataLoad.snap_hijoLoaded := false;
               DataLoad.snap_padreLoaded := false;
               DataLoad.snap_hidden := [];
               DataLoad.snap_skuHijo := JsText.of_string "1001";
               DataLoad.snap_skuPadre := [];
               DataLoad.snap_ticket := [];
               DataLoad.snap_lineamiento := [];
               DataLoad.snap_table := [LazyTable.NoDataNotice] |} ]};
     DataLoad.pendingTimers := [] |}.

End ManualInputs.

(** ** handleDataLoadWithColumns *)

Module ColumnLoad.
Import JsText LazyTable Filters DataLoad.

Section Load.
Variable toLowerCase : string -> string.

(** The [try] block of [handleDataLoadWithColumns]: that of
    [handleDataLoad] with a timeout of 15 s on the settings and the
    selected columns in the body of the load request. *)
Definition load_try_columns (w : LoadWorld) (a : App) : App * TryEnd :=
  let name := key_of (currentBlobDisplayName a) in
  match fetch_json (Some 15000%N) 2 1500 (settings_network w) (settings_json w)
          "No se pudo obtener la configuración del servidor" with
  | inl stop => (a, stop)
  | inr blobSettings =>
      let a := with_hidden (hidden_columns toLowerCase blobSettings) a in
      match fetch_json None 0 1000 (load_network w) (load_json w)
              "No se recibieron datos del servidor" with
      | inl stop => (a, stop)
      | inr dataPayload =>
          match payload_columns dataPayload with
          | None =>
              (a, TryThrew (mkError "El formato de datos recibido es inválido (columns)"))
          | Some cols =>
              let a1 :=
                with_cache (<[name := new_entry toLowerCase a blobSettings dataPayload cols]>
                              (dataSourceCache a)) a in
              match handleApplyFilters (apply_world w) 1 true a1 with
              | (a2, _, Completed) => (a2, TryDone)
              | (a2, _, NeverCompletes) => (a2, TryUnfinished)
              end
          end
      end
  end.

(** handleDataLoadWithColumns(selectedColumns); the columns go into
    the messages and into the body of the request.  Its [catch] shows
    the error and leaves the cache alone. *)
Definition handleDataLoadWithColumns (selectedColumns : list string) (w : LoadWorld)
    (a : App) : App * LoadResult :=
  if negb (truthy_name (currentBlobDisplayName a)) then (a, NoSourceSelected)
  else
    let a0 :=
      with_result (skusNoEncontrados a) []
        (with_inputs (clearManualFilterInputs (inputs a)) a) in
    match load_try_columns w a0 with
    | (a1, TryDone) => (a1, LoadCompleted)
    | (a1, TryUnfinished) => (a1, LoadUnfinished)
    | (a1, TryThrew error) =>
        if String.eqb (err_name error) "AbortError" then (a1, LoadCancelled)
        else (a1, LoadFailed error)
    end.

End Load.

(** The load request is answered with a body that has no columns. *)
Definition without_columns : LoadWorld :=
  {| dom_ready := true;
     settings_network := fun _ => Responds 200 "OK";
     settings_json := Some {| hide_columns := None; filter_columns := None |};
     load_network := fun _ => Responds 200 "OK";
     load_json := Some {| payload_columns := None; row_count_original := None;
                          payload_cache_ttl_seconds := None; filter_options := None |};
     apply_world := offline |}.

End ColumnLoad.

(** ** Loads that wait, and leaving a source *)

Module LoadWaits.
Import JsText LazyTable Filters DataLoad.

(** The settings arrive; the request for the data gets no answer. *)
Definition silent_load : LoadWorld :=
  {| dom_ready := true;
     settings_network := fun _ => Responds 200 "OK";
     settings_json := Some {| hide_columns := None; filter_columns := None |};
     load_network := fun _ => StaysPending;
     load_json := None;
     apply_world := offline |}.

(** A session in which the selector names another source than the
    current one. *)
Definition leaving : Session :=
  {| app := sample_app blank_inputs;
     blobSelect := Some "UNIVERSO CHILE";
     viewStateCache := ∅;
     pendingTimers := [] |}.

End LoadWaits.

(** ** handleFileUpload and handleFileClear *)

Module Uploads.
Import JsText LazyTable Filters.

(** The three pairs of upload and clear buttons. *)
Inductive FileKind := SkuHijoFile | SkuPadreFile | TicketFile.

(** The body of the answer to an upload. *)
Record UploadResult := { sku_count : option Z; message : option string }.

(** The answer to the upload: a response, whose body is an object or
    makes [response.json()] throw an error of the given message, or no
    response. *)
Inductive UploadAnswer :=
| UploadAnswered (status : nat) (body : string + UploadResult)
| UploadUnreachable (error_message : string).

(** What is written to the status element of the file: nothing, the
    empty text, [result.message], or `Error: ${error.message}`. *)
Inductive StatusWrite :=
| StatusUntouched
| StatusCleared
| StatusMessage (text : option string)
| StatusError (error_message : string).

Definition with_files (hijo padre : bool) (a : App) : App :=
  {| currentBlobDisplayName := currentBlobDisplayName a;
     currentBlobFilename := currentBlobFilename a;
     skuHijoFileLoaded := hijo;
     skuPadreFileLoaded := padre;
     currentSelectedDisplayColumns := currentSelectedDisplayColumns a;
     hiddenColumnsConfig := hiddenColumnsConfig a;
     dataSourceCache := dataSourceCache a;
     inputs := inputs a;
     currentPage := currentPage a;
     batchProcessCancelled := batchProcessCancelled a;
     allBatchNotFoundSkus := allBatchNotFoundSkus a;
     skusNoEncontrados := skusNoEncontrados a;
     tableBody := tableBody a |}.

(** The [setState] of the flag of a kind of file; the ticket file has
    no flag. *)
Definition set_file_loaded (kind : FileKind) (loaded : bool) (a : App) : App :=
  match kind with
  | SkuHijoFile => with_files loaded (skuPadreFileLoaded a) a
  | SkuPadreFile => with_files (skuHijoFileLoaded a) loaded a
  | TicketFile => a
  end.

Record UploadRun := {
  upload_app : App;
  upload_events : list UiEvent;
  upload_status : StatusWrite;
  (** [fileInput.value = ''] of the [finally] block *)
  file_input_cleared : bool;
  upload_end : Completion
}.

Definition upload_failed (a : App) (error_message : string) : UploadRun :=
  {| upload_app := a; upload_events := [];
     upload_status := StatusError error_message;
     file_input_cleared := true; upload_end := Completed |}.

Definition handleFileUpload (file_chosen : bool) (answer : UploadAnswer)
    (kind : FileKind) (w : World) (a : App) : UploadRun :=
  if negb file_chosen
  then {| upload_app := a; upload_events := []; upload_status := StatusUntouched;
          file_input_cleared := false; upload_end := Completed |}
  else
    match answer with
    | UploadUnreachable error_message => upload_failed a error_message
    | UploadAnswered status body =>
        if negb (FetchRetry.response_ok status)
        then upload_failed a ("HTTP error " +:+ pretty status)
        else
          match body with
          | inl error_message => upload_failed a error_message
          | inr result =>
              let a1 := set_file_loaded kind (0 <? default 0 (sku_count result))%Z a in
              let '(a2, evs, c) := handleApplyFilters w 1 false a1 in
              {| upload_app := a2; upload_events := evs;
                 upload_status := StatusMessage (message result);
                 file_input_cleared :=
                   match c with Completed => true | NeverCompletes => false end;
                 upload_end := c |}
          end
    end.

(** [handleFileClear]; [reached] says whether the DELETE request got a
    response.  The last component is the status message set when it
    did not. *)
Definition handleFileClear (kind : FileKind) (reached : bool) (a : App)
    : App * StatusWrite * option string :=
  (set_file_loaded kind false a, StatusCleared,
   if reached then None else Some "Error en el servidor al limpiar filtro.").

(** The flags of uploaded files that a request reports. *)
Definition carries_flags (hijo padre : bool) (r : Request) : Prop :=
  match r with
  | PostFilter p | PostExport p =>
      use_sku_hijo_file p = hijo /\ use_sku_padre_file p = padre
  | GetFilterVisibility _ => True
  end.

(** An upload of identifiers of SKU hijo that the backend accepts. *)
Definition accepted_upload : UploadAnswer :=
  UploadAnswered 200 (inr {| sku_count := Some 12%Z; message := Some "12 SKUs cargados" |}).

End Uploads.

(** ** The favourite of a source *)

Module Favorites.
Import JsText LazyTable Filters.

(** A select of class [filter-select]: its column and its options,
    each with its value and whether it is selected. *)
Record SelectControl := {
  select_column : string;
  select_options : list (string * bool)
}.

(** A checkbox of the list of columns. *)
Record Checkbox := { cb_value : string; cb_checked : bool }.

(** The controls that a favourite keeps: the selects of the filter
    panel, the checkboxes of the columns with the list
    [currentSelectedDisplayColumns], and the checkbox that extends the
    search. *)
Record Panel := {
  selects : list SelectControl;
  columnCheckboxes : list Checkbox;
  selectedDisplayColumns : list string;
  extendChecked : bool
}.

(** [Array.from(select.selectedOptions).map(opt => opt.value)] *)
Definition selected_values (s : SelectControl) : list string :=
  List.map fst (List.filter snd (select_options s)).

(** The values of the checkboxes that are checked, in order. *)
Definition checked_values (cbs : list Checkbox) : list string :=
  List.map cb_value (List.filter cb_checked cbs).

(** The application with the controls of the panel. *)
Definition shown (p : Panel) (a : App) : App :=
  let i := inputs a in
  {| currentBlobDisplayName := currentBlobDisplayName a;
     currentBlobFilename := currentBlobFilename a;
     skuHijoFileLoaded := skuHijoFileLoaded a;
     skuPadreFileLoaded := skuPadreFileLoaded a;
     currentSelectedDisplayColumns := selectedDisplayColumns p;
     hiddenColumnsConfig := hiddenColumnsConfig a;
     dataSourceCache := dataSourceCache a;
     inputs :=
       {| skuHijoInput := skuHijoInput i;
          skuPadreInput := skuPadreInput i;
          ticketFilterInput := ticketFilterInput i;
          lineamientoFilterInput := lineamientoFilterInput i;
          batchProcessHijoCheckbox := batchProcessHijoCheckbox i;
          batchProcessPadreCheckbox := batchProcessPadreCheckbox i;
          extendSkuHijoCheckbox := extendChecked p;
          priorityColoringToggle := priorityColoringToggle i;
          customTextFilterInputs := customTextFilterInputs i;
          filterSelects :=
            List.map (fun s => (select_column s, selected_values s)) (selects p) |};
     currentPage := currentPage a;
     batchProcessCancelled := batchProcessCancelled a;
     allBatchNotFoundSkus := allBatchNotFoundSkus a;
     skusNoEncontrados := skusNoEncontrados a;
     tableBody := tableBody a |}.

(** [stateToSave] *)
Record FavoriteState := {
  state_value_filters : gmap string (list string);
  state_selected_columns : list string;
  state_extend_sku_search : bool
}.

(** What [FavoritesManager.saveFavorite] does with the state. *)
Inductive SaveAnswer := SaveAccepted | SaveRefused | SaveThrew (error_message : string).

Inductive SaveEnd :=
(** the warning shown when no source is loaded *)
| SaveNoSource
(** the payload could not be built *)
| SaveNotBuilt (f : Failure)
(** the state handed to the manager for the source, and the notice *)
| SaveSent (source : string) (state : FavoriteState) (saved : bool).

Definition saveFavoriteHandler (answer : SaveAnswer) (a : App) : SaveEnd :=
  match currentBlobDisplayName a with
  | None => SaveNoSource
  | Some name =>
      if negb (JsString.truthy name) then SaveNoSource
      else
        match getFilterPayload a with
        | Raise e => SaveNotBuilt e
        | Ok payload =>
            SaveSent name
              {| state_value_filters := value_filters payload;
                 state_selected_columns := currentSelectedDisplayColumns a;
                 state_extend_sku_search := extendSkuHijoCheckbox (inputs a) |}
              match answer with SaveAccepted => true | _ => false end
        end
  end.

(** A favourite as the manager hands it back: each field may be
    missing. *)
Record Favorite := {
  fav_value_filters : option (gmap string (list string));
  fav_selected_columns : option (list string);
  fav_extend_sku_search : option bool
}.

(** What [FavoritesManager.loadFavorite] answers. *)
Inductive LoadAnswer :=
| LoadAnswered (favorite : option Favorite)
| LoadThrew (error_message : string).

Inductive LoadNotice :=
| NoticeNoSource
| NoticeNoFavorite (source : string)
| NoticeLoaded (source : string)
| NoticeError (error_message : string).

Section Apply.
(** [String.prototype.toLowerCase] *)
Variable toLowerCase : string -> string.

(** The selects, the columns and the checkbox after a favourite is
    applied. *)
Definition apply_favorite (favorite : Favorite) (p : Panel) : Panel :=
  let valueFiltersToApply := default ∅ (fav_value_filters favorite) in
  let selects' :=
    List.map (fun s =>
      {| select_column := select_column s;
         select_options :=
           List.map (fun o =>
             (fst o,
              bool_decide
                (fst o ∈ default [] (valueFiltersToApply !! select_column s))))
             (select_options s) |}) (selects p) in
  let savedSelectedCols :=
    List.map toLowerCase (default [] (fav_selected_columns favorite)) in
  let checkboxes' :=
    if 0 <? length savedSelectedCols
    then List.map (fun cb =>
           {| cb_value := cb_value cb;
              cb_checked := bool_decide (cb_value cb ∈ savedSelectedCols) |})
           (columnCheckboxes p)
    else columnCheckboxes p in
  {| selects := selects';
     columnCheckboxes := checkboxes';
     selectedDisplayColumns :=
       if 0 <? length savedSelectedCols then checked_values checkboxes'
       else selectedDisplayColumns p;
     extendChecked := default false (fav_extend_sku_search favorite) |}.

Definition loadFavoriteHandler (currentBlob : option string) (answer : LoadAnswer)
    (p : Panel) : Panel * LoadNotice :=
  match currentBlob with
  | None => (p, NoticeNoSource)
  | Some name =>
      if negb (JsString.truthy name) then (p, NoticeNoSource)
      else
        match answer with
        | LoadThrew error_message => (p, NoticeError error_message)
        | LoadAnswered None => (p, NoticeNoFavorite name)
        | LoadAnswered (Some favorite) => (apply_favorite favorite p, NoticeLoaded name)
        end
  end.

End Apply.

(** The favourite read back when the manager returns the state it was
    given. *)
Definition read_back (state : FavoriteState) : Favorite :=
  {| fav_value_filters := Some (state_value_filters state);
     fav_selected_columns := Some (state_selected_columns state);
     fav_extend_sku_search := Some (state_extend_sku_search state) |}.

(** The controls are those built by [populateFilterControls] and
    [populateColumnsListbox] from names without repetition, and the
    list of the selected columns follows the checkboxes. *)
Definition well_built (p : Panel) : Prop :=
  NoDup (List.map select_column (selects p))
  /\ Forall (fun s => NoDup (List.map fst (select_options s))) (selects p)
  /\ NoDup (List.map cb_value (columnCheckboxes p))
  /\ selectedDisplayColumns p = checked_values (columnCheckboxes p).

(** A panel with two selects and three columns. *)
Definition sample_panel : Panel :=
  {| selects :=
       [ {| select_column := "marca";
            select_options := [("ACME", true); ("BOLT", false); ("", true)] |};
         {| select_column := "temporada";
            select_options := [("2024", false); ("2025", false)] |} ];
     columnCheckboxes :=
       [ {| cb_value := "sku_hijo"; cb_checked := true |};
         {| cb_value := "marca"; cb_checked := false |};
         {| cb_value := "precio"; cb_checked := true |} ];
     selectedDisplayColumns := ["sku_hijo"; "precio"];
     extendChecked := true |}.

End Favorites.

(** ** The dialog of the columns to load *)

Module ColumnSelector.

(** The answer to the request for the columns of a source; each field
    may be missing. *)
Record ColumnsData := {
  available_columns : option (list string);
  essential_columns : option (list string);
  default_selected_columns : option (list string)
}.

(** A checkbox of class [column-checkbox]. *)
Record ColumnBox := {
  box_value : string;
  box_checked : bool;
  (** the attribute [data-essential] *)
  box_essential : bool
}.

(** The checkboxes that [populateColumnSelector] creates: those of the
    essential columns, then those of the other available columns. *)
Definition populateColumnSelector (data : ColumnsData) : list ColumnBox :=
  let availableColumns := default [] (available_columns data) in
  let essentialColumns := default [] (essential_columns data) in
  let defaultSelected := default [] (default_selected_columns data) in
  let additionalCols :=
    List.filter (fun col => negb (bool_decide (col ∈ essentialColumns)))
      availableColumns in
  List.map (fun col => {| box_value := col; box_checked := true;
                          box_essential := true |}) essentialColumns
  ++ List.map (fun col => {| box_value := col;
                             box_checked := bool_decide (col ∈ defaultSelected);
                             box_essential := false |}) additionalCols.

(** The text of [total-columns-count]. *)
Definition total_columns_count (data : ColumnsData) : nat :=
  length (default [] (available_columns data)).

(** updateColumnSelectionInfo: the text of [selected-columns-count]. *)
Definition selected_count (boxes : list ColumnBox) : nat :=
  length (List.filter box_checked boxes).

Definition set_checked (checked : ColumnBox -> bool) (boxes : list ColumnBox)
    : list ColumnBox :=
  List.map (fun cb => {| box_value := box_value cb; box_checked := checked cb;
                         box_essential := box_essential cb |}) boxes.

Definition selectAllColumns : list ColumnBox -> list ColumnBox :=
  set_checked (fun _ => true).

Definition deselectAllColumns : list ColumnBox -> list ColumnBox :=
  set_checked (fun _ => false).

Definition restoreDefaultColumns : list ColumnBox -> list ColumnBox :=
  set_checked box_essential.

(** A click on the checkbox of index [i], if there is one. *)
Fixpoint click_box (i : nat) (boxes : list ColumnBox) : list ColumnBox :=
  match boxes, i with
  | [], _ => []
  | cb :: rest, 0 =>
      {| box_value := box_value cb; box_checked := negb (box_checked cb);
         box_essential := box_essential cb |} :: rest
  | cb :: rest, S i' => cb :: click_box i' rest
  end.

(** What the user does in the dialog. *)
Inductive BoxOp := SelectAll | DeselectAll | RestoreDefault | ClickBox (i : nat).

Definition box_step (boxes : list ColumnBox) (op : BoxOp) : list ColumnBox :=
  match op with
  | SelectAll => selectAllColumns boxes
  | DeselectAll => deselectAllColumns boxes
  | RestoreDefault => restoreDefaultColumns boxes
  | ClickBox i => click_box i boxes
  end.

(** The click on the button that confirms the selection: an alert, or
    the columns handed to [handleDataLoadWithColumns]. *)
Inductive ConfirmEnd := ConfirmAlert | ConfirmLoad (selectedColumns : list string).

Definition confirm_selection (boxes : list ColumnBox) : ConfirmEnd :=
  let selectedColumns := List.map box_value (List.filter box_checked boxes) in
  if length selectedColumns =? 0 then ConfirmAlert else ConfirmLoad selectedColumns.

(** The value and the attribute of each checkbox. *)
Definition box_frame (boxes : list ColumnBox) : list (string * bool) :=
  List.map (fun cb => (box_value cb, box_essential cb)) boxes.

End ColumnSelector.

(** * Properties *)

(** ** Tokens *)

Section TextFacts.
Import JsText.

Lemma white_space_separates c : is_white_space c = true -> is_separator c = true.
Proof. unfold is_separator. intros ->. apply orb_true_r. Qed.

Lemma trim_start_plain t : plain t -> trim_start t = t.
Proof.
  intros H. destruct t as [|c t]; [reflexivity|]. simpl.
  inversion H as [|? ? Hc _]; subst.
  destruct (is_white_space c) eqn:Hw; [|reflexivity].
  apply white_space_separates in Hw. congruence.
Qed.

Lemma trim_plain t : plain t -> trim t = t.
Proof.
  intros H. unfold trim. rewrite (trim_start_plain t H).
  rewrite trim_start_plain; [apply rev_involutive|].
  unfold plain. apply List.Forall_rev. exact H.
Qed.

Lemma non_empty_flush (w : text) :
  List.filter non_empty [w] = flush w.
Proof. destruct w; reflexivity. Qed.

Lemma split_go_tokens s : forall piece,
  plain piece ->
  List.filter non_empty (List.map trim (split_go false piece s)) = tokens_go (rev piece) s
  /\ List.filter non_empty (List.map trim (split_go true [] s)) = tokens_go [] s.
Proof.
  induction s as [|c rest IH]; intros piece Hp.
  - simpl. rewrite trim_plain by (apply List.Forall_rev; exact Hp).
    split; [apply non_empty_flush|reflexivity].
  - simpl. destruct (is_separator c) eqn:Hc.
    + destruct (IH [] (Forall_nil_2 _)) as [_ Hrun]. split.
      * cbn [List.map]. rewrite trim_plain by (apply List.Forall_rev; exact Hp).
        change (rev piece :: List.map trim (split_go true [] rest))
          with ([rev piece] ++ List.map trim (split_go true [] rest)).
        rewrite List.filter_app, non_empty_flush. f_equal. exact Hrun.
      * exact Hrun.
    + split.
      * destruct (IH (c :: piece)) as [Hw _]; [constructor; assumption|].
        exact Hw.
      * destruct (IH [c]) as [Hw _]; [repeat constructor; assumption|].
        exact Hw.
Qed.

Lemma tokens_go_trailing s : forall w c,
  is_white_space c = true -> tokens_go w (s ++ [c]) = tokens_go w s.
Proof.
  induction s as [|d s IH]; intros w c Hc; simpl.
  - rewrite (white_space_separates c Hc). simpl. apply app_nil_r.
  - destruct (is_separator d); rewrite IH by assumption; reflexivity.
Qed.

Lemma tokens_trim_start s : tokens (trim_start s) = tokens s.
Proof.
  induction s as [|c s IH]; [reflexivity|]. simpl.
  destruct (is_white_space c) eqn:Hc; [|reflexivity].
  rewrite IH. unfold tokens. simpl. rewrite (white_space_separates c Hc). reflexivity.
Qed.

Lemma tokens_rev_trim_start l : tokens (rev (trim_start l)) = tokens (rev l).
Proof.
  induction l as [|c l IH]; [reflexivity|]. simpl.
  destruct (is_white_space c) eqn:Hc; [|reflexivity].
  rewrite IH. unfold tokens. symmetry. apply tokens_go_trailing, Hc.
Qed.

Lemma tokens_trim s : tokens (trim s) = tokens s.
Proof.
  unfold trim. rewrite tokens_rev_trim_start, rev_involutive. apply tokens_trim_start.
Qed.

(** The pieces the script keeps are the tokens of the text. *)
Lemma script_tokens_mapped value :
  List.filter non_empty (List.map trim (split_separators (trim value))) = tokens value.
Proof.
  unfold split_separators.
  destruct (split_go_tokens (trim value) [] (Forall_nil_2 _)) as [H _].
  rewrite H. apply tokens_trim.
Qed.

Lemma map_trim_pieces s : forall b piece,
  plain piece ->
  List.map trim (split_go b piece s) = split_go b piece s.
Proof.
  induction s as [|c rest IH]; intros b piece Hp; simpl.
  - rewrite trim_plain by (apply List.Forall_rev; exact Hp). reflexivity.
  - destruct (is_separator c) eqn:Hc.
    + destruct b.
      * apply IH, Hp.
      * cbn [List.map]. rewrite trim_plain by (apply List.Forall_rev; exact Hp).
        rewrite IH by constructor. reflexivity.
    + apply IH. constructor; assumption.
Qed.

Lemma script_tokens value :
  List.filter non_empty (split_separators (trim value)) = tokens value.
Proof.
  rewrite <- script_tokens_mapped. unfold split_separators.
  rewrite map_trim_pieces by constructor. reflexivity.
Qed.

Lemma tokens_of_blank value : non_empty (trim value) = false -> tokens value = [].
Proof.
  intros H. rewrite <- tokens_trim. destruct (trim value); [reflexivity|discriminate].
Qed.

Lemma flush_plain w : plain w -> Forall (fun t => t <> [] /\ plain t) (flush w).
Proof.
  intros Hw. destruct w; simpl; [constructor|].
  constructor; [split; [discriminate|assumption]|constructor].
Qed.

(** Every token is a non-empty run without separators. *)
Lemma tokens_go_plain s : forall w,
  plain w -> Forall (fun t => t <> [] /\ plain t) (tokens_go w s).
Proof.
  induction s as [|c s IH]; intros w Hw; simpl.
  - apply flush_plain, Hw.
  - destruct (is_separator c) eqn:Hc.
    + apply Forall_app. split; [apply flush_plain, Hw|apply IH; constructor].
    + apply IH. apply Forall_app. split; [assumption|repeat constructor; assumption].
Qed.

(** Joined together, the tokens are the text without its separators. *)
Lemma tokens_go_concat s : forall w,
  concat (tokens_go w s) = w ++ List.filter (fun c => negb (is_separator c)) s.
Proof.
  induction s as [|c s IH]; intros w; simpl.
  - destruct w; simpl; rewrite ?app_nil_r; reflexivity.
  - destruct (is_separator c) eqn:Hc; simpl.
    + rewrite concat_app, IH. destruct w; simpl; rewrite ?app_nil_r; reflexivity.
    + rewrite IH, <- app_assoc. reflexivity.
Qed.

End TextFacts.

(** ** fetchWithRetry: attempts, pauses, errors *)

Section FetchRetryFacts.
Import FetchRetry.
Variable timeout : option N.
Variable maxRetries : nat.
Variable initialDelay : Z.
Variable network : nat -> FetchBehaviour.

Local Abbreviation loop := (retry_loop timeout maxRetries initialDelay network).

Local Abbreviation failure_of := (FetchRetry.failure_of timeout network).

Lemma schedule_cons_fetch a evs : schedule (EvFetch a :: evs) = EvFetch a :: schedule evs.
Proof. reflexivity. Qed.

Lemma schedule_diag a d evs (b : bool) :
  schedule ((if b then [EvDiagnostics a] else []) ++ EvSleep a d :: evs)
  = EvSleep a d :: schedule evs.
Proof. destruct b; reflexivity. Qed.

Lemma fetches_diag a d evs (b : bool) :
  List.filter is_fetch ((if b then [EvDiagnostics a] else []) ++ EvSleep a d :: evs)
  = List.filter is_fetch evs.
Proof. destruct b; reflexivity. Qed.

Lemma retry_loop_run fuel : forall attempt lastError out evs,
  attempt <= maxRetries -> maxRetries - attempt < fuel ->
  loop fuel attempt lastError = (out, evs) ->
  exists k, attempt <= k <= maxRetries
    /\ length (List.filter is_fetch evs) = S (k - attempt)
    /\ schedule evs = retried initialDelay attempt (k - attempt) ++ [EvFetch k]
    /\ out <> OutOfFuel
    /\ (forall x, out = Thrown x -> x = failure_of k /\ is_Some x)
    /\ (forall n, attempt <= n < k ->
          exists e, failure_of n = Some e /\ isRetryableError e = true).
Proof.
  induction fuel as [|fuel IH]; intros attempt lastError out evs Hle Hfuel Hrun.
  { lia. }
  simpl in Hrun.
  destruct (Nat.leb_spec attempt maxRetries) as [_|]; [|lia].
  assert (Hstop : forall o, (forall x, o = Thrown x -> x = failure_of attempt /\ is_Some x) ->
            o <> OutOfFuel -> (o, [EvFetch attempt]) = (out, evs) ->
            exists k, attempt <= k <= maxRetries
              /\ length (List.filter is_fetch evs) = S (k - attempt)
              /\ schedule evs = retried initialDelay attempt (k - attempt) ++ [EvFetch k]
              /\ out <> OutOfFuel
              /\ (forall x, out = Thrown x -> x = failure_of k /\ is_Some x)
              /\ (forall n, attempt <= n < k ->
                    exists e, failure_of n = Some e /\ isRetryableError e = true)).
  { intros o Ho Hof Heq. inversion Heq; subst. exists attempt.
    replace (attempt - attempt) with 0 by lia.
    split_and!; simpl; auto; try lia. }
  destruct (try_block timeout (network attempt)) as [st tx|e|] eqn:Htry.
  - apply (Hstop (Returned st tx)); [intros; discriminate|discriminate|exact Hrun].
  - assert (Hthrown : forall x, Thrown (Some e) = Thrown x ->
                        x = failure_of attempt /\ is_Some x).
    { intros x Hx. inversion Hx; subst. unfold FetchRetry.failure_of. rewrite Htry. eauto. }
    destruct (Nat.eqb_spec attempt maxRetries) as [Heq|Hne].
    { apply (Hstop (Thrown (Some e))); [exact Hthrown|discriminate|exact Hrun]. }
    destruct (isRetryableError e) eqn:Hretry; simpl in Hrun.
    + destruct (loop fuel (S attempt) (Some e)) as [out' evs'] eqn:Hrec.
      inversion Hrun; subst.
      destruct (IH (S attempt) (Some e) out evs') as (k & Hk & Hn & Hs & Hof & Hth & Hprev);
        [lia|lia|assumption|].
      exists k. replace (k - attempt) with (S (k - S attempt)) by lia.
      split_and!; try lia; try assumption.
      * simpl. rewrite fetches_diag, Hn. reflexivity.
      * rewrite schedule_cons_fetch, schedule_diag, Hs. reflexivity.
      * intros n Hn'. destruct (Nat.eq_dec n attempt) as [->|].
        -- exists e. unfold FetchRetry.failure_of. rewrite Htry. auto.
        -- apply Hprev. lia.
    + apply (Hstop (Thrown (Some e))); [exact Hthrown|discriminate|exact Hrun].
  - apply (Hstop Pending); [intros; discriminate|discriminate|exact Hrun].
Qed.

Lemma retry_loop_exhausts fuel : forall attempt lastError,
  attempt <= maxRetries -> maxRetries - attempt < fuel ->
  (forall n, attempt <= n < maxRetries ->
     exists e, failure_of n = Some e /\ isRetryableError e = true) ->
  forall e, failure_of maxRetries = Some e ->
  fst (loop fuel attempt lastError) = Thrown (Some e)
  /\ length (List.filter is_fetch (snd (loop fuel attempt lastError)))
     = S (maxRetries - attempt).
Proof.
  induction fuel as [|fuel IH]; intros attempt lastError Hle Hfuel Hall e He; [lia|].
  simpl. destruct (Nat.leb_spec attempt maxRetries) as [_|]; [|lia].
  destruct (Nat.eq_dec attempt maxRetries) as [->|Hne].
  - unfold FetchRetry.failure_of in He.
    destruct (try_block timeout (network maxRetries)); try discriminate.
    inversion He; subst. rewrite Nat.eqb_refl. simpl.
    replace (maxRetries - maxRetries) with 0 by lia. auto.
  - destruct (Hall attempt) as (e' & He' & Hr); [lia|].
    unfold FetchRetry.failure_of in He'.
    destruct (try_block timeout (network attempt)); try discriminate.
    inversion He'; subst.
    destruct (Nat.eqb_spec attempt maxRetries) as [|_]; [lia|].
    rewrite Hr. simpl.
    destruct (IH (S attempt) (Some e')) with (e := e) as [Hout Hlen]; [lia|lia| |assumption|].
    { intros m Hm. apply Hall. lia. }
    destruct (loop fuel (S attempt) (Some e')) as [out' evs']. simpl in *.
    rewrite fetches_diag, Hlen. split; [assumption|]. lia.
Qed.


(** C7: [fetchWithRetry] calls [fetch] at most [maxRetries + 1] times;
    the run is attempt 0, a pause of [initialDelay * 2^0], attempt 1, a
    pause of [initialDelay * 2^1], and so on up to a last attempt [k];
    what it throws is the error of that last attempt, and when every
    attempt fails with an error that is retried, the last attempt is
    number [maxRetries] and its error reaches the caller. *)
Theorem fetchWithRetry_attempts_backoff_last_error out evs :
  fetchWithRetry timeout maxRetries initialDelay network = (out, evs) ->
  out <> OutOfFuel
  /\ exists k, k <= maxRetries
      /\ length (List.filter is_fetch evs) = S k
      /\ schedule evs = retried initialDelay 0 k ++ [EvFetch k]
      /\ (forall x, out = Thrown x -> x = failure_of k /\ is_Some x)
      /\ ((forall n, n <= maxRetries ->
             exists e, failure_of n = Some e /\ isRetryableError e = true) ->
          k = maxRetries
          /\ exists e, failure_of maxRetries = Some e /\ out = Thrown (Some e)).
Proof.
  intros Hrun. unfold fetchWithRetry in Hrun.
  destruct (retry_loop_run (S (S maxRetries)) 0 None out evs)
    as (k & Hk & Hn & Hs & Hof & Hth & _); [lia|lia|exact Hrun|].
  split; [assumption|]. exists k. rewrite Nat.sub_0_r in Hn, Hs.
  split_and!; try assumption; try lia.
  intros Hall. destruct (Hall maxRetries) as (e & He & _); [lia|].
  destruct (retry_loop_exhausts (S (S maxRetries)) 0 None) with (e := e)
    as [Hout Hlen]; [lia|lia| |assumption|].
  { intros n Hn'. apply Hall. lia. }
  rewrite Hrun in Hout, Hlen. simpl in Hout, Hlen.
  split; [lia|]. exists e. auto.
Qed.

End FetchRetryFacts.

Lemma fetchWithRetry_attempts_backoff_last_error_witness :
  let network := fun _ : nat => FetchRetry.Responds 503 "Service Unavailable" in
  let error := FetchRetry.mkError "HTTP 503: Service Unavailable" in
  let evs :=
    [FetchRetry.EvFetch 0; FetchRetry.EvSleep 0 2000;
     FetchRetry.EvFetch 1; FetchRetry.EvSleep 1 4000;
     FetchRetry.EvFetch 2; FetchRetry.EvDiagnostics 2; FetchRetry.EvSleep 2 8000;
     FetchRetry.EvFetch 3] in
  FetchRetry.fetchWithRetry (Some 5000%N) 3 2000 network
    = (FetchRetry.Thrown (Some error), evs)
  /\ (FetchRetry.Thrown (Some error) <> FetchRetry.OutOfFuel
      /\ exists k, k <= 3
          /\ length (List.filter FetchRetry.is_fetch evs) = S k
          /\ FetchRetry.schedule evs
             = FetchRetry.retried 2000 0 k ++ [FetchRetry.EvFetch k]
          /\ (forall x, FetchRetry.Thrown (Some error) = FetchRetry.Thrown x ->
                x = FetchRetry.failure_of (Some 5000%N) network k /\ is_Some x)
          /\ ((forall n, n <= 3 ->
                 exists e, FetchRetry.failure_of (Some 5000%N) network n = Some e
                           /\ FetchRetry.isRetryableError e = true) ->
              k = 3
              /\ exists e, FetchRetry.failure_of (Some 5000%N) network 3 = Some e
                           /\ FetchRetry.Thrown (Some error) = FetchRetry.Thrown (Some e))).
Proof.
  intros network error evs. split; [reflexivity|].
  apply (fetchWithRetry_attempts_backoff_last_error (Some 5000%N) 3 2000 network).
  reflexivity.
Defined.

(** ** fetchWithRetry: which errors are retried *)

Section RetryClassification.
Import JsString FetchRetry.

Lemma prefix_append n s1 s2 :
  String.prefix n s1 = true -> String.prefix n (s1 +:+ s2) = true.
Proof.
  revert s1. induction n as [|c n IH]; intros s1 H.
  - destruct (s1 +:+ s2); reflexivity.
  - destruct s1 as [|c' s1]; simpl in *; [discriminate|].
    destruct (Ascii.ascii_dec c c'); [auto|discriminate].
Qed.

Lemma includes_prefix n s : String.prefix n s = true -> includes n s = true.
Proof. intros H. destruct s; cbn [includes]; rewrite H; reflexivity. Qed.

(** A network failure, which [fetch] reports as a [TypeError], is retried. *)
Lemma network_failure_retried message :
  isRetryableError {| err_name := "TypeError"; err_message := message |} = true.
Proof. reflexivity. Qed.

Lemma status_5xx_prefix status :
  500 <= status <= 599 ->
  String.prefix "HTTP 5" ("HTTP " +:+ pretty status) = true.
Proof.
  intros H.
  assert (Hall : forallb (fun st => String.prefix "HTTP 5" ("HTTP " +:+ pretty st))
                   (seq 500 100) = true) by (vm_compute; reflexivity).
  rewrite forallb_forall in Hall. apply Hall. apply in_seq. lia.
Qed.

(** A response with a status from 500 to 599 throws an error that is retried. *)
Lemma server_error_retried timeout status statusText :
  500 <= status <= 599 ->
  exists e, try_block timeout (Responds status statusText) = Threw e
            /\ isRetryableError e = true.
Proof.
  intros H. unfold try_block, response_ok.
  destruct (Nat.leb_spec status 299); [lia|]. rewrite andb_false_r.
  eexists; split; [reflexivity|].
  unfold isRetryableError, mkError; simpl err_message; simpl err_name.
  assert (Hp : includes "HTTP 5" ("HTTP " +:+ pretty status +:+ ": " +:+ statusText) = true).
  { apply includes_prefix.
    change ("HTTP " +:+ pretty status +:+ ": " +:+ statusText)
      with ("HTTP " +:+ (pretty status +:+ (": " +:+ statusText))).
    replace ("HTTP " +:+ (pretty status +:+ (": " +:+ statusText)))
      with (("HTTP " +:+ pretty status) +:+ (": " +:+ statusText)) by reflexivity.
    apply prefix_append, status_5xx_prefix, H. }
  rewrite Hp. apply orb_true_iff. right. reflexivity.
Qed.

(** A response with a status from 400 to 499 and no status text (as
    over HTTP/2) throws an error that is not retried. *)
Lemma client_error_not_retried timeout status :
  400 <= status <= 499 ->
  exists e, try_block timeout (Responds status "") = Threw e
            /\ isRetryableError e = false.
Proof.
  intros H.
  assert (Hall : forallb (fun st =>
                   match try_block timeout (Responds st "") with
                   | Threw e => negb (isRetryableError e)
                   | _ => false
                   end) (seq 400 100) = true) by (vm_compute; reflexivity).
  rewrite forallb_forall in Hall. specialize (Hall status).
  destruct (try_block timeout (Responds status "")) as [| e |].
  - discriminate Hall; apply in_seq; lia.
  - exists e. split; [reflexivity|]. apply negb_true_iff, Hall, in_seq. lia.
  - discriminate Hall; apply in_seq; lia.
Qed.

(** The [AbortError] of a cancellation that carries no reason is not retried. *)
Lemma user_abort_not_retried :
  isRetryableError {| err_name := "AbortError";
                      err_message := "The user aborted a request." |} = false
  /\ isRetryableError {| err_name := "AbortError";
                         err_message := "signal is aborted without reason" |} = false.
Proof. split; vm_compute; reflexivity. Qed.

(** The reason of the timeout abort is a plain [Error]: for the
    timeouts the call sites use, it is not an error that is retried. *)
Lemma timeout_reason_not_retryable :
  Forall (fun ms => isRetryableError (timeout_reason ms) = false)
    [5000; 10000; 15000; 30000; 60000]%N.
Proof. repeat constructor. Qed.

(** C8: a request that gets no answer within [options.timeout] is
    aborted by the timer; the error that reaches the [catch] is the
    reason of the abort, whose name is [Error], so the loop stops after
    this single attempt whatever [maxRetries] is. *)
Theorem fetchWithRetry_timeout_abort_single_attempt maxRetries initialDelay :
  fetchWithRetry (Some 30000%N) maxRetries initialDelay (fun _ => StaysPending)
  = (Thrown (Some {| err_name := "Error";
                     err_message := "Request timeout after 30s" |}),
     [EvFetch 0]).
Proof.
  unfold fetchWithRetry. destruct maxRetries; reflexivity.
Qed.

End RetryClassification.

(** ** Manual lists: tokens, limit, batches *)

Section BatchFacts.
Import JsText Filters.

Lemma getListFromInput_tokens value allowBatching :
  getListFromInput value allowBatching
  = if (500 <? length (tokens value)) && negb allowBatching
    then Raise (LimitExceeded (length (tokens value)))
    else Ok (match tokens value with [] => None | ts => Some ts end).
Proof.
  unfold getListFromInput.
  destruct (non_empty (trim value)) eqn:Hne; simpl.
  - rewrite script_tokens_mapped.
    destruct (_ && _); [reflexivity|].
    destruct (tokens value); reflexivity.
  - rewrite (tokens_of_blank value Hne). reflexivity.
Qed.

Lemma validateBatchFilters_tokens i :
  let h := tokens (skuHijoInput i) in
  let p := tokens (skuPadreInput i) in
  validateBatchFilters i
  = if batchProcessHijoCheckbox i && batchProcessPadreCheckbox i
       && (500 <? length h) && (500 <? length p)
    then Conflict
    else if batchProcessHijoCheckbox i && (500 <? length h)
    then Valid true (Some BatchHijo) h (ceil_div (length h) 500)
    else if batchProcessPadreCheckbox i && (500 <? length p)
    then Valid true (Some BatchPadre) p (ceil_div (length p) 500)
    else Valid false None [] 0.
Proof.
  intros h p. unfold validateBatchFilters.
  assert (Hh : (if non_empty (trim (skuHijoInput i))
                then List.filter non_empty (split_separators (trim (skuHijoInput i)))
                else []) = h).
  { destruct (non_empty (trim (skuHijoInput i))) eqn:E.
    - apply script_tokens.
    - symmetry. apply tokens_of_blank, E. }
  assert (Hp : (if non_empty (trim (skuPadreInput i))
                then List.filter non_empty (split_separators (trim (skuPadreInput i)))
                else []) = p).
  { destruct (non_empty (trim (skuPadreInput i))) eqn:E.
    - apply script_tokens.
    - symmetry. apply tokens_of_blank, E. }
  destruct (negb (non_empty (trim (skuHijoInput i)))
            && negb (non_empty (trim (skuPadreInput i)))) eqn:Hblank.
  - apply andb_true_iff in Hblank as [H1 H2].
    apply negb_true_iff in H1, H2.
    subst h p. rewrite (tokens_of_blank _ H1), (tokens_of_blank _ H2). simpl.
    rewrite !andb_false_r. reflexivity.
  - rewrite Hh, Hp.
    destruct (batchProcessHijoCheckbox i), (batchProcessPadreCheckbox i);
      simpl;
      destruct (Nat.ltb_spec 500 (length h)), (Nat.ltb_spec 500 (length p));
      simpl; try reflexivity;
      try (destruct (Nat.ltb_spec 0 (length h)); [reflexivity|lia]);
      try (destruct (Nat.ltb_spec 0 (length p)); [reflexivity|lia]).
Qed.

Lemma ceil_div_step m : 0 < m -> ceil_div m 500 = S (ceil_div (m - 500) 500).
Proof.
  intros Hm. unfold ceil_div.
  destruct (le_lt_dec m 500) as [Hle|Hgt].
  - replace (m - 500) with 0 by lia.
    destruct (Nat.eq_dec m 500) as [->|Hne]; [reflexivity|].
    rewrite Nat.div_small, Nat.mod_small by lia.
    destruct (Nat.eqb_spec m 0); [lia|]. reflexivity.
  - replace m with ((m - 500) + 1 * 500) at 1 2 by lia.
    rewrite Nat.div_add by lia. rewrite Nat.Div0.mod_add. lia.
Qed.

Lemma length_slice {A} (from to : nat) (l : list A) :
  length (slice from to l) = Nat.min (to - from) (length l - from).
Proof. unfold slice. rewrite length_take, length_drop. reflexivity. Qed.

Section Chunks.
Context {A : Type}.
Implicit Types l : list A.

Lemma batches_from_length fuel : forall i l,
  length l - i <= fuel ->
  length (batches_from fuel i l) = ceil_div (length l - i) 500.
Proof.
  induction fuel as [|fuel IH]; intros i l Hfuel; simpl.
  - replace (length l - i) with 0 by lia. reflexivity.
  - destruct (Nat.ltb_spec i (length l)) as [Hlt|Hge].
    + simpl. rewrite IH by lia. rewrite (ceil_div_step (length l - i)) by lia.
      f_equal. f_equal. lia.
    + replace (length l - i) with 0 by lia. reflexivity.
Qed.

Lemma batches_from_lookup fuel : forall i l j,
  length l - i <= fuel ->
  j < ceil_div (length l - i) 500 ->
  batches_from fuel i l !! j = Some (slice (i + 500 * j) (i + 500 * j + 500) l).
Proof.
  induction fuel as [|fuel IH]; intros i l j Hfuel Hj; cbn [batches_from].
  - replace (length l - i) with 0 in Hj by lia.
    change (ceil_div 0 500) with 0 in Hj. lia.
  - destruct (Nat.ltb_spec i (length l)) as [Hlt|Hge].
    + destruct j as [|j].
      * rewrite Nat.mul_0_r, Nat.add_0_r. reflexivity.
      * rewrite (ceil_div_step (length l - i)) in Hj by lia.
        change ((slice i (i + 500) l :: batches_from fuel (i + 500) l) !! S j)
          with (batches_from fuel (i + 500) l !! j).
        rewrite IH; [|lia|].
        -- replace (i + 500 + 500 * j) with (i + 500 * S j) by lia. reflexivity.
        -- replace (length l - (i + 500)) with (length l - i - 500) by lia. lia.
    + replace (length l - i) with 0 in Hj by lia.
      change (ceil_div 0 500) with 0 in Hj. lia.
Qed.

Lemma batches_from_concat fuel : forall i l,
  length l - i <= fuel -> concat (batches_from fuel i l) = drop i l.
Proof.
  induction fuel as [|fuel IH]; intros i l Hfuel; cbn [batches_from].
  - symmetry. apply drop_ge. lia.
  - destruct (Nat.ltb_spec i (length l)) as [Hlt|Hge].
    + cbn [concat]. rewrite IH by lia. unfold slice.
      replace (i + 500 - i) with 500 by lia.
      rewrite <- (drop_drop l 500 i). apply take_drop.
    + symmetry. apply drop_ge. lia.
Qed.

Lemma batches_from_sizes fuel : forall i l,
  Forall (fun b => 0 < length b <= 500) (batches_from fuel i l).
Proof.
  induction fuel as [|fuel IH]; intros i l; simpl; [constructor|].
  destruct (Nat.ltb_spec i (length l)) as [Hlt|Hge]; [|constructor].
  constructor; [|apply IH]. rewrite length_slice. lia.
Qed.

(** The chunks of a list: their number, their content, their sizes. *)
Lemma make_batches_spec l :
  length (make_batches l) = ceil_div (length l) 500
  /\ concat (make_batches l) = l
  /\ Forall (fun b => 0 < length b <= 500) (make_batches l)
  /\ (forall j, j < ceil_div (length l) 500 ->
        make_batches l !! j = Some (slice (500 * j) (500 * j + 500) l)).
Proof.
  unfold make_batches. split_and!.
  - rewrite batches_from_length by lia. f_equal. lia.
  - rewrite batches_from_concat by lia. reflexivity.
  - apply batches_from_sizes.
  - intros j Hj. rewrite batches_from_lookup; [reflexivity|lia|].
    replace (length l - 0) with (length l) by lia. exact Hj.
Qed.

(** More fuel than the length of the list changes nothing: the loop has
    ended by itself. *)
Lemma batches_from_fuel fuel l :
  length l <= fuel -> batches_from fuel 0 l = make_batches l.
Proof.
  intros Hfuel. apply list_eq. intros j.
  destruct (decide (j < ceil_div (length l) 500)) as [Hj|Hj].
  - pose proof (make_batches_spec l) as (_ & _ & _ & Hl). rewrite (Hl j Hj).
    rewrite batches_from_lookup; [reflexivity|lia|].
    replace (length l - 0) with (length l) by lia. exact Hj.
  - rewrite !lookup_ge_None_2; [reflexivity| |].
    + pose proof (make_batches_spec l) as (-> & _). lia.
    + rewrite batches_from_length by lia.
      replace (length l - 0) with (length l) by lia. lia.
Qed.

End Chunks.

End BatchFacts.

Section BatchRun.
Import JsText Filters.

Lemma getListFromInput_raises value allowBatching e :
  getListFromInput value allowBatching = Raise e ->
  exists m, e = LimitExceeded m /\ 500 < m.
Proof.
  rewrite getListFromInput_tokens.
  destruct (Nat.ltb_spec 500 (length (tokens value))); simpl;
    destruct allowBatching; simpl; try discriminate.
  intros [= <-]. eauto.
Qed.

Lemma collect_custom_raises ins : forall acc e,
  collect_custom ins acc = Raise e -> exists m, e = LimitExceeded m /\ 500 < m.
Proof.
  induction ins as [|[col value] ins IH]; intros acc e; simpl; [discriminate|].
  destruct (getListFromInput value false) as [vs|e'] eqn:Hv; simpl.
  - destruct vs; apply IH.
  - intros [= <-]. eapply getListFromInput_raises, Hv.
Qed.

(** With a list over the limit in a field whose checkbox is off, the
    payload is not built. *)
Lemma getFilterPayload_over_limit a :
  (500 < length (tokens (skuHijoInput (inputs a)))
   /\ batchProcessHijoCheckbox (inputs a) = false)
  \/ (500 < length (tokens (skuPadreInput (inputs a)))
      /\ batchProcessPadreCheckbox (inputs a) = false) ->
  exists m, 500 < m /\ getFilterPayload a = Raise (LimitExceeded m).
Proof.
  intros H. unfold getFilterPayload.
  destruct (collect_custom (customTextFilterInputs (inputs a)) ∅) as [custom|e] eqn:Hc.
  2:{ destruct (collect_custom_raises _ _ _ Hc) as (m & -> & Hm). eauto. }
  cbn [mbind Try_bind bind].
  destruct (getListFromInput (skuHijoInput (inputs a)) (batchProcessHijoCheckbox (inputs a)))
    as [hl|e] eqn:Hh.
  2:{ destruct (getListFromInput_raises _ _ _ Hh) as (m & -> & Hm). eauto. }
  cbn [mbind Try_bind bind].
  destruct (getListFromInput (skuPadreInput (inputs a)) (batchProcessPadreCheckbox (inputs a)))
    as [pl|e] eqn:Hp.
  2:{ destruct (getListFromInput_raises _ _ _ Hp) as (m & -> & Hm). eauto. }
  exfalso. rewrite getListFromInput_tokens in Hh, Hp.
  destruct H as [[Hn Hb]|[Hn Hb]]; rewrite Hb in *;
    apply Nat.ltb_lt in Hn; rewrite Hn in *; discriminate.
Qed.

Lemma requests_of_app evs1 evs2 :
  requests_of (evs1 ++ evs2) = requests_of evs1 ++ requests_of evs2.
Proof. unfold requests_of. apply omap_app. Qed.

(** In a cooperative run the batches are sent one after the other,
    each as a filter request followed by an export request. *)
Lemma batch_loop_sequential world a batchType base :
  getFilterPayload a = Ok base ->
  forall batches n i acc,
    (forall j, i <= j < i + length batches ->
       (exists status result, filter_answer (world j) = Answered status result)
       /\ (exists status body, export_answer (world j) = Answered status body
                               /\ FetchRetry.response_ok status = true)
       /\ download_clicked (world j) = true
       /\ cancel_clicked (world j) = false) ->
    exists acc' evs,
      batch_loop world a batchType n i batches false acc = (false, acc', evs, LoopDone)
      /\ requests_of evs
         = flat_map (fun b => [PostFilter (batch_payload batchType b base);
                               PostExport (batch_payload batchType b base)]) batches.
Proof.
  intros Hbase batches. induction batches as [|b rest IH]; intros n i acc Hw.
  - exists acc, []. split; reflexivity.
  - cbn [batch_loop]. rewrite Hbase.
    destruct (Hw i) as ((st & r & Hf) & (st' & body & He & Hok) & Hd & Hc);
      [simpl; lia|].
    unfold exportBatch. rewrite Hf, He, Hok, Hd. cbn [negb]. rewrite Hc.
    destruct (IH n (S i)
                (if FetchRetry.response_ok st then accumulate acc r else acc))
      as (acc' & evs & Hrun & Hreq).
    { intros j Hj. apply Hw. simpl. lia. }
    rewrite Hrun. eexists _, _. split; [reflexivity|].
    rewrite !requests_of_app, Hreq.
    destruct (S i <? n); reflexivity.
Qed.

Lemma handleBatchProcessing_sequential world a batchType batchValues totalBatches base :
  getFilterPayload a = Ok base ->
  cooperative world (length (make_batches batchValues)) ->
  exists a' evs,
    handleBatchProcessing world a batchType batchValues totalBatches
    = (a', evs, Completed)
    /\ requests_of evs
       = flat_map (fun b => [PostFilter (batch_payload batchType b base);
                             PostExport (batch_payload batchType b base)])
           (make_batches batchValues).
Proof.
  intros Hbase Hw. unfold handleBatchProcessing.
  destruct (batch_loop_sequential world a batchType base Hbase
              (make_batches batchValues) (length (make_batches batchValues)) 0
              {| hijo := []; padre := [] |}) as (acc' & evs & Hrun & Hreq).
  { intros j Hj. apply Hw. lia. }
  rewrite Hrun. cbn [negb]. eexists _, _. split; [reflexivity|].
  rewrite requests_of_app, Hreq. simpl. apply app_nil_r.
Qed.

Lemma make_batches_501 {A} (l : list A) :
  length l = 501 -> make_batches l = [take 500 l; drop 500 l].
Proof.
  intros Hl. apply list_eq. intros j.
  pose proof (make_batches_spec l) as (Hlen & _ & _ & Hlook).
  rewrite Hl in Hlen, Hlook. change (ceil_div 501 500) with 2 in Hlen, Hlook.
  destruct j as [|[|j]].
  - rewrite Hlook by lia. unfold slice. simpl. reflexivity.
  - rewrite Hlook by lia. unfold slice. cbn [lookup list_lookup]. f_equal.
    apply take_ge. rewrite length_drop. lia.
  - rewrite lookup_ge_None_2 by lia. reflexivity.
Qed.

End BatchRun.

Section ManualListClaims.
Import JsText Filters.

(** C3: a list of exactly 500 tokens is accepted as it is and asks for
    no batching; a list of more than 500 tokens in a field whose
    checkbox is off stops the construction of the payload with the
    error that reports the count; with the checkbox on, the validation
    asks for batches, the [n > 500] tokens are cut into [ceil(n/500)]
    chunks of at most 500 (501 tokens: 500 and 1) that together are the
    list, and a cooperative run sends the chunks one after the other.
    Applying the filters with such a list then sends, for each chunk in
    order, a filter request and an export request whose payload is the
    base payload with the list of that field replaced by the chunk. *)
Theorem manual_list_batch_classification (a : App) :
  (forall value allowBatching,
     length (tokens value) = 500 ->
     getListFromInput value allowBatching = Ok (Some (tokens value)))
  /\ (length (tokens (skuHijoInput (inputs a))) <= 500 ->
      length (tokens (skuPadreInput (inputs a))) <= 500 ->
      validateBatchFilters (inputs a) = Valid false None [] 0)
  /\ (forall value,
        500 < length (tokens value) ->
        getListFromInput value false = Raise (LimitExceeded (length (tokens value))))
  /\ ((500 < length (tokens (skuHijoInput (inputs a)))
       /\ batchProcessHijoCheckbox (inputs a) = false)
      \/ (500 < length (tokens (skuPadreInput (inputs a)))
          /\ batchProcessPadreCheckbox (inputs a) = false) ->
      exists m, 500 < m /\ getFilterPayload a = Raise (LimitExceeded m))
  /\ (500 < length (tokens (skuHijoInput (inputs a))) ->
      batchProcessHijoCheckbox (inputs a) = true ->
      batchProcessPadreCheckbox (inputs a) = false
      \/ length (tokens (skuPadreInput (inputs a))) <= 500 ->
      validateBatchFilters (inputs a)
      = Valid true (Some BatchHijo) (tokens (skuHijoInput (inputs a)))
          (ceil_div (length (tokens (skuHijoInput (inputs a)))) 500))
  /\ (500 < length (tokens (skuPadreInput (inputs a))) ->
      batchProcessPadreCheckbox (inputs a) = true ->
      batchProcessHijoCheckbox (inputs a) = false
      \/ length (tokens (skuHijoInput (inputs a))) <= 500 ->
      validateBatchFilters (inputs a)
      = Valid true (Some BatchPadre) (tokens (skuPadreInput (inputs a)))
          (ceil_div (length (tokens (skuPadreInput (inputs a)))) 500))
  /\ (forall values : list text,
        500 < length values ->
        length (make_batches values) = ceil_div (length values) 500
        /\ concat (make_batches values) = values
        /\ Forall (fun b => 0 < length b <= 500) (make_batches values)
        /\ (forall j, j < ceil_div (length values) 500 ->
              make_batches values !! j
              = Some (slice (500 * j) (500 * j + 500) values)))
  /\ (forall values : list text,
        length values = 501 ->
        make_batches values = [take 500 values; drop 500 values])
  /\ (forall world batchType batchValues totalBatches base,
        getFilterPayload a = Ok base ->
        cooperative world (length (make_batches batchValues)) ->
        exists a' evs,
          handleBatchProcessing world a batchType batchValues totalBatches
          = (a', evs, Completed)
          /\ requests_of evs
             = flat_map (fun b => [PostFilter (batch_payload batchType b base);
                                   PostExport (batch_payload batchType b base)])
                 (make_batches batchValues))
  /\ (length (tokens (skuHijoInput (inputs a))) <= 500 ->
      forall needsBatching batchValues totalBatches,
        validateBatchFilters (inputs a)
        <> Valid needsBatching (Some BatchHijo) batchValues totalBatches)
  /\ (length (tokens (skuPadreInput (inputs a))) <= 500 ->
      forall needsBatching batchValues totalBatches,
        validateBatchFilters (inputs a)
        <> Valid needsBatching (Some BatchPadre) batchValues totalBatches)
  /\ (forall w pageNumber name entry base,
        currentBlobDisplayName a = Some name ->
        JsString.truthy name = true ->
        dataSourceCache a !! name = Some entry ->
        500 < length (tokens (skuHijoInput (inputs a))) ->
        batchProcessHijoCheckbox (inputs a) = true ->
        batchProcessPadreCheckbox (inputs a) = false
        \/ length (tokens (skuPadreInput (inputs a))) <= 500 ->
        getFilterPayload (with_page pageNumber a) = Ok base ->
        cooperative (batch_world w)
          (length (make_batches (tokens (skuHijoInput (inputs a))))) ->
        snd (handleApplyFilters w pageNumber false a) = Completed
        /\ requests_of (snd (fst (handleApplyFilters w pageNumber false a)))
           = flat_map
               (fun chunk =>
                  let payload :=
                    {| blob_filename := blob_filename base;
                    value_filters := value_filters base;
                    use_sku_hijo_file := use_sku_hijo_file base;
                    extend_sku_hijo := extend_sku_hijo base;
                    sku_hijo_manual_list := Some chunk;
                    use_sku_padre_file := use_sku_padre_file base;
                    sku_padre_manual_list := sku_padre_manual_list base;
                    ticket_manual_list := ticket_manual_list base;
                    lineamiento_manual_list := lineamiento_manual_list base;
                    selected_display_columns := selected_display_columns base;
                    enable_priority_coloring := enable_priority_coloring base;
                    page := page base; page_size := page_size base;
                    custom_text_filters := custom_text_filters base |} in
                  [PostFilter payload; PostExport payload])
               (make_batches (tokens (skuHijoInput (inputs a)))))
  /\ (forall w pageNumber name entry base,
        currentBlobDisplayName a = Some name ->
        JsString.truthy name = true ->
        dataSourceCache a !! name = Some entry ->
        500 < length (tokens (skuPadreInput (inputs a))) ->
        batchProcessPadreCheckbox (inputs a) = true ->
        batchProcessHijoCheckbox (inputs a) = false
        \/ length (tokens (skuHijoInput (inputs a))) <= 500 ->
        getFilterPayload (with_page pageNumber a) = Ok base ->
        cooperative (batch_world w)
          (length (make_batches (tokens (skuPadreInput (inputs a))))) ->
        snd (handleApplyFilters w pageNumber false a) = Completed
        /\ requests_of (snd (fst (handleApplyFilters w pageNumber false a)))
           = flat_map
               (fun chunk =>
                  let payload :=
                    {| blob_filename := blob_filename base;
                    value_filters := value_filters base;
                    use_sku_hijo_file := use_sku_hijo_file base;
                    extend_sku_hijo := extend_sku_hijo base;
                    sku_hijo_manual_list := sku_hijo_manual_list base;
                    use_sku_padre_file := use_sku_padre_file base;
                    sku_padre_manual_list := Some chunk;
                    ticket_manual_list := ticket_manual_list base;
                    lineamiento_manual_list := lineamiento_manual_list base;
                    selected_display_columns := selected_display_columns base;
                    enable_priority_coloring := enable_priority_coloring base;
                    page := page base; page_size := page_size base;
                    custom_text_filters := custom_text_filters base |} in
                  [PostFilter payload; PostExport payload])
               (make_batches (tokens (skuPadreInput (inputs a))))).
Proof.
  assert (Hkind : forall i,
            validateBatchFilters i
            = (if batchProcessHijoCheckbox i && batchProcessPadreCheckbox i
                  && (500 <? length (tokens (skuHijoInput i)))
                  && (500 <? length (tokens (skuPadreInput i)))
               then Conflict
               else if batchProcessHijoCheckbox i
                       && (500 <? length (tokens (skuHijoInput i)))
               then Valid true (Some BatchHijo) (tokens (skuHijoInput i))
                      (ceil_div (length (tokens (skuHijoInput i))) 500)
               else if batchProcessPadreCheckbox i
                       && (500 <? length (tokens (skuPadreInput i)))
               then Valid true (Some BatchPadre) (tokens (skuPadreInput i))
                      (ceil_div (length (tokens (skuPadreInput i))) 500)
               else Valid false None [] 0))
    by (intros i; apply validateBatchFilters_tokens).
  split_and!.
  10:{ intros Hle nb bv tb. rewrite Hkind.
       destruct (Nat.ltb_spec 500 (length (tokens (skuHijoInput (inputs a))))); [lia|].
       rewrite !andb_false_r. cbn [andb].
       repeat (destruct (_ && _)); discriminate. }
  10:{ intros Hle nb bv tb. rewrite Hkind.
       destruct (Nat.ltb_spec 500 (length (tokens (skuPadreInput (inputs a))))); [lia|].
       rewrite !andb_false_r.
       repeat (destruct (_ && _)); discriminate. }
  - intros value allow Hn. rewrite getListFromInput_tokens, Hn. simpl.
    destruct (tokens value); [discriminate|reflexivity].
  - intros Hh Hp. rewrite validateBatchFilters_tokens.
    destruct (Nat.ltb_spec 500 (length (tokens (skuHijoInput (inputs a))))); [lia|].
    destruct (Nat.ltb_spec 500 (length (tokens (skuPadreInput (inputs a))))); [lia|].
    rewrite !andb_false_r. reflexivity.
  - intros value Hn. rewrite getListFromInput_tokens.
    apply Nat.ltb_lt in Hn. rewrite Hn. reflexivity.
  - apply getFilterPayload_over_limit.
  - intros Hn Hb Hother. rewrite validateBatchFilters_tokens.
    apply Nat.ltb_lt in Hn. rewrite Hn, Hb.
    destruct Hother as [->|Hle]; [reflexivity|].
    destruct (Nat.ltb_spec 500 (length (tokens (skuPadreInput (inputs a))))); [lia|].
    rewrite !andb_false_r. reflexivity.
  - intros Hn Hb Hother. rewrite validateBatchFilters_tokens.
    apply Nat.ltb_lt in Hn. rewrite Hn, Hb.
    destruct Hother as [->|Hle]; [reflexivity|].
    destruct (Nat.ltb_spec 500 (length (tokens (skuHijoInput (inputs a))))); [lia|].
    rewrite !andb_false_r. reflexivity.
  - intros values _. apply make_batches_spec.
  - apply @make_batches_501.
  - intros world bt bv tb base. apply handleBatchProcessing_sequential.
  - intros w pageNumber name entry base Hname Htruthy Hentry Hn Hb Hother Hbase Hcoop.
    unfold handleApplyFilters. rewrite Hname, Htruthy, Hentry. cbn [negb].
    change (inputs (with_page pageNumber a)) with (inputs a).
    rewrite validateBatchFilters_tokens.
    assert (Hn' := Hn). apply Nat.ltb_lt in Hn'. rewrite Hn', Hb.
    assert (Hnot : batchProcessPadreCheckbox (inputs a)
                   && (500 <? length (tokens (skuPadreInput (inputs a)))) = false).
    { destruct Hother as [->|Hle]; [reflexivity|].
      destruct (Nat.ltb_spec 500 (length (tokens (skuPadreInput (inputs a))))); [lia|].
      apply andb_false_r. }
    replace (true && batchProcessPadreCheckbox (inputs a) && true
             && (500 <? length (tokens (skuPadreInput (inputs a))))) with false
      by (rewrite <- Hnot; destruct (batchProcessPadreCheckbox (inputs a)); reflexivity).
    cbn [andb].
    destruct (handleBatchProcessing_sequential (batch_world w) (with_page pageNumber a)
                (Some BatchHijo) (tokens (skuHijoInput (inputs a)))
                (ceil_div (length (tokens (skuHijoInput (inputs a)))) 500)
                base Hbase Hcoop) as (a' & evs & Hrun & Hreq).
    rewrite Hrun. cbn [fst snd app]. split; [reflexivity|exact Hreq].
  - intros w pageNumber name entry base Hname Htruthy Hentry Hn Hb Hother Hbase Hcoop.
    unfold handleApplyFilters. rewrite Hname, Htruthy, Hentry. cbn [negb].
    change (inputs (with_page pageNumber a)) with (inputs a).
    rewrite validateBatchFilters_tokens.
    assert (Hn' := Hn). apply Nat.ltb_lt in Hn'. rewrite Hn', Hb.
    assert (Hnot : batchProcessHijoCheckbox (inputs a)
                   && (500 <? length (tokens (skuHijoInput (inputs a)))) = false).
    { destruct Hother as [->|Hle]; [reflexivity|].
      destruct (Nat.ltb_spec 500 (length (tokens (skuHijoInput (inputs a))))); [lia|].
      apply andb_false_r. }
    replace (batchProcessHijoCheckbox (inputs a) && true
             && (500 <? length (tokens (skuHijoInput (inputs a)))) && true) with false
      by (rewrite <- Hnot; destruct (batchProcessHijoCheckbox (inputs a));
          rewrite ?andb_true_r; reflexivity).
    rewrite Hnot. cbn [andb].
    destruct (handleBatchProcessing_sequential (batch_world w) (with_page pageNumber a)
                (Some BatchPadre) (tokens (skuPadreInput (inputs a)))
                (ceil_div (length (tokens (skuPadreInput (inputs a)))) 500)
                base Hbase Hcoop) as (a' & evs & Hrun & Hreq).
    rewrite Hrun. cbn [fst snd app]. split; [reflexivity|exact Hreq].
Qed.

(** C4: with a source loaded, both checkboxes on and both lists over
    500 tokens, applying the filters only shows the conflict alert: no
    request is sent and no batch is run. *)
Theorem conflicting_batches_rejected w page a name entry :
  currentBlobDisplayName a = Some name ->
  JsString.truthy name = true ->
  dataSourceCache a !! name = Some entry ->
  batchProcessHijoCheckbox (inputs a) = true ->
  batchProcessPadreCheckbox (inputs a) = true ->
  500 < length (tokens (skuHijoInput (inputs a))) ->
  500 < length (tokens (skuPadreInput (inputs a))) ->
  validateBatchFilters (inputs a) = Conflict
  /\ handleApplyFilters w page false a
     = (with_page page a, [EvAlert AlertConflict], Completed)
  /\ requests_of (snd (fst (handleApplyFilters w page false a))) = [].
Proof.
  intros Hname Htruthy Hentry Hh Hp Hnh Hnp.
  assert (Hv : validateBatchFilters (inputs a) = Conflict).
  { rewrite validateBatchFilters_tokens.
    apply Nat.ltb_lt in Hnh, Hnp. rewrite Hh, Hp, Hnh, Hnp. reflexivity. }
  assert (Hrun : handleApplyFilters w page false a
                 = (with_page page a, [EvAlert AlertConflict], Completed)).
  { unfold handleApplyFilters. rewrite Hname, Htruthy, Hentry. cbn [negb].
    change (inputs (with_page page a)) with (inputs a). rewrite Hv. reflexivity. }
  split_and!; [exact Hv|exact Hrun|]. rewrite Hrun. reflexivity.
Qed.

(** When the same happens in the call that ends a load, the request for
    the visibility of the filters has gone out before the validation. *)
Lemma conflicting_batches_initial_load w page a name entry :
  currentBlobDisplayName a = Some name ->
  JsString.truthy name = true ->
  dataSourceCache a !! name = Some entry ->
  validateBatchFilters (inputs a) = Conflict ->
  snd (fst (handleApplyFilters w page true a))
  = [EvRequest (GetFilterVisibility name); EvAlert AlertConflict].
Proof.
  intros Hname Htruthy Hentry Hv.
  unfold handleApplyFilters. rewrite Hname, Htruthy, Hentry. cbn [negb].
  match goal with
  | |- context [validateBatchFilters ?i] =>
      change (validateBatchFilters i) with (validateBatchFilters (inputs a))
  end.
  rewrite Hv. reflexivity.
Qed.


End ManualListClaims.

Lemma manual_list_batch_classification_witness :
  let a := Filters.sample_app (Filters.with_skus (Filters.sevens 501) [] true false) in
  length (JsText.tokens (Filters.sevens 501)) = 501
  /\ Filters.validateBatchFilters (Filters.inputs a)
     = Filters.Valid true (Some Filters.BatchHijo) (JsText.tokens (Filters.sevens 501)) 2
  /\ Filters.make_batches (JsText.tokens (Filters.sevens 501))
     = [take 500 (JsText.tokens (Filters.sevens 501));
        drop 500 (JsText.tokens (Filters.sevens 501))]
  /\ List.map (fun r => match r with
                        | Filters.PostFilter p | Filters.PostExport p =>
                            Filters.sku_hijo_manual_list p
                        | _ => None
                        end)
       (Filters.requests_of
          (snd (fst (Filters.handleApplyFilters Filters.batching_world 1 false a))))
     = [Some (take 500 (JsText.tokens (Filters.sevens 501)));
        Some (take 500 (JsText.tokens (Filters.sevens 501)));
        Some (drop 500 (JsText.tokens (Filters.sevens 501)));
        Some (drop 500 (JsText.tokens (Filters.sevens 501)))].
Proof.
  intros a.
  assert (Hn : length (JsText.tokens (Filters.sevens 501)) = 501)
    by (vm_compute; reflexivity).
  destruct (manual_list_batch_classification a)
    as (_ & _ & _ & _ & Hhijo & _ & _ & Htwo & _ & _ & _ & Hrequests & _).
  split; [exact Hn|]. split; [|split].
  - rewrite Hhijo.
    + (change (Filters.skuHijoInput (Filters.inputs a)) with (Filters.sevens 501); rewrite Hn; reflexivity).
    + (change (Filters.skuHijoInput (Filters.inputs a)) with (Filters.sevens 501); rewrite Hn; lia).
    + reflexivity.
    + left. reflexivity.
  - (apply Htwo; exact Hn).
  - destruct (Filters.getFilterPayload (Filters.with_page 1 a)) as [base|e] eqn:Hbase;
      [|vm_compute in Hbase; discriminate Hbase].
    destruct (Hrequests Filters.batching_world 1 "UNIVERSO PERU" Filters.sample_entry base)
      as [_ Hreq].
    + reflexivity.
    + reflexivity.
    + reflexivity.
    + change (Filters.skuHijoInput (Filters.inputs a)) with (Filters.sevens 501).
      rewrite Hn. lia.
    + reflexivity.
    + left. reflexivity.
    + exact Hbase.
    + intros i _. split_and!; try reflexivity.
      * eexists _, _. reflexivity.
      * eexists _, _. split; reflexivity.
    + rewrite Hreq.
      change (Filters.skuHijoInput (Filters.inputs a)) with (Filters.sevens 501).
      rewrite (Htwo _ Hn). reflexivity.
Defined.

Lemma conflicting_batches_rejected_witness :
  let a := Filters.sample_app
             (Filters.with_skus (Filters.sevens 501) (Filters.sevens 502) true true) in
  (500 < length (JsText.tokens (Filters.sevens 501))
   /\ 500 < length (JsText.tokens (Filters.sevens 502)))
  /\ (Filters.validateBatchFilters (Filters.inputs a) = Filters.Conflict
      /\ Filters.handleApplyFilters Filters.offline 1 false a
         = (Filters.with_page 1 a, [Filters.EvAlert Filters.AlertConflict],
            Filters.Completed)
      /\ Filters.requests_of
           (snd (fst (Filters.handleApplyFilters Filters.offline 1 false a))) = []).
Proof.
  intros a.
  assert (H1 : 500 < length (JsText.tokens (Filters.sevens 501)))
    by (apply Nat.ltb_lt; vm_compute; reflexivity).
  assert (H2 : 500 < length (JsText.tokens (Filters.sevens 502)))
    by (apply Nat.ltb_lt; vm_compute; reflexivity).
  split; [split; assumption|].
  apply (conflicting_batches_rejected Filters.offline 1 a "UNIVERSO PERU"
           Filters.sample_entry).
  - reflexivity.
  - reflexivity.
  - reflexivity.
  - reflexivity.
  - reflexivity.
  - exact H1.
  - exact H2.
Defined.

(** ** The lists of a payload *)

Section PayloadLists.
Import JsText Filters.

Lemma getListFromInput_ok value allowBatching r :
  getListFromInput value allowBatching = Ok r ->
  r = list_or_null (tokens value)
  /\ (allowBatching = false -> length (tokens value) <= 500).
Proof.
  rewrite getListFromInput_tokens.
  assert (Hnull : match tokens value with [] => None | ts => Some ts end
                  = list_or_null (tokens value))
    by (unfold list_or_null; destruct (tokens value); reflexivity).
  rewrite Hnull.
  destruct (Nat.ltb_spec 500 (length (tokens value))) as [Hgt|Hle];
    destruct allowBatching; simpl; try discriminate;
    intros [= <-]; (split; [reflexivity|intros; first [discriminate|lia]]).
Qed.

(** C9, as the script has it: each manual list of a payload is the list
    of the tokens of its input, in the order of the text and with
    every repetition kept ([null] when there is none); a token is a
    non-empty run without comma, semicolon or white space, the tokens
    joined are the text without these separators; and a list has at
    most 500 entries unless the checkbox of its field is on. *)
Theorem payload_lists_tokenized_and_bounded a payload :
  getFilterPayload a = Ok payload ->
  let i := inputs a in
  sku_hijo_manual_list payload = list_or_null (tokens (skuHijoInput i))
  /\ sku_padre_manual_list payload = list_or_null (tokens (skuPadreInput i))
  /\ ticket_manual_list payload = list_or_null (tokens (ticketFilterInput i))
  /\ lineamiento_manual_list payload = list_or_null (tokens (lineamientoFilterInput i))
  /\ (batchProcessHijoCheckbox i = false -> length (tokens (skuHijoInput i)) <= 500)
  /\ (batchProcessPadreCheckbox i = false -> length (tokens (skuPadreInput i)) <= 500)
  /\ length (tokens (ticketFilterInput i)) <= 500
  /\ length (tokens (lineamientoFilterInput i)) <= 500
  /\ (forall value,
        Forall (fun t => t <> [] /\ plain t) (tokens value)
        /\ concat (tokens value) = List.filter (fun c => negb (is_separator c)) value).
Proof.
  intros Hp i. unfold getFilterPayload in Hp. fold i in Hp.
  destruct (collect_custom (customTextFilterInputs i) ∅) as [custom|e]; [|discriminate].
  cbn [mbind Try_bind bind] in Hp.
  destruct (getListFromInput (skuHijoInput i) (batchProcessHijoCheckbox i))
    as [hl|e] eqn:Hh; [|discriminate].
  cbn [mbind Try_bind bind] in Hp.
  destruct (getListFromInput (skuPadreInput i) (batchProcessPadreCheckbox i))
    as [pl|e] eqn:Hpd; [|discriminate].
  cbn [mbind Try_bind bind] in Hp.
  destruct (getListFromInput (ticketFilterInput i) false) as [tl|e] eqn:Ht; [|discriminate].
  cbn [mbind Try_bind bind] in Hp.
  destruct (getListFromInput (lineamientoFilterInput i) false) as [ll|e] eqn:Hl;
    [|discriminate].
  cbn [mbind Try_bind bind] in Hp.
  apply getListFromInput_ok in Hh as [-> Hhb], Hpd as [-> Hpb], Ht as [-> Htb],
    Hl as [-> Hlb].
  injection Hp as <-. cbn.
  split_and!; auto.
  intros value. split.
  - apply tokens_go_plain. constructor.
  - apply (tokens_go_concat value []).
Qed.

(** The text "A1,A1" in the SKU hijo input gives a list with A1 twice. *)
Lemma payload_list_keeps_duplicates :
  exists payload l,
    getFilterPayload (sample_app (with_skus (of_string "A1,A1") [] false false)) = Ok payload
    /\ sku_hijo_manual_list payload = Some l
    /\ l = [of_string "A1"; of_string "A1"]
    /\ ~ NoDup l.
Proof.
  eexists _, _. split_and!; [vm_compute; reflexivity|reflexivity|reflexivity|].
  intros H. apply NoDup_cons in H as [Hin _]. apply Hin. left.
Qed.

End PayloadLists.

Lemma payload_lists_tokenized_and_bounded_witness :
  let a := Filters.sample_app
             (Filters.with_skus (JsText.of_string "1001, 1002;9999") [] false false) in
  exists payload,
    Filters.getFilterPayload a = Filters.Ok payload
    /\ Filters.sku_hijo_manual_list payload
       = Some [JsText.of_string "1001"; JsText.of_string "1002"; JsText.of_string "9999"].
Proof.
  intros a.
  destruct (Filters.getFilterPayload a) as [payload|e] eqn:Hp; [|discriminate Hp].
  exists payload. split; [reflexivity|].
  destruct (payload_lists_tokenized_and_bounded a payload Hp) as (-> & _).
  reflexivity.
Defined.

(** ** The modals of a query *)

Section Classification.
Import JsText Filters.

Lemma not_found_modals_cases result :
  let found := default 0 (row_count_filtered result) in
  let missing := not_found_count result in
  not_found_modals result
  = if 0 <? missing then
      if found =? 0
      then [EvEmptyResultsModal (missing + found) (detalle_of result)]
      else [EvPartialResultsModal (missing + found) found missing (detalle_of result)]
    else [].
Proof.
  unfold not_found_modals, not_found_count, detalle_of. cbn zeta.
  rewrite length_app. reflexivity.
Qed.

Lemma modals_of_not_found result :
  List.filter is_modal (not_found_modals result) = not_found_modals result.
Proof.
  rewrite not_found_modals_cases. cbn zeta.
  destruct (0 <? _); [destruct (_ =? 0)|]; reflexivity.
Qed.

(** What a call of [handleApplyFilters] that sends its own query and
    gets an answer shows. *)
Lemma handleApplyFilters_query_modals w page isInitialLoad a a' evs c status result payload :
  handleApplyFilters w page isInitialLoad a = (a', evs, c) ->
  needs_batching (inputs a) = false ->
  In (EvRequest (PostFilter payload)) evs ->
  query_answer w = Answered status result ->
  FetchRetry.response_ok status = true ->
  List.filter is_modal evs = not_found_modals result.
Proof.
  intros Hrun Hnb Hsent Hans Hok. unfold handleApplyFilters in Hrun.
  destruct (currentBlobDisplayName a) as [name|];
    [|injection Hrun as <- <- <-; destruct Hsent].
  destruct (negb (JsString.truthy name));
    [injection Hrun as <- <- <-; destruct Hsent|].
  destruct (dataSourceCache a !! name) as [entry|];
    [|injection Hrun as <- <- <-; destruct Hsent].
  set (start := if isInitialLoad
                then (initial_controls w entry a,
                      [EvRequest (GetFilterVisibility name)])
                else (a, [])) in Hrun.
  assert (Hstart : validateBatchFilters (inputs (with_page page (fst start)))
                   = validateBatchFilters (inputs a)
                   /\ List.filter is_modal (snd start) = []
                   /\ ~ In (EvRequest (PostFilter payload)) (snd start)).
  { subst start. destruct isInitialLoad; simpl; split_and!; try reflexivity.
    - intros [H|[]]. discriminate H.
    - intros []. }
  destruct start as [a1 evs1]. cbn [fst snd] in Hstart.
  destruct Hstart as (Hval & Hnomodal & Hnosent).
  unfold needs_batching in Hnb. rewrite <- Hval in Hnb.
  destruct (validateBatchFilters (inputs (with_page page a1)))
    as [|[|] batchType batchValues totalBatches].
  - injection Hrun as <- <- <-. apply in_app_or in Hsent as [H|[H|[]]];
      [contradiction|discriminate H].
  - discriminate Hnb.
  - destruct (getFilterPayload (with_page page a1)) as [p|e].
    2:{ injection Hrun as <- <- <-. apply in_app_or in Hsent as [H|[H|[]]];
          [contradiction|discriminate H]. }
    rewrite Hans, Hok in Hrun. cbn [negb] in Hrun.
    injection Hrun as <- <- <-.
    rewrite !List.filter_app, Hnomodal, modals_of_not_found. reflexivity.
Qed.

(** C5: after the query of [handleApplyFilters], with [found] the
    filtered row count and [missing] the number of values not found: no
    row found and values missing shows the empty-results modal; rows
    found and values missing shows the partial-results modal; no value
    missing shows no modal. *)
Theorem query_result_classification w page isInitialLoad a a' evs c status result payload :
  handleApplyFilters w page isInitialLoad a = (a', evs, c) ->
  needs_batching (inputs a) = false ->
  In (EvRequest (PostFilter payload)) evs ->
  query_answer w = Answered status result ->
  FetchRetry.response_ok status = true ->
  let found := default 0 (row_count_filtered result) in
  let missing := not_found_count result in
  (found = 0 -> 0 < missing ->
   List.filter is_modal evs
   = [EvEmptyResultsModal (missing + found) (detalle_of result)])
  /\ (0 < found -> 0 < missing ->
      List.filter is_modal evs
      = [EvPartialResultsModal (missing + found) found missing (detalle_of result)])
  /\ (missing = 0 -> List.filter is_modal evs = []).
Proof.
  intros Hrun Hnb Hsent Hans Hok found missing.
  rewrite (handleApplyFilters_query_modals _ _ _ _ _ _ _ _ _ _ Hrun Hnb Hsent Hans Hok).
  rewrite not_found_modals_cases. fold found. fold missing.
  split_and!.
  - intros -> Hm. apply Nat.ltb_lt in Hm. rewrite Hm. reflexivity.
  - intros Hf Hm. apply Nat.ltb_lt in Hm. rewrite Hm.
    destruct (Nat.eqb_spec found 0); [lia|reflexivity].
  - intros ->. reflexivity.
Qed.

End Classification.

Lemma query_result_classification_witness :
  let a := Filters.sample_app
             (Filters.with_skus (JsText.of_string "1001,1002,9999") [] false false) in
  Filters.needs_batching (Filters.inputs a) = false
  /\ List.filter Filters.is_modal
       (snd (fst (Filters.handleApplyFilters Filters.scenario_world 1 false a)))
     = [Filters.EvPartialResultsModal 3 2 1 (Filters.detalle_of Filters.scenario_result)].
Proof.
  intros a. split; [reflexivity|].
  destruct (Filters.handleApplyFilters Filters.scenario_world 1 false a)
    as [[a' evs] c] eqn:Hrun.
  assert (Hsent : exists payload, In (Filters.EvRequest (Filters.PostFilter payload)) evs).
  { vm_compute in Hrun. injection Hrun as <- <- <-. eexists. left. reflexivity. }
  destruct Hsent as [payload Hsent].
  destruct (query_result_classification Filters.scenario_world 1 false a a' evs c
              200 Filters.scenario_result payload Hrun eq_refl Hsent eq_refl eq_refl)
    as (_ & Hpartial & _).
  apply Hpartial; apply Nat.ltb_lt; reflexivity.
Defined.

(** ** The lists of values not found of a batch run *)

Section NotFoundAccumulators.
Import JsText Filters.

Lemma add_not_found_snoc listed found sku :
  add_not_found listed (found ++ [sku])
  = if bool_decide (sku ∈ add_not_found listed found)
    then add_not_found listed found
    else add_not_found listed found ++ [sku].
Proof. unfold add_not_found. rewrite foldl_app. reflexivity. Qed.

Lemma add_not_found_elem found : forall listed sku,
  sku ∈ add_not_found listed found <-> sku ∈ listed \/ sku ∈ found.
Proof.
  induction found as [|x found IH] using rev_ind; intros listed sku.
  - simpl. rewrite elem_of_nil. tauto.
  - rewrite add_not_found_snoc. case_bool_decide as Hx.
    + rewrite IH, elem_of_app, list_elem_of_singleton.
      split; [tauto|]. intros [H|[H| ->]]; [tauto|tauto|]. apply IH, Hx.
    + rewrite !elem_of_app, IH, list_elem_of_singleton. tauto.
Qed.

Lemma add_not_found_NoDup found : forall listed,
  NoDup listed -> NoDup (add_not_found listed found).
Proof.
  induction found as [|x found IH] using rev_ind; intros listed Hl.
  - exact Hl.
  - rewrite add_not_found_snoc. case_bool_decide as Hx.
    + apply IH, Hl.
    + apply NoDup_app. split_and!.
      * apply IH, Hl.
      * intros y Hy Hy'. apply list_elem_of_singleton in Hy' as ->. contradiction.
      * apply NoDup_singleton.
Qed.

Lemma accumulate_tidy acc r : tidy acc -> tidy (accumulate acc r).
Proof. intros [Hh Hp]. split; apply add_not_found_NoDup; assumption. Qed.

Lemma exportBatch_tidy w p n acc acc' evs st :
  exportBatch w p n acc = (acc', evs, st) -> tidy acc -> tidy acc'.
Proof.
  unfold exportBatch. intros Hrun Hacc.
  destruct (filter_answer w) as [status r|msg]; [|injection Hrun as <- _ _; exact Hacc].
  assert (Hacc1 : tidy (if FetchRetry.response_ok status then accumulate acc r else acc)).
  { destruct (FetchRetry.response_ok status); [apply accumulate_tidy|]; exact Hacc. }
  destruct (export_answer w) as [status' body|msg];
    [|injection Hrun as <- _ _; exact Hacc1].
  destruct (negb (FetchRetry.response_ok status'));
    [injection Hrun as <- _ _; exact Hacc1|].
  destruct (download_clicked w); injection Hrun as <- _ _; exact Hacc1.
Qed.

Lemma exportBatch_elems w p n acc acc' evs st :
  exportBatch w p n acc = (acc', evs, st) ->
  (forall sku, sku ∈ hijo acc' ->
     sku ∈ hijo acc
     \/ exists status r, filter_answer w = Answered status r
                         /\ sku ∈ default [] (skus_no_encontrados_hijo r))
  /\ (forall sku, sku ∈ padre acc' ->
        sku ∈ padre acc
        \/ exists status r, filter_answer w = Answered status r
                            /\ sku ∈ default [] (skus_no_encontrados_padre r)).
Proof.
  unfold exportBatch. intros Hrun.
  destruct (filter_answer w) as [status r|msg];
    [|injection Hrun as <- _ _; split; intros; left; assumption].
  assert (Hacc1 : forall acc1,
            acc1 = (if FetchRetry.response_ok status then accumulate acc r else acc) ->
            (forall sku, sku ∈ hijo acc1 ->
               sku ∈ hijo acc
               \/ exists status0 r0, Answered status r = Answered status0 r0
                                   /\ sku ∈ default [] (skus_no_encontrados_hijo r0))
            /\ (forall sku, sku ∈ padre acc1 ->
                  sku ∈ padre acc
                  \/ exists status0 r0, Answered status r = Answered status0 r0
                                      /\ sku ∈ default [] (skus_no_encontrados_padre r0))).
  { intros acc1 ->. destruct (FetchRetry.response_ok status).
    - split; intros sku Hs; simpl in Hs; apply add_not_found_elem in Hs as [H|H];
        eauto.
    - split; intros; left; assumption. }
  destruct (export_answer w) as [status' body|msg];
    [|injection Hrun as <- _ _; apply Hacc1; reflexivity].
  destruct (negb (FetchRetry.response_ok status'));
    [injection Hrun as <- _ _; apply Hacc1; reflexivity|].
  destruct (download_clicked w); injection Hrun as <- _ _; apply Hacc1; reflexivity.
Qed.

Lemma reported_widen world from upto upto' acc :
  upto <= upto' -> reported world from upto acc -> reported world from upto' acc.
Proof.
  intros Hle [Hh Hp]. split; intros sku Hs.
  - destruct (Hh sku Hs) as (j & st & r & Hj & Hr). exists j, st, r.
    split; [lia|exact Hr].
  - destruct (Hp sku Hs) as (j & st & r & Hj & Hr). exists j, st, r.
    split; [lia|exact Hr].
Qed.

Lemma exportBatch_reported world from i p n acc acc' evs st :
  exportBatch (world i) p n acc = (acc', evs, st) ->
  from <= i -> reported world from i acc -> reported world from (S i) acc'.
Proof.
  intros Hexp Hfrom [Hh Hp].
  pose proof (exportBatch_elems _ _ _ _ _ _ _ Hexp) as [Hh1 Hp1].
  split; intros sku Hs.
  - destruct (Hh1 sku Hs) as [Hold|(st' & r & Hr)].
    + destruct (Hh sku Hold) as (j & st' & r & Hj & Hr). exists j, st', r.
      split; [lia|exact Hr].
    + exists i, st', r. split; [lia|exact Hr].
  - destruct (Hp1 sku Hs) as [Hold|(st' & r & Hr)].
    + destruct (Hp sku Hold) as (j & st' & r & Hj & Hr). exists j, st', r.
      split; [lia|exact Hr].
    + exists i, st', r. split; [lia|exact Hr].
Qed.

Lemma batch_loop_invariant world a batchType n : forall batches i cancelled acc c acc' evs e,
  batch_loop world a batchType n i batches cancelled acc = (c, acc', evs, e) ->
  (tidy acc -> tidy acc')
  /\ (forall from, from <= i -> reported world from i acc ->
        reported world from (i + length batches) acc').
Proof.
  induction batches as [|b rest IH]; intros i cancelled acc c acc' evs e Hrun.
  - injection Hrun as <- <- <- <-. split; [auto|].
    intros from _. apply reported_widen. lia.
  - assert (Hkeep : forall from, reported world from i acc ->
                      reported world from (i + length (b :: rest)) acc).
    { intros from. apply reported_widen. lia. }
    cbn [batch_loop] in Hrun.
    destruct cancelled; [injection Hrun as <- <- <- <-; auto|].
    destruct (getFilterPayload a) as [base|err];
      [|injection Hrun as <- <- <- <-; auto].
    destruct (exportBatch (world i) (batch_payload batchType b base) (i + 1) acc)
      as [[acc1 evs1] settled] eqn:Hexp.
    pose proof (exportBatch_tidy _ _ _ _ _ _ _ Hexp) as Htidy1.
    assert (Hstep : forall from, from <= i -> reported world from i acc ->
                      reported world from (i + length (b :: rest)) acc1).
    { intros from Hfrom Hrep.
      apply (reported_widen world from (S i)); [simpl; lia|].
      eapply exportBatch_reported; eassumption. }
    destruct settled.
    + destruct (batch_loop world a batchType n (S i) rest (cancel_clicked (world i)) acc1)
        as [[[c2 acc2] evs2] e2] eqn:Hrec.
      injection Hrun as <- <- <- <-.
      destruct (IH _ _ _ _ _ _ _ Hrec) as [Ht Hr]. split; [auto|].
      intros from Hfrom Hrep.
      replace (i + length (b :: rest)) with (S i + length rest) by (simpl; lia).
      apply Hr; [lia|]. eapply exportBatch_reported; eassumption.
    + injection Hrun as <- <- <- <-. split; auto.
    + injection Hrun as <- <- <- <-. split; auto.
Qed.

(** What a batch whose filter request is answered well adds, and what
    every batch keeps. *)
Lemma exportBatch_accumulates w p n acc status r :
  filter_answer w = Answered status r ->
  FetchRetry.response_ok status = true ->
  fst (fst (exportBatch w p n acc)) = accumulate acc r.
Proof.
  intros Hf Hok. unfold exportBatch. rewrite Hf, Hok.
  destruct (export_answer w) as [status' body|msg]; [|reflexivity].
  destruct (negb (FetchRetry.response_ok status')); [reflexivity|].
  destruct (download_clicked w); reflexivity.
Qed.

Lemma exportBatch_grows w p n acc :
  (forall sku, sku ∈ hijo acc -> sku ∈ hijo (fst (fst (exportBatch w p n acc))))
  /\ (forall sku, sku ∈ padre acc -> sku ∈ padre (fst (fst (exportBatch w p n acc)))).
Proof.
  unfold exportBatch.
  destruct (filter_answer w) as [status r|msg]; [|split; auto].
  assert (Hacc1 : (forall sku, sku ∈ hijo acc ->
                     sku ∈ hijo (if FetchRetry.response_ok status
                                 then accumulate acc r else acc))
                  /\ (forall sku, sku ∈ padre acc ->
                        sku ∈ padre (if FetchRetry.response_ok status
                                     then accumulate acc r else acc))).
  { destruct (FetchRetry.response_ok status); [|split; auto].
    split; intros sku Hs; cbn [accumulate hijo padre]; apply add_not_found_elem;
      left; exact Hs. }
  destruct (export_answer w) as [status' body|msg]; [|exact Hacc1].
  destruct (negb (FetchRetry.response_ok status')); [exact Hacc1|].
  destruct (download_clicked w); exact Hacc1.
Qed.

Lemma exportBatch_resolved w p n acc :
  (exists status body, export_answer w = Answered status body
                       /\ FetchRetry.response_ok status = true) ->
  (exists status result, filter_answer w = Answered status result) ->
  download_clicked w = true ->
  snd (exportBatch w p n acc) = Resolved.
Proof.
  intros (status' & body & He & Hok) (status & r & Hf) Hd.
  unfold exportBatch. rewrite Hf, He, Hok, Hd. reflexivity.
Qed.

Lemma batch_loop_grows world a batchType n :
  forall batches i cancelled acc,
    let acc' := snd (fst (fst (batch_loop world a batchType n i batches cancelled acc))) in
    (forall sku, sku ∈ hijo acc -> sku ∈ hijo acc')
    /\ (forall sku, sku ∈ padre acc -> sku ∈ padre acc').
Proof.
  induction batches as [|b rest IH]; intros i cancelled acc; cbn [batch_loop];
    [split; auto|].
  destruct cancelled; [split; auto|].
  destruct (getFilterPayload a) as [base|err]; [|split; auto].
  pose proof (exportBatch_grows (world i) (batch_payload batchType b base) (i + 1) acc)
    as [Hh Hp].
  destruct (exportBatch (world i) (batch_payload batchType b base) (i + 1) acc)
    as [[acc1 evs1] settled].
  cbn [fst] in Hh, Hp.
  destruct settled; [|split; assumption..].
  specialize (IH (S i) (cancel_clicked (world i)) acc1). cbn zeta in IH.
  destruct (batch_loop world a batchType n (S i) rest (cancel_clicked (world i)) acc1)
    as [[[c2 acc2] evs2] e2].
  cbn [fst snd] in *. destruct IH as [IHh IHp]. split; auto.
Qed.

(** Every value reported by a batch that is reached is in the lists at
    the end of the loop. *)
Lemma batch_loop_reports world a batchType n base :
  getFilterPayload a = Ok base ->
  forall batches i0 acc k status r,
    k < length batches ->
    cooperative (fun j => world (i0 + j)) k ->
    filter_answer (world (i0 + k)) = Answered status r ->
    FetchRetry.response_ok status = true ->
    let acc' := snd (fst (fst (batch_loop world a batchType n i0 batches false acc))) in
    (forall sku, sku ∈ default [] (skus_no_encontrados_hijo r) -> sku ∈ hijo acc')
    /\ (forall sku, sku ∈ default [] (skus_no_encontrados_padre r) -> sku ∈ padre acc').
Proof.
  intros Hbase.
  induction batches as [|b rest IH]; intros i0 acc k status r Hk Hcoop Hf Hok;
    [cbn [length] in Hk; lia|].
  cbn [batch_loop]. rewrite Hbase.
  destruct k as [|k].
  - rewrite Nat.add_0_r in Hf.
    pose proof (exportBatch_accumulates (world i0) (batch_payload batchType b base)
                  (i0 + 1) acc status r Hf Hok) as Hacc.
    destruct (exportBatch (world i0) (batch_payload batchType b base) (i0 + 1) acc)
      as [[acc1 evs1] settled].
    cbn [fst] in Hacc. subst acc1.
    assert (Hnow : (forall sku, sku ∈ default [] (skus_no_encontrados_hijo r) ->
                      sku ∈ hijo (accumulate acc r))
                   /\ (forall sku, sku ∈ default [] (skus_no_encontrados_padre r) ->
                         sku ∈ padre (accumulate acc r))).
    { split; intros sku Hs; cbn [accumulate hijo padre]; apply add_not_found_elem;
        right; exact Hs. }
    destruct settled; [|exact Hnow..].
    pose proof (batch_loop_grows world a batchType n rest (S i0)
                  (cancel_clicked (world i0)) (accumulate acc r)) as Hgrow.
    cbn zeta in Hgrow.
    destruct (batch_loop world a batchType n (S i0) rest (cancel_clicked (world i0))
                (accumulate acc r)) as [[[c2 acc2] evs2] e2].
    cbn [fst snd] in *. destruct Hnow as [Hh Hp], Hgrow as [Gh Gp]. split; auto.
  - destruct (Hcoop 0) as (Hfilter & Hexport & Hdown & Hcancel); [lia|].
    rewrite Nat.add_0_r in Hfilter, Hexport, Hdown, Hcancel.
    pose proof (exportBatch_resolved (world i0) (batch_payload batchType b base)
                  (i0 + 1) acc Hexport Hfilter Hdown) as Hres.
    destruct (exportBatch (world i0) (batch_payload batchType b base) (i0 + 1) acc)
      as [[acc1 evs1] settled].
    cbn [snd] in Hres. subst settled. rewrite Hcancel.
    assert (Hrest : k < length rest) by (cbn [length] in Hk; lia).
    assert (Hcoop' : cooperative (fun j => world (S i0 + j)) k).
    { intros j Hj. specialize (Hcoop (S j) ltac:(lia)). cbn beta in Hcoop |- *.
      replace (S i0 + j) with (i0 + S j) by lia. exact Hcoop. }
    replace (i0 + S k) with (S i0 + k) in Hf by lia.
    specialize (IH (S i0) acc1 k status r Hrest Hcoop' Hf Hok). cbn zeta in IH.
    destruct (batch_loop world a batchType n (S i0) rest false acc1)
      as [[[c2 acc2] evs2] e2].
    exact IH.
Qed.

Lemma report_section_once skus sku :
  NoDup skus -> sku ∈ skus -> occurrences sku (report_section skus) = 1.
Proof.
  intros Hnd Hin. unfold report_section.
  destruct skus as [|x skus]; [inversion Hin|].
  cbn [length Nat.ltb Nat.leb]. unfold occurrences.
  cbn [List.filter]. rewrite bool_decide_eq_false_2 by discriminate.
  clear -Hnd Hin. set (l := x :: skus) in *. clearbody l. clear x skus.
  induction l as [|y l IH]; [inversion Hin|].
  apply NoDup_cons in Hnd as [Hy Hnd]. cbn [List.map List.filter].
  case_bool_decide as Heq.
  - injection Heq as ->. cbn [length]. f_equal.
    clear -Hy. induction l as [|z l IH]; [reflexivity|].
    cbn [List.map List.filter]. rewrite bool_decide_eq_false_2.
    + apply IH. intros H. apply Hy. right. exact H.
    + intros [= ->]. apply Hy. left.
  - apply IH; [exact Hnd|]. apply elem_of_cons in Hin as [->|H]; [congruence|exact H].
Qed.

(** C10: whatever the previous run left and whatever the batches
    report, after a batch run the two lists of values not found hold no
    value twice and hold only values that a batch of this run reported
    (the run starts from empty lists); so each value of a list is on
    exactly one line of its section of the report, which is made of
    the section of the SKU hijo list and that of the SKU padre list.
    And nothing is lost: every value that a batch reports not found
    (its filter request answered with a status in the 200s, the batches
    before it exported and downloaded without cancelling) is in the
    list of its field, and so on exactly one line of the report. *)
Theorem batch_not_found_lists_without_duplicates
    world a batchType batchValues totalBatches a' evs c :
  handleBatchProcessing world a batchType batchValues totalBatches = (a', evs, c) ->
  let acc := allBatchNotFoundSkus a' in
  NoDup (hijo acc) /\ NoDup (padre acc)
  /\ reported world 0 (length (make_batches batchValues)) acc
  /\ (forall sku, sku ∈ hijo acc -> occurrences sku (report_section (hijo acc)) = 1)
  /\ (forall sku, sku ∈ padre acc -> occurrences sku (report_section (padre acc)) = 1)
  /\ (hijo acc <> [] \/ padre acc <> [] ->
      generateNotFoundTxt acc
      = Some (report_section (hijo acc) ++ report_section (padre acc)))
  /\ (forall base i status r,
        getFilterPayload a = Ok base ->
        i < length (make_batches batchValues) ->
        cooperative world i ->
        filter_answer (world i) = Answered status r ->
        FetchRetry.response_ok status = true ->
        (forall sku, sku ∈ default [] (skus_no_encontrados_hijo r) ->
           sku ∈ hijo acc /\ occurrences sku (report_section (hijo acc)) = 1)
        /\ (forall sku, sku ∈ default [] (skus_no_encontrados_padre r) ->
              sku ∈ padre acc /\ occurrences sku (report_section (padre acc)) = 1)).
Proof.
  intros Hrun acc. unfold handleBatchProcessing in Hrun.
  destruct (batch_loop world a batchType (length (make_batches batchValues)) 0
              (make_batches batchValues) false {| hijo := []; padre := [] |})
    as [[[c1 acc1] evs1] e1] eqn:Hloop.
  destruct (batch_loop_invariant _ _ _ _ _ _ _ _ _ _ _ _ Hloop) as [Htidy Hrep].
  assert (Hacc : acc = acc1).
  { subst acc. destruct e1; [destruct (negb c1)| |]; injection Hrun as <- _ _; reflexivity. }
  rewrite Hacc.
  destruct Htidy as [Hh Hp]; [split; constructor|].
  split_and!; try assumption.
  - apply (Hrep 0); [lia|]. split; intros sku Hs; inversion Hs.
  - intros sku Hs. apply report_section_once; assumption.
  - intros sku Hs. apply report_section_once; assumption.
  - intros Hsome. unfold generateNotFoundTxt.
    destruct (hijo acc1), (padre acc1); try reflexivity.
    destruct Hsome as [H|H]; congruence.
  - intros base i status r Hbase Hi Hcoop Hf Hok.
    pose proof (batch_loop_reports world a batchType
                  (length (make_batches batchValues)) base Hbase
                  (make_batches batchValues) 0 {| hijo := []; padre := [] |}
                  i status r Hi Hcoop Hf Hok) as Hall.
    cbn zeta in Hall. rewrite Hloop in Hall. cbn [fst snd] in Hall.
    destruct Hall as [Hallh Hallp].
    split; intros sku Hs; (split; [|apply report_section_once]); auto.
Qed.

End NotFoundAccumulators.

Lemma batch_not_found_lists_without_duplicates_witness :
  let a := Filters.with_batch false
             {| Filters.hijo := [JsText.of_string "1111"]; Filters.padre := [] |}
             (Filters.sample_app (Filters.with_skus (Filters.sevens 501) [] true false)) in
  let run := Filters.handleBatchProcessing Filters.reporting_batch a
               (Some Filters.BatchHijo) (JsText.tokens (Filters.sevens 501)) 2 in
  Filters.hijo (Filters.allBatchNotFoundSkus (fst (fst run)))
  = [JsText.of_string "9999"; JsText.of_string "8888"; JsText.of_string "7777"]
  /\ NoDup (Filters.hijo (Filters.allBatchNotFoundSkus (fst (fst run))))
  /\ NoDup (Filters.padre (Filters.allBatchNotFoundSkus (fst (fst run))))
  /\ JsText.of_string "7777" ∈ Filters.hijo (Filters.allBatchNotFoundSkus (fst (fst run))).
Proof.
  intros a run. split; [vm_compute; reflexivity|].
  destruct run as [[a' evs] c] eqn:Hrun.
  destruct (batch_not_found_lists_without_duplicates _ _ _ _ _ _ _ _ Hrun)
    as (Hh & Hp & _ & _ & _ & _ & Hall).
  split; [assumption|]. split; [assumption|].
  destruct (Filters.getFilterPayload a) as [base|e] eqn:Hbase;
    [|vm_compute in Hbase; discriminate Hbase].
  edestruct (Hall base 1 200) as [Hin _].
  - reflexivity.
  - apply Nat.ltb_lt. vm_compute. reflexivity.
  - intros i _. split_and!; try reflexivity.
    + eexists _, _. reflexivity.
    + eexists _, _. split; reflexivity.
  - reflexivity.
  - reflexivity.
  - refine (proj1 (Hin _ _)). right. left.
Defined.

(** ** Progressive rendering of the table *)

Section LazyRendering.
Import JsText LazyTable.

Lemma numbered_plain start rows : plain_rows (numbered start rows).
Proof.
  unfold plain_rows, numbered. revert start.
  induction rows as [|r rows IH]; intros start; [constructor|].
  cbn [imap]. constructor; [reflexivity|].
  rewrite (imap_ext _ (fun index row => DataRow (S start + index) row)).
  - apply IH.
  - intros i x _. simpl. f_equal. lia.
Qed.

Lemma numbered_app start rows1 rows2 :
  numbered start (rows1 ++ rows2)
  = numbered start rows1 ++ numbered (start + length rows1) rows2.
Proof.
  unfold numbered. rewrite imap_app. f_equal.
  apply imap_ext. intros i x _. simpl. f_equal. lia.
Qed.

Lemma length_numbered start rows : length (numbered start rows) = length rows.
Proof. unfold numbered. apply length_imap. Qed.

Lemma data_rows_numbered start rows : data_rows (numbered start rows) = rows.
Proof.
  unfold data_rows, numbered. revert start.
  induction rows as [|r rows IH]; intros start; [reflexivity|].
  cbn [imap omap list_omap]. f_equal.
  rewrite (imap_ext _ (fun index row => DataRow (S start + index) row)).
  - apply IH.
  - intros i x _. simpl. f_equal. lia.
Qed.

Lemma data_rows_app b1 b2 : data_rows (b1 ++ b2) = data_rows b1 ++ data_rows b2.
Proof. unfold data_rows. apply omap_app. Qed.

Lemma plain_rows_no_trigger rows : plain_rows rows -> existsb is_trigger rows = false.
Proof.
  induction 1 as [|r rows Hr _ IH]; [reflexivity|]. simpl. rewrite Hr, IH. reflexivity.
Qed.

Lemma plain_rows_count rows : plain_rows rows -> currentRowCount rows = length rows.
Proof.
  unfold currentRowCount.
  induction 1 as [|r rows Hr _ IH]; [reflexivity|]. simpl. rewrite Hr. simpl.
  f_equal. exact IH.
Qed.

Lemma count_with_trigger rows d c :
  plain_rows rows -> currentRowCount (rows ++ [TriggerRow d c]) = length rows.
Proof.
  intros H. unfold currentRowCount. rewrite List.filter_app, length_app. simpl.
  fold (currentRowCount rows). rewrite plain_rows_count by assumption. lia.
Qed.

Lemma set_content_with_trigger rows d c c' :
  plain_rows rows ->
  set_trigger_content c' (rows ++ [TriggerRow d c]) = rows ++ [TriggerRow d c'].
Proof.
  intros H. unfold set_trigger_content. rewrite List.map_app. f_equal.
  induction H as [|r rows Hr _ IH]; [reflexivity|]. simpl. rewrite IH.
  destruct r; try reflexivity. discriminate Hr.
Qed.

Lemma hide_with_trigger rows d c :
  plain_rows rows ->
  hide_trigger (rows ++ [TriggerRow d c]) = rows ++ [TriggerRow false c].
Proof.
  intros H. unfold hide_trigger. rewrite List.map_app. f_equal.
  induction H as [|r rows Hr _ IH]; [reflexivity|]. simpl. rewrite IH.
  destruct r; try reflexivity. discriminate Hr.
Qed.

Lemma insert_with_trigger trs rows d c :
  plain_rows rows ->
  insert_before_trigger trs (rows ++ [TriggerRow d c])
  = Some (rows ++ trs ++ [TriggerRow d c]).
Proof.
  induction 1 as [|r rows Hr _ IH]; [reflexivity|]. simpl. rewrite Hr, IH. reflexivity.
Qed.

Lemma intersect_with_trigger rows d c :
  plain_rows rows -> trigger_can_intersect (rows ++ [TriggerRow d c]) = d.
Proof.
  intros H. unfold trigger_can_intersect. rewrite existsb_app. simpl.
  rewrite orb_false_r.
  replace (existsb _ rows) with false; [destruct d; reflexivity|].
  symmetry. induction H as [|r rows Hr _ IH]; [reflexivity|]. simpl. rewrite IH.
  destruct r; try reflexivity. discriminate Hr.
Qed.

(** A chunk load on a body made of data rows and the trigger row. *)
Lemma loadMoreChunk_with_trigger rows d content totalData :
  plain_rows rows ->
  loadMoreChunk (ChunkData totalData) (rows ++ [TriggerRow d content])
  = if length totalData <=? length rows
    then rows ++ [TriggerRow false content]
    else
      let endIndex := Nat.min (length rows + 50) (length totalData) in
      rows ++ numbered (length rows) (slice (length rows) endIndex totalData)
        ++ [if length totalData <=? endIndex
            then TriggerRow false TriggerLoading
            else TriggerRow d TriggerIdle].
Proof.
  intros H. unfold loadMoreChunk. rewrite count_with_trigger by assumption.
  destruct (length totalData <=? length rows); [apply hide_with_trigger, H|].
  rewrite set_content_with_trigger by assumption.
  rewrite insert_with_trigger by assumption.
  fold (numbered (length rows)
          (slice (length rows)
             (Nat.min (length rows + LAZY_LOAD_CHUNK_SIZE) (length totalData)) totalData)).
  change LAZY_LOAD_CHUNK_SIZE with 50. cbn zeta.
  set (added := numbered _ _).
  assert (Hp : plain_rows (rows ++ added)).
  { apply Forall_app. split; [assumption|apply numbered_plain]. }
  rewrite !app_assoc.
  destruct (length totalData <=? Nat.min (length rows + 50) (length totalData)).
  - apply hide_with_trigger, Hp.
  - apply set_content_with_trigger, Hp.
Qed.

Lemma renderDataTable_long data :
  100 < length data ->
  renderDataTable data = numbered 0 (take 100 data) ++ [TriggerRow true TriggerIdle].
Proof.
  intros Hn. unfold renderDataTable.
  destruct (Nat.eqb_spec (length data) 0) as [H0|_]; [lia|].
  change LAZY_LOAD_INITIAL_SIZE with 100.
  destruct (Nat.ltb_spec 100 (length data)); [|lia].
  unfold setupLazyLoadTrigger.
  change (renderTableRows (slice 0 100 data) 0 []) with (numbered 0 (slice 0 100 data)).
  reflexivity.
Qed.

(** C6: a result of at most 100 rows is rendered whole, without
    trigger row; a longer one as its first 100 rows followed by the
    trigger row; a chunk load puts the next 50 rows, or the rows that
    remain when they are fewer, in front of the trigger row; once the
    rows rendered reach the total, the trigger row is hidden and
    scrolling starts no load.  While the trigger row is displayed, the
    observer starts a chunk load each time the row comes into view: on
    the table of a long result the first scroll to the end adds the
    rows 100 to 149, or those that remain, and a load that fails leaves
    the rows and marks the trigger row. *)
Theorem lazy_table_rendering (data : list Row) :
  (length data <= 100 ->
   data_rows (renderDataTable data) = data
   /\ existsb is_trigger (renderDataTable data) = false)
  /\ (100 < length data ->
      renderDataTable data
      = numbered 0 (take 100 data) ++ [TriggerRow true TriggerIdle])
  /\ (forall rows content totalData,
        plain_rows rows -> length rows < length totalData ->
        let added :=
          slice (length rows) (Nat.min (length rows + 50) (length totalData))
            totalData in
        length added = Nat.min 50 (length totalData - length rows)
        /\ loadMoreChunk (ChunkData totalData) (rows ++ [TriggerRow true content])
           = rows ++ numbered (length rows) added
               ++ [if length totalData <=? length rows + 50
                   then TriggerRow false TriggerLoading
                   else TriggerRow true TriggerIdle])
  /\ (forall rows content totalData reply,
        plain_rows rows -> length totalData <= length rows + 50 ->
        trigger_can_intersect
          (loadMoreChunk (ChunkData totalData) (rows ++ [TriggerRow true content]))
        = false
        /\ on_scroll_to_end reply
             (loadMoreChunk (ChunkData totalData) (rows ++ [TriggerRow true content]))
           = None)
  /\ (forall rows content reply,
        plain_rows rows ->
        on_scroll_to_end reply (rows ++ [TriggerRow true content])
        = Some (loadMoreChunk reply (rows ++ [TriggerRow true content])))
  /\ (100 < length data ->
      on_scroll_to_end (ChunkData data) (renderDataTable data)
      = Some (numbered 0 (take 100 data)
                ++ numbered 100 (slice 100 (Nat.min 150 (length data)) data)
                ++ [if length data <=? 150
                    then TriggerRow false TriggerLoading
                    else TriggerRow true TriggerIdle])
      /\ on_scroll_to_end ChunkFailure (renderDataTable data)
         = Some (numbered 0 (take 100 data) ++ [TriggerRow true TriggerFailed])).
Proof.
  split_and!.
  - intros Hn. unfold renderDataTable.
    destruct (Nat.eqb_spec (length data) 0) as [H0|_].
    { destruct data; [split; reflexivity|discriminate H0]. }
    change LAZY_LOAD_INITIAL_SIZE with 100.
    destruct (Nat.ltb_spec 100 (length data)); [lia|].
    change (renderTableRows data 0 []) with (numbered 0 data). split.
    + apply data_rows_numbered.
    + apply plain_rows_no_trigger, numbered_plain.
  - apply renderDataTable_long.
  - intros rows content totalData Hp Hlt added. split.
    + subst added. rewrite length_slice. lia.
    + rewrite loadMoreChunk_with_trigger by assumption.
      destruct (Nat.leb_spec (length totalData) (length rows)); [lia|]. cbn zeta.
      fold added. do 2 f_equal.
      destruct (Nat.leb_spec (length totalData) (length rows + 50));
        destruct (Nat.leb_spec (length totalData)
                    (Nat.min (length rows + 50) (length totalData)));
        try reflexivity; lia.
  - intros rows content totalData reply Hp Hle.
    assert (Hhidden : trigger_can_intersect
              (loadMoreChunk (ChunkData totalData) (rows ++ [TriggerRow true content]))
            = false).
    { rewrite loadMoreChunk_with_trigger by assumption.
      destruct (Nat.leb_spec (length totalData) (length rows)).
      - apply intersect_with_trigger, Hp.
      - cbn zeta. rewrite app_assoc.
        destruct (Nat.leb_spec (length totalData)
                    (Nat.min (length rows + 50) (length totalData))); [|lia].
        apply intersect_with_trigger.
        apply Forall_app. split; [assumption|apply numbered_plain]. }
    split; [exact Hhidden|]. unfold on_scroll_to_end. rewrite Hhidden. reflexivity.
  - intros rows content reply Hp. unfold on_scroll_to_end.
    rewrite intersect_with_trigger by assumption. reflexivity.
  - intros Hn. rewrite (renderDataTable_long data Hn). unfold on_scroll_to_end.
    rewrite intersect_with_trigger by apply numbered_plain. split; f_equal.
    + rewrite loadMoreChunk_with_trigger by apply numbered_plain.
      rewrite length_numbered, length_take, Nat.min_l by lia.
      destruct (Nat.leb_spec (length data) 100); [lia|]. cbn zeta.
      change (100 + 50) with 150. do 2 f_equal.
      destruct (Nat.leb_spec (length data) 150);
        destruct (Nat.leb_spec (length data) (Nat.min 150 (length data)));
        try reflexivity; lia.
    + cbn [loadMoreChunk]. apply set_content_with_trigger, numbered_plain.
Qed.


(** Scrolling to the end again and again, with the backend answering
    the same data: 50 more rows each time, until all are there. *)
Lemma scroll_times_progress data k : forall m c,
  m <= length data ->
  exists c',
    scroll_times k data
      (numbered 0 (take m data) ++ [TriggerRow (m <? length data) c])
    = numbered 0 (take (Nat.min (m + 50 * k) (length data)) data)
        ++ [TriggerRow (Nat.min (m + 50 * k) (length data) <? length data) c'].
Proof.
  induction k as [|k IH]; intros m c Hm.
  - exists c. rewrite Nat.mul_0_r, Nat.add_0_r, Nat.min_l by lia. reflexivity.
  - cbn [scroll_times]. unfold on_scroll_to_end.
    rewrite intersect_with_trigger by apply numbered_plain.
    destruct (Nat.ltb_spec m (length data)) as [Hlt|Hge].
    + rewrite loadMoreChunk_with_trigger by apply numbered_plain.
      rewrite length_numbered, length_take, Nat.min_l by lia.
      destruct (Nat.leb_spec (length data) m); [lia|]. cbn zeta.
      set (m' := Nat.min (m + 50) (length data)).
      assert (Hrows : numbered 0 (take m data) ++ numbered m (slice m m' data)
                      = numbered 0 (take m' data)).
      { replace m' with (m + (m' - m)) at 2 by lia.
        rewrite <- take_take_drop, numbered_app, length_take, Nat.min_l by lia.
        reflexivity. }
      rewrite app_assoc, Hrows.
      destruct (IH m' (if length data <=? m' then TriggerLoading else TriggerIdle))
        as [c' Hc']; [lia|].
      exists c'.
      replace (Nat.min (m + 50 * S k) (length data))
        with (Nat.min (m' + 50 * k) (length data)) by lia.
      rewrite <- Hc'. do 3 f_equal.
      destruct (Nat.leb_spec (length data) m'), (Nat.ltb_spec m' (length data));
        try reflexivity; lia.
    + exists c. replace m with (length data) by lia.
      rewrite Nat.min_r by lia. rewrite Nat.ltb_irrefl. reflexivity.
Qed.

(** X18: scrolling shows the whole result.  Once the scrolls to the end
    are enough for the rows beyond the first hundred, fifty at a time,
    every row of the result is in the table, in order, and the trigger
    row is hidden, so that no further load is started. *)
Lemma scroll_to_the_end data k :
  100 < length data -> length data <= 100 + 50 * k ->
  data_rows (scroll_times k data (renderDataTable data)) = data
  /\ trigger_can_intersect (scroll_times k data (renderDataTable data)) = false.
Proof.
  intros Hn Hk.
  rewrite (renderDataTable_long data Hn).
  destruct (scroll_times_progress data k 100 TriggerIdle) as [c' Hc']; [lia|].
  destruct (Nat.ltb_spec 100 (length data)); [|lia]. rewrite Hc'.
  rewrite Nat.min_r by lia. rewrite Nat.ltb_irrefl, firstn_all. split.
  - rewrite data_rows_app, data_rows_numbered. apply app_nil_r.
  - apply intersect_with_trigger, numbered_plain.
Qed.

End LazyRendering.

Lemma lazy_table_rendering_witness :
  let data := repeat [("sku_hijo", "1001")] 101 in
  let body := LazyTable.numbered 0 (take 100 data)
                ++ [LazyTable.TriggerRow true LazyTable.TriggerIdle] in
  LazyTable.renderDataTable data = body
  /\ LazyTable.loadMoreChunk (LazyTable.ChunkData data) body
     = LazyTable.numbered 0 (take 100 data)
         ++ LazyTable.numbered 100 (drop 100 data)
         ++ [LazyTable.TriggerRow false LazyTable.TriggerLoading]
  /\ LazyTable.on_scroll_to_end (LazyTable.ChunkData data) (LazyTable.renderDataTable data)
     = Some (LazyTable.numbered 0 (take 100 data)
               ++ LazyTable.numbered 100 (drop 100 data)
               ++ [LazyTable.TriggerRow false LazyTable.TriggerLoading]).
Proof.
  intros data body.
  destruct (lazy_table_rendering data) as (_ & Hlazy & Hchunk & _ & _ & Hobserver).
  assert (Hlen : 100 < length data) by (unfold data; rewrite repeat_length; lia).
  split; [|split].
  - apply Hlazy. exact Hlen.
  - destruct (Hchunk (LazyTable.numbered 0 (take 100 data)) LazyTable.TriggerIdle data)
      as [_ Hload].
    + apply numbered_plain.
    + rewrite length_numbered. unfold data. rewrite length_take, repeat_length. lia.
    + exact Hload.
  - destruct (Hobserver Hlen) as [Hfirst _]. rewrite Hfirst. vm_compute. reflexivity.
Defined.

(** ** The cache of data sources *)

Section CacheFacts.
Import JsText LazyTable Filters DataLoad.

Lemma entries_for_lookup name (cache : gmap string CacheEntry) :
  entries_for name cache = match cache !! name with Some _ => 1 | None => 0 end.
Proof.
  unfold entries_for. induction cache as [|k e cache Hk Hfirst IH] using map_first_key_ind.
  - rewrite map_to_list_empty, lookup_empty. reflexivity.
  - rewrite map_to_list_insert_first_key by assumption. cbn [List.filter fst].
    destruct (String.eqb_spec k name) as [->|Hne].
    + rewrite lookup_insert_eq. cbn [length]. rewrite IH, Hk. reflexivity.
    + rewrite lookup_insert_ne by assumption. exact IH.
Qed.

(** The batch processing leaves the cache and the source name alone. *)
Lemma handleBatchProcessing_cache world a batchType batchValues totalBatches :
  let a' := fst (fst (handleBatchProcessing world a batchType batchValues totalBatches)) in
  dataSourceCache a' = dataSourceCache a
  /\ currentBlobDisplayName a' = currentBlobDisplayName a.
Proof.
  unfold handleBatchProcessing.
  destruct (batch_loop _ _ _ _ _ _ _ _) as [[[c acc] evs] e].
  destruct e; [destruct (negb c)| |]; split; reflexivity.
Qed.

(** What a call of [handleApplyFilters] does to the cache: nothing, or
    it stores the answer to its query in the entry of the current
    source. *)
Lemma handleApplyFilters_cache w page isInitialLoad a :
  let a' := fst (fst (handleApplyFilters w page isInitialLoad a)) in
  dataSourceCache a' = dataSourceCache a
  \/ exists name entry status result payload,
       currentBlobDisplayName a = Some name
       /\ dataSourceCache a !! name = Some entry
       /\ query_answer w = Answered status result
       /\ dataSourceCache a'
          = <[name := store_result result payload page entry]> (dataSourceCache a).
Proof.
  unfold handleApplyFilters.
  destruct (currentBlobDisplayName a) as [name|] eqn:Hname; [|left; reflexivity].
  destruct (negb (JsString.truthy name)); [left; reflexivity|].
  destruct (dataSourceCache a !! name) as [entry|] eqn:Hentry; [|left; reflexivity].
  set (start := if isInitialLoad
                then (initial_controls w entry a,
                      [EvRequest (GetFilterVisibility name)])
                else (a, [])).
  assert (Hstart : dataSourceCache (fst start) = dataSourceCache a)
    by (subst start; destruct isInitialLoad; reflexivity).
  destruct start as [a1 evs1]. cbn [fst] in Hstart.
  destruct (validateBatchFilters (inputs (with_page page a1)))
    as [|[|] batchType batchValues totalBatches].
  - left. exact Hstart.
  - pose proof (handleBatchProcessing_cache (batch_world w) (with_page page a1)
                  batchType batchValues totalBatches) as [Hc _].
    destruct (handleBatchProcessing _ _ _ _ _) as [[a3 evs] c]. left.
    cbn [fst] in *. rewrite Hc. exact Hstart.
  - destruct (getFilterPayload (with_page page a1)) as [payload|e]; [|left; exact Hstart].
    destruct (query_answer w) as [status result|msg] eqn:Hans; [|left; exact Hstart].
    destruct (negb (FetchRetry.response_ok status)); [left; exact Hstart|].
    right. exists name, entry, status, result, payload.
    split_and!; try reflexivity; try assumption.
    cbn [fst dataSourceCache with_result with_cache with_page with_inputs].
    rewrite Hstart.
    apply map_eq. intros k. rewrite lookup_alter.
    destruct (decide (name = k)) as [<-|Hne].
    + rewrite Hentry, lookup_insert_eq. reflexivity.
    + rewrite lookup_insert_ne by assumption. reflexivity.
Qed.

Lemma getFilterPayload_selection a p :
  getFilterPayload a = Ok p ->
  value_filters p = collect_selects (filterSelects (inputs a))
  /\ selected_display_columns p = currentSelectedDisplayColumns a.
Proof.
  unfold getFilterPayload.
  destruct (collect_custom _ _) as [custom|e]; cbn [mbind Try_bind bind]; [|discriminate].
  destruct (getListFromInput (skuHijoInput _) _) as [hl|e];
    cbn [mbind Try_bind bind]; [|discriminate].
  destruct (getListFromInput (skuPadreInput _) _) as [pl|e];
    cbn [mbind Try_bind bind]; [|discriminate].
  destruct (getListFromInput (ticketFilterInput _) _) as [tl|e];
    cbn [mbind Try_bind bind]; [|discriminate].
  destruct (getListFromInput (lineamientoFilterInput _) _) as [ll|e];
    cbn [mbind Try_bind bind]; [|discriminate].
  intros [= <-]. split; reflexivity.
Qed.

(** Selects in which nothing is selected give no value filter. *)
Lemma collect_selects_unselected {V} (l : list (string * V)) :
  collect_selects (List.map (fun kv => (fst kv, [])) l) = ∅.
Proof.
  unfold collect_selects. generalize (∅ : gmap string (list string)).
  induction l as [|kv l IH]; intros acc; [reflexivity|].
  cbn [List.map foldl length Nat.ltb Nat.leb]. apply IH.
Qed.

(** What the call that ends a load does to the cache: nothing, or it
    stores the answer to its query in the entry of the current source,
    with no value filter and the columns that are not hidden. *)
Lemma handleApplyFilters_initial_cache w a :
  let a' := fst (fst (handleApplyFilters w 1 true a)) in
  dataSourceCache a' = dataSourceCache a
  \/ exists name entry status result,
       currentBlobDisplayName a = Some name
       /\ dataSourceCache a !! name = Some entry
       /\ query_answer w = Answered status result
       /\ FetchRetry.response_ok status = true
       /\ dataSourceCache a'
          = <[name := {| fileInfo := fileInfo entry;
                         filterOptions := filterOptions entry;
                         filterConfig := filterConfig entry;
                         ttl := ttl entry;
                         displayData := default [] (data result);
                         filteredRowCount := default 0 (row_count_filtered result);
                         valueFilters := ∅;
                         selectedColumns :=
                           populateColumnsListbox (columns (fileInfo entry))
                             (hiddenColumnsConfig a);
                         entryPage := 1;
                         hasPriorityColumn :=
                           default false (has_priority_column result);
                         priorityInfo :=
                           default no_priority_info (priority_info result) |}]>
              (dataSourceCache a).
Proof.
  unfold handleApplyFilters.
  destruct (currentBlobDisplayName a) as [name|] eqn:Hname; [|left; reflexivity].
  destruct (negb (JsString.truthy name)); [left; reflexivity|].
  destruct (dataSourceCache a !! name) as [entry|] eqn:Hentry; [|left; reflexivity].
  set (a1 := initial_controls w entry a).
  destruct (validateBatchFilters (inputs (with_page 1 a1)))
    as [|[|] batchType batchValues totalBatches].
  - left. reflexivity.
  - pose proof (handleBatchProcessing_cache (batch_world w) (with_page 1 a1)
                  batchType batchValues totalBatches) as [Hc _].
    destruct (handleBatchProcessing _ _ _ _ _) as [[a3 evs] c]. left.
    cbn [fst] in *. rewrite Hc. reflexivity.
  - destruct (getFilterPayload (with_page 1 a1)) as [payload|e] eqn:Hpay;
      [|left; reflexivity].
    destruct (query_answer w) as [status result|msg] eqn:Hans; [|left; reflexivity].
    destruct (FetchRetry.response_ok status) eqn:Hok; cbn [negb]; [|left; reflexivity].
    right. exists name, entry, status, result.
    split_and!; try reflexivity; try assumption.
    destruct (getFilterPayload_selection _ _ Hpay) as [Hvf Hsel].
    cbn [inputs with_page a1 initial_controls with_columns with_inputs reset_controls
         filterSelects currentSelectedDisplayColumns] in Hvf, Hsel.
    unfold a1, initial_controls in Hvf, Hsel.
    cbn [inputs with_page with_columns with_inputs reset_controls
         filterSelects currentSelectedDisplayColumns] in Hvf, Hsel.
    rewrite collect_selects_unselected in Hvf.
    cbn [fst dataSourceCache with_result with_cache with_page with_inputs].
    change (dataSourceCache a1) with (dataSourceCache a).
    apply map_eq. intros k. rewrite lookup_alter.
    destruct (decide (name = k)) as [<-|Hne].
    + rewrite Hentry, lookup_insert_eq. cbn [fmap option_fmap option_map].
      unfold store_result. rewrite Hvf, Hsel. reflexivity.
    + rewrite lookup_insert_ne by assumption. reflexivity.
Qed.

End CacheFacts.

Section LoadFacts.
Import JsText LazyTable Filters DataLoad.

Lemma fetchWithRetry_first_answer timeout maxRetries initialDelay network status statusText :
  network 0 = Responds status statusText ->
  response_ok status = true ->
  fetchWithRetry timeout maxRetries initialDelay network
  = (Returned status statusText, [EvFetch 0]).
Proof.
  intros Hn Hok. unfold fetchWithRetry. cbn [retry_loop Nat.leb].
  unfold try_block. rewrite Hn, Hok. reflexivity.
Qed.

Lemma fetchWithRetry_network_down timeout maxRetries initialDelay network message :
  (forall n, network n = Rejects (network_error message)) ->
  fst (fetchWithRetry timeout maxRetries initialDelay network)
  = Thrown (Some (network_error message)).
Proof.
  intros Hn. unfold fetchWithRetry.
  destruct (retry_loop_exhausts timeout maxRetries initialDelay network
              (S (S maxRetries)) 0 None) with (e := network_error message)
    as [Hout _]; try lia.
  - intros n _. exists (network_error message). unfold failure_of, try_block.
    rewrite Hn. split; reflexivity.
  - unfold failure_of, try_block. rewrite Hn. reflexivity.
  - exact Hout.
Qed.

Section WithLowerCase.
Variable toLowerCase : string -> string.

Lemma fetch_json_inl {A} timeout maxRetries initialDelay network (json : option A) missing stop :
  fetch_json timeout maxRetries initialDelay network json missing = inl stop ->
  stop <> TryDone.
Proof.
  unfold fetch_json.
  destruct (fst (fetchWithRetry _ _ _ _)) as [| [e|] | |]; [destruct json| | | |];
    intros [= <-]; discriminate.
Qed.

Lemma fetch_json_inr {A} timeout maxRetries initialDelay network (json : option A) missing v :
  fetch_json timeout maxRetries initialDelay network json missing = inr v ->
  json = Some v.
Proof.
  unfold fetch_json.
  destruct (fst (fetchWithRetry _ _ _ _)) as [| [e|] | |]; [destruct json| | | |];
    intros [= <-]; reflexivity.
Qed.

Lemma load_try_cache w a a1 e :
  load_try toLowerCase w a = (a1, e) ->
  let name := key_of (currentBlobDisplayName a) in
  (dataSourceCache a1 = dataSourceCache a /\ e <> TryDone)
  \/ exists entry,
       loaded_entry toLowerCase w (currentBlobDisplayName a) (currentBlobFilename a) entry
       /\ dataSourceCache a1 = <[name := entry]> (dataSourceCache a)
       /\ (e = TryDone \/ e = TryUnfinished).
Proof.
  intros Hrun name. unfold load_try in Hrun. fold name in Hrun.
  destruct (fetch_json (Some 60000%N) 2 1500 _ _ _) as [stop|settings] eqn:Hs.
  { injection Hrun as <- <-. left. split; [reflexivity|]. eapply fetch_json_inl, Hs. }
  cbn zeta in Hrun.
  destruct (fetch_json None 0 1000 _ _ _) as [stop|payload] eqn:Hl.
  { injection Hrun as <- <-. left. split; [reflexivity|]. eapply fetch_json_inl, Hl. }
  apply fetch_json_inr in Hs, Hl.
  destruct (payload_columns payload) as [cols|] eqn:Hcols.
  2:{ injection Hrun as <- <-. left. split; [reflexivity|discriminate]. }
  set (ah := with_hidden (hidden_columns toLowerCase settings) a) in *.
  change (key_of (currentBlobDisplayName ah)) with name in Hrun.
  change (dataSourceCache ah) with (dataSourceCache a) in Hrun.
  set (fresh := new_entry toLowerCase ah settings payload cols) in *.
  set (a0 := with_cache (<[name := fresh]> (dataSourceCache a)) ah) in *.
  pose proof (handleApplyFilters_initial_cache (apply_world w) a0) as Hcache.
  destruct (handleApplyFilters (apply_world w) 1 true a0) as [[a2 evs] c].
  cbn [fst] in Hcache.
  assert (Ha1 : a1 = a2 /\ (e = TryDone \/ e = TryUnfinished)).
  { destruct c; injection Hrun as <- <-; auto. }
  destruct Ha1 as [-> He]. right.
  destruct Hcache as [Hsame|(nm & entry0 & st & result & Hnm & Hentry & Hans & Hok & Hnew)].
  - exists fresh. split_and!; auto.
    exists settings, payload, cols. split_and!; auto.
    left. split_and!; reflexivity.
  - assert (Hkey : nm = name).
    { subst name a0 ah. cbn in Hnm. rewrite Hnm. reflexivity. }
    subst nm. subst a0. cbn [dataSourceCache with_cache] in Hentry, Hnew.
    rewrite lookup_insert_eq in Hentry. injection Hentry as <-.
    rewrite insert_insert_eq in Hnew.
    eexists. split_and!; [|exact Hnew|exact He].
    exists settings, payload, cols. split_and!; auto.
    right. exists st, result. split_and!; auto.
Qed.

Lemma load_source_cache w a a' r :
  load_source toLowerCase w a = (a', r) ->
  let name := key_of (currentBlobDisplayName a) in
  match r with
  | LoadCompleted =>
      exists entry,
        loaded_entry toLowerCase w (currentBlobDisplayName a) (currentBlobFilename a) entry
        /\ dataSourceCache a' = <[name := entry]> (dataSourceCache a)
  | LoadFailed error =>
      dataSourceCache a' = delete name (dataSourceCache a)
      /\ err_name error <> "AbortError"
  | LoadCancelled => dataSourceCache a' = dataSourceCache a
  | LoadUnfinished => True
  | NoSourceSelected | ViewRestored => False
  end.
Proof.
  intros Hrun name. unfold load_source in Hrun. fold name in Hrun.
  set (a0 := with_result (skusNoEncontrados a) []
               (with_inputs (clearManualFilterInputs (inputs a)) a)) in *.
  destruct (load_try toLowerCase w a0) as [a1 e] eqn:Htry.
  apply load_try_cache in Htry. cbn zeta in Htry.
  change (key_of (currentBlobDisplayName a0)) with name in Htry.
  change (dataSourceCache a0) with (dataSourceCache a) in Htry.
  change (currentBlobDisplayName a0) with (currentBlobDisplayName a) in Htry.
  change (currentBlobFilename a0) with (currentBlobFilename a) in Htry.
  destruct e as [|error|].
  - injection Hrun as <- <-.
    destruct Htry as [[_ H]|(entry & H1 & H2 & _)]; [congruence|].
    exists entry. auto.
  - destruct Htry as [[Hc _]|(entry & _ & _ & [H|H])]; try discriminate.
    destruct (String.eqb_spec (err_name error) "AbortError") as [Hab|Hab];
      injection Hrun as <- <-.
    + exact Hc.
    + cbn [dataSourceCache with_cache]. rewrite Hc. auto.
  - injection Hrun as <- <-. exact I.
Qed.

Lemma load_source_not_restored w a :
  snd (load_source toLowerCase w a) <> ViewRestored.
Proof.
  destruct (load_source toLowerCase w a) as [a' r] eqn:Hrun.
  apply load_source_cache in Hrun. cbn [snd]. intros ->. exact Hrun.
Qed.

Lemma handleDataLoad_cases w s s' r :
  handleDataLoad toLowerCase w s = (s', r) ->
  (r = NoSourceSelected /\ s' = s)
  \/ (r = ViewRestored /\ dataSourceCache (app s') = dataSourceCache (app s))
  \/ load_source toLowerCase w (app s) = (app s', r).
Proof.
  unfold handleDataLoad. intros Hrun.
  destruct (negb (truthy_name (currentBlobDisplayName (app s))) && _).
  { injection Hrun as <- <-. left. auto. }
  set (snapshot := match dataSourceCache (app s) !! _ with
                   | Some _ => _
                   | None => None
                   end) in Hrun.
  destruct snapshot as [v|]; [destruct (dom_ready w)|].
  - injection Hrun as <- <-. right. left. auto.
  - right. right. destruct (load_source toLowerCase w (app s)) as [a' r0].
    injection Hrun as <- <-. reflexivity.
  - right. right. destruct (load_source toLowerCase w (app s)) as [a' r0].
    injection Hrun as <- <-. reflexivity.
Qed.

(** The selector and the timers after a call. *)
Lemma handleDataLoad_timers w s s' r :
  handleDataLoad toLowerCase w s = (s', r) ->
  blobSelect s' = blobSelect s
  /\ pendingTimers s'
     = pendingTimers s
       ++ match r with
          | LoadCompleted => [SaveViewTimer (target_of s)]
          | ViewRestored =>
              match viewStateCache s !! target_of s with
              | Some v => [RestoreInputsTimer (snap_skuHijo v) (snap_skuPadre v)
                             (snap_ticket v) (snap_lineamiento v)]
              | None => []
              end
          | _ => []
          end.
Proof.
  unfold handleDataLoad, target_of. intros Hrun.
  pose proof (load_source_not_restored w) as Hnot.
  destruct (negb (truthy_name (currentBlobDisplayName (app s))) && _).
  { injection Hrun as <- <-. rewrite app_nil_r. auto. }
  destruct (dataSourceCache (app s) !! _) as [entry|];
    [destruct (viewStateCache s !! _) as [v|] eqn:Hv; [destruct (dom_ready w)|]|].
  - injection Hrun as <- <-. cbn [blobSelect pendingTimers]. auto.
  - specialize (Hnot (app s)).
    destruct (load_source toLowerCase w (app s)) as [a' r0]. cbn [snd] in Hnot.
    injection Hrun as <- <-. cbn [blobSelect pendingTimers].
    split; [reflexivity|]. destruct r0; try contradiction; rewrite ?app_nil_r; reflexivity.
  - specialize (Hnot (app s)).
    destruct (load_source toLowerCase w (app s)) as [a' r0]. cbn [snd] in Hnot.
    injection Hrun as <- <-. cbn [blobSelect pendingTimers].
    split; [reflexivity|]. destruct r0; try contradiction; rewrite ?app_nil_r; reflexivity.
  - specialize (Hnot (app s)).
    destruct (load_source toLowerCase w (app s)) as [a' r0]. cbn [snd] in Hnot.
    injection Hrun as <- <-. cbn [blobSelect pendingTimers].
    split; [reflexivity|]. destruct r0; try contradiction; rewrite ?app_nil_r; reflexivity.
Qed.

(** A query leaves the names of the current source alone. *)
Lemma handleApplyFilters_names w page isInitialLoad a :
  let a' := fst (fst (handleApplyFilters w page isInitialLoad a)) in
  currentBlobDisplayName a' = currentBlobDisplayName a
  /\ currentBlobFilename a' = currentBlobFilename a.
Proof.
  unfold handleApplyFilters.
  destruct (currentBlobDisplayName a) as [name|] eqn:Hname;
    [|split; [exact Hname|reflexivity]].
  destruct (negb (JsString.truthy name)); [split; [exact Hname|reflexivity]|].
  destruct (dataSourceCache a !! name) as [entry|];
    [|split; [exact Hname|reflexivity]].
  set (start := if isInitialLoad
                then (initial_controls w entry a, [EvRequest (GetFilterVisibility name)])
                else (a, [])).
  assert (Hstart : currentBlobDisplayName (fst start) = Some name
                   /\ currentBlobFilename (fst start) = currentBlobFilename a)
    by (subst start; destruct isInitialLoad; split; assumption || reflexivity).
  destruct start as [a1 evs1]. cbn [fst] in Hstart. destruct Hstart as [Hn Hf].
  destruct (validateBatchFilters (inputs (with_page page a1)))
    as [|[|] batchType batchValues totalBatches].
  - split; assumption.
  - unfold handleBatchProcessing.
    destruct (batch_loop _ _ _ _ _ _ _ _) as [[[c acc] evs] e].
    destruct e; [destruct (negb c)| |]; split; assumption.
  - destruct (getFilterPayload (with_page page a1)) as [payload|e];
      [|split; assumption].
    destruct (query_answer w) as [status result|msg]; [|split; assumption].
    destruct (negb (FetchRetry.response_ok status)); split; assumption.
Qed.

Lemma load_source_names w a :
  currentBlobDisplayName (fst (load_source toLowerCase w a)) = currentBlobDisplayName a
  /\ currentBlobFilename (fst (load_source toLowerCase w a)) = currentBlobFilename a.
Proof.
  unfold load_source.
  set (a0 := with_result (skusNoEncontrados a) []
               (with_inputs (clearManualFilterInputs (inputs a)) a)).
  assert (Htry : currentBlobDisplayName (fst (load_try toLowerCase w a0))
                 = currentBlobDisplayName a
                 /\ currentBlobFilename (fst (load_try toLowerCase w a0))
                    = currentBlobFilename a).
  { unfold load_try.
    destruct (fetch_json _ _ _ _ _ _) as [stop|settings]; [split; reflexivity|].
    cbn zeta.
    destruct (fetch_json _ _ _ _ _ _) as [stop|payload]; [split; reflexivity|].
    destruct (payload_columns payload) as [cols|]; [|split; reflexivity].
    set (a1 := with_cache _ _).
    pose proof (handleApplyFilters_names (apply_world w) 1 true a1) as Hn.
    destruct (handleApplyFilters (apply_world w) 1 true a1) as [[a2 evs] c].
    destruct c; exact Hn. }
  destruct (load_try toLowerCase w a0) as [a1 [|error|]]; cbn [fst] in *; try exact Htry.
  destruct (String.eqb _ _); exact Htry.
Qed.

Lemma handleDataLoad_completed w s s' :
  handleDataLoad toLowerCase w s = (s', LoadCompleted) ->
  let name := key_of (currentBlobDisplayName (app s)) in
  exists entry,
    loaded_entry toLowerCase w (currentBlobDisplayName (app s))
      (currentBlobFilename (app s)) entry
    /\ dataSourceCache (app s') = <[name := entry]> (dataSourceCache (app s))
    /\ dataSourceCache (app s') !! name = Some entry
    /\ entries_for name (dataSourceCache (app s')) = 1.
Proof.
  intros Hrun name.
  destruct (handleDataLoad_cases _ _ _ _ Hrun) as [[H _]|[[H _]|Hload]];
    try discriminate.
  apply load_source_cache in Hload.
  destruct Hload as (entry & H1 & H2).
  exists entry. fold name in H2.
  split_and!; auto.
  - rewrite H2. apply lookup_insert_eq.
  - rewrite entries_for_lookup, H2, lookup_insert_eq. reflexivity.
Qed.

Lemma handleDataLoad_failed w s s' error :
  handleDataLoad toLowerCase w s = (s', LoadFailed error) ->
  let name := key_of (currentBlobDisplayName (app s)) in
  dataSourceCache (app s') = delete name (dataSourceCache (app s))
  /\ dataSourceCache (app s') !! name = None
  /\ entries_for name (dataSourceCache (app s')) = 0.
Proof.
  intros Hrun name.
  destruct (handleDataLoad_cases _ _ _ _ Hrun) as [[H _]|[[H _]|Hload]];
    try discriminate.
  apply load_source_cache in Hload. fold name in Hload. destruct Hload as [Hc _].
  split_and!; auto.
  - rewrite Hc. apply lookup_delete_eq.
  - rewrite entries_for_lookup, Hc, lookup_delete_eq. reflexivity.
Qed.

(** A call that finds the entry of its target and a saved view of it,
    with the containers of the view in the document, puts the view
    back and loads nothing. *)
Lemma handleDataLoad_restores w s entry v :
  truthy_name (currentBlobDisplayName (app s))
  || truthy_name (match blobSelect s with
                  | Some x => Some x
                  | None => currentBlobDisplayName (app s)
                  end) = true ->
  dataSourceCache (app s) !! target_of s = Some entry ->
  viewStateCache s !! target_of s = Some v ->
  dom_ready w = true ->
  snd (handleDataLoad toLowerCase w s) = ViewRestored
  /\ dataSourceCache (app (fst (handleDataLoad toLowerCase w s)))
     = dataSourceCache (app s).
Proof.
  unfold handleDataLoad, target_of. intros Hsel Hentry Hview Hdom.
  destruct (truthy_name (currentBlobDisplayName (app s))) eqn:Hc;
    destruct (truthy_name (match blobSelect s with
                           | Some x => Some x
                           | None => currentBlobDisplayName (app s)
                           end)) eqn:Hs; cbn [negb andb orb] in *;
    try discriminate; rewrite Hentry, Hview, Hdom; split; reflexivity.
Qed.

(** The timers leave the cache, the names and the selector alone. *)
Lemma fire_timer_frame w t s :
  dataSourceCache (app (fire_timer w t s)) = dataSourceCache (app s)
  /\ currentBlobDisplayName (app (fire_timer w t s))
     = currentBlobDisplayName (app s)
  /\ blobSelect (fire_timer w t s) = blobSelect s.
Proof. destruct t; split_and!; reflexivity. Qed.

Lemma timers_fire_frame w s :
  dataSourceCache (app (timers_fire w s)) = dataSourceCache (app s)
  /\ currentBlobDisplayName (app (timers_fire w s))
     = currentBlobDisplayName (app s)
  /\ blobSelect (timers_fire w s) = blobSelect s.
Proof.
  unfold timers_fire.
  assert (Hgen : forall l s0,
            let s1 := foldl (fun s t => fire_timer w t s) s0 l in
            dataSourceCache (app s1) = dataSourceCache (app s0)
            /\ currentBlobDisplayName (app s1) = currentBlobDisplayName (app s0)
            /\ blobSelect s1 = blobSelect s0).
  { induction l as [|t l IH]; intros s0; cbn [foldl]; [auto|].
    destruct (IH (fire_timer w t s0)) as (H1 & H2 & H3).
    destruct (fire_timer_frame w t s0) as (F1 & F2 & F3).
    cbn zeta. rewrite H1, H2, H3. auto. }
  apply (Hgen (pendingTimers s)
           {| app := app s; blobSelect := blobSelect s;
              viewStateCache := viewStateCache s; pendingTimers := [] |}).
Qed.

Lemma target_of_frame s s0 :
  currentBlobDisplayName (app s0) = currentBlobDisplayName (app s) ->
  blobSelect s0 = blobSelect s ->
  target_of s0 = target_of s.
Proof. unfold target_of. intros -> ->. reflexivity. Qed.

(** With the containers in the document, the timer of a completed load
    leaves a view of the source loaded. *)
Lemma timers_fire_saves w s blobName :
  dom_ready w = true ->
  SaveViewTimer blobName ∈ pendingTimers s ->
  is_Some (viewStateCache (timers_fire w s) !! blobName).
Proof.
  intros Hdom Hin. unfold timers_fire.
  set (s0 := {| app := app s; blobSelect := blobSelect s;
                viewStateCache := viewStateCache s; pendingTimers := [] |}).
  assert (Hgen : forall l s1,
            is_Some (viewStateCache s1 !! blobName) \/ SaveViewTimer blobName ∈ l ->
            is_Some (viewStateCache
                       (foldl (fun s t => fire_timer w t s) s1 l)
                     !! blobName)).
  { induction l as [|t l IH]; intros s1 [Hs|Hl]; cbn [foldl]; auto.
    - inversion Hl.
    - apply IH. left. destruct t as [n|]; cbn [fire_timer viewStateCache]; [|exact Hs].
      unfold saveViewState. rewrite Hdom.
      destruct (decide (n = blobName)) as [->|Hne].
      + rewrite lookup_insert_eq. eauto.
      + rewrite lookup_insert_ne by assumption. exact Hs.
    - apply IH. apply elem_of_cons in Hl as [<-|Hl]; [left|right; exact Hl].
      cbn [fire_timer viewStateCache]. unfold saveViewState. rewrite Hdom.
      rewrite lookup_insert_eq. eauto. }
  apply Hgen. right. exact Hin.
Qed.

Lemma load_source_settings_down w a message :
  (forall n, settings_network w n = Rejects (network_error message)) ->
  snd (load_source toLowerCase w a) = LoadFailed (network_error message).
Proof.
  intros Hn. unfold load_source, load_try, fetch_json.
  rewrite (fetchWithRetry_network_down _ _ _ _ message Hn). reflexivity.
Qed.

Lemma load_source_data_down w a message :
  settings_arrive w ->
  (forall n, load_network w n = Rejects (network_error message)) ->
  snd (load_source toLowerCase w a) = LoadFailed (network_error message).
Proof.
  intros (st & tx & settings & Hs & Hok & Hjson) Hn.
  unfold load_source, load_try, fetch_json.
  rewrite (fetchWithRetry_first_answer _ _ _ _ st tx Hs Hok), Hjson. cbn [fst].
  rewrite (fetchWithRetry_network_down _ _ _ _ message Hn). reflexivity.
Qed.

Lemma load_source_columns_missing w a dataPayload :
  settings_arrive w ->
  data_arrives w dataPayload ->
  payload_columns dataPayload = None ->
  snd (load_source toLowerCase w a)
  = LoadFailed (mkError "El formato de datos recibido es inválido (columns)").
Proof.
  intros (st & tx & settings & Hs & Hok & Hjson) (st' & tx' & Hl & Hok' & Hjson') Hcols.
  unfold load_source, load_try, fetch_json.
  rewrite (fetchWithRetry_first_answer _ _ _ _ st tx Hs Hok), Hjson. cbn [fst].
  rewrite (fetchWithRetry_first_answer _ _ _ _ st' tx' Hl Hok'), Hjson'. cbn [fst].
  rewrite Hcols. reflexivity.
Qed.

(** Two calls in a row for the source that is current and selected,
    the first of which loads it. *)
Lemma second_call w1 w2 wt s s1 :
  handleDataLoad toLowerCase w1 s = (s1, LoadCompleted) ->
  target_of s = key_of (currentBlobDisplayName (app s)) ->
  (viewStateCache s !! target_of s = None ->
   snd (handleDataLoad toLowerCase w2 s1) <> ViewRestored)
  /\ (dom_ready wt = true -> dom_ready w2 = true ->
      snd (handleDataLoad toLowerCase w2 (timers_fire wt s1)) = ViewRestored
      /\ dataSourceCache
           (app (fst (handleDataLoad toLowerCase w2 (timers_fire wt s1))))
         = dataSourceCache (app s1)).
Proof.
  intros Hrun Hsame.
  destruct (handleDataLoad_completed _ _ _ Hrun) as (entry & _ & _ & Hentry & _).
  destruct (handleDataLoad_timers _ _ _ _ Hrun) as [Hsel Htimers].
  destruct (handleDataLoad_cases _ _ _ _ Hrun) as [[H _]|[[H _]|Hload]];
    try discriminate.
  pose proof (load_source_names w1 (app s)) as [Hname _].
  rewrite Hload in Hname. cbn [fst] in Hname.
  assert (Htarget1 : target_of s1 = target_of s)
    by (apply target_of_frame; assumption).
  assert (Hchosen : truthy_name (currentBlobDisplayName (app s))
                    || truthy_name (match blobSelect s with
                                    | Some x => Some x
                                    | None => currentBlobDisplayName (app s)
                                    end) = true).
  { revert Hrun. unfold handleDataLoad.
    destruct (truthy_name (currentBlobDisplayName (app s)));
      destruct (truthy_name _); cbn [negb andb orb]; try reflexivity.
    discriminate. }
  split.
  - intros Hnone Hrestored.
    assert (Hviews : viewStateCache s1 !! target_of s = None).
    { revert Hrun. unfold handleDataLoad. fold (target_of s).
      destruct (negb (truthy_name (currentBlobDisplayName (app s))) && _);
        [discriminate|].
      rewrite Hsame in Hnone |- *. rewrite Hnone.
      assert (Hsnap : match dataSourceCache (app s)
                              !! key_of (currentBlobDisplayName (app s)) with
                      | Some _ => None
                      | None => None
                      end = @None ViewSnapshot)
        by (destruct (dataSourceCache (app s) !! _); reflexivity).
      rewrite Hsnap, String.eqb_refl, andb_false_r.
      destruct (load_source toLowerCase w1 (app s)) as [a' r0].
      intros [= <- _]. exact Hnone. }
    revert Hrestored. unfold handleDataLoad. fold (target_of s1).
    rewrite Htarget1, Hviews.
    pose proof (load_source_not_restored w2) as Hnot.
    destruct (negb (truthy_name (currentBlobDisplayName (app s1))) && _);
      [discriminate|].
    destruct (dataSourceCache (app s1) !! target_of s);
      specialize (Hnot (app s1));
      destruct (load_source toLowerCase w2 (app s1)) as [a' r0]; exact Hnot.
  - intros Hdomt Hdom2.
    destruct (timers_fire_frame wt s1) as (Hc & Hn & Hb).
    assert (Htarget2 : target_of (timers_fire wt s1) = target_of s).
    { rewrite <- Htarget1. apply target_of_frame; assumption. }
    destruct (timers_fire_saves wt s1 (target_of s) Hdomt) as [v Hv].
    { rewrite Htimers. apply elem_of_app. right. left. }
    rewrite <- Hc.
    apply (handleDataLoad_restores w2 (timers_fire wt s1) entry v).
    + rewrite Hn, Hb, Hname, Hsel. exact Hchosen.
    + rewrite Htarget2, Hc, Hsame. exact Hentry.
    + rewrite Htarget2. exact Hv.
    + exact Hdom2.
Qed.

(** X13: two calls of the loader in a row for the same source, the
    first of which loads it.  When no view of the source was saved
    before, a second call made before the timer of the first has fired
    does not end on a saved view: it loads again, and when it completes
    the one entry of the source is built from the answers to the second
    load alone.  A second call made once the timers have fired, with
    the containers of the view in the document, ends on the saved view
    and leaves the entry of the first load. *)
Lemma loads_in_a_row w1 w2 wt s s1 :
  handleDataLoad toLowerCase w1 s = (s1, LoadCompleted) ->
  target_of s = key_of (currentBlobDisplayName (app s)) ->
  let name := key_of (currentBlobDisplayName (app s)) in
  let early := handleDataLoad toLowerCase w2 s1 in
  let late := handleDataLoad toLowerCase w2 (timers_fire wt s1) in
  (viewStateCache s !! target_of s = None ->
   snd early <> ViewRestored
   /\ (snd early = LoadCompleted ->
       entries_for name (dataSourceCache (app (fst early))) = 1
       /\ exists entry,
            loaded_entry toLowerCase w2 (currentBlobDisplayName (app s))
              (currentBlobFilename (app s)) entry
            /\ dataSourceCache (app (fst early)) !! name = Some entry))
  /\ (dom_ready wt = true -> dom_ready w2 = true ->
      snd late = ViewRestored
      /\ dataSourceCache (app (fst late)) !! name = dataSourceCache (app s1) !! name).
Proof.
  intros Hrun Hsame name early late.
  destruct (second_call w1 w2 wt s s1 Hrun Hsame) as [Hearly Hlate].
  destruct (handleDataLoad_cases _ _ _ _ Hrun) as [[H _]|[[H _]|Hload]];
    try discriminate.
  pose proof (load_source_names w1 (app s)) as [Hname Hfile].
  rewrite Hload in Hname, Hfile. cbn [fst] in Hname, Hfile.
  split.
  - intros Hnone. split; [exact (Hearly Hnone)|]. intros Hdone.
    assert (Hrun2 : handleDataLoad toLowerCase w2 s1 = (fst early, LoadCompleted)).
    { rewrite <- Hdone. apply surjective_pairing. }
    destruct (handleDataLoad_completed _ _ _ Hrun2) as (entry & Hl & _ & He & Hone).
    rewrite Hname in He, Hone. rewrite Hname, Hfile in Hl.
    split; [exact Hone|]. exists entry. auto.
  - intros Hdomt Hdom2. destruct (Hlate Hdomt Hdom2) as [Hr Hc].
    split; [exact Hr|]. subst late. rewrite Hc. reflexivity.
Qed.

(** C2: the cache holds at most one entry under a name.  A load that
    completes leaves under the name of the source exactly one entry,
    every field of which is read off the answers to this load, whatever
    was there before; a call that ends on the saved view loads nothing
    and leaves the cache as it is; a load that fails removes the entry
    of the source; a network failure of either request, or data whose
    [columns] field is missing, makes the load fail.  Of two calls in a
    row for the same source, the second leaves the entry of the first
    load when it is made after the timer of the first has saved the
    view (with the containers of the view in the document), and an
    entry of its own answers when it loads again and completes. *)
Theorem cache_entry_replaced_or_deleted w s s' r :
  handleDataLoad toLowerCase w s = (s', r) ->
  let name := key_of (currentBlobDisplayName (app s)) in
  let before := dataSourceCache (app s) in
  let after := dataSourceCache (app s') in
  (forall n, entries_for n after <= 1)
  /\ (r = LoadCompleted ->
      exists entry,
        loaded_entry toLowerCase w (currentBlobDisplayName (app s))
          (currentBlobFilename (app s)) entry
        /\ after = <[name := entry]> before
        /\ after !! name = Some entry
        /\ entries_for name after = 1)
  /\ (r = ViewRestored -> after = before)
  /\ (forall error, r = LoadFailed error ->
        after = delete name before
        /\ after !! name = None
        /\ entries_for name after = 0)
  /\ (r <> NoSourceSelected -> r <> ViewRestored ->
      (forall message,
         (forall n, settings_network w n = Rejects (network_error message)) ->
         r = LoadFailed (network_error message))
      /\ (forall message,
            settings_arrive w ->
            (forall n, load_network w n = Rejects (network_error message)) ->
            r = LoadFailed (network_error message))
      /\ (forall dataPayload,
            settings_arrive w -> data_arrives w dataPayload ->
            payload_columns dataPayload = None ->
            exists error, r = LoadFailed error))
  /\ (r = LoadCompleted -> target_of s = name ->
      forall wt w2,
        dom_ready wt = true -> dom_ready w2 = true ->
        snd (handleDataLoad toLowerCase w2 (timers_fire wt s')) = ViewRestored
        /\ dataSourceCache
             (app (fst (handleDataLoad toLowerCase w2 (timers_fire wt s'))))
           = after)
  /\ (r = LoadCompleted ->
      forall w2 s2,
        handleDataLoad toLowerCase w2 s' = (s2, LoadCompleted) ->
        exists entry2,
          loaded_entry toLowerCase w2 (currentBlobDisplayName (app s))
            (currentBlobFilename (app s)) entry2
          /\ dataSourceCache (app s2) !! name = Some entry2
          /\ entries_for name (dataSourceCache (app s2)) = 1).
Proof.
  intros Hrun name before after. split_and!.
  - intros n. rewrite entries_for_lookup. destruct (after !! n); lia.
  - intros ->. exact (handleDataLoad_completed w s s' Hrun).
  - intros ->.
    destruct (handleDataLoad_cases _ _ _ _ Hrun) as [[H _]|[[_ H]|Hload]];
      [discriminate|exact H|].
    pose proof (load_source_cache w (app s) (app s') ViewRestored Hload) as [].
  - intros error ->. exact (handleDataLoad_failed w s s' error Hrun).
  - intros Hnone Hview.
    destruct (handleDataLoad_cases _ _ _ _ Hrun) as [[H _]|[[H _]|Hload]];
      try contradiction.
    assert (Hr : r = snd (load_source toLowerCase w (app s))) by (rewrite Hload; reflexivity).
    split_and!.
    + intros message Hn. rewrite Hr. apply load_source_settings_down, Hn.
    + intros message Hs Hn. rewrite Hr. apply load_source_data_down; assumption.
    + intros dataPayload Hs Hd Hcols. eexists. rewrite Hr.
      eapply load_source_columns_missing; eassumption.
  - intros -> Hsame wt w2 Hdomt Hdom2.
    destruct (second_call w w2 wt s s' Hrun Hsame) as [_ Hlate].
    exact (Hlate Hdomt Hdom2).
  - intros -> w2 s2 Hrun2.
    destruct (handleDataLoad_cases _ _ _ _ Hrun) as [[H _]|[[H _]|Hload]];
      try discriminate.
    pose proof (load_source_names w (app s)) as [Hname Hfile].
    rewrite Hload in Hname, Hfile. cbn [fst] in Hname, Hfile.
    destruct (handleDataLoad_completed _ _ _ Hrun2) as (entry & Hl & _ & He & Hone).
    rewrite Hname in He, Hone. rewrite Hname, Hfile in Hl.
    exists entry. auto.
Qed.

End WithLowerCase.
End LoadFacts.

Lemma cache_entry_replaced_or_deleted_witness :
  snd (DataLoad.handleDataLoad DataLoad.to_lower DataLoad.sample_load
         DataLoad.sample_session) = DataLoad.LoadCompleted
  /\ DataLoad.entries_for "UNIVERSO PERU"
       (Filters.dataSourceCache
          (DataLoad.app (fst (DataLoad.handleDataLoad DataLoad.to_lower
                                DataLoad.sample_load DataLoad.sample_session)))) = 1
  /\ Filters.rowCount
       <$> (Filters.fileInfo
              <$> Filters.dataSourceCache
                    (DataLoad.app (fst (DataLoad.handleDataLoad DataLoad.to_lower
                                          DataLoad.sample_load DataLoad.sample_session)))
                  !! "UNIVERSO PERU")
     = Some 5%Z.
Proof.
  assert (Hdone : snd (DataLoad.handleDataLoad DataLoad.to_lower DataLoad.sample_load
                         DataLoad.sample_session) = DataLoad.LoadCompleted)
    by (vm_compute; reflexivity).
  assert (Hrun : DataLoad.handleDataLoad DataLoad.to_lower DataLoad.sample_load
                   DataLoad.sample_session
                 = (fst (DataLoad.handleDataLoad DataLoad.to_lower DataLoad.sample_load
                           DataLoad.sample_session), DataLoad.LoadCompleted)).
  { rewrite <- Hdone. apply surjective_pairing. }
  destruct (cache_entry_replaced_or_deleted DataLoad.to_lower _ _ _ _ Hrun)
    as (_ & Hcompleted & _).
  destruct (Hcompleted eq_refl) as (entry & _ & _ & _ & Hone).
  split; [exact Hdone|]. split; [exact Hone|].
  vm_compute. reflexivity.
Defined.

(** Two calls in a row for "UNIVERSO PERU": the first load completes
    with the data of 5 rows; once its timer has saved the view, a
    second call, made when the backend would answer 9 rows, ends on
    the saved view, and the entry of the source is still that of the
    first load. *)
Lemma second_load_keeps_first_entry :
  snd (DataLoad.handleDataLoad DataLoad.to_lower DataLoad.sample_load
         DataLoad.sample_session) = DataLoad.LoadCompleted
  /\ snd (DataLoad.handleDataLoad DataLoad.to_lower DataLoad.later_load
            (DataLoad.timers_fire DataLoad.sample_load
               (fst (DataLoad.handleDataLoad DataLoad.to_lower DataLoad.sample_load
                       DataLoad.sample_session))))
     = DataLoad.ViewRestored
  /\ Filters.rowCount
       <$> (Filters.fileInfo
              <$> Filters.dataSourceCache
                    (DataLoad.app
                       (fst (DataLoad.handleDataLoad DataLoad.to_lower DataLoad.later_load
                               (DataLoad.timers_fire DataLoad.sample_load
                                  (fst (DataLoad.handleDataLoad DataLoad.to_lower
                                          DataLoad.sample_load
                                          DataLoad.sample_session))))))
                  !! "UNIVERSO PERU")
     = Some 5%Z
  /\ DataLoad.row_count_original <$> DataLoad.load_json DataLoad.later_load
     = Some (Some 9%Z).
Proof. split_and!; vm_compute; reflexivity. Qed.

(** ** Timers and listeners of the text filters *)

Section TimerFacts.
Import JsText FilterTimers.

Lemma filter_comm {A} (f g : A -> bool) (l : list A) :
  List.filter f (List.filter g l) = List.filter g (List.filter f l).
Proof.
  induction l as [|x l IH]; [reflexivity|]. simpl.
  destruct (f x) eqn:Hf, (g x) eqn:Hg; simpl; rewrite ?Hf, ?Hg, IH; reflexivity.
Qed.

(** Running timers one after the other: each timer of the debounce
    function makes one call, the others make none. *)
Lemma foldl_fire l : forall u,
  let u' := foldl fire u l in
  applied u' = applied u
               ++ List.map (fun _ => apply_call (now u) (values u)) (List.filter is_debounce l)
  /\ now u' = now u /\ values u' = values u /\ timers u' = timers u
  /\ next_id u' = next_id u /\ filterDebounceTimer u' = filterDebounceTimer u.
Proof.
  induction l as [|t l IH]; intros u; cbn zeta.
  - simpl. rewrite app_nil_r. split_and!; reflexivity.
  - cbn [foldl]. destruct (IH (fire u t)) as (Ha & Hn & Hv & Ht & Hi & Hd).
    rewrite Ha, Hn, Hv, Ht, Hi, Hd. cbn [List.filter]. unfold fire.
    unfold is_debounce at 2.
    destruct (callback t); cbn; rewrite <- ?app_assoc; split_and!; reflexivity.
Qed.

Lemma tick_spec u :
  applied (tick u)
  = applied u
    ++ List.map (fun _ => apply_call (S (now u)) (values u))
         (List.filter (fun t => due t <=? S (now u)) (debounce_pending u))
  /\ debounce_pending (tick u)
     = List.filter (fun t => negb (due t <=? S (now u))) (debounce_pending u)
  /\ now (tick u) = S (now u) /\ values (tick u) = values u
  /\ next_id (tick u) = next_id u
  /\ filterDebounceTimer (tick u) = filterDebounceTimer u.
Proof.
  unfold tick.
  set (u0 := {| now := S (now u); next_id := next_id u;
                timers := List.filter (fun t => negb (due t <=? S (now u))) (timers u);
                filterDebounceTimer := filterDebounceTimer u;
                pendingFilterUpdates := pendingFilterUpdates u;
                values := values u; applied := applied u |}).
  destruct (foldl_fire (List.filter (fun t => due t <=? S (now u)) (timers u)) u0)
    as (Ha & Hn & Hv & Ht & Hi & Hd).
  unfold debounce_pending. rewrite Ha, Hn, Hv, Ht, Hi, Hd. subst u0. cbn.
  rewrite (filter_comm is_debounce). rewrite (filter_comm is_debounce).
  split_and!; reflexivity.
Qed.

(** Waiting while no timer of the debounce function is pending. *)
Lemma wait_quiet ms : forall u,
  debounce_pending u = [] ->
  applied (wait ms u) = applied u /\ debounce_pending (wait ms u) = []
  /\ now (wait ms u) = now u + ms /\ values (wait ms u) = values u
  /\ next_id (wait ms u) = next_id u
  /\ filterDebounceTimer (wait ms u) = filterDebounceTimer u.
Proof.
  induction ms as [|ms IH]; intros u Hq.
  - simpl. rewrite Nat.add_0_r. split_and!; auto.
  - cbn [wait]. destruct (tick_spec u) as (Ha & Hd & Hn & Hv & Hi & Hf).
    rewrite Hq in Ha, Hd. cbn in Ha, Hd. rewrite app_nil_r in Ha.
    destruct (IH (tick u) Hd) as (Ha' & Hd' & Hn' & Hv' & Hi' & Hf').
    rewrite Ha', Hd', Hn', Hv', Hi', Hf', Ha, Hn, Hv, Hi, Hf.
    split_and!; auto; lia.
Qed.

(** Waiting less than the pending timer needs. *)
Lemma wait_before_due ms : forall u t,
  debounce_pending u = [t] -> now u + ms < due t ->
  applied (wait ms u) = applied u /\ debounce_pending (wait ms u) = [t]
  /\ now (wait ms u) = now u + ms /\ values (wait ms u) = values u
  /\ next_id (wait ms u) = next_id u
  /\ filterDebounceTimer (wait ms u) = filterDebounceTimer u.
Proof.
  induction ms as [|ms IH]; intros u t Hp Hlt.
  - simpl. rewrite Nat.add_0_r. split_and!; auto.
  - cbn [wait]. destruct (tick_spec u) as (Ha & Hd & Hn & Hv & Hi & Hf).
    rewrite Hp in Ha, Hd. cbn in Ha, Hd.
    destruct (Nat.leb_spec (due t) (S (now u))); [lia|].
    cbn in Ha, Hd. rewrite app_nil_r in Ha.
    destruct (IH (tick u) t Hd) as (Ha' & Hd' & Hn' & Hv' & Hi' & Hf'); [lia|].
    rewrite Ha', Hd', Hn', Hv', Hi', Hf', Ha, Hn, Hv, Hi, Hf.
    split_and!; auto; lia.
Qed.

(** Waiting until the pending timer has run: one call, made when the
    timer is due, with the values the inputs hold. *)
Lemma wait_past_due ms : forall u t,
  debounce_pending u = [t] -> now u < due t <= now u + ms ->
  applied (wait ms u) = applied u ++ [apply_call (due t) (values u)]
  /\ debounce_pending (wait ms u) = [].
Proof.
  induction ms as [|ms IH]; intros u t Hp Hdue; [lia|].
  cbn [wait]. destruct (tick_spec u) as (Ha & Hd & Hn & Hv & Hi & Hf).
  rewrite Hp in Ha, Hd. cbn in Ha, Hd.
  destruct (Nat.leb_spec (due t) (S (now u))) as [Hle|Hgt]; cbn in Ha, Hd.
  - destruct (wait_quiet ms (tick u) Hd) as (Ha' & Hd' & _).
    rewrite Ha', Hd', Ha. replace (S (now u)) with (due t) by lia. auto.
  - rewrite app_nil_r in Ha.
    destruct (IH (tick u) t Hd) as (Ha' & Hd'); [lia|].
    rewrite Ha', Hd', Ha, Hv. auto.
Qed.

End TimerFacts.

Section ListenerFacts.
Import JsText FilterTimers.

Lemma step_edit_quiet u act :
  is_edit act = true -> debounce_pending u = [] ->
  applied (step u act) = applied u /\ debounce_pending (step u act) = [].
Proof.
  intros He Hq. destruct act as [f v|f v| | |ms|]; try discriminate He.
  - split; [reflexivity|exact Hq].
  - split; [reflexivity|]. unfold debounce_pending in *. cbn.
    rewrite List.filter_app, Hq. reflexivity.
  - destruct (wait_quiet ms u Hq) as (Ha & Hd & _). auto.
Qed.

Lemma run_edits_quiet acts : forall u,
  Forall (fun act => is_edit act = true) acts -> debounce_pending u = [] ->
  applied (run acts u) = applied u /\ debounce_pending (run acts u) = [].
Proof.
  induction acts as [|act acts IH]; intros u Hall Hq; [auto|].
  inversion Hall as [|? ? He Hrest]; subst.
  destruct (step_edit_quiet u act He Hq) as [Ha Hd].
  destruct (IH (step u act) Hrest Hd) as [Ha' Hd'].
  unfold run in *. cbn [foldl]. rewrite Ha', Hd', Ha. auto.
Qed.

Lemma debounceFilterUpdate_arms ft delay u :
  at_most_remembered u -> 0 < next_id u ->
  let u' := debounceFilterUpdate ft delay u in
  exists t, debounce_pending u' = [t]
    /\ filterDebounceTimer u' = Some (timer_id t)
    /\ 0 < timer_id t /\ due t = now u + delay
    /\ applied u' = applied u /\ now u' = now u /\ values u' = values u
    /\ next_id u' = S (next_id u).
Proof.
  intros Hinv Hid. unfold debounceFilterUpdate.
  set (u1 := match filterDebounceTimer u with
             | Some id => if 0 <? id then clearTimeout id u else u
             | None => u
             end).
  assert (H1 : debounce_pending u1 = [] /\ now u1 = now u /\ next_id u1 = next_id u
               /\ applied u1 = applied u /\ values u1 = values u).
  { subst u1. destruct Hinv as [Hq|(t & Hp & Hf & Hpos)].
    - destruct (filterDebounceTimer u) as [id|]; [destruct (0 <? id)|];
        split_and!; try reflexivity; try exact Hq.
      unfold debounce_pending in *. cbn. rewrite filter_comm, Hq. reflexivity.
    - rewrite Hf. destruct (Nat.ltb_spec 0 (timer_id t)); [|lia].
      split_and!; try reflexivity.
      unfold debounce_pending in *. cbn. rewrite filter_comm, Hp. cbn.
      rewrite Nat.eqb_refl. reflexivity. }
  destruct H1 as (Hq & Hn & Hi & Ha & Hv). clearbody u1.
  exists {| timer_id := next_id u1; due := now u1 + delay; callback := CbDebouncedApply |}.
  unfold debounce_pending in *. cbn. rewrite List.filter_app, Hq, Hn, Hi.
  split_and!; auto; lia.
Qed.

Lemma edit_with_debounce delay u f v gap :
  at_most_remembered u -> 0 < next_id u -> gap < delay ->
  let u' := run [Type_ f v; CallDebounce (filterType f) delay; Wait gap] u in
  armed delay u' /\ applied u' = applied u /\ 0 < next_id u'
  /\ values u' = set_value f v (values u).
Proof.
  intros Hinv Hid Hgap. unfold run. cbn [foldl].
  set (u1 := step u (Type_ f v)).
  assert (Hinv1 : at_most_remembered u1) by exact Hinv.
  assert (Hid1 : 0 < next_id u1) by exact Hid.
  destruct (debounceFilterUpdate_arms (filterType f) delay u1 Hinv1 Hid1)
    as (t & Hp & Hf & Hpos & Hdue & Ha & Hn & Hv & Hi).
  cbn [step]. set (u2 := debounceFilterUpdate (filterType f) delay u1) in *.
  destruct (wait_before_due gap u2 t Hp) as (Ha' & Hp' & Hn' & Hv' & Hi' & Hf'); [lia|].
  split_and!.
  - exists t. rewrite Hp', Hf', Hf, Hn', Hn. split_and!; auto; lia.
  - rewrite Ha', Ha. reflexivity.
  - rewrite Hi', Hi. lia.
  - rewrite Hv', Hv. reflexivity.
Qed.

Lemma armed_remembered delay u : armed delay u -> at_most_remembered u.
Proof. intros (t & Hp & Hf & Hpos & _). right. exists t. auto. Qed.

Lemma burst_run delay edits : forall u,
  at_most_remembered u -> 0 < next_id u ->
  Forall (fun e => snd e < delay) edits ->
  let u' := run (burst delay edits) u in
  at_most_remembered u' /\ 0 < next_id u' /\ applied u' = applied u
  /\ (edits <> [] -> armed delay u').
Proof.
  induction edits as [|[[f v] gap] edits IH]; intros u Hinv Hid Hall; cbn zeta.
  - split_and!; auto. congruence.
  - inversion Hall as [|? ? Hgap Hrest]; subst. cbn [snd] in Hgap.
    change (burst delay (((f, v), gap) :: edits))
      with ([Type_ f v; CallDebounce (filterType f) delay; Wait gap]
              ++ burst delay edits).
    unfold run. rewrite foldl_app.
    fold (run [Type_ f v; CallDebounce (filterType f) delay; Wait gap] u).
    destruct (edit_with_debounce delay u f v gap Hinv Hid Hgap) as (Harm & Ha & Hi & _).
    set (u1 := run [Type_ f v; CallDebounce (filterType f) delay; Wait gap] u) in *.
    fold (run (burst delay edits) u1).
    destruct (IH u1 (armed_remembered _ _ Harm) Hi Hrest) as (Hinv' & Hi' & Ha' & Harm').
    split_and!; auto.
    + rewrite Ha', Ha. reflexivity.
    + intros _. destruct edits as [|e edits]; [exact Harm|]. apply Harm'. discriminate.
Qed.

Lemma burst_last_value delay edits f v gap u :
  get_value f (values (run (burst delay (edits ++ [(f, v, gap)])) u)) = v.
Proof.
  unfold burst. rewrite flat_map_app. unfold run. rewrite foldl_app.
  set (u0 := foldl step u _). cbn [flat_map fst snd app foldl].
  set (u1 := step u0 (Type_ f v)).
  assert (H1 : get_value f (values u1) = v) by (destruct f; reflexivity).
  set (u2 := step u1 (CallDebounce (filterType f) delay)).
  assert (H2 : values u2 = values u1).
  { subst u2. cbn [step]. unfold debounceFilterUpdate.
    destruct (filterDebounceTimer u1) as [id|]; [destruct (0 <? id)|]; reflexivity. }
  assert (H3 : forall ms (x : Ui), values (wait ms x) = values x).
  { induction ms as [|ms IHms]; intros x; [reflexivity|]. cbn [wait].
    rewrite IHms. destruct (tick_spec x) as (_ & _ & _ & Hv & _). exact Hv. }
  cbn [step]. rewrite H3. fold u2. rewrite H2. exact H1.
Qed.

(** Edits that go through the debounce function: however many within
    the delay of each other, one call once the delay has passed, with
    the values of the inputs at that time. *)
Lemma debounce_coalesces delay edits u :
  0 < delay -> edits <> [] -> Forall (fun e => snd e < delay) edits ->
  debounce_pending u = [] -> 0 < next_id u ->
  exists time,
    applied (run (burst delay edits ++ [Wait delay]) u)
    = applied u ++ [apply_call time (values (run (burst delay edits) u))].
Proof.
  intros Hdelay Hne Hall Hq Hid.
  destruct (burst_run delay edits u (or_introl Hq) Hid Hall) as (_ & _ & Ha & Harm).
  destruct (Harm Hne) as (t & Hp & _ & _ & Hdue).
  unfold run at 1. rewrite foldl_app. fold (run (burst delay edits) u).
  cbn [foldl step].
  destruct (wait_past_due delay (run (burst delay edits) u) t Hp Hdue) as [Hw _].
  exists (due t). rewrite Hw, Ha. reflexivity.
Qed.

(** C1, as the script has it: an edit of a text filter only marks its
    field as pending, it sets no timer of the debounce function and no
    sequence of edits, pastes and pauses makes a call of
    [handleApplyFilters]; Enter in a field and the Apply button make
    the call at once, with the values the inputs hold; and the debounce
    function, which no listener calls, keeps a single timer: edits sent
    through it within the delay of each other end in one call, made
    with the values the inputs hold when the timer runs, the value of
    the last edit among them. *)
Theorem edits_wait_for_apply_or_enter :
  (forall acts u,
     Forall (fun act => is_edit act = true) acts -> debounce_pending u = [] ->
     applied (run acts u) = applied u /\ debounce_pending (run acts u) = [])
  /\ (forall u f v,
        pendingFilterUpdates (step u (Type_ f v))
        = {[ filterType f ]} ∪ pendingFilterUpdates u
        /\ timers (step u (Type_ f v)) = timers u
        /\ values (step u (Type_ f v)) = set_value f v (values u))
  /\ (forall u f,
        step u (PressEnter f) = call_handleApplyFilters 1 false u
        /\ applied (step u (PressEnter f))
           = applied u ++ [apply_call (now u) (values u)])
  /\ (forall u,
        applied (step u ClickApply) = applied u ++ [apply_call (now u) (values u)])
  /\ (forall delay edits u,
        0 < delay -> edits <> [] -> Forall (fun e => snd e < delay) edits ->
        debounce_pending u = [] -> 0 < next_id u ->
        exists time,
          applied (run (burst delay edits ++ [Wait delay]) u)
          = applied u ++ [apply_call time (values (run (burst delay edits) u))])
  /\ (forall delay edits f v gap u,
        get_value f (values (run (burst delay (edits ++ [(f, v, gap)])) u)) = v).
Proof.
  split_and!.
  - apply run_edits_quiet.
  - intros u f v. split_and!; reflexivity.
  - intros u f. split; reflexivity.
  - intros u. reflexivity.
  - apply debounce_coalesces.
  - apply burst_last_value.
Qed.

(** Three quick edits of the SKU hijo input and a pause of 300 ms: no
    timer was set and no call of [handleApplyFilters] was made. *)
Lemma edits_alone_apply_nothing :
  let edits := [Type_ SkuHijo (of_string "1"); Type_ SkuHijo (of_string "10");
                Type_ SkuHijo (of_string "100")] in
  timers (run edits initial) = []
  /\ applied (run (edits ++ [Wait DEBOUNCE_DELAY]) initial) = []
  /\ length (applied (run (edits ++ [Wait DEBOUNCE_DELAY]) initial)) <> 1.
Proof.
  intros edits. split_and!; [reflexivity|vm_compute; reflexivity|].
  vm_compute. discriminate.
Qed.

End ListenerFacts.

Lemma edits_wait_for_apply_or_enter_witness :
  let edits := [(FilterTimers.SkuHijo, JsText.of_string "1", 40);
                (FilterTimers.SkuHijo, JsText.of_string "10", 40);
                (FilterTimers.SkuHijo, JsText.of_string "100", 40)] in
  let acts := FilterTimers.burst 300 edits ++ [FilterTimers.Wait 300] in
  exists time,
    FilterTimers.applied (FilterTimers.run acts FilterTimers.initial)
    = [FilterTimers.apply_call time
         (FilterTimers.values
            (FilterTimers.run (FilterTimers.burst 300 edits) FilterTimers.initial))].
Proof.
  intros edits acts.
  destruct edits_wait_for_apply_or_enter as (_ & _ & _ & _ & Hburst & _).
  apply (Hburst 300 edits FilterTimers.initial).
  - lia.
  - discriminate.
  - repeat constructor.
  - reflexivity.
  - repeat constructor.
Defined.

(** ** fetchWithRetry: pauses, diagnostics, recovery *)

Section RetryRunFacts.
Import FetchRetry RetryRuns.
Variable timeout : option N.
Variable maxRetries : nat.
Variable initialDelay : Z.
Variable network : nat -> FetchBehaviour.

Local Abbreviation loop := (retry_loop timeout maxRetries initialDelay network).
Local Abbreviation failure_of := (FetchRetry.failure_of timeout network).

Lemma total_sleep_app evs1 evs2 :
  total_sleep (evs1 ++ evs2) = (total_sleep evs1 + total_sleep evs2)%Z.
Proof.
  induction evs1 as [|e evs1 IH]; simpl; [reflexivity|].
  destruct e; rewrite ?IH; lia.
Qed.

Lemma total_sleep_schedule evs : total_sleep (schedule evs) = total_sleep evs.
Proof.
  induction evs as [|e evs IH]; simpl; [reflexivity|].
  destruct e; simpl; rewrite ?IH; reflexivity.
Qed.

Lemma total_sleep_retried n : forall from,
  total_sleep (retried initialDelay from n)
  = (initialDelay * (2 ^ Z.of_nat (from + n) - 2 ^ Z.of_nat from))%Z.
Proof.
  induction n as [|n IH]; intros from.
  - rewrite Nat.add_0_r. simpl. lia.
  - cbn [retried total_sleep foldr]. fold (total_sleep (retried initialDelay (S from) n)).
    rewrite IH. replace (S from + n) with (from + S n) by lia.
    replace (Z.of_nat (S from)) with (Z.of_nat from + 1)%Z by lia.
    rewrite Z.pow_add_r by lia. lia.
Qed.

Lemma pow2_mono (a b : nat) : a <= b -> (2 ^ Z.of_nat a <= 2 ^ Z.of_nat b)%Z.
Proof. intros. apply Z.pow_le_mono_r; lia. Qed.

(** X7: the pauses of a call add up to [initialDelay * (2^k - 1)], [k] the
    number of attempts after the first; with a delay that is not
    negative that is at most [initialDelay * (2^maxRetries - 1)]. *)
Theorem fetchWithRetry_total_pause :
  let evs := snd (fetchWithRetry timeout maxRetries initialDelay network) in
  let k := length (List.filter is_fetch evs) - 1 in
  k <= maxRetries
  /\ total_sleep evs = (initialDelay * (2 ^ Z.of_nat k - 1))%Z
  /\ ((0 <= initialDelay)%Z ->
      (0 <= total_sleep evs <= initialDelay * (2 ^ Z.of_nat maxRetries - 1))%Z).
Proof.
  intros evs k. subst evs k.
  destruct (fetchWithRetry timeout maxRetries initialDelay network) as [out evs] eqn:Hrun.
  unfold fetchWithRetry in Hrun.
  destruct (retry_loop_run timeout maxRetries initialDelay network
              (S (S maxRetries)) 0 None out evs)
    as (k & Hk & Hn & Hs & _); [lia|lia|exact Hrun|].
  cbn [snd]. rewrite Hn. rewrite Nat.sub_0_r in *.
  replace (S k - 1) with k by lia.
  assert (Hsum : total_sleep evs = (initialDelay * (2 ^ Z.of_nat k - 1))%Z).
  { rewrite <- total_sleep_schedule, Hs, total_sleep_app, total_sleep_retried.
    simpl. lia. }
  split_and!; [lia|exact Hsum|].
  intros Hpos. rewrite Hsum.
  pose proof (pow2_mono 0 k ltac:(lia)) as H0.
  pose proof (pow2_mono k maxRetries ltac:(lia)) as H1.
  simpl in H0. split; nia.
Qed.

Lemma diagnostics_run fuel : forall attempt lastError,
  attempt <= maxRetries -> maxRetries - attempt < fuel ->
  let evs := snd (loop fuel attempt lastError) in
  List.filter is_diagnostics evs
  = if (attempt <? maxRetries)
       && (length (List.filter is_fetch evs) =? S (maxRetries - attempt))
    then [EvDiagnostics (maxRetries - 1)] else [].
Proof.
  induction fuel as [|fuel IH]; intros attempt lastError Hle Hfuel; [lia|].
  cbn [retry_loop].
  destruct (Nat.leb_spec attempt maxRetries) as [_|]; [|lia].
  assert (Hstop : forall o : Outcome,
    let evs := snd (o, [EvFetch attempt]) in
    List.filter is_diagnostics evs
    = if (attempt <? maxRetries)
         && (length (List.filter is_fetch evs) =? S (maxRetries - attempt))
      then [EvDiagnostics (maxRetries - 1)] else []).
  { intros o. cbn [snd List.filter is_diagnostics is_fetch length negb].
    destruct (Nat.ltb_spec attempt maxRetries); [|reflexivity].
    destruct (Nat.eqb_spec 1 (S (maxRetries - attempt))); [lia|reflexivity]. }
  destruct (try_block timeout (network attempt)) as [st tx|e|]; try apply Hstop.
  destruct (Nat.eqb_spec attempt maxRetries) as [Heq|Hne]; [apply Hstop|].
  destruct (isRetryableError e); cbn [negb]; [|apply Hstop].
  specialize (IH (S attempt) (Some e) ltac:(lia) ltac:(lia)).
  destruct (loop fuel (S attempt) (Some e)) as [out' evs'] eqn:Hrec.
  cbn [snd] in *.
  assert (Hcount : length (List.filter is_fetch evs') <= S (maxRetries - S attempt)).
  { destruct (retry_loop_run timeout maxRetries initialDelay network
                fuel (S attempt) (Some e) out' evs')
      as (k & Hk & Hn & _); [lia|lia|exact Hrec|]. lia. }
  cbn [List.filter is_fetch is_diagnostics].
  rewrite fetches_diag. cbn [length].
  destruct (Nat.ltb_spec attempt maxRetries) as [_|]; [|lia]. cbn [andb].
  destruct (Nat.eqb_spec (S attempt) maxRetries) as [Hlast|Hnot].
  - cbn [app List.filter is_diagnostics negb].
    rewrite IH. destruct (Nat.ltb_spec (S attempt) maxRetries) as [|_]; [lia|].
    cbn [andb].
    destruct (retry_loop_run timeout maxRetries initialDelay network
                fuel (S attempt) (Some e) out' evs')
      as (k & Hk & Hn & _); [lia|lia|exact Hrec|].
    rewrite Hn. replace (k - S attempt) with 0 by lia.
    replace (maxRetries - attempt) with 1 by lia. cbn.
    f_equal. f_equal. lia.
  - cbn [app List.filter is_diagnostics negb].
    rewrite IH. destruct (Nat.ltb_spec (S attempt) maxRetries) as [_|]; [|lia].
    cbn [andb].
    replace (S (maxRetries - attempt)) with (S (S (maxRetries - S attempt))) by lia.
    reflexivity.
Qed.

(** X8: the diagnostics are generated once, before the last attempt the
    call may make, and in no other run. *)
Theorem fetchWithRetry_diagnostics_once :
  let evs := snd (fetchWithRetry timeout maxRetries initialDelay network) in
  List.filter is_diagnostics evs
  = if (0 <? maxRetries) && (length (List.filter is_fetch evs) =? S maxRetries)
    then [EvDiagnostics (maxRetries - 1)] else [].
Proof.
  intros evs. subst evs. unfold fetchWithRetry.
  rewrite (diagnostics_run (S (S maxRetries)) 0 None) by lia.
  rewrite Nat.sub_0_r. reflexivity.
Qed.

Lemma retry_loop_recovers k status statusText fuel : forall attempt lastError,
  attempt <= k -> k <= maxRetries -> k - attempt < fuel ->
  (forall n, attempt <= n < k ->
     exists e, failure_of n = Some e /\ isRetryableError e = true) ->
  network k = Responds status statusText ->
  response_ok status = true ->
  fst (loop fuel attempt lastError) = Returned status statusText
  /\ schedule (snd (loop fuel attempt lastError))
     = retried initialDelay attempt (k - attempt) ++ [EvFetch k].
Proof.
  induction fuel as [|fuel IH]; intros attempt lastError Hle Hk Hfuel Hall Hnet Hok; [lia|].
  cbn [retry_loop].
  destruct (Nat.leb_spec attempt maxRetries) as [_|]; [|lia].
  destruct (Nat.eq_dec attempt k) as [->|Hne].
  - rewrite Hnet. cbn [try_block]. rewrite Hok. rewrite Nat.sub_diag. auto.
  - destruct (Hall attempt) as (e & He & Hr); [lia|].
    unfold FetchRetry.failure_of in He.
    destruct (try_block timeout (network attempt)); try discriminate.
    inversion He; subst.
    destruct (Nat.eqb_spec attempt maxRetries) as [|_]; [lia|].
    rewrite Hr. cbn [negb].
    destruct (IH (S attempt) (Some e)) as [Hout Hs]; try assumption; try lia.
    { intros n Hn. apply Hall. lia. }
    destruct (loop fuel (S attempt) (Some e)) as [out' evs']. cbn [fst snd] in *.
    split; [assumption|].
    rewrite schedule_cons_fetch, schedule_diag, Hs.
    replace (k - attempt) with (S (k - S attempt)) by lia. reflexivity.
Qed.

(** X6: a failure that passes is survived: when the attempts before the
    k-th fail with errors that are retried and the k-th is answered
    with an ok status, the call returns that response after the [k]
    pauses [initialDelay * 2^n]. *)
Theorem fetchWithRetry_recovers k status statusText :
  k <= maxRetries ->
  (forall n, n < k -> exists e, failure_of n = Some e /\ isRetryableError e = true) ->
  network k = Responds status statusText ->
  response_ok status = true ->
  let run := fetchWithRetry timeout maxRetries initialDelay network in
  fst run = Returned status statusText
  /\ schedule (snd run) = retried initialDelay 0 k ++ [EvFetch k]
  /\ total_sleep (snd run) = (initialDelay * (2 ^ Z.of_nat k - 1))%Z.
Proof.
  intros Hk Hall Hnet Hok run. subst run. unfold fetchWithRetry.
  destruct (retry_loop_recovers k status statusText (S (S maxRetries)) 0 None)
    as [Hout Hs]; try assumption; try lia.
  { intros n Hn. apply Hall. lia. }
  rewrite Nat.sub_0_r in Hs. split_and!; [assumption|assumption|].
  rewrite <- total_sleep_schedule, Hs, total_sleep_app, total_sleep_retried.
  simpl. lia.
Qed.

End RetryRunFacts.

Lemma fetchWithRetry_recovers_witness :
  let network := fun n : nat =>
    if n <? 2 then FetchRetry.Responds 503 "Service Unavailable"
    else FetchRetry.Responds 200 "OK" in
  let run := FetchRetry.fetchWithRetry (Some 60000%N) 2 1500 network in
  fst run = FetchRetry.Returned 200 "OK"
  /\ FetchRetry.schedule (snd run)
     = FetchRetry.retried 1500 0 2 ++ [FetchRetry.EvFetch 2]
  /\ RetryRuns.total_sleep (snd run) = 4500%Z.
Proof.
  intros network.
  apply (fetchWithRetry_recovers (Some 60000%N) 2 1500 network 2 200 "OK").
  - lia.
  - intros n Hn. exists (FetchRetry.mkError "HTTP 503: Service Unavailable").
    destruct n as [|[|n]]; [split; reflexivity|split; reflexivity|lia].
  - reflexivity.
  - reflexivity.
Defined.

(** ** The limit of 500 values in the requests *)

Section RequestLimitFacts.
Import JsText Filters RequestLimits.

Lemma within_limit_tokens value allowBatching r :
  getListFromInput value allowBatching = Ok r ->
  allowBatching = false \/ length (tokens value) <= 500 ->
  within_limit r.
Proof.
  intros Hok Hor. destruct (getListFromInput_ok _ _ _ Hok) as [-> Hle].
  assert (length (tokens value) <= 500) by (destruct Hor; auto).
  unfold list_or_null, within_limit. destruct (tokens value); [exact I|assumption].
Qed.

Lemma collect_custom_within ins : forall acc m,
  map_Forall (fun _ (l : list text) => length l <= 500) acc ->
  collect_custom ins acc = Ok m ->
  map_Forall (fun _ (l : list text) => length l <= 500) m.
Proof.
  induction ins as [|[col value] ins IH]; intros acc m Hacc; cbn [collect_custom].
  - intros [= <-]. exact Hacc.
  - destruct (getListFromInput value false) as [vs|e] eqn:Hv;
      cbn [mbind Try_bind bind]; [|discriminate].
    pose proof (within_limit_tokens _ _ _ Hv (or_introl eq_refl)) as Hw.
    destruct vs as [vs|]; apply IH; [|exact Hacc].
    apply map_Forall_insert_2; assumption.
Qed.

(** The fields of a payload, read off the inputs. *)
Lemma getFilterPayload_fields a p :
  getFilterPayload a = Ok p ->
  exists custom,
    collect_custom (customTextFilterInputs (inputs a)) ∅ = Ok custom
    /\ getListFromInput (skuHijoInput (inputs a)) (batchProcessHijoCheckbox (inputs a))
       = Ok (sku_hijo_manual_list p)
    /\ getListFromInput (skuPadreInput (inputs a)) (batchProcessPadreCheckbox (inputs a))
       = Ok (sku_padre_manual_list p)
    /\ getListFromInput (ticketFilterInput (inputs a)) false = Ok (ticket_manual_list p)
    /\ getListFromInput (lineamientoFilterInput (inputs a)) false
       = Ok (lineamiento_manual_list p)
    /\ custom_text_filters p = (if 0 <? size custom then Some custom else None)
    /\ page p = currentPage a.
Proof.
  unfold getFilterPayload.
  destruct (collect_custom _ _) as [custom|e]; cbn [mbind Try_bind bind]; [|discriminate].
  destruct (getListFromInput (skuHijoInput _) _) as [hl|e];
    cbn [mbind Try_bind bind]; [|discriminate].
  destruct (getListFromInput (skuPadreInput _) _) as [pl|e];
    cbn [mbind Try_bind bind]; [|discriminate].
  destruct (getListFromInput (ticketFilterInput _) _) as [tl|e];
    cbn [mbind Try_bind bind]; [|discriminate].
  destruct (getListFromInput (lineamientoFilterInput _) _) as [ll|e];
    cbn [mbind Try_bind bind]; [|discriminate].
  intros [= <-]. exists custom. cbn. split_and!; reflexivity.
Qed.

(** A payload is within the limit when neither list of identifiers is
    over it with its checkbox on. *)
Lemma getFilterPayload_within a p :
  getFilterPayload a = Ok p ->
  batchProcessHijoCheckbox (inputs a) = false
  \/ length (tokens (skuHijoInput (inputs a))) <= 500 ->
  batchProcessPadreCheckbox (inputs a) = false
  \/ length (tokens (skuPadreInput (inputs a))) <= 500 ->
  payload_within_limit p.
Proof.
  intros Hp Hh Hpa.
  destruct (getFilterPayload_fields a p Hp) as (custom & Hc & Hhl & Hpl & Htl & Hll & Hcu & _).
  unfold payload_within_limit. split_and!.
  - eapply within_limit_tokens; eassumption.
  - eapply within_limit_tokens; eassumption.
  - eapply within_limit_tokens; [eassumption|auto].
  - eapply within_limit_tokens; [eassumption|auto].
  - rewrite Hcu. destruct (0 <? size custom); [|exact I].
    eapply collect_custom_within; [|exact Hc]. apply map_Forall_empty.
Qed.

Lemma requests_of_exportBatch w p n acc :
  Forall (fun r => r = PostFilter p \/ r = PostExport p)
    (requests_of (snd (fst (exportBatch w p n acc)))).
Proof.
  unfold exportBatch, requests_of.
  destruct (filter_answer w) as [st r|msg]; cbn.
  2:{ repeat (constructor; [auto|]). constructor. }
  destruct (export_answer w) as [st' body|msg]; cbn.
  2:{ repeat (constructor; [auto|]). constructor. }
  destruct (negb (FetchRetry.response_ok st')); cbn.
  { repeat (constructor; [auto|]). constructor. }
  destruct (download_clicked w); cbn; repeat (constructor; [auto|]); constructor.
Qed.

(** Every request of the loop carries the payload of one of the
    batches. *)
Lemma batch_loop_requests world a batchType base n : forall batches i cancelled acc,
  getFilterPayload a = Ok base ->
  Forall (fun r => exists b, b ∈ batches
            /\ (r = PostFilter (batch_payload batchType b base)
                \/ r = PostExport (batch_payload batchType b base)))
    (requests_of (snd (fst (batch_loop world a batchType n i batches cancelled acc)))).
Proof.
  induction batches as [|b rest IH]; intros i cancelled acc Hbase; cbn [batch_loop].
  - constructor.
  - destruct cancelled; [constructor|]. rewrite Hbase.
    pose proof (requests_of_exportBatch (world i) (batch_payload batchType b base)
                  (i + 1) acc) as Hreq.
    destruct (exportBatch (world i) (batch_payload batchType b base) (i + 1) acc)
      as [[acc1 evs] settled]. cbn [fst snd] in Hreq.
    assert (Hhead : Forall (fun r => exists b0, b0 ∈ b :: rest
              /\ (r = PostFilter (batch_payload batchType b0 base)
                  \/ r = PostExport (batch_payload batchType b0 base)))
              (requests_of evs)).
    { eapply Forall_impl; [exact Hreq|]. intros r Hr. exists b. split; [left|exact Hr]. }
    destruct settled; cbn [fst snd]; try exact Hhead.
    specialize (IH (S i) (cancel_clicked (world i)) acc1 Hbase).
    destruct (batch_loop world a batchType n (S i) rest (cancel_clicked (world i)) acc1)
      as [[[c acc2] evs2] e]. cbn [fst snd] in *.
    rewrite !requests_of_app. apply Forall_app. split; [exact Hhead|].
    apply Forall_app. split.
    + destruct (_ && _); constructor.
    + eapply Forall_impl; [exact IH|]. intros r (b0 & Hin & Hr).
      exists b0. split; [right; exact Hin|exact Hr].
Qed.

Lemma batch_loop_no_payload world a batchType e n : forall batches i cancelled acc,
  getFilterPayload a = Raise e ->
  snd (fst (batch_loop world a batchType n i batches cancelled acc)) = [].
Proof.
  intros [|b rest] i cancelled acc Hbase; cbn [batch_loop]; [reflexivity|].
  destruct cancelled; [reflexivity|]. rewrite Hbase. reflexivity.
Qed.

Lemma handleBatchProcessing_events world a batchType batchValues totalBatches :
  requests_of (snd (fst (handleBatchProcessing world a batchType batchValues totalBatches)))
  = requests_of
      (snd (fst (batch_loop world a batchType (length (make_batches batchValues)) 0
                   (make_batches batchValues) false {| hijo := []; padre := [] |}))).
Proof.
  unfold handleBatchProcessing.
  destruct (batch_loop _ _ _ _ _ _ _ _) as [[[c acc] evs] e]. cbn [fst snd].
  destruct e; [destruct (negb c)|..]; cbn [fst snd];
    rewrite ?requests_of_app; cbn; rewrite ?app_nil_r; reflexivity.
Qed.

Lemma batch_payload_within bt b base :
  0 < length b <= 500 ->
  payload_within_limit base
  \/ (bt = BatchHijo
      /\ within_limit (sku_padre_manual_list base)
      /\ within_limit (ticket_manual_list base)
      /\ within_limit (lineamiento_manual_list base)
      /\ match custom_text_filters base with
         | Some m => map_Forall (fun _ (l : list text) => length l <= 500) m
         | None => True
         end)
  \/ (bt = BatchPadre
      /\ within_limit (sku_hijo_manual_list base)
      /\ within_limit (ticket_manual_list base)
      /\ within_limit (lineamiento_manual_list base)
      /\ match custom_text_filters base with
         | Some m => map_Forall (fun _ (l : list text) => length l <= 500) m
         | None => True
         end) ->
  payload_within_limit (batch_payload (Some bt) b base).
Proof.
  intros Hb H. unfold payload_within_limit in *.
  destruct bt; cbn; destruct H as [H|[H|H]]; try (destruct H as [? _]; discriminate);
    destruct H as (? & ? & ? & ? & ?); split_and!; auto; cbn; lia.
Qed.

Lemma requests_of_modals result : requests_of (not_found_modals result) = [].
Proof.
  unfold not_found_modals.
  destruct (0 <? _); [|reflexivity]. destruct (_ =? 0); reflexivity.
Qed.

(** The call that ends a load is the request for the visibility of the
    filters followed by a call on the controls built anew. *)
Lemma handleApplyFilters_initial w page a name entry :
  currentBlobDisplayName a = Some name ->
  JsString.truthy name = true ->
  dataSourceCache a !! name = Some entry ->
  handleApplyFilters w page true a
  = let '(a', evs, c) :=
      handleApplyFilters w page false
        (initial_controls w entry a) in
    (a', EvRequest (GetFilterVisibility name) :: evs, c).
Proof.
  intros Hname Htruthy Hentry. unfold handleApplyFilters.
  change (currentBlobDisplayName (initial_controls w entry a))
    with (currentBlobDisplayName a).
  change (dataSourceCache (initial_controls w entry a)) with (dataSourceCache a).
  rewrite Hname, Htruthy, Hentry. cbn [negb].
  set (a2 := with_page page _).
  destruct (validateBatchFilters (inputs a2)) as [|[] bt bv tb]; [reflexivity|..].
  - destruct (handleBatchProcessing (batch_world w) a2 bt bv tb) as [[a3 evs] c].
    reflexivity.
  - destruct (getFilterPayload a2) as [payload|e]; [|reflexivity].
    destruct (query_answer w) as [status result|msg]; [|reflexivity].
    destruct (negb (FetchRetry.response_ok status)); reflexivity.
Qed.

Lemma regular_call_within w page a :
  Forall request_within_limit
    (requests_of (snd (fst (handleApplyFilters w page false a)))).
Proof.
  unfold handleApplyFilters.
  destruct (currentBlobDisplayName a) as [name|]; [|constructor].
  destruct (negb (JsString.truthy name)); [constructor|].
  destruct (dataSourceCache a !! name) as [entry|]; [|constructor].
  set (a2 := with_page page a).
  rewrite validateBatchFilters_tokens.
  set (h := tokens (skuHijoInput (inputs a2))).
  set (p := tokens (skuPadreInput (inputs a2))).
  assert (Hsizes : forall values : list text,
            Forall (fun b => 0 < length b <= 500) (make_batches values)).
  { intros values. apply make_batches_spec. }
  assert (Hbatch : forall bt values tb,
            (bt = BatchHijo ->
             batchProcessPadreCheckbox (inputs a2) = false \/ length p <= 500) ->
            (bt = BatchPadre ->
             batchProcessHijoCheckbox (inputs a2) = false \/ length h <= 500) ->
            Forall request_within_limit
              (requests_of
                 (snd (fst (handleBatchProcessing (batch_world w) a2 (Some bt) values tb))))).
  { intros bt values tb Hbh Hbp. rewrite handleBatchProcessing_events.
    destruct (getFilterPayload a2) as [base|e] eqn:Hbase.
    2:{ rewrite (batch_loop_no_payload _ _ _ e) by exact Hbase. constructor. }
    eapply Forall_impl; [apply batch_loop_requests; exact Hbase|].
    intros r (b & Hin & Hr).
    assert (Hb : 0 < length b <= 500).
    { exact (proj1 (Forall_forall _ _) (Hsizes values) b Hin). }
    assert (Hp : payload_within_limit (batch_payload (Some bt) b base)).
    { apply batch_payload_within; [exact Hb|].
      destruct (getFilterPayload_fields a2 base Hbase)
        as (custom & Hc & Hhl & Hpl & Htl & Hll & Hcu & _).
      assert (Hcw : match custom_text_filters base with
                    | Some m => map_Forall (fun _ (l : list text) => length l <= 500) m
                    | None => True
                    end).
      { rewrite Hcu. destruct (0 <? size custom); [|exact I].
        eapply collect_custom_within; [|exact Hc]. apply map_Forall_empty. }
      destruct bt; [right; left|right; right]; split_and!; auto.
      - eapply within_limit_tokens; [exact Hpl|auto].
      - eapply within_limit_tokens; [exact Htl|auto].
      - eapply within_limit_tokens; [exact Hll|auto].
      - eapply within_limit_tokens; [exact Hhl|auto].
      - eapply within_limit_tokens; [exact Htl|auto].
      - eapply within_limit_tokens; [exact Hll|auto]. }
    destruct Hr as [->| ->]; exact Hp. }
  destruct (batchProcessHijoCheckbox (inputs a2)) eqn:Hhc;
    destruct (batchProcessPadreCheckbox (inputs a2)) eqn:Hpc;
    destruct (Nat.ltb_spec 500 (length h)) as [Hh|Hh];
    destruct (Nat.ltb_spec 500 (length p)) as [Hp|Hp];
    cbn [andb app];
    try (constructor; fail);
    try (match goal with
         | |- context [handleBatchProcessing ?bw ?x (Some ?bt) ?vs ?tb] =>
             specialize (Hbatch bt vs tb);
             destruct (handleBatchProcessing bw x (Some bt) vs tb) as [[a3 evs] c];
             cbn [fst snd] in *; apply Hbatch; intros; first [discriminate|auto; right; lia]
         end).
  all: destruct (getFilterPayload a2) as [payload|e] eqn:Hpay; [|constructor].
  all: assert (Hw : payload_within_limit payload)
         by (apply (getFilterPayload_within a2 payload Hpay); auto; right; lia).
  all: destruct (query_answer w) as [status result|msg];
         [destruct (negb (FetchRetry.response_ok status))|];
         cbn [fst snd]; rewrite ?requests_of_app, ?requests_of_modals;
         cbn [requests_of omap list_omap app]; rewrite ?app_nil_r;
         repeat first [exact Hw | apply Forall_nil_2 | apply Forall_cons_2].
  all: fold (requests_of (not_found_modals result));
       rewrite requests_of_modals; constructor.
Qed.

(** X1: whatever the inputs hold and whatever the backend answers, no
    request of [handleApplyFilters] carries more than 500 values in a
    manual list or in a custom text filter. *)
Theorem requests_never_exceed_limit w page isInitialLoad a :
  Forall request_within_limit
    (requests_of (snd (fst (handleApplyFilters w page isInitialLoad a)))).
Proof.
  destruct isInitialLoad; [|apply regular_call_within].
  destruct (currentBlobDisplayName a) as [name|] eqn:Hname.
  2:{ unfold handleApplyFilters. rewrite Hname. constructor. }
  destruct (JsString.truthy name) eqn:Htruthy.
  2:{ unfold handleApplyFilters. rewrite Hname, Htruthy. constructor. }
  destruct (dataSourceCache a !! name) as [entry|] eqn:Hentry.
  2:{ unfold handleApplyFilters. rewrite Hname, Htruthy, Hentry. constructor. }
  rewrite (handleApplyFilters_initial w page a name entry Hname Htruthy Hentry).
  pose proof (regular_call_within w page
                (initial_controls w entry a))
    as Hreg.
  destruct (handleApplyFilters w page false _) as [[a' evs] c].
  cbn [fst snd] in *.
  change (requests_of (EvRequest (GetFilterVisibility name) :: evs))
    with (GetFilterVisibility name :: requests_of evs).
  apply Forall_cons_2; [exact I|exact Hreg].
Qed.

End RequestLimitFacts.

(** ** Runs of batches that stop *)

Section BatchStops.
Import JsText Filters BatchRuns.






(** X3: a list over the limit in the field that is not processed in
    batches stops the run before its first request: the payload of the
    first batch is not built, the modal is hidden and the limit error
    is shown. *)
Theorem batch_blocked_by_other_list w page a name entry :
  currentBlobDisplayName a = Some name ->
  JsString.truthy name = true ->
  dataSourceCache a !! name = Some entry ->
  500 < length (tokens (skuHijoInput (inputs a))) ->
  500 < length (tokens (skuPadreInput (inputs a))) ->
  batchProcessHijoCheckbox (inputs a) <> batchProcessPadreCheckbox (inputs a) ->
  exists m,
    500 < m
    /\ handleApplyFilters w page false a
       = (with_batch false {| hijo := []; padre := [] |} (with_page page a),
          [EvBatchModalHidden; EvAlert (AlertBatchError (LimitExceeded m))],
          Completed).
Proof.
  intros Hname Htruthy Hentry Hh Hp Hne.
  destruct (getFilterPayload_over_limit (with_page page a)) as (m & Hm & Hraise).
  { change (inputs (with_page page a)) with (inputs a).
    destruct (batchProcessHijoCheckbox (inputs a)),
             (batchProcessPadreCheckbox (inputs a)); try congruence; auto. }
  exists m. split; [exact Hm|].
  unfold handleApplyFilters. rewrite Hname, Htruthy, Hentry. cbn [negb].
  rewrite validateBatchFilters_tokens.
  change (inputs (with_page page a)) with (inputs a).
  assert (Hloop : forall bt (values : list text) tb,
            500 < length values ->
            handleBatchProcessing (batch_world w) (with_page page a) bt values tb
            = (with_batch false {| hijo := []; padre := [] |} (with_page page a),
               [EvBatchModalHidden; EvAlert (AlertBatchError (LimitExceeded m))],
               Completed)).
  { intros bt values tb Hv. unfold handleBatchProcessing.
    pose proof (make_batches_spec values) as (Hlen & _).
    destruct (make_batches values) as [|b rest] eqn:Hb.
    { exfalso. unfold ceil_div in Hlen. cbn [length] in Hlen.
      assert (1 <= length values / 500) by (apply Nat.div_le_lower_bound; lia).
      destruct (length values mod 500 =? 0) in Hlen; lia. }
    cbn [batch_loop]. rewrite Hraise. reflexivity. }
  apply Nat.ltb_lt in Hh, Hp. rewrite Hh, Hp, !andb_true_r.
  apply Nat.ltb_lt in Hh, Hp.
  destruct (batchProcessHijoCheckbox (inputs a)),
           (batchProcessPadreCheckbox (inputs a)); try congruence; cbn [andb].
  - rewrite Hloop by exact Hh. reflexivity.
  - rewrite Hloop by exact Hp. reflexivity.
Qed.

End BatchStops.


Lemma batch_blocked_by_other_list_witness :
  let a := Filters.sample_app
             (Filters.with_skus (Filters.sevens 501) (Filters.sevens 502) true false) in
  exists m,
    500 < m
    /\ Filters.handleApplyFilters Filters.offline 1 false a
       = (Filters.with_batch false {| Filters.hijo := []; Filters.padre := [] |}
            (Filters.with_page 1 a),
          [Filters.EvBatchModalHidden;
           Filters.EvAlert (Filters.AlertBatchError (Filters.LimitExceeded m))],
          Filters.Completed).
Proof.
  intros a.
  assert (H1 : 500 < length (JsText.tokens (Filters.sevens 501)))
    by (apply Nat.ltb_lt; vm_compute; reflexivity).
  assert (H2 : 500 < length (JsText.tokens (Filters.sevens 502)))
    by (apply Nat.ltb_lt; vm_compute; reflexivity).
  apply (batch_blocked_by_other_list Filters.offline 1 a "UNIVERSO PERU"
           Filters.sample_entry).
  - reflexivity.
  - reflexivity.
  - reflexivity.
  - exact H1.
  - exact H2.
  - discriminate.
Defined.

(** ** Chunk loads that fail, and the entries of the other sources *)

Section ChunkFailures.
Import JsText LazyTable LoadSamples.

Lemma data_rows_set_content c body :
  data_rows (set_trigger_content c body) = data_rows body.
Proof.
  unfold data_rows, set_trigger_content.
  induction body as [|r body IH]; [reflexivity|].
  destruct r; cbn in *; rewrite ?IH; reflexivity.
Qed.

Lemma count_set_content c body :
  currentRowCount (set_trigger_content c body) = currentRowCount body.
Proof.
  unfold currentRowCount, set_trigger_content.
  induction body as [|r body IH]; [reflexivity|].
  destruct r; cbn in *; rewrite ?IH; reflexivity.
Qed.

Lemma intersect_set_content c body :
  trigger_can_intersect (set_trigger_content c body) = trigger_can_intersect body.
Proof.
  unfold trigger_can_intersect, set_trigger_content.
  induction body as [|r body IH]; [reflexivity|].
  destruct r as [| |d c']; cbn in *; rewrite ?IH; reflexivity.
Qed.

Lemma set_content_twice c c' body :
  set_trigger_content c (set_trigger_content c' body) = set_trigger_content c body.
Proof.
  unfold set_trigger_content.
  induction body as [|r body IH]; [reflexivity|].
  destruct r; cbn in *; rewrite ?IH; reflexivity.
Qed.

(** X17: a chunk load that fails loses nothing.  The rows shown stay, the
    trigger row stays where the observer can see it, and the next load
    that is answered gives the table it would have given without the
    failure. *)
Theorem failed_chunk_load_loses_nothing body totalData :
  currentRowCount body < length totalData ->
  data_rows (loadMoreChunk ChunkFailure body) = data_rows body
  /\ trigger_can_intersect (loadMoreChunk ChunkFailure body)
     = trigger_can_intersect body
  /\ loadMoreChunk (ChunkData totalData) (loadMoreChunk ChunkFailure body)
     = loadMoreChunk (ChunkData totalData) body.
Proof.
  intros Hmore. cbn [loadMoreChunk]. split_and!.
  - apply data_rows_set_content.
  - apply intersect_set_content.
  - rewrite count_set_content.
    destruct (Nat.leb_spec (length totalData) (currentRowCount body)); [lia|].
    rewrite set_content_twice. reflexivity.
Qed.

End ChunkFailures.

Lemma failed_chunk_load_loses_nothing_witness :
  LazyTable.data_rows (LazyTable.loadMoreChunk LazyTable.ChunkFailure LoadSamples.first_hundred)
  = LazyTable.data_rows LoadSamples.first_hundred
  /\ LazyTable.trigger_can_intersect
       (LazyTable.loadMoreChunk LazyTable.ChunkFailure LoadSamples.first_hundred)
     = LazyTable.trigger_can_intersect LoadSamples.first_hundred
  /\ LazyTable.loadMoreChunk (LazyTable.ChunkData LoadSamples.long_result)
       (LazyTable.loadMoreChunk LazyTable.ChunkFailure LoadSamples.first_hundred)
     = LazyTable.loadMoreChunk (LazyTable.ChunkData LoadSamples.long_result)
         LoadSamples.first_hundred.
Proof.
  apply (failed_chunk_load_loses_nothing LoadSamples.first_hundred LoadSamples.long_result).
  apply Nat.ltb_lt. vm_compute. reflexivity.
Defined.

Lemma scroll_to_the_end_witness :
  LazyTable.data_rows
    (LazyTable.scroll_times 3 LoadSamples.long_result
       (LazyTable.renderDataTable LoadSamples.long_result))
  = LoadSamples.long_result
  /\ LazyTable.trigger_can_intersect
       (LazyTable.scroll_times 3 LoadSamples.long_result
          (LazyTable.renderDataTable LoadSamples.long_result)) = false.
Proof.
  apply (scroll_to_the_end LoadSamples.long_result 3).
  - apply Nat.ltb_lt. vm_compute. reflexivity.
  - apply Nat.leb_le. vm_compute. reflexivity.
Defined.

Section OtherSources.
Import JsText LazyTable Filters DataLoad LoadSamples.
Variable toLowerCase : string -> string.

Lemma handleApplyFilters_other w page isInitialLoad a other :
  currentBlobDisplayName a <> Some other ->
  dataSourceCache (fst (fst (handleApplyFilters w page isInitialLoad a))) !! other
  = dataSourceCache a !! other.
Proof.
  intros Hne.
  destruct (handleApplyFilters_cache w page isInitialLoad a) as [Heq|Hins].
  - rewrite Heq. reflexivity.
  - destruct Hins as (name & entry & status & result & payload & Hname & _ & _ & Heq).
    rewrite Heq. apply lookup_insert_ne. congruence.
Qed.

Lemma load_source_other w a other :
  other <> key_of (currentBlobDisplayName a) ->
  dataSourceCache (fst (load_source toLowerCase w a)) !! other
  = dataSourceCache a !! other.
Proof.
  intros Hne. unfold load_source.
  set (a0 := with_result _ _ _).
  destruct (load_try toLowerCase w a0) as [a1 e] eqn:Htry.
  assert (Hlook : dataSourceCache a1 !! other = dataSourceCache a !! other).
  { destruct (load_try_cache toLowerCase w a0 a1 e Htry) as [[Heq _]|Hins].
    - rewrite Heq. reflexivity.
    - destruct Hins as (entry & _ & Heq & _).
      rewrite Heq. rewrite lookup_insert_ne; [reflexivity|]. 
      intros Hk. apply Hne. symmetry. exact Hk. }
  destruct e as [|error|]; cbn [fst]; try exact Hlook.
  destruct (String.eqb (err_name error) "AbortError"); cbn [fst]; [exact Hlook|].
  cbn [dataSourceCache with_cache].
  rewrite lookup_delete_ne; [exact Hlook|].
  intros Hk. apply Hne. symmetry. exact Hk.
Qed.

(** X12: a load touches the entry of the source it loads and no other:
    whatever the network does and however the load ends, the entries of
    the other sources are as they were. *)
Theorem handleDataLoad_other_sources w s other :
  other <> key_of (currentBlobDisplayName (app s)) ->
  dataSourceCache (app (fst (handleDataLoad toLowerCase w s))) !! other
  = dataSourceCache (app s) !! other.
Proof.
  intros Hne.
  destruct (handleDataLoad toLowerCase w s) as [s' r] eqn:Hrun. cbn [fst].
  destruct (handleDataLoad_cases toLowerCase w s s' r Hrun) as [[_ ->]|[[_ Heq]|Hload]].
  - reflexivity.
  - rewrite Heq. reflexivity.
  - pose proof (load_source_other w (app s) other Hne) as Hother.
    rewrite Hload in Hother. exact Hother.
Qed.

End OtherSources.

Lemma handleDataLoad_other_sources_witness :
  let run := DataLoad.handleDataLoad DataLoad.to_lower DataLoad.sample_load
               LoadSamples.two_sources in
  Filters.dataSourceCache (DataLoad.app (fst run)) !! "UNIVERSO CHILE"
  = Some Filters.sample_entry.
Proof.
  intros run.
  exact (handleDataLoad_other_sources DataLoad.to_lower DataLoad.sample_load
           LoadSamples.two_sources "UNIVERSO CHILE" ltac:(discriminate)).
Defined.

(** ** Pagination *)

Section PaginationFacts.
Import JsText Filters Pagination.

(** X9: the buttons and [changePage] agree.  With the page shown
    within the pages of the result, a button is enabled exactly when
    the click on it is accepted. *)
Theorem pagination_buttons_match_changePage w total a bar :
  renderPagination (currentPage a) total = Some bar ->
  1 <= currentPage a <= ceil_div total PAGE_SIZE ->
  (prev_disabled bar = false <-> is_Some (click_prev w total a))
  /\ (next_disabled bar = false <-> is_Some (click_next w total a)).
Proof.
  unfold renderPagination, click_prev, click_next, changePage.
  set (totalPages := ceil_div total PAGE_SIZE).
  destruct (Nat.leb_spec totalPages 1) as [|Hmany]; [discriminate|].
  intros [= <-] Hpage. cbn [prev_disabled next_disabled]. split.
  - destruct (Nat.eqb_spec (currentPage a) 1) as [Hone|Hone].
    + split; [discriminate|]. intros [r Hr]. exfalso.
      destruct (Z.leb_spec 1 (Z.of_nat (currentPage a) - 1)); [lia|discriminate].
    + split; [intros _|reflexivity].
      destruct (Z.leb_spec 1 (Z.of_nat (currentPage a) - 1)); [|lia].
      destruct (Z.leb_spec (Z.of_nat (currentPage a) - 1) (Z.of_nat totalPages)); [|lia].
      eexists. reflexivity.
  - destruct (Nat.eqb_spec (currentPage a) totalPages) as [Hlast|Hlast].
    + split; [discriminate|]. intros [r Hr]. exfalso.
      destruct (Z.leb_spec (Z.of_nat (currentPage a) + 1) (Z.of_nat totalPages));
        [lia|]. rewrite andb_false_r in Hr. discriminate.
    + split; [intros _|reflexivity].
      destruct (Z.leb_spec 1 (Z.of_nat (currentPage a) + 1)); [|lia].
      destruct (Z.leb_spec (Z.of_nat (currentPage a) + 1) (Z.of_nat totalPages)); [|lia].
      eexists. reflexivity.
Qed.

(** A call whose query fails moves [currentPage] and nothing else. *)
Lemma handleApplyFilters_query_fails w page a name entry payload :
  currentBlobDisplayName a = Some name ->
  JsString.truthy name = true ->
  dataSourceCache a !! name = Some entry ->
  validateBatchFilters (inputs a) = Valid false None [] 0 ->
  getFilterPayload (with_page page a) = Ok payload ->
  query_fails w ->
  exists f,
    handleApplyFilters w page false a
    = (with_page page a, [EvRequest (PostFilter payload); EvStatusError f], Completed).
Proof.
  intros Hname Htruthy Hentry Hv Hpay Hfail.
  unfold handleApplyFilters. rewrite Hname, Htruthy, Hentry. cbn [negb].
  change (inputs (with_page page a)) with (inputs a). rewrite Hv, Hpay.
  unfold query_fails in Hfail.
  destruct (query_answer w) as [status result|msg].
  - rewrite Hfail. cbn [negb]. eexists. reflexivity.
  - eexists. reflexivity.
Qed.

Lemma getFilterPayload_with_page page a payload :
  getFilterPayload a = Ok payload ->
  exists payload',
    getFilterPayload (with_page page a) = Ok payload'
    /\ Filters.page payload' = page.
Proof.
  unfold getFilterPayload.
  change (inputs (with_page page a)) with (inputs a).
  destruct (collect_custom _ _) as [custom|e]; cbn [mbind Try_bind bind]; [|discriminate].
  destruct (getListFromInput (skuHijoInput _) _) as [hl|e];
    cbn [mbind Try_bind bind]; [|discriminate].
  destruct (getListFromInput (skuPadreInput _) _) as [pl|e];
    cbn [mbind Try_bind bind]; [|discriminate].
  destruct (getListFromInput (ticketFilterInput _) _) as [tl|e];
    cbn [mbind Try_bind bind]; [|discriminate].
  destruct (getListFromInput (lineamientoFilterInput _) _) as [ll|e];
    cbn [mbind Try_bind bind]; [|discriminate].
  intros _. eexists. split; reflexivity.
Qed.

(** X10: a page whose request fails is skipped.  The click on "next"
    has moved [currentPage] before the request goes out; when the
    request fails the table, the cache and the bar stay as they were,
    and the following click on "next" asks for the page after the one
    that failed. *)
Theorem failed_page_request_is_skipped w w' filtered a name entry payload :
  currentBlobDisplayName a = Some name ->
  JsString.truthy name = true ->
  dataSourceCache a !! name = Some entry ->
  validateBatchFilters (inputs a) = Valid false None [] 0 ->
  getFilterPayload a = Ok payload ->
  query_fails w ->
  currentPage a + 2 <= ceil_div filtered PAGE_SIZE ->
  exists a1 evs1,
    click_next w filtered a = Some (a1, evs1, Completed)
    /\ currentPage a1 = currentPage a + 1
    /\ tableBody a1 = tableBody a
    /\ dataSourceCache a1 = dataSourceCache a
    /\ exists a2 evs2 c payload2,
         click_next w' filtered a1
         = Some (a2, EvRequest (PostFilter payload2) :: evs2, c)
         /\ page payload2 = currentPage a + 2.
Proof.
  intros Hname Htruthy Hentry Hv Hpay Hfail Hpages.
  unfold click_next, changePage.
  set (totalPages := ceil_div filtered PAGE_SIZE) in *.
  destruct (Z.leb_spec 1 (Z.of_nat (currentPage a) + 1)); [|lia].
  destruct (Z.leb_spec (Z.of_nat (currentPage a) + 1) (Z.of_nat totalPages)); [|lia].
  cbn [andb].
  replace (Z.to_nat (Z.of_nat (currentPage a) + 1)) with (currentPage a + 1) by lia.
  set (next := currentPage a + 1).
  destruct (getFilterPayload_with_page next a payload Hpay) as (p1 & Hp1 & _).
  destruct (handleApplyFilters_query_fails w next (with_page next a) name entry p1)
    as (f & Hrun); try assumption.
  rewrite Hrun. eexists _, _. split; [reflexivity|].
  cbn [currentPage tableBody dataSourceCache with_page]. split_and!; try reflexivity.
  destruct (Z.leb_spec 1 (Z.of_nat next + 1)); [|lia].
  destruct (Z.leb_spec (Z.of_nat next + 1) (Z.of_nat totalPages)); [|lia].
  cbn [andb].
  replace (Z.to_nat (Z.of_nat next + 1)) with (currentPage a + 2) by lia.
  set (after := currentPage a + 2).
  destruct (getFilterPayload_with_page after a payload Hpay) as (p2 & Hp2 & Hpage2).
  unfold handleApplyFilters.
  cbn [currentBlobDisplayName dataSourceCache with_page].
  rewrite Hname, Htruthy, Hentry. cbn [negb].
  change (inputs (with_page after
            (with_page after (with_page next (with_page next a)))))
    with (inputs a).
  rewrite Hv.
  change (getFilterPayload
            (with_page after (with_page after (with_page next (with_page next a)))))
    with (getFilterPayload (with_page after a)).
  rewrite Hp2.
  destruct (query_answer w') as [status result|msg].
  - destruct (negb (FetchRetry.response_ok status));
      eexists _, _, _, p2; split; try reflexivity; exact Hpage2.
  - eexists _, _, _, p2; split; try reflexivity; exact Hpage2.
Qed.

End PaginationFacts.

Lemma pagination_buttons_match_changePage_witness :
  let bar := {| Pagination.prev_disabled := false; Pagination.next_disabled := false;
                Pagination.caption_page := 2; Pagination.caption_total := 5 |} in
  Pagination.renderPagination 2 450 = Some bar
  /\ is_Some (Pagination.click_prev Pagination.failing 450 Pagination.paged_app)
  /\ is_Some (Pagination.click_next Pagination.failing 450 Pagination.paged_app).
Proof.
  intros bar.
  destruct (pagination_buttons_match_changePage Pagination.failing 450
              Pagination.paged_app bar) as [Hprev Hnext].
  - reflexivity.
  - cbn. lia.
  - split_and!; [reflexivity|apply Hprev; reflexivity|apply Hnext; reflexivity].
Defined.

Lemma failed_page_request_is_skipped_witness :
  exists a1 evs1,
    Pagination.click_next Pagination.failing 450 Pagination.paged_app
    = Some (a1, evs1, Filters.Completed)
    /\ Filters.currentPage a1 = 3
    /\ Filters.tableBody a1 = []
    /\ Filters.dataSourceCache a1 = Filters.dataSourceCache Pagination.paged_app
    /\ exists a2 evs2 c payload2,
         Pagination.click_next Filters.scenario_world 450 a1
         = Some (a2, Filters.EvRequest (Filters.PostFilter payload2) :: evs2, c)
         /\ Filters.page payload2 = 4.
Proof.
  destruct (Filters.getFilterPayload Pagination.paged_app) as [payload|e] eqn:Hpay;
    [|discriminate Hpay].
  exact (failed_page_request_is_skipped Pagination.failing Filters.scenario_world 450
           Pagination.paged_app "UNIVERSO PERU" Filters.sample_entry payload
           eq_refl eq_refl eq_refl eq_refl Hpay eq_refl ltac:(cbn; lia)).
Defined.

(** ** The notice of a failed load *)

Section LoadErrorFacts.
Import JsString FetchRetry DataLoad LoadErrors.

Lemma decided_prefix_app needle : forall s t b,
  decided_prefix needle s = Some b -> String.prefix needle (s +:+ t) = b.
Proof.
  induction needle as [|a needle IH]; intros s t b; cbn [decided_prefix].
  - intros [= <-]. destruct (s +:+ t); reflexivity.
  - destruct s as [|c s]; [discriminate|].
    change (String c s +:+ t) with (String c (s +:+ t)). cbn [String.prefix].
    destruct (Ascii.ascii_dec a c); [apply IH|]. intros [= <-]. reflexivity.
Qed.

Lemma includes_head_app needle head : forall t b,
  includes_head needle head = Some b ->
  includes needle (head +:+ t) = b || includes needle t.
Proof.
  induction head as [|c head IH]; intros t b.
  - intros [= <-]. reflexivity.
  - cbn [includes_head].
    destruct (decided_prefix needle (String c head)) as [b1|] eqn:Hp; [|discriminate].
    destruct (includes_head needle head) as [b2|]; [|discriminate].
    intros [= <-].
    change (String c head +:+ t) with (String c (head +:+ t)).
    cbn [includes].
    change (String c (head +:+ t)) with (String c head +:+ t).
    rewrite (decided_prefix_app _ _ t _ Hp), (IH t b2 eq_refl).
    rewrite orb_assoc. reflexivity.
Qed.

Lemma append_assoc (s1 s2 s3 : string) : (s1 +:+ s2) +:+ s3 = s1 +:+ (s2 +:+ s3).
Proof.
  induction s1 as [|c s1 IH]; [reflexivity|].
  change (String c ((s1 +:+ s2) +:+ s3) = String c (s1 +:+ (s2 +:+ s3))).
  f_equal. exact IH.
Qed.

Lemma mentions_in_status needle expected status statusText :
  500 <= status <= 599 ->
  forallb (fun st =>
             bool_decide (includes_head needle ("HTTP " +:+ pretty st +:+ ": ")
                          = Some (expected st))) (seq 500 100) = true ->
  includes needle statusText = false ->
  mentions needle (mkError ("HTTP " +:+ pretty status +:+ ": " +:+ statusText))
  = expected status.
Proof.
  intros Hst Hall Hplain.
  rewrite forallb_forall in Hall.
  specialize (Hall status ltac:(apply in_seq; lia)).
  apply bool_decide_eq_true in Hall.
  unfold mentions, mkError. cbn [err_message].
  replace ("HTTP " +:+ pretty status +:+ ": " +:+ statusText)
    with (("HTTP " +:+ pretty status +:+ ": ") +:+ statusText).
  2:{ rewrite !append_assoc. reflexivity. }
  rewrite (includes_head_app _ _ statusText _ Hall), Hplain, orb_false_r.
  reflexivity.
Qed.

Lemma title_of_status status statusText :
  500 <= status <= 599 ->
  plain_status_text statusText ->
  userMessage (describe_load_error
                 (mkError ("HTTP " +:+ pretty status +:+ ": " +:+ statusText)))
  = if status =? 503 then "Servicio No Disponible"
    else if status <? 510 then "Error del Servidor"
    else "Error al cargar datos".
Proof.
  intros Hst Hplain.
  unfold plain_status_text in Hplain.
  repeat match goal with
         | H : Forall _ (_ :: _) |- _ => apply Forall_cons_1 in H; destruct H as [? H]
         end.
  clear Hplain.
  unfold describe_load_error.
  rewrite (mentions_in_status "ERR_CONNECTION_RESET" (fun _ => false))
    by first [assumption | vm_compute; reflexivity].
  rewrite (mentions_in_status "ERR_CONNECTION_REFUSED" (fun _ => false))
    by first [assumption | vm_compute; reflexivity].
  rewrite (mentions_in_status "Failed to fetch" (fun _ => false))
    by first [assumption | vm_compute; reflexivity].
  rewrite (mentions_in_status "HTTP 503" (fun st => st =? 503))
    by first [assumption | vm_compute; reflexivity].
  rewrite (mentions_in_status "HTTP 50" (fun st => st <? 510))
    by first [assumption | vm_compute; reflexivity].
  destruct (status =? 503); [reflexivity|].
  destruct (status <? 510); reflexivity.
Qed.

Variable toLowerCase : string -> string.

Lemma fetchWithRetry_server_error timeout maxRetries initialDelay network status statusText :
  (forall n, network n = Responds status statusText) ->
  500 <= status <= 599 ->
  fst (fetchWithRetry timeout maxRetries initialDelay network)
  = Thrown (Some (mkError ("HTTP " +:+ pretty status +:+ ": " +:+ statusText))).
Proof.
  intros Hn Hst. unfold fetchWithRetry.
  set (error := mkError ("HTTP " +:+ pretty status +:+ ": " +:+ statusText)).
  assert (Htry : forall n, try_block timeout (network n) = Threw error).
  { intros n. rewrite Hn. unfold try_block, response_ok.
    destruct (Nat.leb_spec status 299); [lia|]. rewrite andb_false_r. reflexivity. }
  assert (Hretry : isRetryableError error = true).
  { destruct (server_error_retried timeout status statusText Hst) as (e & He & Hr).
    rewrite <- (Hn 0), Htry in He. inversion He; subst. exact Hr. }
  destruct (retry_loop_exhausts timeout maxRetries initialDelay network
              (S (S maxRetries)) 0 None) with (e := error)
    as [Hout _]; try lia.
  - intros n _. exists error. unfold failure_of. rewrite Htry. auto.
  - unfold failure_of. rewrite Htry. reflexivity.
  - exact Hout.
Qed.

(** X16: what the user is told when the server keeps failing.  With
    the settings request answered by a status from 500 to 599 on every
    attempt, the load fails and its notice is titled after the status:
    503 is "Servicio No Disponible", the other statuses below 510 are
    "Error del Servidor", and those from 510 on get the general
    "Error al cargar datos". *)
Theorem load_server_error_notice w a status statusText :
  (forall n, settings_network w n = Responds status statusText) ->
  500 <= status <= 599 ->
  plain_status_text statusText ->
  exists notice,
    load_notice (snd (load_source toLowerCase w a)) = Some notice
    /\ userMessage notice
       = if status =? 503 then "Servicio No Disponible"
         else if status <? 510 then "Error del Servidor"
         else "Error al cargar datos".
Proof.
  intros Hn Hst Hplain.
  assert (Hload : snd (load_source toLowerCase w a)
                  = LoadFailed (mkError ("HTTP " +:+ pretty status +:+ ": " +:+ statusText))).
  { unfold load_source, load_try, fetch_json.
    rewrite (fetchWithRetry_server_error _ _ _ _ status statusText Hn Hst).
    reflexivity. }
  rewrite Hload. cbn [load_notice]. eexists. split; [reflexivity|].
  apply title_of_status; assumption.
Qed.

End LoadErrorFacts.

Lemma load_server_error_notice_witness :
  let w := {| DataLoad.dom_ready := true;
              DataLoad.settings_network := fun _ => FetchRetry.Responds 504 "Gateway Timeout";
              DataLoad.settings_json := None;
              DataLoad.load_network := fun _ => FetchRetry.StaysPending;
              DataLoad.load_json := None;
              DataLoad.apply_world := Filters.offline |} in
  exists notice,
    LoadErrors.load_notice
      (snd (DataLoad.load_source DataLoad.to_lower w (Filters.sample_app Filters.blank_inputs)))
    = Some notice
    /\ LoadErrors.userMessage notice = "Error del Servidor".
Proof.
  intros w.
  apply (load_server_error_notice DataLoad.to_lower w
           (Filters.sample_app Filters.blank_inputs) 504 "Gateway Timeout").
  - intros n. reflexivity.
  - lia.
  - repeat constructor.
Defined.

(** ** The cards of the progress events *)

Section EventCardFacts.
Import EventCards.

Lemma complete_none cards :
  Forall (fun card => is_current card = false) cards ->
  complete_first_current cards = cards.
Proof.
  induction 1 as [|card rest Hc _ IH]; [reflexivity|].
  cbn [complete_first_current]. unfold is_current in Hc.
  destruct (card_class card); [discriminate|rewrite IH; reflexivity..].
Qed.

Lemma complete_settles cards :
  only_last_current cards ->
  Forall (fun card => is_current card = false) (complete_first_current cards).
Proof.
  induction cards as [|card rest IH]; intros Hlast; [constructor|].
  cbn [complete_first_current].
  destruct (card_class card) eqn:Hclass.
  - assert (Hrest : rest = []).
    { specialize (Hlast 0 card eq_refl). unfold is_current in Hlast.
      rewrite Hclass in Hlast. specialize (Hlast eq_refl).
      destruct rest; [reflexivity|discriminate]. }
    subst rest. repeat constructor.
  - constructor; [unfold is_current; rewrite Hclass; reflexivity|].
    apply IH. intros i c Hi Hc. specialize (Hlast (S i) c Hi Hc).
    cbn [length] in Hlast. lia.
  - constructor; [unfold is_current; rewrite Hclass; reflexivity|].
    apply IH. intros i c Hi Hc. specialize (Hlast (S i) c Hi Hc).
    cbn [length] in Hlast. lia.
Qed.

Lemma settled_only_last cards card :
  Forall (fun c => is_current c = false) cards ->
  only_last_current (cards ++ [card]).
Proof.
  intros Hall i c Hi Hc. rewrite length_app. cbn [length].
  destruct (Nat.lt_ge_cases i (length cards)) as [Hlt|Hge].
  - rewrite lookup_app_l in Hi by exact Hlt.
    rewrite Forall_lookup in Hall. rewrite (Hall i c Hi) in Hc. discriminate.
  - apply lookup_lt_Some in Hi. rewrite length_app in Hi. cbn [length] in Hi. lia.
Qed.

Lemma settled_is_only_last cards :
  Forall (fun c => is_current c = false) cards -> only_last_current cards.
Proof.
  intros Hall i c Hi Hc. rewrite Forall_lookup in Hall.
  rewrite (Hall i c Hi) in Hc. discriminate.
Qed.

Lemma addEventCard_only_last stage customMessage cards :
  only_last_current cards -> only_last_current (addEventCard stage customMessage cards).
Proof.
  intros Hlast. unfold addEventCard. apply settled_only_last, complete_settles, Hlast.
Qed.

Lemma card_step_only_last cards op :
  only_last_current cards -> only_last_current (card_step cards op).
Proof.
  intros Hlast. destruct op as [pd|stage msg| |]; cbn [card_step].
  - unfold handleProgressEvent.
    repeat (destruct (String.eqb _ _); cbn [fst];
            [apply addEventCard_only_last, Hlast|]).
    exact Hlast.
  - apply addEventCard_only_last, Hlast.
  - apply settled_is_only_last, complete_settles, Hlast.
  - intros i c Hi. discriminate.
Qed.

(** X21: the stack of cards shows one card in progress at most, the
    last one.  Whatever the stream sends and whenever the timers run,
    starting from the empty stack no card but the last is of class
    [current], so the cards of class [current] are never two. *)
Theorem event_cards_one_current ops :
  let cards := foldl card_step [] ops in
  only_last_current cards
  /\ length (List.filter is_current cards) <= 1.
Proof.
  cbn zeta.
  assert (Hlast : only_last_current (foldl card_step [] ops)).
  { assert (Hgen : forall cards, only_last_current cards ->
                     only_last_current (foldl card_step cards ops)).
    { induction ops as [|op ops IH]; intros cards Hc; [exact Hc|].
      cbn [foldl]. apply IH, card_step_only_last, Hc. }
    apply Hgen. intros i c Hi. discriminate. }
  split; [exact Hlast|].
  generalize dependent (foldl card_step [] ops). intros cards Hlast.
  induction cards as [|card rest IH]; [cbn; lia|].
  cbn [List.filter]. destruct (is_current card) eqn:Hc.
  - assert (Hrest : rest = []).
    { specialize (Hlast 0 card eq_refl Hc). destruct rest; [reflexivity|discriminate]. }
    subst rest. cbn. lia.
  - apply IH. intros i c Hi Hcur. specialize (Hlast (S i) c Hi Hcur).
    cbn [length] in Hlast. lia.
Qed.

End EventCardFacts.

(** ** The log stream *)

Section LogStreamFacts.
Import LogStream.

Lemma retry_delays_app o1 o2 :
  retry_delays (o1 ++ o2) = retry_delays o1 ++ retry_delays o2.
Proof. unfold retry_delays. apply omap_app. Qed.

Lemma stream_run_quiet evs : forall s,
  List.filter is_message evs = [] ->
  logStreamRetryCount s <= 3 ->
  let run := stream_run s evs in
  logStreamRetryCount s <= logStreamRetryCount (fst run) <= 3
  /\ retry_delays (snd run)
     = List.map (fun k => (2000 * N.of_nat k)%N)
         (seq (S (logStreamRetryCount s))
              (logStreamRetryCount (fst run) - logStreamRetryCount s)).
Proof.
  induction evs as [|e evs IH]; intros s Hquiet Hle; cbn zeta.
  - cbn [stream_run fst snd]. rewrite Nat.sub_diag. split; [lia|reflexivity].
  - cbn [stream_run].
    assert (Hrest : List.filter is_message evs = []).
    { destruct e; cbn in Hquiet; [discriminate|exact Hquiet..]. }
    assert (Hsame : forall s1 : Stream,
              logStreamRetryCount s1 = logStreamRetryCount s ->
              let run := stream_run s1 evs in
              logStreamRetryCount s <= logStreamRetryCount (fst run) <= 3
              /\ retry_delays (snd run)
                 = List.map (fun k => (2000 * N.of_nat k)%N)
                     (seq (S (logStreamRetryCount s))
                          (logStreamRetryCount (fst run) - logStreamRetryCount s))).
    { intros s1 Hc.
      assert (Hle1 : logStreamRetryCount s1 <= 3) by lia.
      pose proof (IH s1 Hrest Hle1) as H. cbn zeta in H.
      rewrite Hc in H. exact H. }
    destruct e; cbn [stream_step].
    + cbn in Hquiet. discriminate.
    + destruct (source_open s).
      2:{ specialize (Hsame s eq_refl). cbn zeta in Hsame.
          destruct (stream_run s evs) as [s2 out2]. exact Hsame. }
      unfold MAX_LOG_STREAM_RETRIES.
      destruct (Nat.ltb_spec (logStreamRetryCount s) 3) as [Hlt|Hge].
      * set (s1 := {| logStreamRetryCount := S (logStreamRetryCount s);
                      source_open := false |}).
        assert (Hle1 : logStreamRetryCount s1 <= 3) by (cbn; lia).
        pose proof (IH s1 Hrest Hle1) as H. cbn zeta in H.
        destruct (stream_run s1 evs) as [s2 out2]. cbn [fst snd] in *.
        change (logStreamRetryCount s1) with (S (logStreamRetryCount s)) in H.
        destruct H as [Hbound Hdelays]. split; [lia|].
        rewrite retry_delays_app, Hdelays.
        replace (logStreamRetryCount s2 - logStreamRetryCount s)
          with (S (logStreamRetryCount s2 - S (logStreamRetryCount s))) by lia.
        reflexivity.
      * set (s1 := {| logStreamRetryCount := logStreamRetryCount s;
                      source_open := false |}).
        specialize (Hsame s1 eq_refl). cbn zeta in Hsame.
        destruct (stream_run s1 evs) as [s2 out2]. exact Hsame.
    + set (s1 := {| logStreamRetryCount := logStreamRetryCount s;
                    source_open := true |}).
      specialize (Hsame s1 eq_refl). cbn zeta in Hsame.
      destruct (stream_run s1 evs) as [s2 out2]. exact Hsame.
Qed.

(** X22: the log stream is retried three times at most between two
    messages, after 2000, 4000 and 6000 ms.  In a run without a message
    that starts with the counter at [c], the retries scheduled are the
    numbers [c+1 .. c'] for the counter [c' <= 3] the run ends with,
    each after 2000 ms times its number; a message puts the counter
    back to 0. *)
Theorem log_stream_retries evs s :
  List.filter is_message evs = [] ->
  logStreamRetryCount s <= 3 ->
  let run := stream_run s evs in
  logStreamRetryCount (fst run) <= 3
  /\ retry_delays (snd run)
     = List.map (fun k => (2000 * N.of_nat k)%N)
         (seq (S (logStreamRetryCount s))
              (logStreamRetryCount (fst run) - logStreamRetryCount s))
  /\ length (retry_delays (snd run)) <= 3 - logStreamRetryCount s
  /\ (source_open (fst run) = true ->
      logStreamRetryCount (fst (stream_step (fst run) StreamMessage)) = 0).
Proof.
  intros Hquiet Hle. cbn zeta.
  pose proof (stream_run_quiet evs s Hquiet Hle) as [Hbound Hdelays].
  split_and!; [lia|exact Hdelays| |].
  - rewrite Hdelays, length_map, length_seq. lia.
  - intros Hopen. cbn [stream_step]. rewrite Hopen. reflexivity.
Qed.

End LogStreamFacts.

Lemma log_stream_retries_witness :
  let s := {| LogStream.logStreamRetryCount := 0; LogStream.source_open := true |} in
  let evs := [LogStream.StreamError; LogStream.Connect; LogStream.StreamError;
              LogStream.Connect; LogStream.StreamError; LogStream.Connect;
              LogStream.StreamError; LogStream.Connect; LogStream.StreamError] in
  LogStream.retry_delays (snd (LogStream.stream_run s evs)) = [2000; 4000; 6000]%N
  /\ LogStream.logStreamRetryCount (fst (LogStream.stream_run s evs)) = 3.
Proof.
  intros s evs.
  destruct (log_stream_retries evs s) as (_ & Hdelays & _).
  - reflexivity.
  - cbn. lia.
  - split; [rewrite Hdelays; reflexivity|reflexivity].
Defined.

(** ** The last source used *)

Section LastStateFacts.
Import JsString LastState.

Lemma time_ago_minutes age :
  (0 <= age < 3600000)%Z ->
  time_ago age = "hace " +:+ pretty (age / 60000)%Z +:+ "min"
  /\ (0 <= age / 60000 < 60)%Z.
Proof.
  intros Hage. unfold time_ago.
  change (60 * 60 * 1000)%Z with 3600000%Z. change (60 * 1000)%Z with 60000%Z.
  rewrite Z.div_small by lia. cbn [Z.ltb Z.compare].
  rewrite Z.rem_small by lia. split; [reflexivity|].
  split; [apply Z.div_pos; lia|apply Z.div_lt_upper_bound; lia].
Qed.

Lemma time_ago_hours age :
  (3600000 <= age <= 86400000)%Z ->
  time_ago age = "hace " +:+ pretty (age / 3600000)%Z +:+ "h"
  /\ (1 <= age / 3600000 <= 24)%Z.
Proof.
  intros Hage. unfold time_ago.
  change (60 * 60 * 1000)%Z with 3600000%Z.
  assert (Hh : (1 <= age / 3600000 <= 24)%Z).
  { split; [apply Z.div_le_lower_bound; lia|apply Z.div_le_upper_bound; lia]. }
  destruct (Z.ltb_spec 0 (age / 3600000)); [|lia]. split; [reflexivity|exact Hh].
Qed.

(** X23: the last source used is offered again for a day.  A state
    saved at [now] with a source selected is found again at [later]:
    up to 24 hours later, these included, the notice names the text of
    the source and the time passed, in whole hours from 1 to 24 once an
    hour has passed and in whole minutes below 60 before; more than 24
    hours later the state is removed and nothing is offered. *)
Theorem last_state_offered_for_a_day now later name countryValue text storage :
  truthy name = true ->
  truthy text = true ->
  (now <= later)%Z ->
  let saved := saveLastUsedState now (Some name) countryValue (Some text) storage in
  let age := (later - now)%Z in
  (age <= 86400000 ->
   exists offer,
     restoreLastState later saved = (saved, Some offer)
     /\ offer_source_text offer = text
     /\ offer_country offer = countryValue
     /\ offer_message offer
        = "Última consulta: " +:+ text +:+ " (" +:+ time_ago age +:+ ")")%Z
  /\ (86400000 < age -> restoreLastState later saved = (None, None))%Z
  /\ (age < 3600000 ->
      time_ago age = "hace " +:+ pretty (age / 60000)%Z +:+ "min"
      /\ 0 <= age / 60000 < 60)%Z
  /\ (3600000 <= age <= 86400000 ->
      time_ago age = "hace " +:+ pretty (age / 3600000)%Z +:+ "h"
      /\ 1 <= age / 3600000 <= 24)%Z.
Proof.
  intros Hname Htext Hle. cbn zeta.
  unfold saveLastUsedState. rewrite Hname, Htext.
  unfold restoreLastState. cbn [timestamp sourceDisplayName country].
  change LAST_STATE_MAX_AGE with 86400000%Z.
  split_and!.
  - intros Hage. destruct (Z.ltb_spec 86400000 (later - now)); [lia|].
    eexists. split; [reflexivity|]. split_and!; reflexivity.
  - intros Hage. destruct (Z.ltb_spec 86400000 (later - now)); [reflexivity|lia].
  - intros Hage. apply time_ago_minutes. lia.
  - intros Hage. apply time_ago_hours. lia.
Qed.

End LastStateFacts.

Lemma last_state_offered_for_a_day_witness :
  let saved := LastState.saveLastUsedState 1000 (Some "UNIVERSO PERU") "PE"
                 (Some "Universo Perú") None in
  exists offer,
    LastState.restoreLastState 86401000 saved = (saved, Some offer)
    /\ LastState.offer_message offer = "Última consulta: Universo Perú (hace 24h)".
Proof.
  intros saved.
  destruct (last_state_offered_for_a_day 1000 86401000 "UNIVERSO PERU" "PE"
              "Universo Perú" None eq_refl eq_refl ltac:(lia)) as (Hoffer & _).
  destruct (Hoffer ltac:(lia)) as (offer & Hrun & _ & _ & Hmsg).
  exists offer. split; [exact Hrun|]. rewrite Hmsg. vm_compute. reflexivity.
Defined.

(** ** Cancelling the pending filter updates *)

Section PendingFilterFacts.
Import JsText FilterTimers PendingFilters.

Lemma cancel_spec u :
  at_most_remembered u ->
  let u' := cancelPendingFilterUpdates u in
  debounce_pending u' = [] /\ pendingFilterUpdates u' = ∅
  /\ applied u' = applied u /\ values u' = values u /\ now u' = now u.
Proof.
  intros Hrem. cbn zeta. unfold cancelPendingFilterUpdates.
  assert (Hclear : forall id,
            debounce_pending (clearTimeout id u)
            = List.filter (fun t => negb (timer_id t =? id)) (debounce_pending u)).
  { intros id. unfold debounce_pending, clearTimeout. cbn [timers].
    apply filter_comm. }
  destruct Hrem as [Hnone|(t & Hone & Hid & Hpos)].
  - destruct (filterDebounceTimer u) as [id|]; [destruct (0 <? id)|].
    + split_and!; try reflexivity.
      change (debounce_pending (set_pending ∅ (set_debounce_timer None (clearTimeout id u))))
        with (debounce_pending (clearTimeout id u)).
      rewrite Hclear, Hnone. reflexivity.
    + split_and!; try reflexivity. exact Hnone.
    + split_and!; try reflexivity. exact Hnone.
  - rewrite Hid. destruct (Nat.ltb_spec 0 (timer_id t)); [|lia].
    split_and!; try reflexivity.
    change (debounce_pending
              (set_pending ∅ (set_debounce_timer None (clearTimeout (timer_id t) u))))
      with (debounce_pending (clearTimeout (timer_id t) u)).
    rewrite Hclear, Hone. cbn [List.filter]. rewrite Nat.eqb_refl. reflexivity.
Qed.

(** X20: cancelling drops the apply that the debounce function has
    pending.  After a burst of debounced edits, each made before the
    timer of the one before has run, [cancelPendingFilterUpdates]
    leaves no timer of the debounce function and no field marked as
    pending, and no filter is applied however long one waits: the
    calls made are those made before the burst. *)
Theorem cancel_drops_pending_apply delay edits ms u :
  at_most_remembered u -> 0 < next_id u ->
  Forall (fun e => snd e < delay) edits ->
  let u' := cancelPendingFilterUpdates (run (burst delay edits) u) in
  debounce_pending u' = []
  /\ pendingFilterUpdates u' = ∅
  /\ values u' = values (run (burst delay edits) u)
  /\ applied (wait ms u') = applied u.
Proof.
  intros Hrem Hid Hgaps. cbn zeta.
  destruct (burst_run delay edits u Hrem Hid Hgaps) as (Hrem' & _ & Happlied & _).
  destruct (cancel_spec _ Hrem') as (Hnone & Hpend & Happ & Hvals & _).
  split_and!; try assumption.
  destruct (wait_quiet ms _ Hnone) as (Hwait & _).
  rewrite Hwait, Happ. exact Happlied.
Qed.

End PendingFilterFacts.

Lemma cancel_drops_pending_apply_witness :
  let edits := [(FilterTimers.SkuHijo, JsText.of_string "1", 40);
                (FilterTimers.SkuHijo, JsText.of_string "10", 40)] in
  let u' := PendingFilters.cancelPendingFilterUpdates
              (FilterTimers.run (FilterTimers.burst 300 edits) FilterTimers.initial) in
  FilterTimers.debounce_pending u' = []
  /\ FilterTimers.pendingFilterUpdates u' = ∅
  /\ FilterTimers.values u'
     = FilterTimers.values
         (FilterTimers.run (FilterTimers.burst 300 edits) FilterTimers.initial)
  /\ FilterTimers.applied (FilterTimers.wait 1000 u') = [].
Proof.
  intros edits.
  apply (cancel_drops_pending_apply 300 edits 1000 FilterTimers.initial).
  - left. reflexivity.
  - cbn. lia.
  - repeat constructor; cbn; lia.
Defined.

(** ** Exports *)

Section ExportFacts.
Import JsString JsText Filters Exporting.

(** X4: an export goes out as one request with the lists whole.  The
    checkbox of the batches lets a list of more than 500 identifiers
    into the payload, and [handleExport] sends that payload as it is:
    the request carries every token of the input. *)
Theorem export_sends_whole_list format answer a c name payload :
  currentBlobDisplayName a = Some name ->
  truthy name = true ->
  getFilterPayload a = Ok payload ->
  batchProcessHijoCheckbox (inputs a) = true ->
  500 < length (tokens (skuHijoInput (inputs a))) ->
  let run := handleExport format answer a c in
  List.filter is_export_request (events run)
  = [EvExportRequest (if String.eqb format "excel" then "/api/data/export"
                      else "/api/data/export-csv") payload]
  /\ sku_hijo_manual_list payload = Some (tokens (skuHijoInput (inputs a)))
  /\ ~ RequestLimits.payload_within_limit payload.
Proof.
  intros Hname Htruthy Hpay Hbox Hlen. cbn zeta.
  assert (Hlist : sku_hijo_manual_list payload = Some (tokens (skuHijoInput (inputs a)))).
  { destruct (getFilterPayload_fields a payload Hpay) as (_ & _ & Hh & _).
    destruct (getListFromInput_ok _ _ _ Hh) as [-> _].
    unfold list_or_null. destruct (tokens (skuHijoInput (inputs a))); [|reflexivity].
    cbn in Hlen. lia. }
  split_and!.
  - unfold handleExport, DataLoad.truthy_name. rewrite Hname, Htruthy, Hpay. cbn [negb].
    destruct answer as [st tx| | |]; try reflexivity.
    destruct (negb (FetchRetry.response_ok st)); reflexivity.
  - exact Hlist.
  - intros (Hw & _). rewrite Hlist in Hw. cbn in Hw. lia.
Qed.

(** X5: an export that ends leaves the controls ready for the next
    one.  With a source selected and the request settled, however it is
    settled, [isExporting] and [isLoading] are off, the cancel button
    is hidden and the export buttons are shown; at most one request has
    gone out, and none when the payload could not be built. *)
Theorem export_controls_restored format answer a c name :
  currentBlobDisplayName a = Some name ->
  truthy name = true ->
  answer <> ExportPending ->
  let run := handleExport format answer a c in
  controls run = idle
  /\ completion run = Completed
  /\ is_Some (status run)
  /\ length (List.filter is_export_request (events run)) <= 1
  /\ (forall f, getFilterPayload a = Raise f ->
        events run = [] /\ status run = Some (ExportPayloadError f)).
Proof.
  intros Hname Htruthy Hanswer. cbn zeta.
  unfold handleExport, DataLoad.truthy_name. rewrite Hname, Htruthy. cbn [negb].
  destruct (getFilterPayload a) as [payload|f].
  - destruct answer as [st tx| | |]; try contradiction;
      try (split_and!; cbn; eauto; discriminate).
    destruct (negb (FetchRetry.response_ok st)); split_and!; cbn; eauto; discriminate.
  - split_and!; cbn; eauto. intros f' [= <-]. auto.
Qed.

End ExportFacts.

Lemma export_sends_whole_list_witness :
  let a := Filters.sample_app (Filters.with_skus (Filters.sevens 501) [] true false) in
  exists payload,
    List.filter Exporting.is_export_request
      (Exporting.events
         (Exporting.handleExport "excel" (Exporting.ExportAnswered 200 "OK") a
            Exporting.idle))
    = [Exporting.EvExportRequest "/api/data/export" payload]
    /\ Filters.sku_hijo_manual_list payload = Some (JsText.tokens (Filters.sevens 501))
    /\ ~ RequestLimits.payload_within_limit payload.
Proof.
  intros a.
  assert (Hn : 500 < length (JsText.tokens (Filters.sevens 501)))
    by (apply Nat.ltb_lt; vm_compute; reflexivity).
  assert (Hpay : exists payload, Filters.getFilterPayload a = Filters.Ok payload).
  { destruct (Filters.getFilterPayload a) as [payload|f] eqn:Hp; [eauto|].
    exfalso. revert Hp. vm_compute. discriminate. }
  destruct Hpay as (payload & Hpay). exists payload.
  exact (export_sends_whole_list "excel" (Exporting.ExportAnswered 200 "OK") a
           Exporting.idle "UNIVERSO PERU" payload eq_refl eq_refl Hpay eq_refl Hn).
Defined.

Lemma export_controls_restored_witness :
  let run := Exporting.handleExport "csv" (Exporting.ExportAnswered 499 "")
               (Filters.sample_app Filters.blank_inputs) Exporting.exporting in
  Exporting.controls run = Exporting.idle
  /\ Exporting.status run = Some Exporting.ExportCancelledByServer.
Proof.
  intros run.
  destruct (export_controls_restored "csv" (Exporting.ExportAnswered 499 "")
              (Filters.sample_app Filters.blank_inputs) Exporting.exporting
              "UNIVERSO PERU" eq_refl eq_refl ltac:(discriminate)) as (Hc & _).
  split; [exact Hc|reflexivity].
Defined.

(** ** Reports pasted back *)

Section ReportFacts.
Import JsText Filters Reports.

Lemma tokens_go_word t : forall w rest,
  plain t -> tokens_go w (t ++ rest) = tokens_go (w ++ t) rest.
Proof.
  induction t as [|c t IH]; intros w rest Hp.
  - rewrite app_nil_r. reflexivity.
  - apply Forall_cons_1 in Hp as [Hc Hp].
    cbn [app tokens_go]. rewrite Hc, IH by exact Hp.
    rewrite <- app_assoc. reflexivity.
Qed.

Lemma tokens_go_last t : forall w,
  plain t -> tokens_go w t = flush (w ++ t).
Proof.
  induction t as [|c t IH]; intros w Hp.
  - rewrite app_nil_r. reflexivity.
  - apply Forall_cons_1 in Hp as [Hc Hp].
    cbn [tokens_go]. rewrite Hc, IH by exact Hp.
    rewrite <- app_assoc. reflexivity.
Qed.

Lemma tokens_join values :
  Forall (fun t => t <> [] /\ plain t) values ->
  tokens (join_lines values) = values.
Proof.
  unfold tokens. induction 1 as [|t rest [Hne Hp] Hrest IH]; [reflexivity|].
  destruct rest as [|t' rest].
  - cbn [join_lines]. rewrite tokens_go_last by exact Hp.
    cbn [app]. destruct t; [contradiction|reflexivity].
  - change (join_lines (t :: t' :: rest)) with (t ++ 10%N :: join_lines (t' :: rest)).
    rewrite tokens_go_word by exact Hp. cbn [app tokens_go].
    change (is_separator 10) with true. cbn match.
    rewrite IH. destruct t; [contradiction|reflexivity].
Qed.

Lemma tokens_value_lines values :
  Forall (fun t => t <> [] /\ plain t) values ->
  tokens (value_lines values) = values.
Proof.
  unfold tokens, value_lines.
  induction 1 as [|t rest [Hne Hp] Hrest IH]; [reflexivity|].
  cbn [List.map concat]. rewrite <- app_assoc, tokens_go_word by exact Hp.
  cbn [app tokens_go]. change (is_separator 10) with true. cbn match.
  rewrite IH. destruct t; [contradiction|reflexivity].
Qed.

(** X19: the values of a report can be pasted back.  A list of values
    without separators, written one per line as the two reports of the
    values not found write it, is read by [getListFromInput] as the
    same list: in the same order, with nothing lost and nothing split. *)
Theorem report_values_read_back values allowBatching :
  Forall (fun t => t <> [] /\ plain t) values ->
  allowBatching = true \/ length values <= 500 ->
  getListFromInput (join_lines values) allowBatching = Ok (list_or_null values)
  /\ getListFromInput (value_lines values) allowBatching
     = Ok (list_or_null values).
Proof.
  intros Hall Hlimit.
  rewrite !getListFromInput_tokens, tokens_value_lines, tokens_join by exact Hall.
  destruct Hlimit as [->|Hle].
  - rewrite andb_false_r. split; destruct values; reflexivity.
  - destruct (_ <? _) eqn:Hover; [|split; destruct values; reflexivity].
    apply Nat.ltb_lt in Hover. exfalso. apply (Nat.lt_irrefl 500).
    eapply Nat.lt_le_trans; [exact Hover|exact Hle].
Qed.

End ReportFacts.

Lemma report_values_read_back_witness :
  let values := [JsText.of_string "1001"; JsText.of_string "A-77"; JsText.of_string "9999"] in
  Filters.getListFromInput (Reports.join_lines values) false = Filters.Ok (Some values)
  /\ Filters.getListFromInput (Reports.value_lines values) false
     = Filters.Ok (Some values).
Proof.
  intros values.
  apply (report_values_read_back values false).
  - repeat constructor; try discriminate.
  - right. cbn. lia.
Defined.

(** ** The manual inputs and the saved view after a load *)

Section ManualInputFacts.
Import JsText LazyTable Filters DataLoad ManualInputs.
Variable toLowerCase : string -> string.

Lemma handleBatchProcessing_inputs world a bt bv tb :
  inputs (fst (fst (handleBatchProcessing world a bt bv tb))) = inputs a.
Proof.
  unfold handleBatchProcessing.
  destruct (batch_loop _ _ _ _ _ _ _ _) as [[[c acc] evs] e].
  destruct e; [destruct (negb c)|..]; reflexivity.
Qed.

Lemma handleApplyFilters_manual_inputs w page isInitialLoad a :
  manual_inputs_empty (inputs a) ->
  manual_inputs_empty (inputs (fst (fst (handleApplyFilters w page isInitialLoad a)))).
Proof.
  intros Hempty. unfold handleApplyFilters.
  destruct (currentBlobDisplayName a) as [name|]; [|exact Hempty].
  destruct (negb (JsString.truthy name)); [exact Hempty|].
  destruct (dataSourceCache a !! name) as [entry|]; [|exact Hempty].
  set (start := if isInitialLoad
                then (initial_controls w entry a, [EvRequest (GetFilterVisibility name)])
                else (a, [])).
  assert (H1 : manual_inputs_empty (inputs (fst start)))
    by (subst start; destruct isInitialLoad; exact Hempty).
  destruct start as [a1 evs1]. cbn [fst] in H1.
  destruct (validateBatchFilters (inputs (with_page page a1))) as [|[] bt bv tb];
    [exact H1|..].
  - pose proof (handleBatchProcessing_inputs (batch_world w) (with_page page a1)
                  bt bv tb) as Hin.
    destruct (handleBatchProcessing _ _ _ _ _) as [[a3 evs] c].
    cbn [fst] in *. rewrite Hin. exact H1.
  - destruct (getFilterPayload (with_page page a1)); [|exact H1].
    destruct (query_answer w) as [status result|msg]; [|exact H1].
    destruct (negb (FetchRetry.response_ok status)); exact H1.
Qed.

(** X11: a load leaves the manual lists empty.  Unless it ends on the
    saved view or finds no source selected, [handleDataLoad] empties
    the four text inputs and clears the checkbox that extends the
    search, and they are so when it ends, whether the load completes,
    fails or is cancelled; the query that ends a load never runs in
    batches. *)
Theorem load_empties_manual_inputs w s :
  let run := handleDataLoad toLowerCase w s in
  snd run <> NoSourceSelected -> snd run <> ViewRestored ->
  manual_inputs_empty (inputs (app (fst run)))
  /\ needs_batching (inputs (app (fst run))) = false.
Proof.
  cbn zeta. intros Hsel Hview.
  destruct (handleDataLoad toLowerCase w s) as [s' r] eqn:Hrun. cbn [fst snd] in *.
  destruct (handleDataLoad_cases toLowerCase w s s' r Hrun)
    as [[-> _]|[[-> _]|Hload]]; [contradiction..|].
  assert (Hempty : manual_inputs_empty (inputs (app s'))).
  { unfold load_source in Hload.
    set (a0 := with_result _ _ _) in Hload.
    assert (H0 : manual_inputs_empty (inputs a0)) by (repeat split).
    assert (Htry : manual_inputs_empty (inputs (fst (load_try toLowerCase w a0)))).
    { unfold load_try.
      destruct (fetch_json _ _ _ _ _ _) as [stop|settings]; [exact H0|].
      cbn zeta.
      destruct (fetch_json _ _ _ _ _ _) as [stop|payload]; [exact H0|].
      destruct (payload_columns payload) as [cols|]; [|exact H0].
      set (a1 := with_cache _ _).
      pose proof (handleApplyFilters_manual_inputs (apply_world w) 1 true a1 H0) as H1.
      destruct (handleApplyFilters (apply_world w) 1 true a1) as [[a2 evs] c].
      destruct c; exact H1. }
    destruct (load_try toLowerCase w a0) as [a1 e]. cbn [fst] in Htry.
    destruct e as [|error|].
    - inversion Hload; subst. exact Htry.
    - destruct (String.eqb (err_name error) "AbortError");
        inversion Hload; subst; exact Htry.
    - inversion Hload; subst. exact Htry. }
  split; [exact Hempty|].
  destruct Hempty as (Hh & Hp & _).
  unfold needs_batching. rewrite validateBatchFilters_tokens, Hh, Hp.
  cbn. rewrite !andb_false_r. reflexivity.
Qed.

(** X14: when the saved view is used.  With a source to load, the load
    ends on the saved view exactly when the cache holds an entry for
    the source, a view of it was saved and the containers of the view
    are in the document; the view then replaces the table and the
    cache is left alone.  A saved view that cannot be shown is dropped. *)
Theorem saved_view_shortcut w s :
  let a := app s in
  let selected :=
    match blobSelect s with Some v => Some v | None => currentBlobDisplayName a end in
  let target :=
    key_of (if truthy_name selected then selected else currentBlobDisplayName a) in
  let run := handleDataLoad toLowerCase w s in
  truthy_name (currentBlobDisplayName a) || truthy_name selected = true ->
  (snd run = ViewRestored <->
   is_Some (dataSourceCache a !! target) /\ is_Some (viewStateCache s !! target)
   /\ dom_ready w = true)
  /\ (forall v, snd run = ViewRestored -> viewStateCache s !! target = Some v ->
        tableBody (app (fst run)) = snap_table v
        /\ dataSourceCache (app (fst run)) = dataSourceCache a
        /\ viewStateCache (fst run) = viewStateCache s)
  /\ (is_Some (dataSourceCache a !! target) -> dom_ready w = false ->
      viewStateCache (fst run) !! target = None).
Proof.
  cbn zeta. intros Hsel.
  pose proof (load_source_not_restored toLowerCase w) as Hnot.
  unfold handleDataLoad.
  set (selected := match blobSelect s with
                   | Some v => Some v
                   | None => currentBlobDisplayName (app s)
                   end) in *.
  set (target := key_of (if truthy_name selected then selected
                         else currentBlobDisplayName (app s))).
  assert (Hgo : negb (truthy_name (currentBlobDisplayName (app s)))
                && negb (truthy_name selected) = false).
  { destruct (truthy_name (currentBlobDisplayName (app s))), (truthy_name selected);
      try reflexivity. discriminate. }
  rewrite Hgo. clear Hgo.
  destruct (dataSourceCache (app s) !! target) as [entry|] eqn:Hentry.
  - destruct (viewStateCache s !! target) as [v|] eqn:Hview.
    + destruct (dom_ready w) eqn:Hdom.
      * cbn [fst snd app tableBody restored dataSourceCache viewStateCache].
        split_and!.
        -- split; [intros _; split_and!; eauto|reflexivity].
        -- intros v' _ [= <-]. split_and!; reflexivity.
        -- discriminate.
      * pose proof (Hnot (app s)) as Hn.
        destruct (load_source toLowerCase w (app s)) as [a' r]. cbn [fst snd] in *.
        split_and!.
        -- split; [contradiction|]. intros (_ & _ & Hd). discriminate.
        -- intros v' Hr. contradiction.
        -- intros _ _. unfold saveViewState. cbn [dom_ready]. rewrite Hdom.
           cbn [viewStateCache].
           destruct (truthy_name _ && negb _); apply lookup_delete_eq.
    + pose proof (Hnot (app s)) as Hn.
      destruct (load_source toLowerCase w (app s)) as [a' r]. cbn [fst snd] in *.
      split_and!.
      * split; [contradiction|]. intros (_ & [v Hv] & _). discriminate.
      * intros v' Hr. contradiction.
      * intros _ Hdom. unfold saveViewState. rewrite Hdom. cbn [viewStateCache].
        destruct (truthy_name _ && negb _); exact Hview.
  - pose proof (Hnot (app s)) as Hn.
    destruct (load_source toLowerCase w (app s)) as [a' r]. cbn [fst snd] in *.
    split_and!.
    + split; [contradiction|]. intros ([e He] & _). discriminate.
    + intros v' Hr. contradiction.
    + intros [e He]. discriminate.
Qed.

End ManualInputFacts.

Lemma load_empties_manual_inputs_witness :
  ManualInputs.manual_inputs_empty
    (Filters.inputs
       (DataLoad.app (fst (DataLoad.handleDataLoad DataLoad.to_lower DataLoad.sample_load
                             ManualInputs.switching))))
  /\ Filters.needs_batching
       (Filters.inputs
          (DataLoad.app (fst (DataLoad.handleDataLoad DataLoad.to_lower DataLoad.sample_load
                                ManualInputs.switching)))) = false.
Proof.
  refine (load_empties_manual_inputs DataLoad.to_lower DataLoad.sample_load
            ManualInputs.switching _ _).
  - vm_compute. discriminate.
  - vm_compute. discriminate.
Defined.

Lemma saved_view_shortcut_witness :
  snd (DataLoad.handleDataLoad DataLoad.to_lower DataLoad.sample_load
         ManualInputs.with_saved_view) = DataLoad.ViewRestored
  /\ Filters.tableBody
       (DataLoad.app (fst (DataLoad.handleDataLoad DataLoad.to_lower DataLoad.sample_load
                             ManualInputs.with_saved_view)))
     = [LazyTable.NoDataNotice].
Proof.
  destruct (saved_view_shortcut DataLoad.to_lower DataLoad.sample_load
              ManualInputs.with_saved_view eq_refl) as (Hiff & Hview & _).
  assert (Hr : snd (DataLoad.handleDataLoad DataLoad.to_lower DataLoad.sample_load
                      ManualInputs.with_saved_view) = DataLoad.ViewRestored).
  { apply Hiff. split_and!; [eexists; vm_compute; reflexivity
                            |eexists; vm_compute; reflexivity|reflexivity]. }
  split; [exact Hr|].
  destruct (Hview _ Hr ltac:(vm_compute; reflexivity)) as (Htable & _). exact Htable.
Defined.

Lemma loads_in_a_row_witness :
  DataLoad.entries_for "UNIVERSO PERU"
    (Filters.dataSourceCache
       (DataLoad.app
          (fst (DataLoad.handleDataLoad DataLoad.to_lower DataLoad.later_load
                  (fst (DataLoad.handleDataLoad DataLoad.to_lower DataLoad.sample_load
                          DataLoad.sample_session)))))) = 1
  /\ snd (DataLoad.handleDataLoad DataLoad.to_lower DataLoad.later_load
            (DataLoad.timers_fire DataLoad.sample_load
               (fst (DataLoad.handleDataLoad DataLoad.to_lower DataLoad.sample_load
                       DataLoad.sample_session))))
     = DataLoad.ViewRestored.
Proof.
  assert (Hdone1 : snd (DataLoad.handleDataLoad DataLoad.to_lower DataLoad.sample_load
                          DataLoad.sample_session) = DataLoad.LoadCompleted)
    by (vm_compute; reflexivity).
  assert (Hrun1 : DataLoad.handleDataLoad DataLoad.to_lower DataLoad.sample_load
                    DataLoad.sample_session
                  = (fst (DataLoad.handleDataLoad DataLoad.to_lower DataLoad.sample_load
                            DataLoad.sample_session), DataLoad.LoadCompleted)).
  { rewrite <- Hdone1. apply surjective_pairing. }
  destruct (loads_in_a_row DataLoad.to_lower DataLoad.sample_load DataLoad.later_load
              DataLoad.sample_load DataLoad.sample_session _ Hrun1 eq_refl)
    as [Hearly Hlate].
  destruct (Hearly eq_refl) as [_ Hcompleted].
  destruct Hcompleted as [Hone _]; [vm_compute; reflexivity|].
  destruct (Hlate eq_refl eq_refl) as [Hrestored _].
  split; [exact Hone|exact Hrestored].
Defined.

(** ** The load with selected columns *)

Section ColumnLoadFacts.
Import JsText LazyTable Filters DataLoad ColumnLoad.
Variable toLowerCase : string -> string.

Lemma load_try_columns_cache w a :
  let run := load_try_columns toLowerCase w a in
  let name := key_of (currentBlobDisplayName a) in
  (dataSourceCache (fst run) = dataSourceCache a /\ snd run <> TryDone)
  \/ (exists entry, dataSourceCache (fst run) = <[name := entry]> (dataSourceCache a))
     /\ (snd run = TryDone \/ snd run = TryUnfinished).
Proof.
  cbn zeta. unfold load_try_columns.
  set (name := key_of (currentBlobDisplayName a)).
  destruct (fetch_json (Some 15000%N) 2 1500 _ _ _) as [stop|settings] eqn:Hs.
  { left. split; [reflexivity|]. eapply fetch_json_inl, Hs. }
  cbn zeta.
  set (ah := with_hidden (hidden_columns toLowerCase settings) a).
  destruct (fetch_json None 0 1000 _ _ _) as [stop|payload] eqn:Hl.
  { left. split; [reflexivity|]. eapply fetch_json_inl, Hl. }
  destruct (payload_columns payload) as [cols|]; [|left; split; [reflexivity|discriminate]].
  set (fresh := new_entry toLowerCase ah settings payload cols).
  set (a0 := with_cache (<[name := fresh]> (dataSourceCache ah)) ah).
  pose proof (handleApplyFilters_cache (apply_world w) 1 true a0) as Hcache.
  destruct (handleApplyFilters (apply_world w) 1 true a0) as [[a2 evs] c].
  cbn [fst] in Hcache. right.
  assert (Hentry : exists entry, dataSourceCache a2 = <[name := entry]> (dataSourceCache a)).
  { destruct Hcache as [Hsame|(nm & entry0 & st & result & fp & Hnm & _ & _ & Hnew)].
    - exists fresh. exact Hsame.
    - assert (Hkey : nm = name).
      { subst name a0. cbn in Hnm. rewrite Hnm. reflexivity. }
      subst nm. subst a0. cbn [dataSourceCache with_cache] in Hnew.
      rewrite insert_insert_eq in Hnew. eexists. exact Hnew. }
  destruct c; cbn [fst snd]; auto.
Qed.

(** X15: the load with selected columns never removes an entry.  When
    it fails, the cache is as it was before, the entry of the source
    included; however it ends, every source that had an entry has one. *)
Theorem column_load_keeps_entries selectedColumns w a :
  let run := handleDataLoadWithColumns toLowerCase selectedColumns w a in
  (forall error, snd run = LoadFailed error ->
     dataSourceCache (fst run) = dataSourceCache a)
  /\ (forall n, is_Some (dataSourceCache a !! n) ->
        is_Some (dataSourceCache (fst run) !! n)).
Proof.
  cbn zeta. unfold handleDataLoadWithColumns.
  destruct (negb (truthy_name (currentBlobDisplayName a))); [split; auto|].
  set (a0 := with_result _ _ _).
  pose proof (load_try_columns_cache w a0) as Hcache. cbn zeta in Hcache.
  change (dataSourceCache a0) with (dataSourceCache a) in Hcache.
  destruct (load_try_columns toLowerCase w a0) as [a1 e]. cbn [fst snd] in Hcache.
  assert (Hkeep : forall n, is_Some (dataSourceCache a !! n) ->
                    is_Some (dataSourceCache a1 !! n)).
  { intros n Hn. destruct Hcache as [[-> _]|[[entry ->] _]]; [exact Hn|].
    destruct (decide (key_of (currentBlobDisplayName a0) = n)) as [->|Hne].
    - rewrite lookup_insert_eq. eauto.
    - rewrite lookup_insert_ne by exact Hne. exact Hn. }
  destruct e as [|error|]; cbn [fst snd].
  - split; [discriminate|exact Hkeep].
  - destruct (String.eqb (err_name error) "AbortError"); cbn [fst snd].
    + split; [discriminate|exact Hkeep].
    + split; [|exact Hkeep]. intros _ _.
      destruct Hcache as [[Hsame _]|[_ [H|H]]]; [exact Hsame|discriminate..].
  - split; [discriminate|exact Hkeep].
Qed.

End ColumnLoadFacts.

Lemma column_load_keeps_entries_witness :
  snd (ColumnLoad.handleDataLoadWithColumns DataLoad.to_lower ["sku_hijo"]
         ColumnLoad.without_columns (Filters.sample_app Filters.blank_inputs))
  = DataLoad.LoadFailed
      (FetchRetry.mkError "El formato de datos recibido es inválido (columns)")
  /\ Filters.dataSourceCache
       (fst (ColumnLoad.handleDataLoadWithColumns DataLoad.to_lower ["sku_hijo"]
               ColumnLoad.without_columns (Filters.sample_app Filters.blank_inputs)))
     = Filters.dataSourceCache (Filters.sample_app Filters.blank_inputs).
Proof.
  assert (Hr : snd (ColumnLoad.handleDataLoadWithColumns DataLoad.to_lower ["sku_hijo"]
                      ColumnLoad.without_columns (Filters.sample_app Filters.blank_inputs))
               = DataLoad.LoadFailed
                   (FetchRetry.mkError "El formato de datos recibido es inválido (columns)"))
    by (vm_compute; reflexivity).
  split; [exact Hr|].
  destruct (column_load_keeps_entries DataLoad.to_lower ["sku_hijo"]
              ColumnLoad.without_columns (Filters.sample_app Filters.blank_inputs))
    as [Hfail _].
  exact (Hfail _ Hr).
Defined.

(** ** The views saved by a load, and loads that wait *)

Section SavedViewFacts.
Import JsText LazyTable Filters DataLoad.
Variable toLowerCase : string -> string.

(** X24: the views a load saves.  A view found in the cache of views
    when [handleDataLoad] ends was there when it started, or is the
    view of the current source, saved as the load leaves it for another
    target with the containers of the view in the document: its fields,
    its hidden columns, its four text inputs and its table are those of
    the start of the call.  So a load whose target is the current
    source saves no view before its timer fires. *)
Theorem views_after_load w s k v :
  let a := app s in
  let current := currentBlobDisplayName a in
  let selected := match blobSelect s with Some x => Some x | None => current end in
  let target := key_of (if truthy_name selected then selected else current) in
  viewStateCache (fst (handleDataLoad toLowerCase w s)) !! k = Some v ->
  viewStateCache s !! k = Some v
  \/ (k = key_of current
      /\ truthy_name current = true
      /\ k <> target
      /\ dom_ready w = true
      /\ v = {| snap_displayName := current;
                snap_filename := currentBlobFilename a;
                snap_hijoLoaded := skuHijoFileLoaded a;
                snap_padreLoaded := skuPadreFileLoaded a;
                snap_hidden := hiddenColumnsConfig a;
                snap_skuHijo := skuHijoInput (inputs a);
                snap_skuPadre := skuPadreInput (inputs a);
                snap_ticket := ticketFilterInput (inputs a);
                snap_lineamiento := lineamientoFilterInput (inputs a);
                snap_table := tableBody a |}).
Proof.
  cbn zeta. fold (snapshot_of (app s)). unfold handleDataLoad.
  set (current := currentBlobDisplayName (app s)).
  set (selected := match blobSelect s with Some x => Some x | None => current end).
  set (target := key_of (if truthy_name selected then selected else current)).
  destruct (negb (truthy_name current) && negb (truthy_name selected));
    [cbn [fst]; auto|].
  set (snapshot := match dataSourceCache (app s) !! target with
                   | Some _ => viewStateCache s !! target
                   | None => None
                   end).
  set (views1 := match snapshot with
                 | Some _ => delete target (viewStateCache s)
                 | None => viewStateCache s
                 end).
  assert (H1 : forall k v, views1 !! k = Some v -> viewStateCache s !! k = Some v).
  { intros k0 v0. unfold views1. destruct snapshot; [|auto].
    intros H. apply lookup_delete_Some in H as [_ H]. exact H. }
  set (views2 := if truthy_name current && negb (String.eqb (key_of current) target)
                 then saveViewState w (key_of current) _ else views1).
  assert (H2 : forall k v,
            views2 !! k = Some v ->
            viewStateCache s !! k = Some v
            \/ (k = key_of current /\ truthy_name current = true /\ k <> target
                /\ dom_ready w = true /\ v = snapshot_of (app s))).
  { intros k0 v0. subst views2.
    destruct (truthy_name current) eqn:Htruthy; cbn [andb]; [|left; auto].
    destruct (String.eqb_spec (key_of current) target) as [Heq|Hne]; cbn [negb];
      [left; auto|].
    unfold saveViewState. cbn [app viewStateCache].
    destruct (dom_ready w) eqn:Hdom; [|left; auto].
    intros H. apply lookup_insert_Some in H as [[<- <-]|[_ H]]; [|left; auto].
    right. split_and!; auto. }
  clearbody views2.
  destruct snapshot as [v0|] eqn:Hsnap.
  - destruct (dom_ready w) eqn:Hdom; [cbn [fst viewStateCache]; auto|].
    destruct (load_source toLowerCase w (app s)) as [a' r].
    cbn [fst viewStateCache]. apply H2.
  - destruct (load_source toLowerCase w (app s)) as [a' r].
    cbn [fst viewStateCache]. apply H2.
Qed.

End SavedViewFacts.

Lemma views_after_load_witness :
  DataLoad.viewStateCache LoadWaits.leaving !! "UNIVERSO PERU"
  = Some {| DataLoad.snap_displayName := Some "UNIVERSO PERU";
            DataLoad.snap_filename := Some "universo_peru.parquet";
            DataLoad.snap_hijoLoaded := false;
            DataLoad.snap_padreLoaded := false;
            DataLoad.snap_hidden := [];
            DataLoad.snap_skuHijo := [];
            DataLoad.snap_skuPadre := [];
            DataLoad.snap_ticket := [];
            DataLoad.snap_lineamiento := [];
            DataLoad.snap_table := [] |}
  \/ ("UNIVERSO PERU" = "UNIVERSO PERU"
      /\ DataLoad.truthy_name (Some "UNIVERSO PERU") = true
      /\ "UNIVERSO PERU" <> "UNIVERSO CHILE"
      /\ DataLoad.dom_ready DataLoad.sample_load = true
      /\ {| DataLoad.snap_displayName := Some "UNIVERSO PERU";
            DataLoad.snap_filename := Some "universo_peru.parquet";
            DataLoad.snap_hijoLoaded := false;
            DataLoad.snap_padreLoaded := false;
            DataLoad.snap_hidden := [];
            DataLoad.snap_skuHijo := [];
            DataLoad.snap_skuPadre := [];
            DataLoad.snap_ticket := [];
            DataLoad.snap_lineamiento := [];
            DataLoad.snap_table := [] |}
         = {| DataLoad.snap_displayName := Some "UNIVERSO PERU";
              DataLoad.snap_filename := Some "universo_peru.parquet";
              DataLoad.snap_hijoLoaded := false;
              DataLoad.snap_padreLoaded := false;
              DataLoad.snap_hidden := [];
              DataLoad.snap_skuHijo := [];
              DataLoad.snap_skuPadre := [];
              DataLoad.snap_ticket := [];
              DataLoad.snap_lineamiento := [];
              DataLoad.snap_table := [] |}).
Proof.
  refine (views_after_load DataLoad.to_lower DataLoad.sample_load LoadWaits.leaving
            "UNIVERSO PERU" _ _).
  vm_compute. reflexivity.
Defined.

Section TimeoutFacts.
Import JsText LazyTable Filters DataLoad LoadWaits.
Variable toLowerCase : string -> string.

Lemma retry_loop_settles timeoutMs maxRetries initialDelay network fuel :
  forall attempt lastError,
  (0 < timeoutMs)%N ->
  fst (retry_loop (Some timeoutMs) maxRetries initialDelay network fuel attempt lastError)
  <> Pending.
Proof.
  induction fuel as [|fuel IH]; intros attempt lastError Hpos; cbn [retry_loop];
    [discriminate|].
  destruct (attempt <=? maxRetries); [|discriminate].
  destruct (try_block (Some timeoutMs) (network attempt)) as [st tx|e|] eqn:Htry.
  - discriminate.
  - destruct (attempt =? maxRetries); [discriminate|].
    destruct (negb (isRetryableError e)); [discriminate|].
    specialize (IH (S attempt) (Some e) Hpos).
    destruct (retry_loop _ _ _ _ fuel (S attempt) (Some e)) as [out evs]. exact IH.
  - exfalso. unfold try_block in Htry.
    destruct (network attempt) as [st tx|e|].
    + destruct (response_ok st); discriminate.
    + discriminate.
    + destruct (N.ltb_spec 0 timeoutMs); [discriminate|lia].
Qed.

(** X25: with a timeout the call always settles.  Given a positive
    [options.timeout], whatever the network does, even when no request
    is ever answered, [fetchWithRetry] returns a response or throws an
    error; it does not stay pending. *)
Theorem fetchWithRetry_settles_with_timeout timeoutMs maxRetries initialDelay network :
  (0 < timeoutMs)%N ->
  let out := fst (fetchWithRetry (Some timeoutMs) maxRetries initialDelay network) in
  (exists status statusText, out = Returned status statusText)
  \/ (exists error, out = Thrown (Some error)).
Proof.
  intros Hpos. cbn zeta.
  pose proof (retry_loop_settles timeoutMs maxRetries initialDelay network
                (S (S maxRetries)) 0 None Hpos) as Hsettles.
  unfold fetchWithRetry.
  destruct (retry_loop (Some timeoutMs) maxRetries initialDelay network
              (S (S maxRetries)) 0 None) as [out evs] eqn:Hrun.
  destruct (retry_loop_run (Some timeoutMs) maxRetries initialDelay network
              (S (S maxRetries)) 0 None out evs)
    as (k & _ & _ & _ & Hfuel & Hthrown & _); [lia|lia|exact Hrun|].
  cbn [fst] in *. destruct out as [st tx|[e|]| |].
  - left. eauto.
  - right. eauto.
  - destruct (Hthrown None eq_refl) as [_ [x Hx]]. discriminate.
  - contradiction.
  - contradiction.
Qed.

(** X26: the request for the data has no timeout.  When the settings
    arrive and the request for the data gets no answer, the load of
    [handleDataLoad] does not end: nothing is thrown, so neither the
    [catch] nor the [finally] block runs, and the cache is as it
    was. *)
Theorem load_without_answer_never_ends w a :
  settings_arrive w ->
  load_network w 0 = StaysPending ->
  snd (load_source toLowerCase w a) = LoadUnfinished
  /\ dataSourceCache (fst (load_source toLowerCase w a)) = dataSourceCache a.
Proof.
  intros (st & tx & settings & Hs & Hok & Hjson) Hpending.
  unfold load_source, load_try, fetch_json.
  rewrite (fetchWithRetry_first_answer _ _ _ _ st tx Hs Hok), Hjson. cbn [fst].
  unfold fetchWithRetry. cbn [retry_loop Nat.leb]. rewrite Hpending.
  cbn [try_block fst snd]. split; reflexivity.
Qed.

End TimeoutFacts.

Lemma fetchWithRetry_settles_with_timeout_witness :
  (exists status statusText,
     fst (FetchRetry.fetchWithRetry (Some 15000%N) 2 1500
            (fun _ => FetchRetry.StaysPending))
     = FetchRetry.Returned status statusText)
  \/ (exists error,
        fst (FetchRetry.fetchWithRetry (Some 15000%N) 2 1500
               (fun _ => FetchRetry.StaysPending))
        = FetchRetry.Thrown (Some error)).
Proof.
  apply (fetchWithRetry_settles_with_timeout 15000 2 1500
           (fun _ => FetchRetry.StaysPending)).
  reflexivity.
Defined.

Lemma load_without_answer_never_ends_witness :
  snd (DataLoad.load_source DataLoad.to_lower LoadWaits.silent_load
         (Filters.sample_app Filters.blank_inputs)) = DataLoad.LoadUnfinished
  /\ Filters.dataSourceCache
       (fst (DataLoad.load_source DataLoad.to_lower LoadWaits.silent_load
               (Filters.sample_app Filters.blank_inputs)))
     = Filters.dataSourceCache (Filters.sample_app Filters.blank_inputs).
Proof.
  apply (load_without_answer_never_ends DataLoad.to_lower LoadWaits.silent_load
           (Filters.sample_app Filters.blank_inputs)).
  - exists 200, "OK", {| DataLoad.hide_columns := None; DataLoad.filter_columns := None |}.
    split_and!; reflexivity.
  - reflexivity.
Defined.

(** ** Uploaded files in the requests *)

Section UploadFacts.
Import JsText LazyTable Filters Uploads.

Lemma getFilterPayload_flags a p :
  getFilterPayload a = Ok p ->
  use_sku_hijo_file p = skuHijoFileLoaded a
  /\ use_sku_padre_file p = skuPadreFileLoaded a.
Proof.
  unfold getFilterPayload.
  destruct (collect_custom _ _) as [custom|e]; cbn [mbind Try_bind bind]; [|discriminate].
  destruct (getListFromInput (skuHijoInput _) _) as [hl|e];
    cbn [mbind Try_bind bind]; [|discriminate].
  destruct (getListFromInput (skuPadreInput _) _) as [pl|e];
    cbn [mbind Try_bind bind]; [|discriminate].
  destruct (getListFromInput (ticketFilterInput _) _) as [tl|e];
    cbn [mbind Try_bind bind]; [|discriminate].
  destruct (getListFromInput (lineamientoFilterInput _) _) as [ll|e];
    cbn [mbind Try_bind bind]; [|discriminate].
  intros [= <-]. split; reflexivity.
Qed.

Lemma batch_payload_flags bt b base :
  use_sku_hijo_file (batch_payload bt b base) = use_sku_hijo_file base
  /\ use_sku_padre_file (batch_payload bt b base) = use_sku_padre_file base.
Proof. destruct bt as [[]|]; split; reflexivity. Qed.

(** Every request of a call without the initial step reports the flags
    of the store as they are when the call starts. *)
Lemma regular_call_flags w page a :
  Forall (carries_flags (skuHijoFileLoaded a) (skuPadreFileLoaded a))
    (requests_of (snd (fst (handleApplyFilters w page false a)))).
Proof.
  unfold handleApplyFilters.
  destruct (currentBlobDisplayName a) as [name|]; [|constructor].
  destruct (negb (JsString.truthy name)); [constructor|].
  destruct (dataSourceCache a !! name) as [entry|]; [|constructor].
  set (a2 := with_page page a).
  destruct (validateBatchFilters (inputs a2)) as [|[] bt bv tb].
  - constructor.
  - pose proof (handleBatchProcessing_events (batch_world w) a2 bt bv tb) as Hev.
    destruct (handleBatchProcessing (batch_world w) a2 bt bv tb) as [[a3 evs] c].
    cbn [fst snd app] in *. rewrite Hev.
    destruct (getFilterPayload a2) as [base|e] eqn:Hbase.
    2:{ rewrite (batch_loop_no_payload _ _ _ e) by exact Hbase. constructor. }
    eapply Forall_impl; [apply batch_loop_requests; exact Hbase|].
    intros r (b & _ & Hr).
    destruct (getFilterPayload_flags a2 base Hbase) as [Hh Hp].
    destruct (batch_payload_flags bt b base) as [Hbh Hbp].
    destruct Hr as [->| ->]; cbn [carries_flags]; rewrite Hbh, Hbp, Hh, Hp;
      split; reflexivity.
  - destruct (getFilterPayload a2) as [payload|e] eqn:Hpay; [|constructor].
    destruct (getFilterPayload_flags a2 payload Hpay) as [Hh Hp].
    assert (Hw : carries_flags (skuHijoFileLoaded a) (skuPadreFileLoaded a)
                   (PostFilter payload)).
    { cbn [carries_flags]. rewrite Hh, Hp. split; reflexivity. }
    destruct (query_answer w) as [status result|msg];
      [destruct (negb (FetchRetry.response_ok status))|];
      cbn [fst snd]; rewrite ?requests_of_app, ?requests_of_modals;
      cbn [requests_of omap list_omap app]; rewrite ?app_nil_r;
      repeat first [exact Hw | apply Forall_nil_2 | apply Forall_cons_2].
    all: fold (requests_of (not_found_modals result));
      rewrite requests_of_modals; constructor.
Qed.

Lemma call_flags w page isInitialLoad a :
  Forall (carries_flags (skuHijoFileLoaded a) (skuPadreFileLoaded a))
    (requests_of (snd (fst (handleApplyFilters w page isInitialLoad a)))).
Proof.
  destruct isInitialLoad; [|apply regular_call_flags].
  destruct (currentBlobDisplayName a) as [name|] eqn:Hname.
  2:{ unfold handleApplyFilters. rewrite Hname. constructor. }
  destruct (JsString.truthy name) eqn:Htruthy.
  2:{ unfold handleApplyFilters. rewrite Hname, Htruthy. constructor. }
  destruct (dataSourceCache a !! name) as [entry|] eqn:Hentry.
  2:{ unfold handleApplyFilters. rewrite Hname, Htruthy, Hentry. constructor. }
  rewrite (handleApplyFilters_initial w page a name entry Hname Htruthy Hentry).
  pose proof (regular_call_flags w page
                (initial_controls w entry a))
    as Hreg.
  destruct (handleApplyFilters w page false _) as [[a' evs] c].
  cbn [fst snd with_inputs skuHijoFileLoaded skuPadreFileLoaded] in *.
  change (requests_of (EvRequest (GetFilterVisibility name) :: evs))
    with (GetFilterVisibility name :: requests_of evs).
  apply Forall_cons_2; [exact I|exact Hreg].
Qed.

(** X27: the outcome of an upload reaches the queries.  When the
    backend accepts the file, the flag of its kind becomes whether the
    answer counts at least one identifier, and every filter and export
    request of the query that [handleFileUpload] then runs reports that
    value; the flag of the other kind is reported as it was.  A ticket
    file changes neither flag. *)
Theorem upload_outcome_reaches_queries kind status result w a :
  FetchRetry.response_ok status = true ->
  let run := handleFileUpload true (UploadAnswered status (inr result)) kind w a in
  let loaded := (0 <? default 0 (sku_count result))%Z in
  let hijo := match kind with SkuHijoFile => loaded | _ => skuHijoFileLoaded a end in
  let padre := match kind with SkuPadreFile => loaded | _ => skuPadreFileLoaded a end in
  Forall (carries_flags hijo padre) (requests_of (upload_events run))
  /\ upload_status run = StatusMessage (message result).
Proof.
  intros Hok. cbn zeta. unfold handleFileUpload. cbn [negb]. rewrite Hok. cbn [negb].
  set (a1 := set_file_loaded kind _ a).
  pose proof (regular_call_flags w 1 a1) as Hflags.
  destruct (handleApplyFilters w 1 false a1) as [[a2 evs] c].
  cbn [fst snd upload_events upload_status] in *. split; [|reflexivity].
  destruct kind; exact Hflags.
Qed.

(** X28: clearing a file always unsets its flag.  Whether or not the
    backend could be told, after [handleFileClear] every filter and
    export request of a later query reports the flag of the kind
    cleared as [false], and the flag of the other kind as it was. *)
Theorem cleared_file_is_not_reported kind reached w page isInitialLoad a :
  let a' := fst (fst (handleFileClear kind reached a)) in
  let hijo := match kind with SkuHijoFile => false | _ => skuHijoFileLoaded a end in
  let padre := match kind with SkuPadreFile => false | _ => skuPadreFileLoaded a end in
  Forall (carries_flags hijo padre)
    (requests_of (snd (fst (handleApplyFilters w page isInitialLoad a')))).
Proof.
  cbn zeta. pose proof (call_flags w page isInitialLoad
                          (fst (fst (handleFileClear kind reached a)))) as H.
  destruct kind; exact H.
Qed.

End UploadFacts.

Lemma upload_outcome_reaches_queries_witness :
  Forall (Uploads.carries_flags true false)
    (Filters.requests_of
       (Uploads.upload_events
          (Uploads.handleFileUpload true Uploads.accepted_upload Uploads.SkuHijoFile
             Filters.scenario_world (Filters.sample_app Filters.blank_inputs))))
  /\ Uploads.upload_status
       (Uploads.handleFileUpload true Uploads.accepted_upload Uploads.SkuHijoFile
          Filters.scenario_world (Filters.sample_app Filters.blank_inputs))
     = Uploads.StatusMessage (Some "12 SKUs cargados").
Proof.
  exact (upload_outcome_reaches_queries Uploads.SkuHijoFile 200
           {| Uploads.sku_count := Some 12%Z;
              Uploads.message := Some "12 SKUs cargados" |}
           Filters.scenario_world (Filters.sample_app Filters.blank_inputs) eq_refl).
Defined.

(** ** Favourites saved and loaded back *)

Section FavoriteFacts.
Import JsText LazyTable Filters Favorites.
Variable toLowerCase : string -> string.

Lemma collect_step_other (sels : list (string * list string)) :
  forall (acc : gmap string (list string)) col,
  col ∉ List.map fst sels ->
  foldl (fun acc '(colName, selectedOptions) =>
           if 0 <? length selectedOptions
           then <[colName := selectedOptions]> acc else acc) acc sels !! col
  = acc !! col.
Proof.
  induction sels as [|[c so] sels IH]; intros acc col Hnot; cbn [foldl]; [reflexivity|].
  cbn [List.map fst] in Hnot. apply not_elem_of_cons in Hnot as [Hne Hnot].
  rewrite IH by exact Hnot.
  destruct (0 <? length so); [|reflexivity].
  apply lookup_insert_ne. congruence.
Qed.

Lemma collect_step_lookup (sels : list (string * list string)) :
  forall (acc : gmap string (list string)) col so,
  NoDup (List.map fst sels) ->
  (col, so) ∈ sels ->
  acc !! col = None ->
  default [] (foldl (fun acc '(colName, selectedOptions) =>
                       if 0 <? length selectedOptions
                       then <[colName := selectedOptions]> acc else acc) acc sels !! col)
  = so.
Proof.
  induction sels as [|[c so'] sels IH]; intros acc col so Hnd Hin Hacc.
  - inversion Hin.
  - cbn [List.map fst] in Hnd. apply NoDup_cons in Hnd as [Hnot Hnd].
    cbn [foldl]. apply elem_of_cons in Hin as [[= <- <-]|Hin].
    + rewrite collect_step_other by exact Hnot.
      destruct (Nat.ltb_spec 0 (length so)) as [Hlen|Hlen].
      * rewrite lookup_insert_eq. reflexivity.
      * rewrite Hacc. destruct so; [reflexivity|cbn in Hlen; lia].
    + apply IH; [exact Hnd|exact Hin|].
      destruct (0 <? length so'); [|exact Hacc].
      rewrite lookup_insert_ne; [exact Hacc|].
      intros ->. apply Hnot.
      change col with (fst (col, so)). apply (list_elem_of_fmap_2 fst). exact Hin.
Qed.

Lemma collect_selects_lookup (sels : list (string * list string)) col so :
  NoDup (List.map fst sels) ->
  (col, so) ∈ sels ->
  default [] (collect_selects sels !! col) = so.
Proof.
  intros Hnd Hin. apply collect_step_lookup; [exact Hnd|exact Hin|apply lookup_empty].
Qed.

Lemma map_fixed_points {X : Type} (f : X -> X) (l : list X) :
  Forall (fun x => f x = x) l -> List.map f l = l.
Proof.
  induction 1 as [|x l Hx _ IH]; [reflexivity|]. cbn [List.map]. rewrite Hx, IH.
  reflexivity.
Qed.

Lemma NoDup_map_same {X K : Type} (f : X -> K) (l : list X) x y :
  NoDup (List.map f l) -> x ∈ l -> y ∈ l -> f x = f y -> x = y.
Proof.
  induction l as [|z l IH]; intros Hnd Hx Hy Hf; [inversion Hx|].
  cbn [List.map] in Hnd. apply NoDup_cons in Hnd as [Hnot Hnd].
  apply elem_of_cons in Hx as [->|Hx]; apply elem_of_cons in Hy as [->|Hy].
  - reflexivity.
  - exfalso. apply Hnot. rewrite Hf. apply (list_elem_of_fmap_2 f). exact Hy.
  - exfalso. apply Hnot. rewrite <- Hf. apply (list_elem_of_fmap_2 f). exact Hx.
  - apply IH; assumption.
Qed.

(** With values without repetition, an option is selected exactly when
    its value is among the selected values. *)
Lemma reselect_options (opts : list (string * bool)) :
  NoDup (List.map fst opts) ->
  forall sel : list string, (forall v, v ∈ sel <-> (v, true) ∈ opts) ->
  List.map (fun o => (fst o, bool_decide (fst o ∈ sel))) opts = opts.
Proof.
  intros Hnd sel Hsel. apply map_fixed_points.
  { apply Forall_forall. intros [v b] Hin. cbn [fst]. f_equal.
    destruct b.
    - apply bool_decide_eq_true_2. apply Hsel. exact Hin.
    - apply bool_decide_eq_false_2. intros Hv. apply Hsel in Hv.
      pose proof (NoDup_map_same fst opts (v, false) (v, true) Hnd Hin Hv eq_refl).
      discriminate. }
Qed.

Lemma selected_values_spec s v :
  v ∈ selected_values s <-> (v, true) ∈ select_options s.
Proof.
  unfold selected_values. induction (select_options s) as [|[v' b] opts IH].
  - cbn. split; intros H; inversion H.
  - cbn [List.filter snd]. destruct b; cbn [List.map fst]; rewrite ?elem_of_cons, IH.
    + split; intros [H|H]; auto; left; congruence.
    + split; [auto|]. intros [[= ]|H]. exact H.
Qed.

Lemma checked_values_spec cbs v :
  v ∈ checked_values cbs <-> {| cb_value := v; cb_checked := true |} ∈ cbs.
Proof.
  unfold checked_values. induction cbs as [|[v' b] cbs IH].
  - cbn. split; intros H; inversion H.
  - cbn [List.filter cb_checked]. destruct b; cbn [List.map cb_value];
      rewrite ?elem_of_cons, IH.
    + split; intros [H|H]; auto; left; congruence.
    + split; [auto|]. intros [[= ]|H]. exact H.
Qed.

Lemma recheck_boxes (cbs : list Checkbox) :
  NoDup (List.map cb_value cbs) ->
  forall sel : list string,
  (forall v, v ∈ sel <-> {| cb_value := v; cb_checked := true |} ∈ cbs) ->
  List.map (fun cb => {| cb_value := cb_value cb;
                         cb_checked := bool_decide (cb_value cb ∈ sel) |}) cbs = cbs.
Proof.
  intros Hnd sel Hsel. apply map_fixed_points.
  { apply Forall_forall. intros [v b] Hin. cbn [cb_value]. f_equal.
    destruct b.
    - apply bool_decide_eq_true_2. apply Hsel. exact Hin.
    - apply bool_decide_eq_false_2. intros Hv. apply Hsel in Hv.
      pose proof (NoDup_map_same cb_value cbs {| cb_value := v; cb_checked := false |}
                    {| cb_value := v; cb_checked := true |} Hnd Hin Hv eq_refl).
      discriminate. }
Qed.

(** X29: a favourite saved and loaded back leaves the controls as they
    are.  On controls built from names without repetition, with the
    names of the columns in lower case, when [saveFavoriteHandler]
    hands a state to the manager, applying that state through
    [loadFavoriteHandler] selects the same options, checks the same
    columns and keeps the checkbox that extends the search. *)
Theorem favorite_round_trip p a answer name state saved :
  well_built p ->
  Forall (fun cb => toLowerCase (cb_value cb) = cb_value cb) (columnCheckboxes p) ->
  saveFavoriteHandler answer (shown p a) = SaveSent name state saved ->
  loadFavoriteHandler toLowerCase (Some name) (LoadAnswered (Some (read_back state))) p
  = (p, NoticeLoaded name).
Proof.
  intros (Hcols & Hopts & Hboxes & Hsync) Hlower Hsave.
  unfold saveFavoriteHandler in Hsave.
  cbn [shown currentBlobDisplayName] in Hsave.
  destruct (currentBlobDisplayName a) as [n|]; [|discriminate].
  destruct (JsString.truthy n) eqn:Htruthy; cbn [negb] in Hsave; [|discriminate].
  destruct (getFilterPayload _) as [payload|e] eqn:Hpay; [|discriminate].
  injection Hsave as <- <- _.
  unfold loadFavoriteHandler. rewrite Htruthy. cbn [negb]. f_equal.
  assert (Hvf : value_filters payload
                = collect_selects
                    (List.map (fun s => (select_column s, selected_values s)) (selects p))).
  { revert Hpay. unfold getFilterPayload.
    destruct (collect_custom _ _) as [custom|e]; cbn [mbind Try_bind bind]; [|discriminate].
    destruct (getListFromInput (skuHijoInput _) _) as [hl|e];
      cbn [mbind Try_bind bind]; [|discriminate].
    destruct (getListFromInput (skuPadreInput _) _) as [pl|e];
      cbn [mbind Try_bind bind]; [|discriminate].
    destruct (getListFromInput (ticketFilterInput _) _) as [tl|e];
      cbn [mbind Try_bind bind]; [|discriminate].
    destruct (getListFromInput (lineamientoFilterInput _) _) as [ll|e];
      cbn [mbind Try_bind bind]; [|discriminate].
    intros [= <-]. reflexivity. }
  unfold apply_favorite, read_back.
  cbn [fav_value_filters fav_selected_columns fav_extend_sku_search default
       state_value_filters state_selected_columns state_extend_sku_search
       shown currentSelectedDisplayColumns inputs extendSkuHijoCheckbox id].
  rewrite Hvf.
  assert (Hsel : List.map (fun s =>
            {| select_column := select_column s;
               select_options :=
                 List.map (fun o =>
                   (fst o,
                    bool_decide
                      (fst o ∈ default []
                         (collect_selects
                            (List.map (fun s => (select_column s, selected_values s))
                               (selects p)) !! select_column s))))
                   (select_options s) |}) (selects p) = selects p).
  { assert (Hmap : List.map fst
                     (List.map (fun s => (select_column s, selected_values s)) (selects p))
                   = List.map select_column (selects p)).
    { rewrite List.map_map. reflexivity. }
    apply map_fixed_points.
    { apply Forall_forall. intros s Hin.
      rewrite (collect_selects_lookup _ (select_column s) (selected_values s)).
      - rewrite reselect_options.
        + destruct s; reflexivity.
        + exact (proj1 (Forall_forall _ _) Hopts s Hin).
        + intros v. apply selected_values_spec.
      - rewrite Hmap. exact Hcols.
      - apply (list_elem_of_fmap_2 (fun s => (select_column s, selected_values s))).
        exact Hin. } }
  rewrite Hsel.
  assert (Hsaved : List.map toLowerCase (selectedDisplayColumns p)
                   = checked_values (columnCheckboxes p)).
  { rewrite Hsync. apply map_fixed_points. unfold checked_values.
    clear -Hlower. induction Hlower as [|[v b] l Hv _ IH]; [constructor|].
    cbn [List.filter cb_checked]. destruct b; cbn [List.map]; [constructor|]; auto. }
  rewrite Hsaved.
  assert (Hcb : List.map (fun cb =>
            {| cb_value := cb_value cb;
               cb_checked :=
                 bool_decide (cb_value cb ∈ checked_values (columnCheckboxes p)) |})
            (columnCheckboxes p) = columnCheckboxes p).
  { apply recheck_boxes; [exact Hboxes|]. intros v. apply checked_values_spec. }
  destruct (0 <? length (checked_values (columnCheckboxes p))).
  - rewrite Hcb, <- Hsync. destruct p; reflexivity.
  - destruct p; reflexivity.
Qed.

End FavoriteFacts.

Lemma favorite_round_trip_witness :
  match Favorites.saveFavoriteHandler Favorites.SaveAccepted
          (Favorites.shown Favorites.sample_panel
             (Filters.sample_app Filters.blank_inputs)) with
  | Favorites.SaveSent name state _ =>
      Favorites.loadFavoriteHandler DataLoad.to_lower (Some name)
        (Favorites.LoadAnswered (Some (Favorites.read_back state)))
        Favorites.sample_panel
      = (Favorites.sample_panel, Favorites.NoticeLoaded name)
  | _ => False
  end.
Proof.
  destruct (Favorites.saveFavoriteHandler Favorites.SaveAccepted
              (Favorites.shown Favorites.sample_panel
                 (Filters.sample_app Filters.blank_inputs)))
    as [|f|name state saved] eqn:Hsave.
  - vm_compute in Hsave. discriminate Hsave.
  - vm_compute in Hsave. discriminate Hsave.
  - apply (favorite_round_trip DataLoad.to_lower Favorites.sample_panel
             (Filters.sample_app Filters.blank_inputs) Favorites.SaveAccepted
             name state saved).
    + unfold Favorites.well_built.
      split_and!; [refine (bool_decide_unpack _ _); vm_compute; exact I..|reflexivity].
    + refine (bool_decide_unpack _ _). vm_compute. exact I.
    + exact Hsave.
Defined.

(** ** The dialog of the columns to load *)

Section ColumnSelectorFacts.
Import ColumnSelector.

Lemma set_checked_frame checked boxes :
  box_frame (set_checked checked boxes) = box_frame boxes.
Proof.
  unfold box_frame, set_checked. rewrite List.map_map. reflexivity.
Qed.

Lemma click_box_frame boxes : forall i, box_frame (click_box i boxes) = box_frame boxes.
Proof.
  induction boxes as [|cb rest IH]; intros [|i]; cbn [click_box]; try reflexivity.
  unfold box_frame in *. cbn [List.map]. rewrite IH. reflexivity.
Qed.

Lemma box_step_frame boxes op : box_frame (box_step boxes op) = box_frame boxes.
Proof.
  destruct op; cbn [box_step]; try apply set_checked_frame. apply click_box_frame.
Qed.

Lemma foldl_box_step_frame ops : forall boxes,
  box_frame (foldl box_step boxes ops) = box_frame boxes.
Proof.
  induction ops as [|op ops IH]; intros boxes; cbn [foldl]; [reflexivity|].
  rewrite IH. apply box_step_frame.
Qed.

(** The columns checked after [restoreDefaultColumns] are those whose
    checkbox has the attribute. *)
Lemma restored_selection boxes :
  List.map box_value (List.filter box_checked (restoreDefaultColumns boxes))
  = List.map fst (List.filter snd (box_frame boxes)).
Proof.
  unfold restoreDefaultColumns, set_checked, box_frame.
  induction boxes as [|cb rest IH]; [reflexivity|].
  cbn [List.map List.filter box_checked snd]. destruct (box_essential cb);
    cbn [List.map box_value fst]; rewrite IH; reflexivity.
Qed.

Lemma populate_frame_selection data :
  List.map fst (List.filter snd (box_frame (populateColumnSelector data)))
  = default [] (essential_columns data).
Proof.
  unfold populateColumnSelector, box_frame.
  rewrite List.map_app, List.filter_app, List.map_app, !List.map_map.
  cbn [box_value box_essential].
  set (ess := default [] (essential_columns data)).
  set (add := List.filter _ (default [] (available_columns data))).
  assert (Hess : List.map fst (List.filter snd (List.map (fun x : string => (x, true)) ess))
                 = ess).
  { induction ess as [|c l IH]; [reflexivity|]. cbn. rewrite IH. reflexivity. }
  assert (Hadd : List.filter snd (List.map (fun x : string => (x, false)) add) = []).
  { induction add as [|c l IH]; [reflexivity|]. cbn. exact IH. }
  rewrite Hess, Hadd. apply app_nil_r.
Qed.

(** X30: restoring the default keeps the essential columns only.
    Whatever the user did in the dialog before, after
    [restoreDefaultColumns] the columns confirmed are the essential
    columns of the answer, in its order; the columns the answer
    selects by default are not among them unless they are essential.
    When the answer names no essential column, confirming shows the
    alert and loads nothing. *)
Theorem restore_default_keeps_essential_only data ops :
  let boxes :=
    restoreDefaultColumns (foldl box_step (populateColumnSelector data) ops) in
  confirm_selection boxes
  = match default [] (essential_columns data) with
    | [] => ConfirmAlert
    | cols => ConfirmLoad cols
    end
  /\ selected_count boxes = length (default [] (essential_columns data)).
Proof.
  cbn zeta.
  assert (Hsel : List.map box_value
                   (List.filter box_checked
                      (restoreDefaultColumns
                         (foldl box_step (populateColumnSelector data) ops)))
                 = default [] (essential_columns data)).
  { rewrite restored_selection, foldl_box_step_frame. apply populate_frame_selection. }
  split.
  - unfold confirm_selection. rewrite Hsel.
    destruct (default [] (essential_columns data)); reflexivity.
  - unfold selected_count. rewrite <- Hsel, List.length_map. reflexivity.
Qed.

End ColumnSelectorFacts.
